(* ===== verification/_CoqProject ===== *)
-Q . S2P
Prelude.v
GoStd.v
Sha256.v
GoNet.v
GoTime.v
GoFloat.v
GoJson.v
GoJsonFacts.v
GoFlag.v
GoIP.v
GoError.v
Kube.v
KubeRef.v
Api.v
Io.v
Names.v
SlugPolicy.v
PolicyFile.v
Model.v
Auth.v
TokenRequest.v
TokenRequestFacts.v
TokenRequestSafety.v
TokenRequestFlow.v
SlugRoute.v
Workload.v
WorkloadFacts.v
Routing.v
Cluster.v
ClusterRef.v
RoutingSafety.v
HostedSafety.v
SlugRouteFacts.v
Runtime.v
RuntimeFacts.v
ClusterLabels.v
Listener.v
ListenerFacts.v
Config.v
ConfigFacts.v
ByocTransport.v
ByocTLS.v
Byoc.v
Assured.v
Instance.v
ByocNetFacts.v
ByocFacts.v
ByocWrites.v
ByocSafety.v
ByocCleanup.v
InstanceSafety.v
ByocSteady.v
ByocRef.v
StatusTyped.v
EndToEnd.v
HostedSteady.v
HostedProgress.v
TokenProgress.v
Revocation.v
Watches.v
