(* ===== verification/Prelude.v ===== *)
(** * Verification of the private-llm operator

    The operator runs inference servers for [LLMInstance] objects, either in its own
    cluster behind an Ingress or on a bring-your-own (BYOC) cluster behind TLS, and gives
    out API keys for [APITokenRequest] objects.  This library models its Go code
    (src/cmd, src/api, src/internal) and proves what makes it correct.

    ** The program

    - internal/slugpolicy/policy.go: the operator-owned policy that names instances.
    - internal/auth/server.go: the forwardAuth server that Traefik asks about every
      request to a hosted instance.
    - internal/controller/tokenrequest_controller.go: keys for token requests.
    - internal/controller/slug_policy.go, model_server_ceilings.go: the slug of an
      instance, ownership of its route, and the provider's limits.
    - internal/controller/llminstance_controller.go: the reconcile of an instance and its
      hosted part (Deployment, Service, middlewares, Ingress, readiness, finalizer).
    - internal/controller/llminstance_byoc.go, _byoc_transport.go, _byoc_tls.go: the
      bring-your-own part (credentials, remote objects, certificates, DNS, cleanup).
    - cmd/main.go: flags, environment and policy file, the labelling client all writes
      pass through, and [runOperator], which ties the life of manager and server together.

    The parts interact through the objects of the API servers: the instance controller
    writes the verification URL the server parses, the token controller writes the
    Secrets the server (hosted) or the remote key file (BYOC) accepts, and both
    controllers follow the slug the policy selects.

    ** Files and sources

    Foundations: [Prelude] (automation, strings, in-place updates that report changes),
    [GoStd], [GoNet], [GoIP], [GoError], [GoTime] (RFC 3339), [GoJson] with [GoFloat]
    (encoding/json, number texts included; its round trips are in [GoJsonFacts]),
    [GoFlag], [Sha256] (what the code uses of Go's library, executable), [Kube] (fields of
    Kubernetes objects; class [KubeLib] for the helper functions of apimachinery and
    controller-runtime, class [KubeLaws] for the documented behaviour the proofs use),
    [KubeRef] (a reference instance of both), [Api] (api/v1alpha1), [Names] (constants of
    package controller), [Io] (effects).

    Components, each followed by the files of its theorems:
    - [SlugPolicy] (policy.go): [PolicyFile] (policy files are read as written); [Model]
      (model selection and model_server_ceilings.go);
    - [Auth] (server.go);
    - [TokenRequest] (tokenrequest_controller.go): [TokenRequestFacts],
      [TokenRequestSafety], [TokenRequestFlow];
    - [SlugRoute] (slug_policy.go, status writes): [SlugRouteFacts]; [Workload] and
      [Routing] (hosted part of llminstance_controller.go): [WorkloadFacts],
      [RoutingSafety], [HostedSafety], [HostedSteady] (publication);
    - [Runtime] (main.go, labels and [runOperator]): [RuntimeFacts]; [Listener] ([Start] of
      server.go, alone and under [runOperator]): [ListenerFacts]; [Config] ([main] up to
      [runOperator]): [ConfigFacts];
    - [ByocTransport], [ByocTLS], [Byoc] (the three BYOC files): [ByocNetFacts] (what may
      be reached), [ByocFacts] (what remote objects are brought to), [ByocWrites] (rules of
      each part's writes), [ByocSafety] (the reconcile), [ByocCleanup] (leaving a target),
      [ByocSteady] (publication), [ByocRef] (a concrete cluster and the witnesses),
      [Assured] (rules for handlers that thread an instance);
    - [Instance] ([Reconcile] and finalization): [InstanceSafety]; [StatusTyped] (the schema
      of the statuses, over all handlers of the operator running concurrently); [Watches]
      (both [SetupWithManager] and which changes they notice);
    - [EndToEnd]: theorems across components, and witnesses of the hosted side;
    - [Cluster] (class [ApiServer]: an API server that stores what it accepts; [ClusterRef]
      is an executable one; [ClusterLabels]: it stays one behind the labelling client):
      [HostedProgress] (a hosted instance comes up),
      [TokenProgress] (its keys are issued and granted), [Revocation] (deleted requests
      and instances).

    ** How the code is modelled

    A handler is a value of type [io] (file [Io]): the tree of the calls it makes to API
    servers, clock, random source and network, branching on the answers; [fio] adds Go's
    early return on errors, [sio] ([Byoc]) threads an instance that status writes
    overwrite.  Operations carry the names of the source; closures and inlined blocks
    have descriptive names of their own.  Objects are records with the fields the source
    touches, maps are [gmap]s, integers that can overflow are bounded where that matters,
    strings are byte strings.

    [safe M s m Q] says that against every answer each call of [m] is allowed by the
    monitor [M] and the result satisfies [Q]; the monitor [recording P] remembers every
    call with its answer, so that [P] demands evidence for each write among what was read
    before it.  Nothing is assumed of answers: the theorems hold for stale caches,
    concurrent writers, failures and replaced clusters.  [run_oracle] and [calls] run a
    handler against fixed answers, for functional and steady-state theorems.
    [assured R P m Q] is for properties that rely on the answers: while they are as [R]
    says, the calls are as [P] says; [pool_step] interleaves any number of handlers call by
    call against one environment, and what each assures holds of all ([pool_invariant]).
    [total E s m Q] runs a handler from a state of the environment [E]; for an [ApiServer]
    the states hold the objects, a write changes nothing but its object, an update must
    carry the stored version, and the last finalizer of an object under deletion takes the
    object with it.  Progress is proved over rounds: between two reconciles the
    rest of the cluster does what it likes ([drift], [calm]), but leaves the objects of the
    instance their content, adds no Ingress that competes for its path, and, for a key,
    keeps the instance published.

    Recursion over fuel: the token scan of the JSON checker takes twice the number of
    tokens, which [rejectDuplicateKeys_spec] shows to be enough; trimming, replacing and
    the blocks of SHA-256 take the length of the string, of which every step consumes at
    least one byte; printing a float searches the shortest of at most 17 digits, which every
    float64 has; the finalizer loops take the three tries of the source.  The JSON scanner
    is structural on the text.

    ** What the theorems show

    - Keys: a request is granted only, and with answered lookups exactly, on a complete
      chain of live evidence, and one key opens one route (Auth); every write of the
      token controller has its evidence,
      keys are bound to instance UID and target, published Secrets are granted (Token*,
      EndToEnd); the remote key file holds exactly the admitted keys (ByocFacts).
    - Names and routes: slugs of different instances never overlap, unreviewed instances
      are never named, routes are free, secured and disjoint (SlugPolicy, Routing*,
      EndToEnd).
    - Reconcile: every write follows from what was read before it, for the hosted part,
      the BYOC part, cleanup, a changed target (withdrawn, cleaned, forgotten, in this
      order, and only when it was seen to have changed) and the whole of [Reconcile]
      ([hosted_writes], [reconcileBYOC_writes], [cleanupBYOC_complete],
      [target_change_safe], [Reconcile_writes]); a failure withdraws the endpoint; a
      settled instance is published with one write ([byoc_published], [hosted_published]);
      an Ingress settles in one update unless extra annotations are configured
      ([ensureIngress_updates]).
    - Progress: from any state in which the names are free or the instance's own, four
      reconciles bring a hosted instance up, and the next publishes it when the model
      server answers ([hosted_comes_up]); two reconciles of a request for a published
      instance issue a key that stays, and its calls are granted ([new_key_granted]); once
      the request or the instance is deleted they are refused, and one reconcile deletes
      the Secrets of the request and lets the object go ([key_revoked],
      [instance_retired]).
    - Statuses: whatever interleaves, stored instances and token requests keep to their
      schema and their phase agrees with the Ready condition ([stored_objects_typed]).
    - Watches: a change of a BYOC instance, of an object it owns or of a Secret its
      reconcile reads enqueues it at once; the token requests, Certificates and DNS entries
      it reads besides are not watched and, like the remote cluster, looked at again within
      half a minute or after the retry of a failure ([watches_complete]).
    - Reach: accepted kubeconfigs, target identities, host names, DNS targets and TLS
      material are exactly the intended ones (ByocNetFacts).
    - Runtime: no error of the two services is lost and neither outlives the other; the
      labelling client adds labels and nothing else (RuntimeFacts) and leaves a working API
      server a working one ([labelled_operator]), so that progress and deletion hold of the
      operator as it is set up; the server returns once its context is cancelled, after a
      shutdown without a listener or a connection ([Start_honours_context]; after a failed
      accept connections stay, [accept_failure_abandons]), and the process refines the
      runtime (ListenerFacts).
    - Configuration: an operator that starts follows the one policy of its file in every
      part (ConfigFacts); policy files and annotations in JSON are read exactly as written
      (PolicyFile, ConfigFacts).

    ** Parameters

    [KubeLib] and [KubeLaws] (apimachinery, controller-runtime), [ClientLib] (client-go's
    kubeconfig loading, its HTTP clients and client construction), [X509Lib] (crypto/x509
    and crypto/tls) and [ForeignFlags] (flags other packages register) stand for code
    outside the repository.  Their reference instances make the witnesses concrete.  SHA-256 is defined
    in full; theorems that rest on it name the collision that would break them.

    ** Not modelled

    Logging and tracing; the inside of the manager (creating it and registering
    reconcilers and checks may fail, which ends the start) and its work queues; the HTTP
    exchanges of the health checks (events; what the checks make of the responses is
    modelled); generated deep copies;
    the test programs under src/test; charts and manifests.  Contexts and deadlines of
    API calls appear as failed calls; socket deadlines of the listener are left out.

    ** Left open

    Progress of the BYOC part is proved from a settled remote cluster ([byoc_published]),
    not from an empty one: it depends on the certificate issuer and the DNS operator, which
    are not part of the repository.  Refusal of the keys of a left target by its remote
    server is the model server's own doing. *)

From stdpp Require Export base gmap strings list pretty.
From coqutil Require Export Datatypes.RecordSetters.
Export TriangleBracketNotations.

#[global] Open Scope string_scope.
#[global] Open Scope list_scope.

(** Source strings are byte strings; [chr n] is the one-byte string of code [n]. *)
Definition chr (n : nat) : string := String (Ascii.ascii_of_nat n) EmptyString.

(** The double-quote character, which a string literal cannot contain here. *)
Definition dquote : string := chr 34.

(** Boolean connectives stay folded under [cbn] until their first argument is known. *)
#[global] Arguments andb !_ _ / : simpl nomatch.
#[global] Arguments orb !_ _ / : simpl nomatch.
#[global] Arguments negb !_ / : simpl nomatch.

Create HintDb go.
Create Rewrite HintDb go.

(** ** Automation shared by every file *)

(** Split the innermost [match]/[if] of the goal or of a hypothesis, keeping its equation. *)
Ltac split_match :=
  match goal with
  | |- context [match ?x with _ => _ end] =>
      lazymatch x with context [match _ with _ => _ end] => fail | _ => destruct x eqn:? end
  end.

Ltac split_match_in H :=
  match type of H with
  | context [match ?x with _ => _ end] =>
      lazymatch x with context [match _ with _ => _ end] => fail | _ => destruct x eqn:? end
  end.

(** Turn the boolean tests of the code into propositions. *)
Ltac bool_props :=
  repeat match goal with
  | H : _ && _ = true |- _ => apply andb_true_iff in H; destruct H
  | H : _ || _ = false |- _ => apply orb_false_iff in H; destruct H
  | H : negb _ = true |- _ => apply negb_true_iff in H
  | H : negb _ = false |- _ => apply negb_false_iff in H
  | H : bool_decide _ = true |- _ => apply bool_decide_eq_true in H
  | H : bool_decide _ = false |- _ => apply bool_decide_eq_false in H
  | H : (_ =? _)%Z = true |- _ => apply Z.eqb_eq in H
  | H : (_ =? _)%Z = false |- _ => apply Z.eqb_neq in H
  | H : (_ <? _)%Z = true |- _ => apply Z.ltb_lt in H
  | H : (_ <? _)%Z = false |- _ => apply Z.ltb_ge in H
  | H : (_ <=? _)%Z = true |- _ => apply Z.leb_le in H
  | H : (_ <=? _)%Z = false |- _ => apply Z.leb_gt in H
  end.

(** ** String lemmas *)

Lemma string_app_cons c (s t : string) : String c s +:+ t = String c (s +:+ t).
Proof. reflexivity. Qed.

Lemma string_app_nil_l (s : string) : "" +:+ s = s.
Proof. reflexivity. Qed.

#[export] Hint Rewrite string_app_cons string_app_nil_l : go.

Lemma string_app_nil_r (s : string) : s +:+ "" = s.
Proof. induction s as [|c s IH]; [done |]. by rewrite string_app_cons, IH. Qed.

Lemma string_app_assoc (a b c : string) : a +:+ (b +:+ c) = (a +:+ b) +:+ c.
Proof. induction a as [|x a IH]; [done |]. by rewrite !string_app_cons, IH. Qed.

Lemma string_app_inj_l (p a b : string) : p +:+ a = p +:+ b -> a = b.
Proof. induction p as [|c p IH]; [done |]. rewrite !string_app_cons. intros [= H]. auto. Qed.

Lemma string_length_app (a b : string) :
  String.length (a +:+ b) = String.length a + String.length b.
Proof. induction a as [|c a IH]; [done |]. rewrite string_app_cons. cbn. by rewrite IH. Qed.

Lemma string_app_inj_length (a b c d : string) :
  String.length a = String.length c -> a +:+ b = c +:+ d -> a = c /\ b = d.
Proof.
  revert c; induction a as [|x a IH]; intros [|y c]; cbn; try done.
  rewrite !string_app_cons. intros [= Hl] [= -> H]. destruct (IH c Hl H) as [-> ->]. done.
Qed.

#[export] Hint Rewrite string_app_nil_r string_length_app : go.

(** ** Images of lists extended at the end *)

Lemma exists_snoc {A} (P : A -> Prop) (l : list A) (a : A) :
  (exists e, e ∈ l ++ [a] /\ P e) <-> (exists e, e ∈ l /\ P e) \/ P a.
Proof.
  setoid_rewrite elem_of_app. setoid_rewrite list_elem_of_singleton. split.
  - intros (e & [Hin | ->] & HP); [left; eauto | by right].
  - intros [(e & Hin & HP) | HP]; [exists e | exists a]; tauto.
Qed.

Lemma filter_fmap_all {A B} (P : B -> Prop) `{forall x, Decision (P x)} (f : A -> B) (l : list A) :
  (forall a, P (f a)) -> filter P (f <$> l) = f <$> l.
Proof. intros HP. induction l as [|a l IH]; [done |]. cbn. rewrite decide_True by apply HP. by f_equal. Qed.

(** ** In-place updates that report whether they changed anything *)

Section Updates.
  Context {A : Type}.

(** [if differs a { a = upd a; updated = true }]. *)
Definition set_when (differs : A -> bool) (upd : A -> A) (a : A) : A * bool :=
  if differs a then (upd a, true) else (a, false).

(** The updates one after the other; changed when any of them changed. *)
Fixpoint in_order (fs : list (A -> A * bool)) (a : A) : A * bool :=
  match fs with
  | [] => (a, false)
  | f :: fs' => let '(b, u) := f a in let '(c, v) := in_order fs' b in (c, u || v)
  end.

(** [f] reaches [ok], leaves alone what is [ok], and reports changes truthfully. *)
Definition converges (ok : A -> Prop) (f : A -> A * bool) : Prop :=
  forall a, ok (f a).1 /\ (ok a -> f a = (a, false)) /\ ((f a).2 = false -> (f a).1 = a).

Definition preserves (P : A -> Prop) (f : A -> A * bool) : Prop := forall a, P a -> P (f a).1.

Lemma converges_set_when (ok : A -> Prop) (differs : A -> bool) (upd : A -> A) :
  (forall a, differs a = false <-> ok a) -> (forall a, ok (upd a)) ->
  converges ok (set_when differs upd).
Proof.
  intros Hd Hu a. unfold set_when. destruct (differs a) eqn:E; cbn.
  - split_and!; [apply Hu | | done]. intros Ha%Hd. congruence.
  - split_and!; [by apply Hd | done | done].
Qed.

Lemma preserves_set_when (P : A -> Prop) (differs : A -> bool) (upd : A -> A) :
  (forall a, P a -> P (upd a)) -> preserves P (set_when differs upd).
Proof. intros Hu a Ha. unfold set_when. destruct (differs a); cbn; auto. Qed.

Lemma preserves_in_order (P : A -> Prop) (fs : list (A -> A * bool)) :
  Forall (preserves P) fs -> preserves P (in_order fs).
Proof.
  induction 1 as [|f fs Hf Hfs IH]; intros a Ha; [done |]. cbn.
  specialize (Hf a Ha). destruct (f a) as [b u]. specialize (IH b Hf).
  by destruct (in_order fs b).
Qed.

(** What one update establishes and the later ones keep holds in the end. *)
Lemma in_order_establishes (P : A -> Prop) (fs : list (A -> A * bool)) (f : A -> A * bool)
  (fs' : list (A -> A * bool)) (a : A) :
  (forall a, P (f a).1) -> Forall (preserves P) fs' -> P (in_order (fs ++ f :: fs') a).1.
Proof.
  intros Hf Hfs'. revert a. induction fs as [|g fs IH]; intros a; cbn [app in_order].
  - pose proof (Hf a). destruct (f a) as [b u].
    pose proof (preserves_in_order P fs' Hfs' b ltac:(done)). by destruct (in_order fs' b).
  - destruct (g a) as [b u]. specialize (IH b). by destruct (in_order (fs ++ f :: fs') b).
Qed.

(** One update that always reports a change makes the sequence report one. *)
Lemma in_order_reports (fs : list (A -> A * bool)) (f : A -> A * bool) (fs' : list (A -> A * bool)) (a : A) :
  (forall a, (f a).2 = true) -> (in_order (fs ++ f :: fs') a).2 = true.
Proof.
  intros Hf. revert a. induction fs as [|g fs IH]; intros a; cbn [app in_order].
  - specialize (Hf a). destruct (f a) as [b u]. cbn in Hf. subst. by destruct (in_order fs' b).
  - destruct (g a) as [b u]. specialize (IH b). destruct (in_order (fs ++ f :: fs') b). cbn in *. subst. apply orb_true_r.
Qed.

Lemma converges_nil : converges (fun _ => True) (in_order []).
Proof. by intros a. Qed.

Lemma converges_cons (ok ok' : A -> Prop) (f : A -> A * bool) (fs : list (A -> A * bool)) :
  converges ok f -> converges ok' (in_order fs) -> Forall (preserves ok) fs ->
  converges (fun a => ok a /\ ok' a) (in_order (f :: fs)).
Proof.
  intros Hf Hfs Hp a. cbn. destruct (Hf a) as (F1 & F2 & F3). destruct (f a) as [b u].
  destruct (Hfs b) as (G1 & G2 & G3).
  pose proof (preserves_in_order ok fs Hp b F1) as Hok. destruct (in_order fs b) as [c v] eqn:E.
  cbn in *. split_and!; [done | done | |].
  - intros [Ha Ha']. specialize (F2 Ha). simplify_eq. specialize (G2 Ha'). by simplify_eq.
  - intros [-> ->]%orb_false_iff. rewrite (G3 eq_refl). auto.
Qed.

Lemma converges_iff (ok ok' : A -> Prop) (f : A -> A * bool) :
  (forall a, ok a <-> ok' a) -> converges ok f -> converges ok' f.
Proof. intros E Hf a. destruct (Hf a) as (H1 & H2 & H3). split_and!; [by apply E | intros ?%E; auto | auto]. Qed.

(** Convergence makes the update idempotent and its report exact. *)
Lemma converges_idempotent (ok : A -> Prop) (f : A -> A * bool) (a : A) :
  converges ok f -> f (f a).1 = ((f a).1, false) /\ ((f a).2 = false <-> ok a).
Proof.
  intros Hf. destruct (Hf a) as (H1 & H2 & H3). split; [by apply Hf |].
  split; intros H; [| by rewrite H2]. by rewrite <-(H3 H).
Qed.

End Updates.
