(* ===== verification/GoStd.v ===== *)
(** * The Go standard library functions the source calls

    [strings], [strconv], [encoding/hex], [encoding/base64] and [net/url] on byte
    strings.  [TrimSpace] strips the UTF-8 encodings of Go's [unicode.IsSpace];
    [ToLower] and [EqualFold] are exact whenever one of the compared strings is
    ASCII, as it is at every call site (literals, or host names the API server
    accepts as DNS names only). *)

From Stdlib Require Import Ascii DecimalString DecimalPos DecimalZ.
From S2P Require Import Prelude.

(** ** strings *)

Fixpoint HasPrefix (s p : string) {struct p} : bool :=
  match p, s with
  | EmptyString, _ => true
  | String _ _, EmptyString => false
  | String c p', String d s' => Ascii.eqb c d && HasPrefix s' p'
  end.

Fixpoint str_drop (n : nat) (s : string) : string :=
  match n, s with
  | O, _ => s
  | S _, EmptyString => EmptyString
  | S n', String _ s' => str_drop n' s'
  end.

Fixpoint str_take (n : nat) (s : string) : string :=
  match n, s with
  | O, _ => EmptyString
  | S _, EmptyString => EmptyString
  | S n', String c s' => String c (str_take n' s')
  end.

Fixpoint str_rev_app (s acc : string) : string :=
  match s with
  | EmptyString => acc
  | String c s' => str_rev_app s' (String c acc)
  end.

Definition str_rev (s : string) : string := str_rev_app s EmptyString.

Definition HasSuffix (s p : string) : bool := HasPrefix (str_rev s) (str_rev p).

Definition TrimPrefix (s p : string) : string :=
  if HasPrefix s p then str_drop (String.length p) s else s.

Fixpoint Contains (s sub : string) : bool :=
  HasPrefix s sub ||
  match s with
  | EmptyString => false
  | String _ s' => Contains s' sub
  end.

(** [strings.ContainsAny], [strings.Count] and [strings.TrimRight] at a set of ASCII bytes. *)
Fixpoint str_exists (p : ascii -> bool) (s : string) : bool :=
  match s with
  | EmptyString => false
  | String c s' => p c || str_exists p s'
  end.

Fixpoint str_forall (p : ascii -> bool) (s : string) : bool :=
  match s with
  | EmptyString => true
  | String c s' => p c && str_forall p s'
  end.

Fixpoint CountByte (s : string) (b : ascii) : nat :=
  match s with
  | EmptyString => 0
  | String c s' => (if Ascii.eqb c b then 1 else 0) + CountByte s' b
  end.

Fixpoint TrimRightByte (s : string) (b : ascii) : string :=
  match s with
  | EmptyString => EmptyString
  | String c s' =>
      match TrimRightByte s' b with
      | EmptyString => if Ascii.eqb c b then EmptyString else String c EmptyString
      | t => String c t
      end
  end.

Fixpoint Join (l : list string) (sep : string) : string :=
  match l with
  | [] => ""
  | [x] => x
  | x :: l' => x +:+ sep +:+ Join l' sep
  end.

(** The UTF-8 encodings of the runes [unicode.IsSpace] accepts. *)
Definition space_runes : list string :=
  (chr <$> [9; 10; 11; 12; 13; 32]) ++
  [chr 194 +:+ chr 133; chr 194 +:+ chr 160; chr 225 +:+ chr 154 +:+ chr 128] ++
  ((fun n => chr 226 +:+ chr 128 +:+ chr n) <$>
     [128; 129; 130; 131; 132; 133; 134; 135; 136; 137; 138; 168; 169; 175]) ++
  [chr 226 +:+ chr 129 +:+ chr 159; chr 227 +:+ chr 128 +:+ chr 128].

(** Strip one leading rune of [runes]. *)
Definition strip_rune (runes : list string) (s : string) : option string :=
  match filter (fun r => HasPrefix s r = true) runes with
  | r :: _ => Some (str_drop (String.length r) s)
  | [] => None
  end.

Fixpoint trim_left_runes (fuel : nat) (runes : list string) (s : string) : string :=
  match fuel with
  | O => s
  | S f => match strip_rune runes s with
           | Some s' => trim_left_runes f runes s'
           | None => s
           end
  end.

Definition TrimSpace (s : string) : string :=
  let l := trim_left_runes (String.length s) space_runes s in
  str_rev (trim_left_runes (String.length l) (str_rev <$> space_runes) (str_rev l)).

Definition is_upper (c : ascii) : bool :=
  let n := nat_of_ascii c in (65 <=? n)%nat && (n <=? 90)%nat.
Definition is_lower (c : ascii) : bool :=
  let n := nat_of_ascii c in (97 <=? n)%nat && (n <=? 122)%nat.
Definition is_digit (c : ascii) : bool :=
  let n := nat_of_ascii c in (48 <=? n)%nat && (n <=? 57)%nat.
Definition is_alnum (c : ascii) : bool := is_upper c || is_lower c || is_digit c.

Definition lower_byte (c : ascii) : ascii :=
  if is_upper c then ascii_of_nat (nat_of_ascii c + 32) else c.

(** Replace one byte sequence by another, scanning left to right. *)
Fixpoint replace_seq (fuel : nat) (from to s : string) : string :=
  match fuel with
  | O => s
  | S f =>
      if HasPrefix s from then to +:+ replace_seq f from to (str_drop (String.length from) s)
      else match s with
           | EmptyString => EmptyString
           | String c s' => String c (replace_seq f from to s')
           end
  end.

Fixpoint str_map (f : ascii -> ascii) (s : string) : string :=
  match s with
  | EmptyString => EmptyString
  | String c s' => String (f c) (str_map f s')
  end.

Definition kelvin_sign : string := chr 226 +:+ chr 132 +:+ chr 170.
Definition dotted_capital_i : string := chr 196 +:+ chr 176.
Definition long_s : string := chr 197 +:+ chr 191.

(** Besides the ASCII letters, U+212A lowers to [k] and U+0130 to [i]. *)
Definition ToLower (s : string) : string :=
  let n := String.length s in
  str_map lower_byte (replace_seq n dotted_capital_i "i" (replace_seq n kelvin_sign "k" s)).

(** Simple case folding identifies U+212A with [k] and U+017F with [s]. *)
Definition fold_case (s : string) : string :=
  let n := String.length s in
  str_map lower_byte (replace_seq n long_s "s" (replace_seq n kelvin_sign "k" s)).

Definition EqualFold (s t : string) : bool := bool_decide (fold_case s = fold_case t).

(** ** strconv and fmt *)

Definition Itoa (z : Z) : string := NilZero.string_of_int (Z.to_int z).

Definition int_min : Z := - 2 ^ 63.
Definition int_max : Z := 2 ^ 63 - 1.

(** [strconv.Atoi]: optional sign, decimal digits, 64-bit range. *)
Definition Atoi (s : string) : option Z :=
  let '(neg, digits) :=
    match s with
    | String "-" s' => (true, s')
    | String "+" s' => (false, s')
    | _ => (false, s)
    end in
  match NilZero.uint_of_string digits with
  | None => None
  | Some u =>
      let v := if neg : bool then (- Z.of_uint u)%Z else Z.of_uint u in
      if (int_min <=? v)%Z && (v <=? int_max)%Z then Some v else None
  end.

(** [%q] on the names the code quotes: quotes and backslashes are escaped. *)
Fixpoint escape_quotes (s : string) : string :=
  match s with
  | EmptyString => EmptyString
  | String c s' =>
      (if Ascii.eqb c (ascii_of_nat 34) || Ascii.eqb c (ascii_of_nat 92)
       then chr 92 +:+ String c EmptyString else String c EmptyString) +:+ escape_quotes s'
  end.
Definition Quote (s : string) : string := dquote +:+ escape_quotes s +:+ dquote.

(** ** encoding/hex and encoding/base64 *)

Definition hex_digits : string := "0123456789abcdef".
Definition hex_upper : string := "0123456789ABCDEF".
Definition url_alphabet : string :=
  "ABCDEFGHIJKLMNOPQRSTUVWXYZabcdefghijklmnopqrstuvwxyz0123456789-_".

Definition digit_of (alphabet : string) (n : Z) : ascii :=
  match String.get (Z.to_nat n) alphabet with Some c => c | None => "0" end.

Fixpoint hex_encode (bs : list Z) : string :=
  match bs with
  | [] => EmptyString
  | b :: bs' =>
      String (digit_of hex_digits (b / 16)) (String (digit_of hex_digits (b mod 16)) (hex_encode bs'))
  end.

(** [base64.URLEncoding.EncodeToString], padded with [=]. *)
Fixpoint base64url_encode (bs : list Z) : string :=
  let d := digit_of url_alphabet in
  match bs with
  | [] => EmptyString
  | [a] => String (d (a / 4)) (String (d (a mod 4 * 16)) "==")
  | [a; b] =>
      String (d (a / 4)) (String (d (a mod 4 * 16 + b / 16)) (String (d (b mod 16 * 4)) "="))
  | a :: b :: c :: bs' =>
      String (d (a / 4)) (String (d (a mod 4 * 16 + b / 16))
        (String (d (b mod 16 * 4 + c / 64)) (String (d (c mod 64)) (base64url_encode bs'))))
  end%Z.

(** The bytes of a string, as [[]byte(s)]. *)
Fixpoint bytes_of (s : string) : list Z :=
  match s with
  | EmptyString => []
  | String c s' => Z.of_nat (nat_of_ascii c) :: bytes_of s'
  end.

(** ** net/url query strings *)

Definition query_safe (c : ascii) : bool :=
  is_alnum c || Ascii.eqb c "-" || Ascii.eqb c "_" || Ascii.eqb c "." || Ascii.eqb c "~".

Definition escape_byte (c : ascii) : string :=
  if query_safe c then String c EmptyString
  else if Ascii.eqb c " " then "+"
  else let n := Z.of_nat (nat_of_ascii c) in
       String "%" (String (digit_of hex_upper (n / 16)) (String (digit_of hex_upper (n mod 16)) EmptyString)).

Fixpoint QueryEscape (s : string) : string :=
  match s with
  | EmptyString => EmptyString
  | String c s' => escape_byte c +:+ QueryEscape s'
  end.

Definition unhex (c : ascii) : option Z :=
  let n := Z.of_nat (nat_of_ascii c) in
  if is_digit c then Some (n - 48)%Z
  else if (97 <=? n)%Z && (n <=? 102)%Z then Some (n - 87)%Z
  else if (65 <=? n)%Z && (n <=? 70)%Z then Some (n - 55)%Z
  else None.

Fixpoint QueryUnescape (s : string) : option string :=
  match s with
  | EmptyString => Some EmptyString
  | String "%" (String a (String b s')) =>
      match unhex a, unhex b, QueryUnescape s' with
      | Some x, Some y, Some t => Some (String (ascii_of_nat (Z.to_nat (x * 16 + y))) t)
      | _, _, _ => None
      end
  | String "%" _ => None
  | String "+" s' => String " " <$> QueryUnescape s'
  | String c s' => String c <$> QueryUnescape s'
  end.

(** [strings.Cut] at one byte: the text before it, and the text after it when present. *)
Fixpoint cut_byte (b : ascii) (s : string) : string * option string :=
  match s with
  | EmptyString => (EmptyString, None)
  | String c s' =>
      if Ascii.eqb c b then (EmptyString, Some s')
      else let '(l, r) := cut_byte b s' in (String c l, r)
  end.

Fixpoint split_byte (b : ascii) (s : string) : list string :=
  match s with
  | EmptyString => [EmptyString]
  | String c s' =>
      if Ascii.eqb c b then EmptyString :: split_byte b s'
      else match split_byte b s' with
           | h :: t => String c h :: t
           | [] => [String c EmptyString]
           end
  end.

(** One [key=value] segment of a query; empty, [;]-separated or badly escaped ones are dropped. *)
Definition parse_pair (seg : string) : option (string * string) :=
  if str_exists (Ascii.eqb ";") seg then None
  else match seg with
  | EmptyString => None
  | _ =>
      let '(k, v) := cut_byte "=" seg in
      match QueryUnescape k, QueryUnescape (default "" v) with
      | Some k', Some v' => Some (k', v')
      | _, _ => None
      end
  end.

(** [URL.Query] as the list of its pairs in order; [query[key]] is [query_values]. *)
Definition ParseQuery (q : string) : list (string * string) :=
  omap parse_pair (split_byte "&" q).

Definition query_values (q : list (string * string)) (key : string) : list string :=
  snd <$> filter (fun kv => kv.1 = key) q.

Definition query_get (q : list (string * string)) (key : string) : string :=
  default "" (head (query_values q key)).

Definition encode_pair (kv : string * string) : string :=
  QueryEscape kv.1 +:+ "=" +:+ QueryEscape kv.2.

(** [url.Values.Encode] of pairs already listed in key order. *)
Definition encode_query (kvs : list (string * string)) : string := Join (encode_pair <$> kvs) "&".

(** ** Laws *)

Lemma HasPrefix_spec (s p : string) : HasPrefix s p = true <-> exists r, s = p +:+ r.
Proof.
  revert s; induction p as [|c p IH]; intros s; cbn.
  - split; [intros _; by exists s | by destruct s].
  - destruct s as [|d s].
    + split; [done | intros (r & Hr)]. by rewrite string_app_cons in Hr.
    + cbn. rewrite andb_true_iff, Ascii.eqb_eq, IH. split.
      * intros [-> (r & ->)]. exists r. by rewrite string_app_cons.
      * intros (r & Hr). rewrite string_app_cons in Hr. injection Hr as -> ->. eauto.
Qed.

Lemma HasPrefix_refl (s : string) : HasPrefix s s = true.
Proof. apply HasPrefix_spec. exists "". by rewrite string_app_nil_r. Qed.

Lemma HasPrefix_app (p r : string) : HasPrefix (p +:+ r) p = true.
Proof. apply HasPrefix_spec. by exists r. Qed.

Lemma HasPrefix_length_eq (s p : string) :
  String.length s = String.length p -> HasPrefix s p = true -> s = p.
Proof.
  intros Hl (r & ->)%HasPrefix_spec. rewrite string_length_app in Hl.
  destruct r; cbn in Hl; [by rewrite string_app_nil_r | lia].
Qed.

Lemma HasPrefix_trans (a b c : string) :
  HasPrefix a b = true -> HasPrefix b c = true -> HasPrefix a c = true.
Proof.
  intros (r & ->)%HasPrefix_spec (r' & ->)%HasPrefix_spec. apply HasPrefix_spec.
  exists (r' +:+ r). by rewrite string_app_assoc.
Qed.

(** Two prefixes of one string are prefix-related. *)
Lemma HasPrefix_common (s a b : string) :
  HasPrefix s a = true -> HasPrefix s b = true -> HasPrefix a b = true \/ HasPrefix b a = true.
Proof.
  revert a b; induction s as [|c s IH]; intros [|x a] [|y b]; cbn; auto; try done.
  intros [->%Ascii.eqb_eq Ha]%andb_true_iff [->%Ascii.eqb_eq Hb]%andb_true_iff.
  rewrite Ascii.eqb_refl. exact (IH a b Ha Hb).
Qed.

Lemma str_forall_app p (a b : string) :
  str_forall p (a +:+ b) = str_forall p a && str_forall p b.
Proof.
  induction a as [|c a IH]; [done |].
  rewrite string_app_cons. cbn. by rewrite IH, andb_assoc.
Qed.

Lemma str_exists_app p (a b : string) :
  str_exists p (a +:+ b) = str_exists p a || str_exists p b.
Proof.
  induction a as [|c a IH]; [done |].
  rewrite string_app_cons. cbn. by rewrite IH, orb_assoc.
Qed.

Lemma str_forall_impl (p q : ascii -> bool) (s : string) :
  (forall c, p c = true -> q c = true) -> str_forall p s = true -> str_forall q s = true.
Proof.
  intros Hpq; induction s as [|c s IH]; cbn; [done |].
  intros [Hc Hs]%andb_true_iff. apply andb_true_iff. auto.
Qed.

(** A property of the sixteen digits holds of every digit. *)
Lemma digit16_ind (P : Z -> Prop) (z : Z) :
  (0 <= z < 16)%Z -> Forall P (seqZ 0 16) -> P z.
Proof. intros Hz HP. rewrite Forall_forall in HP. apply HP, elem_of_seqZ. lia. Qed.

Lemma hex_digit_inj (a b : Z) :
  (0 <= a < 16)%Z -> (0 <= b < 16)%Z -> digit_of hex_digits a = digit_of hex_digits b -> a = b.
Proof.
  intros Ha Hb. revert b Hb. pattern a. apply (digit16_ind _ _ Ha).
  repeat constructor; intros b Hb; pattern b; apply (digit16_ind _ _ Hb); repeat constructor;
    vm_compute; congruence.
Qed.

Lemma hex_encode_length (bs : list Z) : String.length (hex_encode bs) = 2 * length bs.
Proof. induction bs as [|b bs IH]; cbn; [done | rewrite IH; lia]. Qed.

(** hex encoding of bytes is injective. *)
Lemma hex_encode_inj (a b : list Z) :
  Forall (fun x => 0 <= x < 256)%Z a -> Forall (fun x => 0 <= x < 256)%Z b ->
  hex_encode a = hex_encode b -> a = b.
Proof.
  intros Ha; revert b; induction Ha as [|x a Hx Ha IH]; intros b Hb; destruct Hb as [|y b Hy Hb];
    cbn; try done.
  intros [= H1 H2 H3].
  apply hex_digit_inj in H1; [| split; [apply Z.div_pos | apply Z.div_lt_upper_bound]; lia ..].
  apply hex_digit_inj in H2; [| apply Z.mod_pos_bound; lia ..].
  f_equal; [| by apply IH].
  rewrite (Z.div_mod x 16), (Z.div_mod y 16) by lia. lia.
Qed.

Definition is_lower_hex (c : ascii) : bool :=
  is_digit c || ((97 <=? nat_of_ascii c)%nat && (nat_of_ascii c <=? 102)%nat).

Lemma hex_digit_charset (z : Z) : is_lower_hex (digit_of hex_digits z) = true.
Proof.
  unfold digit_of. destruct (String.get (Z.to_nat z) hex_digits) as [c|] eqn:E; [| done].
  assert (Hall : forall n d, String.get n hex_digits = Some d -> is_lower_hex d = true).
  { intros n d. do 16 (destruct n as [|n]; [by intros [= <-] |]). by destruct n. }
  exact (Hall _ _ E).
Qed.

Lemma hex_encode_charset (bs : list Z) : str_forall is_lower_hex (hex_encode bs) = true.
Proof. induction bs as [|b bs IH]; cbn; [done |]. by rewrite !hex_digit_charset, IH. Qed.

(** Decimal printing starts with a digit, so [Atoi] sees no sign. *)
Lemma uint_string_head (u : Decimal.uint) :
  exists c s, NilZero.string_of_uint u = String c s /\ is_digit c = true.
Proof. destruct u; cbn; eauto. Qed.

Lemma to_int_shape (z : Z) :
  match Z.to_int z with
  | Decimal.Pos u => u <> Decimal.Nil /\ Z.of_uint u = z
  | Decimal.Neg u => u <> Decimal.Nil /\ (- Z.of_uint u)%Z = z
  end.
Proof.
  pose proof (DecimalZ.of_to z) as H. destruct z as [|p|p]; [done | |];
    cbn in *; (split; [apply Unsigned.to_uint_nonnil | exact H]).
Qed.

Lemma Atoi_Itoa (z : Z) : (int_min <= z <= int_max)%Z -> Atoi (Itoa z) = Some z.
Proof.
  intros Hz. unfold Itoa. pose proof (to_int_shape z) as Hs.
  destruct (Z.to_int z) as [u | u]; destruct Hs as [Hn Hv]; cbn.
  - destruct (uint_string_head u) as (c & s & Hu & Hc).
    assert (Hd : NilZero.uint_of_string (String c s) = Some u)
      by (rewrite <-Hu; by apply NilZero.usu).
    unfold Atoi. rewrite Hu.
    destruct c as [[] [] [] [] [] [] [] []]; try discriminate Hc; cbv iota beta;
      rewrite Hd, Hv;
      by rewrite (proj2 (Z.leb_le _ _) (proj1 Hz)), (proj2 (Z.leb_le _ _) (proj2 Hz)).
  - rewrite NilZero.usu, Hv by done.
    by rewrite (proj2 (Z.leb_le _ _) (proj1 Hz)), (proj2 (Z.leb_le _ _) (proj2 Hz)).
Qed.

Lemma Itoa_inj (a b : Z) : Itoa a = Itoa b -> a = b.
Proof.
  unfold Itoa. intros H. rewrite <-(DecimalZ.of_to a), <-(DecimalZ.of_to b). f_equal.
  assert (Hok : forall z, Z.to_int z <> Decimal.Pos Decimal.Nil /\ Z.to_int z <> Decimal.Neg Decimal.Nil).
  { intros z. pose proof (to_int_shape z). destruct (Z.to_int z); split; naive_solver. }
  apply (f_equal NilZero.int_of_string) in H.
  rewrite !NilZero.isi in H by apply Hok. congruence.
Qed.

Lemma Itoa_not (z : Z) (s : string) : NilZero.int_of_string s = None -> Itoa z <> s.
Proof.
  unfold Itoa. intros Hs <-. pose proof (to_int_shape z) as Hz.
  rewrite NilZero.isi in Hs; [done | |]; destruct (Z.to_int z); naive_solver.
Qed.

(** ** Reversal and suffixes *)

Lemma str_rev_app_spec (s acc : string) : str_rev_app s acc = str_rev s +:+ acc.
Proof.
  unfold str_rev. revert acc; induction s as [|c s IH]; intros acc; [done |].
  cbn. rewrite IH, (IH (String c EmptyString)), <-string_app_assoc. done.
Qed.

Lemma str_rev_cons (c : ascii) (s : string) : str_rev (String c s) = str_rev s +:+ String c EmptyString.
Proof. unfold str_rev at 1. cbn. apply str_rev_app_spec. Qed.

Lemma str_rev_concat (a b : string) : str_rev (a +:+ b) = str_rev b +:+ str_rev a.
Proof.
  induction a as [|c a IH]; [by rewrite string_app_nil_l, string_app_nil_r |].
  by rewrite string_app_cons, !str_rev_cons, IH, string_app_assoc.
Qed.

Lemma str_take_app (a b : string) : str_take (String.length a) (a +:+ b) = a.
Proof. induction a as [|c a IH]; [by destruct b |]. rewrite string_app_cons. cbn. by rewrite IH. Qed.

Lemma str_drop_app (a b : string) : str_drop (String.length a) (a +:+ b) = b.
Proof. induction a as [|c a IH]; [done |]. rewrite string_app_cons. cbn. by rewrite IH. Qed.

Lemma HasSuffix_app (a b : string) : HasSuffix (a +:+ b) b = true.
Proof. unfold HasSuffix. rewrite str_rev_concat. apply HasPrefix_app. Qed.

Lemma str_forall_rev (p : ascii -> bool) (s : string) :
  str_forall p s = true -> str_forall p (str_rev s) = true.
Proof.
  induction s as [|c s IH]; cbn [str_forall]; [done |]. intros [Hc Hs]%andb_true_iff.
  rewrite str_rev_cons, str_forall_app, IH by done. cbn. by rewrite Hc.
Qed.

(** ** Base64 *)

Definition url_char (c : ascii) : bool := is_alnum c || Ascii.eqb c "-" || Ascii.eqb c "_".

Lemma TrimRightByte_cons (c b : ascii) (s : string) :
  c <> b -> TrimRightByte (String c s) b = String c (TrimRightByte s b).
Proof.
  intros Hc. cbn. destruct (TrimRightByte s b); [| done]. by destruct (Ascii.eqb_spec c b).
Qed.

Lemma get_forall (p : ascii -> bool) (s : string) (k : nat) (c : ascii) :
  str_forall p s = true -> String.get k s = Some c -> p c = true.
Proof.
  revert k; induction s as [|x s IH]; intros [|k]; cbn; try done;
    intros [Hx Hs]%andb_true_iff; [by intros [= <-] | by apply IH].
Qed.

Lemma url_digit_char (n : Z) : url_char (digit_of url_alphabet n) = true.
Proof.
  unfold digit_of. destruct (String.get (Z.to_nat n) url_alphabet) as [c|] eqn:E; [| done].
  refine (get_forall url_char url_alphabet _ _ _ E). by vm_compute.
Qed.

Lemma url_digit_not_pad (n : Z) : digit_of url_alphabet n <> "="%char.
Proof. intros E. pose proof (url_digit_char n) as H. by rewrite E in H. Qed.

Lemma url_digit_inj (a b : Z) :
  (0 <= a < 64)%Z -> (0 <= b < 64)%Z -> digit_of url_alphabet a = digit_of url_alphabet b -> a = b.
Proof.
  intros Ha Hb E.
  assert (F : Forall (fun x => Forall (fun y => digit_of url_alphabet x = digit_of url_alphabet y -> x = y)
                (seqZ 0 64)) (seqZ 0 64)).
  { apply Forall_forall. intros x Hx. apply Forall_forall. intros y Hy.
    assert (G : forallb (fun x => forallb (fun y => (x =? y)%Z ||
      negb (Ascii.eqb (digit_of url_alphabet x) (digit_of url_alphabet y))) (seqZ 0 64)) (seqZ 0 64) = true)
      by (vm_compute; reflexivity).
    rewrite forallb_forall in G. specialize (G x (proj1 (list_elem_of_In _ _) Hx)).
    rewrite forallb_forall in G. specialize (G y (proj1 (list_elem_of_In _ _) Hy)).
    intros Exy. rewrite Exy, Ascii.eqb_refl, orb_false_r in G. by apply Z.eqb_eq. }
  rewrite Forall_forall in F. assert (a ∈ seqZ 0 64) as Ia by (apply elem_of_seqZ; lia).
  specialize (F a Ia). rewrite Forall_forall in F. apply F; [apply elem_of_seqZ; lia | done].
Qed.

Definition is_byte (b : Z) : Prop := (0 <= b < 256)%Z.

(** Unpadded base64, as [strings.TrimRight] leaves it. *)
Definition raw64 (bs : list Z) : string := TrimRightByte (base64url_encode bs) "=".

Lemma list_ind3 {A} (P : list A -> Prop) :
  P [] -> (forall a, P [a]) -> (forall a b, P [a; b]) ->
  (forall a b c l, P l -> P (a :: b :: c :: l)) -> forall l, P l.
Proof.
  intros H0 H1 H2 H3. refine (fix f l := _).
  destruct l as [|a [|b [|c l]]]; [exact H0 | apply H1 | apply H2 | apply H3, f].
Qed.

Lemma raw64_cons3 (a b c : Z) (bs : list Z) :
  let d := digit_of url_alphabet in
  raw64 (a :: b :: c :: bs) =
  String (d (a / 4)%Z) (String (d (a mod 4 * 16 + b / 16)%Z)
    (String (d (b mod 16 * 4 + c / 64)%Z) (String (d (c mod 64)%Z) (raw64 bs)))).
Proof.
  cbv zeta. unfold raw64. cbn [base64url_encode].
  by rewrite !TrimRightByte_cons by apply url_digit_not_pad.
Qed.

Lemma raw64_two (a b : Z) :
  let d := digit_of url_alphabet in
  raw64 [a; b] = String (d (a / 4)%Z) (String (d (a mod 4 * 16 + b / 16)%Z) (String (d (b mod 16 * 4)%Z) "")).
Proof.
  cbv zeta. unfold raw64. cbn [base64url_encode].
  by rewrite !TrimRightByte_cons by apply url_digit_not_pad.
Qed.

Lemma raw64_one (a : Z) :
  let d := digit_of url_alphabet in
  raw64 [a] = String (d (a / 4)%Z) (String (d (a mod 4 * 16)%Z) "").
Proof.
  cbv zeta. unfold raw64. cbn [base64url_encode].
  by rewrite !TrimRightByte_cons by apply url_digit_not_pad.
Qed.

Lemma raw64_length (bs : list Z) : String.length (raw64 bs) = (4 * length bs + 2) / 3.
Proof.
  induction bs as [| a | a b | a b c bs IH] using list_ind3; [done | by rewrite raw64_one | by rewrite raw64_two |].
  rewrite raw64_cons3. cbn [String.length length]. rewrite IH.
  replace (4 * S (S (S (length bs))) + 2) with (4 * length bs + 2 + 4 * 3) by lia.
  rewrite Nat.div_add by lia. lia.
Qed.

Lemma raw64_charset (bs : list Z) : str_forall url_char (raw64 bs) = true.
Proof.
  induction bs as [| a | a b | a b c bs IH] using list_ind3; [done | | |];
    rewrite ?raw64_one, ?raw64_two, ?raw64_cons3; cbn [str_forall]; by rewrite !url_digit_char, ?IH.
Qed.

(** The four sextets of three bytes are in range and determine them. *)
Lemma sextets_range (a b c : Z) : is_byte a -> is_byte b -> is_byte c ->
  (0 <= a / 4 < 64 /\ 0 <= a mod 4 * 16 + b / 16 < 64 /\
   0 <= b mod 16 * 4 + c / 64 < 64 /\ 0 <= c mod 64 < 64)%Z.
Proof.
  unfold is_byte. intros Ha Hb Hc.
  pose proof (Z.div_mod a 4). pose proof (Z.mod_pos_bound a 4).
  pose proof (Z.div_mod b 16). pose proof (Z.mod_pos_bound b 16).
  pose proof (Z.div_mod c 64). pose proof (Z.mod_pos_bound c 64). lia.
Qed.

Lemma sextets_inj (a b c a' b' c' : Z) :
  is_byte a -> is_byte b -> is_byte c -> is_byte a' -> is_byte b' -> is_byte c' ->
  (a / 4 = a' / 4 -> a mod 4 * 16 + b / 16 = a' mod 4 * 16 + b' / 16 ->
   b mod 16 * 4 + c / 64 = b' mod 16 * 4 + c' / 64 -> c mod 64 = c' mod 64 ->
   a = a' /\ b = b' /\ c = c')%Z.
Proof.
  unfold is_byte. intros Ha Hb Hc Ha' Hb' Hc' E1 E2 E3 E4.
  pose proof (Z.div_mod a 4). pose proof (Z.mod_pos_bound a 4).
  pose proof (Z.div_mod b 16). pose proof (Z.mod_pos_bound b 16).
  pose proof (Z.div_mod c 64). pose proof (Z.mod_pos_bound c 64).
  pose proof (Z.div_mod a' 4). pose proof (Z.mod_pos_bound a' 4).
  pose proof (Z.div_mod b' 16). pose proof (Z.mod_pos_bound b' 16).
  pose proof (Z.div_mod c' 64). pose proof (Z.mod_pos_bound c' 64).
  assert (0 <= b / 16 < 16 /\ 0 <= b' / 16 < 16 /\ 0 <= c / 64 < 4 /\ 0 <= c' / 64 < 4)%Z by lia.
  assert (b / 16 = b' / 16 /\ c / 64 = c' / 64)%Z by lia. lia.
Qed.

(** Shorter tails are three bytes whose missing bytes are zero. *)
Lemma is_byte_0 : is_byte 0.
Proof. unfold is_byte. lia. Qed.

Lemma raw64_inj (bs bs' : list Z) :
  Forall is_byte bs -> Forall is_byte bs' -> length bs = length bs' -> raw64 bs = raw64 bs' -> bs = bs'.
Proof.
  revert bs'. induction bs as [| a | a b | a b c bs IH] using list_ind3;
    intros [|a' [|b' [|c' bs']]] Hb Hb' Hl E; try discriminate Hl; [done | | |];
    rewrite ?raw64_one, ?raw64_two, ?raw64_cons3 in E; rewrite !Forall_cons in Hb, Hb'.
  - destruct Hb as [Ha _], Hb' as [Ha' _].
    destruct (sextets_range a 0 0) as (R1 & R2 & _), (sextets_range a' 0 0) as (R1' & R2' & _);
      auto using is_byte_0. change (0 / 16)%Z with 0%Z in *. rewrite Z.add_0_r in R2, R2'.
    injection E as E1 E2. apply url_digit_inj in E1, E2; try done.
    destruct (sextets_inj a 0 0 a' 0 0) as (-> & _); auto using is_byte_0. by rewrite E2.
  - destruct Hb as (Ha & Hb & _), Hb' as (Ha' & Hb' & _).
    destruct (sextets_range a b 0) as (R1 & R2 & R3 & _), (sextets_range a' b' 0) as (R1' & R2' & R3' & _);
      auto using is_byte_0. change (0 / 64)%Z with 0%Z in *. rewrite Z.add_0_r in R3, R3'.
    injection E as E1 E2 E3. apply url_digit_inj in E1, E2, E3; try done.
    destruct (sextets_inj a b 0 a' b' 0) as (-> & -> & _); auto using is_byte_0. by rewrite E3.
  - destruct Hb as (Ha & Hb & Hc & Hr), Hb' as (Ha' & Hb' & Hc' & Hr').
    destruct (sextets_range a b c) as (? & ? & ? & ?), (sextets_range a' b' c') as (? & ? & ? & ?); auto.
    injection E as E1 E2 E3 E4 E5. apply url_digit_inj in E1, E2, E3, E4; try done.
    destruct (sextets_inj a b c a' b' c') as (-> & -> & ->); auto. injection Hl as Hl.
    do 3 f_equal. by apply IH.
Qed.

Lemma TrimPrefix_app (p s : string) : TrimPrefix (p +:+ s) p = s.
Proof. unfold TrimPrefix. by rewrite HasPrefix_app, str_drop_app. Qed.

(** ** Suffixes and counts *)

Lemma str_rev_involutive (s : string) : str_rev (str_rev s) = s.
Proof.
  induction s as [|c s IH]; [done |]. by rewrite str_rev_cons, str_rev_concat, IH.
Qed.

Lemma HasSuffix_spec (s t : string) : HasSuffix s t = true <-> exists p, s = p +:+ t.
Proof.
  split.
  - unfold HasSuffix. intros [r E]%HasPrefix_spec. exists (str_rev r).
    by rewrite <-(str_rev_involutive s), E, str_rev_concat, str_rev_involutive.
  - intros [p ->]. apply HasSuffix_app.
Qed.

Lemma CountByte_app (a b : string) (c : ascii) :
  CountByte (a +:+ b) c = CountByte a c + CountByte b c.
Proof. induction a as [|x a IH]; [done |]. rewrite string_app_cons. cbn. rewrite IH. by destruct (Ascii.eqb x c). Qed.

(** ** Query strings round-trip *)

Lemma QueryUnescape_escape_byte (c : ascii) (t : string) :
  QueryUnescape (escape_byte c +:+ t) = String c <$> QueryUnescape t.
Proof. destruct c as [[] [] [] [] [] [] [] []]; reflexivity. Qed.

Lemma QueryUnescape_escape (s : string) : QueryUnescape (QueryEscape s) = Some s.
Proof.
  induction s as [|c s IH]; [done |]. cbn [QueryEscape].
  by rewrite QueryUnescape_escape_byte, IH.
Qed.

(** The bytes of an escaped text. *)
Definition escaped_char (c : ascii) : bool := query_safe c || Ascii.eqb c "%" || Ascii.eqb c "+".

Lemma QueryEscape_charset (s : string) : str_forall escaped_char (QueryEscape s) = true.
Proof.
  induction s as [|c s IH]; [done |]. cbn [QueryEscape]. rewrite str_forall_app, IH, andb_true_r.
  by destruct c as [[] [] [] [] [] [] [] []].
Qed.

Lemma charset_excludes (p : ascii -> bool) (b : ascii) (s : string) :
  str_forall p s = true -> p b = false -> str_exists (Ascii.eqb b) s = false.
Proof.
  intros Hs Hb. induction s as [|c s IH]; [done |]. cbn in *.
  apply andb_true_iff in Hs as [Hc Hs]. rewrite (IH Hs), orb_false_r.
  destruct (Ascii.eqb_spec b c); [congruence | done].
Qed.

Lemma cut_byte_app (b : ascii) (l r : string) :
  str_exists (Ascii.eqb b) l = false -> cut_byte b (l +:+ String b r) = (l, Some r).
Proof.
  induction l as [|c l IH]; cbn [str_exists].
  - intros _. rewrite string_app_nil_l. cbn. by rewrite Ascii.eqb_refl.
  - intros [Hc Hl]%orb_false_iff. rewrite string_app_cons. cbn [cut_byte].
    by rewrite Ascii.eqb_sym, Hc, IH.
Qed.

Lemma split_byte_none (b : ascii) (s : string) :
  str_exists (Ascii.eqb b) s = false -> split_byte b s = [s].
Proof.
  induction s as [|c s IH]; [done |]. cbn. intros [Hc Hs]%orb_false_iff.
  by rewrite Ascii.eqb_sym, Hc, IH.
Qed.

Lemma split_byte_app (b : ascii) (l r : string) :
  str_exists (Ascii.eqb b) l = false -> split_byte b (l +:+ String b r) = l :: split_byte b r.
Proof.
  induction l as [|c l IH]; cbn [str_exists].
  - intros _. rewrite string_app_nil_l. cbn. by rewrite Ascii.eqb_refl.
  - intros [Hc Hl]%orb_false_iff. rewrite string_app_cons. cbn [split_byte].
    by rewrite Ascii.eqb_sym, Hc, IH.
Qed.

Lemma split_byte_join (b : ascii) (l : list string) :
  l <> [] -> Forall (fun s => str_exists (Ascii.eqb b) s = false) l ->
  split_byte b (Join l (String b EmptyString)) = l.
Proof.
  intros Hne Hl. induction Hl as [|x l Hx Hl IH]; [done |]. destruct l as [|y l]; [by apply split_byte_none |].
  change (Join (x :: y :: l) (String b "")) with (x +:+ String b "" +:+ Join (y :: l) (String b "")).
  rewrite string_app_cons, string_app_nil_l. rewrite split_byte_app by done. by rewrite IH.
Qed.

Lemma encode_pair_excludes (kv : string * string) (b : ascii) :
  escaped_char b = false -> b <> "="%char -> str_exists (Ascii.eqb b) (encode_pair kv) = false.
Proof.
  intros Hb Hne. unfold encode_pair. rewrite !str_exists_app. cbn [str_exists].
  rewrite !(charset_excludes escaped_char b) by (try apply QueryEscape_charset; done).
  destruct (Ascii.eqb_spec b "="); done.
Qed.

Lemma parse_encode_pair (kv : string * string) : parse_pair (encode_pair kv) = Some kv.
Proof.
  unfold parse_pair. rewrite encode_pair_excludes by done. unfold encode_pair.
  rewrite (string_app_cons "=" "" (QueryEscape kv.2)), string_app_nil_l.
  rewrite cut_byte_app by (apply (charset_excludes escaped_char); [apply QueryEscape_charset | done]).
  cbv beta iota delta [from_option id]. rewrite !QueryUnescape_escape. destruct kv as [k v]. cbn [fst snd].
  destruct (QueryEscape k +:+ String "=" (QueryEscape v)) eqn:E; [| done].
  by destruct (QueryEscape k).
Qed.

(** Reading an encoded query gives its pairs back. *)
Lemma ParseQuery_encode (kvs : list (string * string)) : kvs <> [] -> ParseQuery (encode_query kvs) = kvs.
Proof.
  intros Hne. unfold ParseQuery, encode_query. rewrite split_byte_join.
  - clear Hne. induction kvs as [|kv kvs IH]; [done |]. cbn [fmap list_fmap omap list_omap].
    rewrite parse_encode_pair. by f_equal.
  - by destruct kvs.
  - apply Forall_fmap, Forall_true. intros kv. by apply encode_pair_excludes.
Qed.
