(* ===== verification/Sha256.v ===== *)
(** * crypto/sha256

    SHA-256 of FIPS 180-4 on lists of bytes, with 32-bit words as [Z]. *)

From S2P Require Import Prelude GoStd.

Local Open Scope Z_scope.

Definition w32 (x : Z) : Z := Z.land x 4294967295.
Definition add32 (x y : Z) : Z := w32 (x + y).
Definition rotr (x n : Z) : Z := Z.lor (Z.shiftr x n) (w32 (Z.shiftl x (32 - n))).
Definition not32 (x : Z) : Z := 4294967295 - x.

Definition Ch (x y z : Z) : Z := Z.lxor (Z.land x y) (Z.land (not32 x) z).
Definition Maj (x y z : Z) : Z := Z.lxor (Z.lxor (Z.land x y) (Z.land x z)) (Z.land y z).
Definition Sigma0 (x : Z) : Z := Z.lxor (Z.lxor (rotr x 2) (rotr x 13)) (rotr x 22).
Definition Sigma1 (x : Z) : Z := Z.lxor (Z.lxor (rotr x 6) (rotr x 11)) (rotr x 25).
Definition sigma0 (x : Z) : Z := Z.lxor (Z.lxor (rotr x 7) (rotr x 18)) (Z.shiftr x 3).
Definition sigma1 (x : Z) : Z := Z.lxor (Z.lxor (rotr x 17) (rotr x 19)) (Z.shiftr x 10).

(** The round constants are the first 32 fractional bits of the cube roots of the
    first 64 primes, the initial state those of the square roots of the first 8. *)
Definition is_prime (n : Z) : bool :=
  forallb (fun d => negb (n mod d =? 0)) (seqZ 2 (Z.sqrt n - 1)).

Definition primes_below_312 : list Z := List.filter is_prime (seqZ 2 310).

(** The integer cube root, one bit at a time from bit [k - 1]. *)
Fixpoint icbrt (k : nat) (acc n : Z) : Z :=
  match k with
  | O => acc
  | S k' =>
      let cand := acc + 2 ^ Z.of_nat k' in
      icbrt k' (if cand ^ 3 <=? n then cand else acc) n
  end.

Definition K256 : list Z :=
  Eval vm_compute in (fun p => w32 (icbrt 36 0 (p * 2 ^ 96))) <$> primes_below_312.

Definition H256 : list Z :=
  Eval vm_compute in (fun p => w32 (Z.sqrt (p * 2 ^ 64))) <$> take 8 primes_below_312.

Fixpoint words_of (n : nat) (bs : list Z) : list Z :=
  match n with
  | O => []
  | S n' => match bs with
            | a :: b :: c :: d :: bs' =>
                (Z.shiftl a 24 + Z.shiftl b 16 + Z.shiftl c 8 + d) :: words_of n' bs'
            | _ => []
            end
  end.

(** The message schedule, kept reversed (most recent word first). *)
Fixpoint schedule (n : nat) (rw : list Z) : list Z :=
  match n with
  | O => rw
  | S n' =>
      let w := add32 (add32 (sigma1 (nth 1 rw 0)) (nth 6 rw 0))
                     (add32 (sigma0 (nth 14 rw 0)) (nth 15 rw 0)) in
      schedule n' (w :: rw)
  end.

Definition round (s : list Z) (kw : Z * Z) : list Z :=
  match s with
  | [a; b; c; d; e; f; g; h] =>
      let t1 := add32 (add32 h (Sigma1 e)) (add32 (Ch e f g) (add32 kw.1 kw.2)) in
      let t2 := add32 (Sigma0 a) (Maj a b c) in
      [add32 t1 t2; a; b; c; add32 d t1; e; f; g]
  | _ => s
  end.

Definition compress (h : list Z) (block : list Z) : list Z :=
  let ws := rev (schedule 48 (rev (words_of 16 block))) in
  zip_with add32 h (fold_left round (zip K256 ws) h).

Fixpoint blocks (fuel : nat) (h : list Z) (bs : list Z) : list Z :=
  match fuel with
  | O => h
  | S f => match bs with
           | [] => h
           | _ => blocks f (compress h (take 64 bs)) (drop 64 bs)
           end
  end.

Definition be_bytes (n : nat) (x : Z) : list Z :=
  (fun i => Z.land (Z.shiftr x (8 * Z.of_nat (n - 1 - i))) 255) <$> seq 0 n.

Definition pad (bs : list Z) : list Z :=
  let len := Z.of_nat (length bs) in
  bs ++ [128] ++ replicate (Z.to_nat ((55 - len) mod 64)) 0 ++ be_bytes 8 (8 * len).

(** [sha256.Sum256]: the 32 digest bytes. *)
Definition Sum256 (bs : list Z) : list Z :=
  let p := pad bs in
  mjoin (be_bytes 4 <$> blocks (length p) H256 p).

Example Sum256_abc :
  hex_encode (Sum256 (bytes_of "abc")) =
  "ba7816bf8f01cfea414140de5dae2223b00361a396177a9cb410ff61f20015ad".
Proof. vm_compute. reflexivity. Qed.

Example Sum256_two_blocks :
  hex_encode (Sum256 (bytes_of "abcdbcdecdefdefgefghfghighijhijkijkljklmklmnlmnomnopnopq")) =
  "248d6a61d20638b8e5c026930c3e6039a33ce45964ff2167f6ecedd419db06c1".
Proof. vm_compute. reflexivity. Qed.

(** ** The shape of a digest *)

Lemma be_bytes_range (n : nat) (x : Z) : Forall (fun b => 0 <= b < 256) (be_bytes n x).
Proof.
  apply Forall_fmap, Forall_forall. intros i _; cbn.
  change 255 with (Z.ones 8). rewrite Z.land_ones by lia. apply Z.mod_pos_bound. lia.
Qed.

Lemma round_length (s : list Z) (kw : Z * Z) : length s = 8%nat -> length (round s kw) = 8%nat.
Proof. destruct s as [|? [|? [|? [|? [|? [|? [|? [|? [|]]]]]]]]]; done. Qed.

Lemma rounds_length (kws : list (Z * Z)) (s : list Z) :
  length s = 8%nat -> length (fold_left round kws s) = 8%nat.
Proof.
  revert s; induction kws as [|kw kws IH]; intros s Hs; [done |].
  cbn [fold_left]. apply IH, round_length, Hs.
Qed.

Lemma compress_length (h block : list Z) :
  length h = 8%nat -> length (compress h block) = 8%nat.
Proof.
  intros Hh. unfold compress. rewrite length_zip_with, Hh.
  rewrite (rounds_length _ h) by done. done.
Qed.

Lemma blocks_length (fuel : nat) (h bs : list Z) :
  length h = 8%nat -> length (blocks fuel h bs) = 8%nat.
Proof.
  revert h bs; induction fuel as [|f IH]; intros h bs Hh; cbn [blocks]; [done |].
  destruct bs; [done |]. apply IH, compress_length, Hh.
Qed.

(** A digest is 32 bytes. *)
Lemma Sum256_length (bs : list Z) : length (Sum256 bs) = 32%nat.
Proof.
  unfold Sum256. pose proof (blocks_length (length (pad bs)) H256 (pad bs) eq_refl) as Hl.
  destruct (blocks _ _ _) as [|? [|? [|? [|? [|? [|? [|? [|? [|]]]]]]]]]; done.
Qed.

Lemma Sum256_range (bs : list Z) : Forall (fun b => 0 <= b < 256) (Sum256 bs).
Proof.
  unfold Sum256. generalize (blocks (length (pad bs)) H256 (pad bs)). intros ws.
  induction ws as [|w ws IH]; [constructor |].
  rewrite fmap_cons. apply Forall_app. split; [apply (be_bytes_range 4) | exact IH].
Qed.

#[global] Opaque Sum256.
