(* ===== verification/GoNet.v ===== *)
(** * net/url, net and time: the parsing and formatting the controllers use

    [url_Parse] follows net/url (scheme, authority, path, query, fragment),
    [net_ParseIP] follows net/netip for IPv4 and IPv6 texts, [FormatRFC3339Nano]
    prints an instant of the UTC calendar. *)

From Stdlib Require Import Ascii.
From S2P Require Import Prelude GoStd.

(** ** net/url *)

Record URL := {
  Scheme : string;
  Opaque : string;
  HasUser : bool;          (* User != nil *)
  Host : string;
  Path : string;
  RawPath : string;
  ForceQuery : bool;
  URLQuery : string;       (* RawQuery *)
  Fragment : string;
}.

Inductive encoding := encodePath | encodeHost | encodeZone | encodeUserPassword | encodeFragment.

Definition one_of (s : string) (c : ascii) : bool := str_exists (Ascii.eqb c) s.

Definition shouldEscape (c : ascii) (mode : encoding) : bool :=
  let host := match mode with encodeHost | encodeZone => true | _ => false end in
  if is_alnum c then false
  else if host && (one_of "!$&'()*+,;=:[]<>" c || Ascii.eqb c (ascii_of_nat 34)) then false
  else if one_of "-_.~" c then false
  else if one_of "$&+,/:;=?@" c then
    match mode with
    | encodePath => Ascii.eqb c "?"
    | encodeUserPassword => one_of "@/?:" c
    | encodeFragment => false
    | encodeHost | encodeZone => true
    end
  else match mode with
       | encodeFragment => negb (one_of "!()*" c)
       | _ => true
       end.

(** Escapes of the host may only stand for bytes outside ASCII (or for the percent
    sign); in the zone of an IPv6 literal also for a few ASCII bytes. *)
Definition escape_allowed (mode : encoding) (a b : ascii) (n : Z) : bool :=
  let percent := Ascii.eqb a "2" && Ascii.eqb b "5" in
  match mode with
  | encodeHost => percent || (128 <=? n)%Z
  | encodeZone => percent || (n =? 32)%Z || negb (shouldEscape (ascii_of_nat (Z.to_nat n)) encodeHost)
  | _ => true
  end.

Fixpoint unescape (mode : encoding) (s : string) : option string :=
  match s with
  | EmptyString => Some EmptyString
  | String "%" (String a (String b s')) =>
      match unhex a, unhex b with
      | Some x, Some y =>
          let n := (x * 16 + y)%Z in
          if escape_allowed mode a b n
          then String (ascii_of_nat (Z.to_nat n)) <$> unescape mode s' else None
      | _, _ => None
      end
  | String "%" _ => None
  | String c s' =>
      let host := match mode with encodeHost | encodeZone => true | _ => false end in
      if host && (nat_of_ascii c <? 128)%nat && shouldEscape c mode then None
      else String c <$> unescape mode s'
  end.

Fixpoint escape (mode : encoding) (s : string) : string :=
  match s with
  | EmptyString => EmptyString
  | String c s' =>
      if shouldEscape c mode then
        let n := Z.of_nat (nat_of_ascii c) in
        String "%" (String (digit_of hex_upper (n / 16)) (String (digit_of hex_upper (n mod 16)) (escape mode s')))
      else String c (escape mode s')
  end.

(** The text before and after the last occurrence of a byte. *)
Definition cut_last (b : ascii) (s : string) : option (string * string) :=
  match cut_byte b (str_rev s) with
  | (after, Some before) => Some (str_rev before, str_rev after)
  | (_, None) => None
  end.

Definition is_alpha (c : ascii) : bool := is_upper c || is_lower c.

(** [getScheme]: the scheme before the first colon, if the text starts like one. *)
Fixpoint getScheme_from (first : bool) (acc s : string) : option (string * option string) :=
  match s with
  | EmptyString => Some (EmptyString, None)
  | String c s' =>
      if is_alpha c then getScheme_from false (acc +:+ String c EmptyString) s'
      else if is_digit c || one_of "+-." c then
        if first then Some (EmptyString, None) else getScheme_from false (acc +:+ String c EmptyString) s'
      else if Ascii.eqb c ":" then if first then None else Some (acc, Some s')
      else Some (EmptyString, None)
  end.

Definition getScheme (s : string) : option (string * string) :=
  match getScheme_from true "" s with
  | None => None
  | Some (scheme, Some rest) => Some (scheme, rest)
  | Some (_, None) => Some ("", s)
  end.

Definition validOptionalPort (port : string) : bool :=
  match port with
  | EmptyString => true
  | String c digits => Ascii.eqb c ":" && str_forall is_digit digits
  end.

(** An authority's host, with its port; a bracketed IPv6 literal keeps its brackets. *)
Definition parseHost (host : string) : option string :=
  if HasPrefix host "[" then
    match cut_last "]" host with
    | None => None
    | Some (before, port) =>
        if validOptionalPort port then
          match cut_byte "%" before with
          | (addr, Some zone) =>
              if HasPrefix zone "25" then
                match unescape encodeHost addr, unescape encodeZone ("%" +:+ zone), unescape encodeHost ("]" +:+ port) with
                | Some a, Some z, Some p => Some (a +:+ z +:+ p)
                | _, _, _ => None
                end
              else unescape encodeHost host
          | (_, None) => unescape encodeHost host
          end
        else None
    end
  else
    match cut_last ":" host with
    | Some (_, port) => if validOptionalPort (":" +:+ port) then unescape encodeHost host else None
    | None => unescape encodeHost host
    end.

Definition validUserinfo (s : string) : bool :=
  str_forall (fun c => is_alnum c || one_of "-._:~!$&'()*+,;=%@" c) s.

(** [parseAuthority]: whether a user is present, and the host. *)
Definition parseAuthority (authority : string) : option (bool * string) :=
  match cut_last "@" authority with
  | None => pair false <$> parseHost authority
  | Some (userinfo, host) =>
      match parseHost host with
      | None => None
      | Some h =>
          let '(user, password) := cut_byte ":" userinfo in
          if validUserinfo userinfo then
            match unescape encodeUserPassword user, unescape encodeUserPassword (default "" password) with
            | Some _, Some _ => Some (true, h)
            | _, _ => None
            end
          else None
      end
  end.

(** The path and the raw path kept when the default encoding differs. *)
Definition setPath (p : string) : option (string * string) :=
  path ← unescape encodePath p;
  Some (path, if bool_decide (escape encodePath path = p) then "" else p).

Definition is_control (c : ascii) : bool :=
  let n := nat_of_ascii c in (n <? 32)%nat || (n =? 127)%nat.

Definition no_url : URL :=
  {| Scheme := ""; Opaque := ""; HasUser := false; Host := ""; Path := ""; RawPath := "";
     ForceQuery := false; URLQuery := ""; Fragment := "" |}.

(** [parse] of a URL without fragment. *)
Definition url_parse (rawURL : string) : option URL :=
  if str_exists is_control rawURL then None
  else if bool_decide (rawURL = "*") then Some (no_url <| Path := "*" |>)
  else
    '(scheme, rest) ← getScheme rawURL;
    let '(forced, rest, query) :=
      if HasSuffix rest "?" && (CountByte rest "?" =? 1)%nat
      then (true, str_take (String.length rest - 1) rest, "")
      else let '(r, q) := cut_byte "?" rest in (false, r, default "" q) in
    let u := no_url <| Scheme := ToLower scheme |> <| ForceQuery := forced |> <| URLQuery := query |> in
    if negb (HasPrefix rest "/") && negb (bool_decide (scheme = "")) then Some (u <| Opaque := rest |>)
    else if negb (HasPrefix rest "/") && Contains (fst (cut_byte "/" rest)) ":" then None
    else
      '(user, host, rest) ←
        (if (negb (bool_decide (scheme = "")) || negb (HasPrefix rest "///")) && HasPrefix rest "//" then
           let authority := str_drop 2 rest in
           let '(authority, tail) := cut_byte "/" authority in
           '(user, host) ← parseAuthority authority;
           Some (user, host, match tail with Some t => "/" +:+ t | None => "" end)
         else Some (false, "", rest));
      '(p, raw) ← setPath rest;
      Some (u <| HasUser := user |> <| Host := host |> <| Path := p |> <| RawPath := raw |>).

(** [url.Parse]. *)
Definition url_Parse (rawURL : string) : option URL :=
  let '(u, frag) := cut_byte "#" rawURL in
  url ← url_parse u;
  match frag with
  | None | Some EmptyString => Some url
  | Some f => f' ← unescape encodeFragment f; Some (url <| Fragment := f' |>)
  end.

(** [URL.Hostname] and [URL.Port]: brackets and a numeric port are split off. *)
Definition splitHostPort (hostPort : string) : string * string :=
  let '(host, port) :=
    match cut_last ":" hostPort with
    | Some (h, p) => if validOptionalPort (":" +:+ p) then (h, p) else (hostPort, "")
    | None => (hostPort, "")
    end in
  (if HasPrefix host "[" && HasSuffix host "]"
   then str_take (String.length host - 2) (str_drop 1 host) else host, port).

Definition Hostname (u : URL) : string := fst (splitHostPort (Host u)).
Definition Port (u : URL) : string := snd (splitHostPort (Host u)).

(** ** net *)

(** A decimal octet without leading zero. *)
Definition ipv4_field (s : string) : bool :=
  str_forall is_digit s && negb (bool_decide (s = ""))
  && negb ((1 <? String.length s)%nat && HasPrefix s "0")
  && match Atoi s with Some n => (n <=? 255)%Z | None => false end.

Definition is_ipv4 (s : string) : bool :=
  let fields := split_byte "." s in (length fields =? 4)%nat && forallb ipv4_field fields.

Definition ipv6_group (s : string) : bool :=
  (1 <=? String.length s)%nat && (String.length s <=? 4)%nat
  && str_forall (fun c => match unhex c with Some _ => true | None => false end) s.

(** The number of 16-bit groups of a colon-separated run; a last dotted quad counts two. *)
Fixpoint ipv6_groups (last_run : bool) (fields : list string) : option nat :=
  match fields with
  | [] => Some 0%nat
  | [f] => if ipv6_group f then Some 1%nat
           else if last_run && is_ipv4 f then Some 2%nat else None
  | f :: fs => if ipv6_group f then S <$> ipv6_groups last_run fs else None
  end.

(** Cut at the first double colon. *)
Fixpoint cut_ellipsis (s : string) : option (string * string) :=
  match s with
  | EmptyString => None
  | String c s' =>
      if HasPrefix s "::" then Some (EmptyString, str_drop 2 s)
      else '(a, b) ← cut_ellipsis s'; Some (String c a, b)
  end.

Definition run_fields (s : string) : list string :=
  match s with EmptyString => [] | _ => split_byte ":" s end.

Definition is_ipv6 (s : string) : bool :=
  match cut_ellipsis s with
  | None => bool_decide (ipv6_groups true (split_byte ":" s) = Some 8%nat)
  | Some (a, b) =>
      match ipv6_groups false (run_fields a), ipv6_groups true (run_fields b) with
      | Some m, Some n => (m + n <=? 7)%nat
      | _, _ => false
      end
  end.

(** [net.ParseIP(s) != nil]: the first dot or colon decides the family. *)
Fixpoint ip_family (s : string) : option ascii :=
  match s with
  | EmptyString => None
  | String c s' => if Ascii.eqb c "." || Ascii.eqb c ":" then Some c else ip_family s'
  end.

Definition net_ParseIP (s : string) : bool :=
  match ip_family s with
  | Some c => if Ascii.eqb c "." then is_ipv4 s else is_ipv6 s
  | None => false
  end.

(** ** time *)

(** Decimal with at least [width] digits. *)
Definition padded (width : nat) (n : Z) : string :=
  let d := Itoa n in
  Nat.iter (width - String.length d) (String "0") d.

(** Proleptic Gregorian date of a day counted from 0001-01-01. *)
Definition civil_date (day : Z) : Z * Z * Z :=
  let z := (day + 306)%Z in
  let era := (z / 146097)%Z in
  let doe := (z mod 146097)%Z in
  let yoe := ((doe - doe / 1460 + doe / 36524 - doe / 146096) / 365)%Z in
  let doy := (doe - (365 * yoe + yoe / 4 - yoe / 100))%Z in
  let mp := ((5 * doy + 2) / 153)%Z in
  let d := (doy - (153 * mp + 2) / 5 + 1)%Z in
  let m := (if mp <? 10 then mp + 3 else mp - 9)%Z in
  ((yoe + era * 400 + (if m <=? 2 then 1 else 0))%Z, m, d).

(** [t.UTC().Format(time.RFC3339Nano)] for nanoseconds since Go's zero time. *)
Definition FormatRFC3339Nano (ns : Z) : string :=
  let secs := (ns / 1000000000)%Z in
  let frac := TrimRightByte (padded 9 (ns mod 1000000000)) "0" in
  let '(y, m, d) := civil_date (secs / 86400) in
  let t := (secs mod 86400)%Z in
  padded 4 y +:+ "-" +:+ padded 2 m +:+ "-" +:+ padded 2 d +:+ "T"
  +:+ padded 2 (t / 3600) +:+ ":" +:+ padded 2 (t / 60 mod 60) +:+ ":" +:+ padded 2 (t mod 60)
  +:+ (if bool_decide (frac = "") then "" else "." +:+ frac) +:+ "Z".

(** ** Checks on texts of the Go documentation and of the repository's tests *)

Example parse_full :
  url_Parse "https://u:p@llm.example.com:443/v1%2Fx?q=1#top" =
  Some {| Scheme := "https"; Opaque := ""; HasUser := true; Host := "llm.example.com:443";
          Path := "/v1/x"; RawPath := "/v1%2Fx"; ForceQuery := false; URLQuery := "q=1";
          Fragment := "top" |}.
Proof. vm_compute. reflexivity. Qed.

Example parse_opaque :
  Opaque <$> url_Parse "mailto:a@b.c" = Some "a@b.c" /\ url_Parse "https://[fe80::1" = None /\
  url_Parse ("https://a b") = None /\ url_Parse "a:b/c" = Some (no_url <| Scheme := "a" |> <| Opaque := "b/c" |>).
Proof. vm_compute. auto. Qed.

Example parse_ip :
  net_ParseIP <$> ["10.0.0.1"; "010.0.0.1"; "1.2.3"; "::1"; "fe80::1:2"; "1::2::3"; "::ffff:1.2.3.4"; "a.b"]
  = [true; false; false; true; true; false; true; false].
Proof. vm_compute. reflexivity. Qed.

(** 2026-10-28T12:00:00Z, the cutover of the migration test, and a fraction. *)
Example format_cutover :
  FormatRFC3339Nano 63928785600000000000 = "2026-10-28T12:00:00Z" /\
  FormatRFC3339Nano 63928785600120000000 = "2026-10-28T12:00:00.12Z".
Proof. vm_compute. auto. Qed.
