(* ===== verification/GoTime.v ===== *)
(** * time: parsing RFC 3339

    [time.Parse(time.RFC3339, _)].  The library first tries a strict parser and falls
    back to the one driven by the layout, which accepts more (hours of one digit, a comma
    before the fraction, offsets up to 24:60) and agrees with the first where both
    accept; the definition follows the second.  Instants are nanoseconds since Go's zero
    time, 0001-01-01T00:00:00Z. *)

From Stdlib Require Import Ascii.
From S2P Require Import Prelude GoStd GoNet.
#[local] Open Scope Z_scope.

Definition digit_value (c : ascii) : Z := Z.of_nat (Ascii.nat_of_ascii c) - 48.

(** [getnum]: two digits, or one when the field has no fixed width. *)
Definition getnum (fixed : bool) (s : string) : option (Z * string) :=
  match s with
  | String a t =>
      if negb (is_digit a) then None
      else match t with
           | String b u => if is_digit b then Some (digit_value a * 10 + digit_value b, u)
                           else if fixed then None else Some (digit_value a, t)
           | EmptyString => if fixed then None else Some (digit_value a, t)
           end
  | EmptyString => None
  end.

Definition isLeap (year : Z) : bool :=
  (year mod 4 =? 0) && (negb (year mod 100 =? 0) || (year mod 400 =? 0)).

Definition daysIn (month year : Z) : Z :=
  if month =? 2 then if isLeap year then 29 else 28
  else if (month =? 4) || (month =? 6) || (month =? 9) || (month =? 11) then 30 else 31.

(** Days of the proleptic Gregorian calendar since 0001-01-01. *)
Definition day_number (year month day : Z) : Z :=
  let y := if month <=? 2 then year - 1 else year in
  let m := if month <=? 2 then month + 9 else month - 3 in
  365 * y + y / 4 - y / 100 + y / 400 + (153 * m + 2) / 5 + day - 1 - 306.

(** The longest prefix of digits, and what follows it. *)
Fixpoint span_digits (s : string) : string * string :=
  match s with
  | String c t => if is_digit c then let '(d, r) := span_digits t in (String c d, r) else (EmptyString, s)
  | EmptyString => (EmptyString, EmptyString)
  end.

Definition digits_value (s : string) : Z :=
  fold_left (fun acc c => acc * 10 + digit_value c) (String.list_ascii_of_string s) 0.

(** A fraction of a second the layout does not mention; nine digits count. *)
Definition parseFraction (s : string) : Z * string :=
  match s with
  | String c t =>
      if Ascii.eqb c "." || Ascii.eqb c "," then
        let '(digits, rest) := span_digits t in
        if bool_decide (digits = "") then (0, s)
        else let kept := str_take 9 digits in
             (digits_value kept * 10 ^ (9 - Z.of_nat (String.length kept)), rest)
      else (0, s)
  | EmptyString => (0, s)
  end.

(** [Z07:00]: the offset in seconds, which ends the text. *)
Definition parseOffset (s : string) : option Z :=
  match s with
  | String "Z" EmptyString => Some 0
  | String sign t =>
      match getnum true t with
      | Some (hr, String ":" u) =>
          match getnum true u with
          | Some (mm, EmptyString) =>
              if (24 <? hr) || (60 <? mm) then None
              else if Ascii.eqb sign "+" then Some ((hr * 60 + mm) * 60)
              else if Ascii.eqb sign "-" then Some (- ((hr * 60 + mm) * 60))
              else None
          | _ => None
          end
      | _ => None
      end
  | EmptyString => None
  end.

(** A field followed by the literal byte [sep] of the layout. *)
Definition field (fixed : bool) (sep : ascii) (s : string) : option (Z * string) :=
  match getnum fixed s with
  | Some (n, String c t) => if Ascii.eqb c sep then Some (n, t) else None
  | _ => None
  end.

Definition parseYear (s : string) : option (Z * string) :=
  let p := str_take 4 s in
  match str_drop 4 s with
  | String "-" t =>
      if (String.length p =? 4)%nat && str_forall is_digit p then Some (digits_value p, t) else None
  | _ => None
  end.

Definition instant (year month day hour min sec nsec offset : Z) : Z :=
  (day_number year month day * 86400 + hour * 3600 + min * 60 + sec - offset) * 1000000000 + nsec.

Definition time_ParseRFC3339 (value : string) : option Z :=
  '(year, v) ← parseYear value;
  '(month, v) ← field true "-" v;
  '(day, v) ← field true "T" v;
  '(hour, v) ← field false ":" v;
  '(min, v) ← field true ":" v;
  '(sec, v) ← getnum true v;
  let '(nsec, v) := parseFraction v in
  offset ← parseOffset v;
  if (month <=? 0) || (12 <? month) || (day <? 1) || (daysIn month year <? day)
     || (24 <=? hour) || (60 <=? min) || (60 <=? sec)
  then None
  else Some (instant year month day hour min sec nsec offset).

(** The zero time, the cutover of the migration test, and what each parser decides. *)
Example parse_instants :
  time_ParseRFC3339 "0001-01-01T00:00:00Z" = Some 0 /\
  time_ParseRFC3339 "2026-10-28T12:00:00Z" = Some 63928785600000000000 /\
  time_ParseRFC3339 "2026-10-28T14:30:00.25+02:30" = Some 63928785600250000000 /\
  time_ParseRFC3339 "2024-02-29T7:00:00,5-24:60" = time_ParseRFC3339 "2024-03-01T08:00:00.5Z" /\
  time_ParseRFC3339 "2023-02-29T07:00:00Z" = None /\ time_ParseRFC3339 "2026-10-28" = None /\
  time_ParseRFC3339 "2026-10-28T12:00:00Z " = None /\ time_ParseRFC3339 "" = None.
Proof. vm_compute. repeat split. Qed.

Example parse_formatted :
  time_ParseRFC3339 (FormatRFC3339Nano 63928785600250000000) = Some 63928785600250000000.
Proof. vm_compute. reflexivity. Qed.
