(* ===== verification/GoFloat.v ===== *)
(** * strconv: decimal texts and float64

    What encoding/json does with the number of a document that is decoded into an
    interface value and encoded again: [strconv.ParseFloat(_, 64)] rounds the decimal to
    the nearest float64, ties to even, and [strconv.AppendFloat(_, -1, 64)] writes the
    shortest decimal that reads back as the same float64.  Both are computed here with
    exact integers. *)

From Stdlib Require Import Ascii.
From S2P Require Import Prelude GoStd GoTime.
#[local] Open Scope Z_scope.

(** A decimal text: digits without a point, times ten to a power. *)
Record decimal := { dec_neg : bool; dec_digits : Z; dec_exp : Z }.

(** The exponent's digits: once past 10000 more of them change nothing. *)
Definition exponent_value (s : string) : Z :=
  fold_left (fun e c => if e <? 10000 then e * 10 + digit_value c else e) (String.list_ascii_of_string s) 0.

Definition read_exponent (s : string) : Z :=
  match s with
  | String _ (String "-" t) => - exponent_value t
  | String _ (String "+" t) => exponent_value t
  | String _ t => exponent_value t
  | EmptyString => 0
  end.

(** Read a text the JSON scanner accepted as a number. *)
Definition read_decimal (s : string) : decimal :=
  let '(neg, s) := match s with String "-" t => (true, t) | _ => (false, s) end in
  let '(int, s) := span_digits s in
  let '(frac, s) := match s with String "." t => span_digits t | _ => ("", s) end in
  {| dec_neg := neg;
     dec_digits := digits_value (int +:+ frac);
     dec_exp := read_exponent s - Z.of_nat (String.length frac) |}.

(** The number of decimal digits of a positive integer. *)
Definition decimal_length (n : Z) : Z := Z.of_nat (String.length (Itoa n)).

(** Nonnegative float64s: [f_mant * 2 ^ f_exp], the mantissa below [2 ^ 53]. *)
Record float64 := { f_mant : Z; f_exp : Z }.

(** [num / den] rounded to an integer, ties to even. *)
Definition round_even (num den : Z) : Z :=
  let q := num / den in
  let r := num mod den in
  if 2 * r <? den then q else if den <? 2 * r then q + 1 else if Z.even q then q else q + 1.

(** The fraction [num * 2 ^ - e / den]. *)
Definition scaled (num den e : Z) : Z * Z :=
  if 0 <=? e then (num, den * 2 ^ e) else (num * 2 ^ (- e), den).

(** The float64 nearest to the positive fraction, [None] when it overflows. *)
Definition nearest (num den : Z) : option float64 :=
  let guess := Z.log2 num - Z.log2 den - 52 in
  let '(a, b) := scaled num den guess in
  let e := Z.max (-1074) (if a / b <? 2 ^ 52 then guess - 1 else guess) in
  let '(a, b) := scaled num den e in
  let m := round_even a b in
  let '(m, e) := if 2 ^ 53 <=? m then (m / 2, e + 1) else (m, e) in
  if 971 <? e then None else Some {| f_mant := m; f_exp := e |}.

(** Ten to any power as a fraction. *)
Definition pow10 (e : Z) : Z * Z := if 0 <=? e then (10 ^ e, 1) else (1, 10 ^ (- e)).

Definition nearest_decimal (digits e : Z) : option float64 :=
  if digits =? 0 then Some {| f_mant := 0; f_exp := 0 |}
  else if 310 <? decimal_length digits + e then None
  else if decimal_length digits + e <? -330 then Some {| f_mant := 0; f_exp := 0 |}
  else let '(n, d) := pow10 e in nearest (digits * n) d.

(** [strconv.ParseFloat]: [None] stands for a range error. *)
Definition ParseFloat (s : string) : option (bool * float64) :=
  let d := read_decimal s in
  f ← nearest_decimal (dec_digits d) (dec_exp d);
  Some (dec_neg d, f).

Definition same_float (a b : float64) : bool :=
  let e := Z.min (f_exp a) (f_exp b) in
  f_mant a * 2 ^ (f_exp a - e) =? f_mant b * 2 ^ (f_exp b - e).

Definition reads_back (f : float64) (digits e : Z) : bool :=
  match nearest_decimal digits e with Some g => same_float f g | None => false end.

(** The exact value as a fraction. *)
Definition fraction (f : float64) : Z * Z :=
  if 0 <=? f_exp f then (f_mant f * 2 ^ f_exp f, 1) else (f_mant f, 2 ^ (- f_exp f)).

(** The power of ten of the leading digit: [10 ^ k <= value < 10 ^ (k + 1)]. *)
Definition magnitude (f : float64) : Z :=
  let '(n, d) := fraction f in
  if d <=? n then decimal_length (n / d) - 1
  else let k := decimal_length (d / n) in if d <=? n * 10 ^ (k - 1) then 1 - k else - k.

(** The decimal of [n] digits that reads back: truncated, or truncated and increased,
    or the nearer of the two. *)
Definition rounded (f : float64) (n : Z) : option (Z * Z) :=
  let e := magnitude f + 1 - n in
  let '(num, den) := fraction f in
  let '(pn, pd) := pow10 (- e) in
  let '(num, den) := (num * pn, den * pd) in
  let lo := num / den in
  let down := reads_back f lo e in
  let up := reads_back f (lo + 1) e in
  if down && up then Some (round_even num den, e)
  else if down then Some (lo, e)
  else if up then Some (lo + 1, e)
  else None.

(** Seventeen digits always suffice; trailing zeros are no digits. *)
Fixpoint shortest (fuel : nat) (f : float64) (n : Z) : Z * Z :=
  match rounded f n, fuel with
  | Some d, _ => d
  | None, S fuel => shortest fuel f (n + 1)
  | None, O => (0, 0)
  end.

Definition zeros (n : Z) : string := Nat.iter (Z.to_nat n) (String "0") "".

(** [%e] with the digits given: the exponent has at least two digits, which
    encoding/json reduces to one when the first is a zero. *)
Definition format_e (digits : string) (x : Z) : string :=
  str_take 1 digits +:+ (if (String.length digits <=? 1)%nat then "" else "." +:+ str_drop 1 digits)
  +:+ "e" +:+ (if x <? 0 then "-" else "+") +:+ Itoa (Z.abs x).

(** [%f] with the digits given; [x] is the power of ten of the first one. *)
Definition format_f (digits : string) (x : Z) : string :=
  let n := Z.of_nat (String.length digits) in
  if x <? 0 then "0." +:+ zeros (- x - 1) +:+ digits
  else if n <=? x + 1 then digits +:+ zeros (x + 1 - n)
  else str_take (Z.to_nat (x + 1)) digits +:+ "." +:+ str_drop (Z.to_nat (x + 1)) digits.

(** encoding/json's [floatEncoder]. *)
Definition AppendFloat (neg : bool) (f : float64) : string :=
  (if neg then "-" else "") +:+
  (if f_mant f =? 0 then "0"
   else
     let '(d, e) := shortest 17 f 1 in
     let text := Itoa d in
     let x := e + Z.of_nat (String.length text) - 1 in
     let digits := TrimRightByte text "0" in
     if (x <? -6) || (21 <=? x) then format_e digits x else format_f digits x).

(** A number of a document, decoded and encoded again. *)
Definition number_text (s : string) : option string :=
  '(neg, f) ← ParseFloat s; Some (AppendFloat neg f).

(** Values whose encodings the Go documentation and its tests fix. *)
Example number_texts :
  number_text "0" = Some "0" /\ number_text "-0" = Some "-0" /\ number_text "1.0" = Some "1" /\
  number_text "100" = Some "100" /\ number_text "0.1" = Some "0.1" /\ number_text "-12.50" = Some "-12.5" /\
  number_text "9007199254740993" = Some "9007199254740992" /\
  number_text "1e20" = Some "100000000000000000000" /\ number_text "1E21" = Some "1e+21" /\
  number_text "0.000001" = Some "0.000001" /\ number_text "1e-7" = Some "1e-7" /\
  number_text "123456789.123456789" = Some "123456789.12345679" /\
  number_text "1e23" = Some "1e+23" /\ number_text "1e309" = None /\ number_text "1e-400" = Some "0".
Proof. vm_compute. repeat split. Qed.
