(* ===== verification/GoJson.v ===== *)
(** * encoding/json

    The scanner of the library as the state machine it is (a byte at a time, with the
    open containers on a stack, no deeper than ten thousand), the texts of string
    literals, and the encoding of decoded values.  [json_scan] is one value of
    [Decoder.Decode], [json_Unmarshal] the whole text of [json.Unmarshal], [json_Marshal]
    the encoding of a value decoded into an interface. *)

From Stdlib Require Import Ascii.
From S2P Require Import Prelude GoStd GoTime GoFloat.

(** ** UTF-8 *)

Definition byte_value (c : ascii) : Z := Z.of_nat (Ascii.nat_of_ascii c).
Definition byte_chr (z : Z) : ascii := Ascii.ascii_of_nat (Z.to_nat z).

Definition within (lo hi : Z) (c : ascii) : bool := (lo <=? byte_value c)%Z && (byte_value c <=? hi)%Z.
Definition continuation (c : ascii) : bool := within 128 191 c.
Definition low6 (c : ascii) : Z := (byte_value c - 128)%Z.

Definition decode2 (a b : ascii) : option Z :=
  if within 194 223 a && continuation b then Some ((byte_value a - 192) * 64 + low6 b)%Z else None.

Definition decode3 (a b c : ascii) : option Z :=
  if within 224 239 a && continuation b && continuation c
     && (if within 224 224 a then within 160 191 b else true)
     && (if within 237 237 a then within 128 159 b else true)
  then Some ((byte_value a - 224) * 4096 + low6 b * 64 + low6 c)%Z else None.

Definition decode4 (a b c d : ascii) : option Z :=
  if within 240 244 a && continuation b && continuation c && continuation d
     && (if within 240 240 a then within 144 191 b else true)
     && (if within 244 244 a then within 128 143 b else true)
  then Some ((byte_value a - 240) * 262144 + low6 b * 4096 + low6 c * 64 + low6 d)%Z else None.

(** A byte that starts no rune; [utf8.DecodeRune] returns [RuneError] and one byte. *)
Definition bad_byte : Z := -1.
Definition RuneError : Z := 65533.

(** The runes of a string, as ranging over it with [utf8.DecodeRune] gives them. *)
Fixpoint runes (s : string) : list Z :=
  match s with
  | EmptyString => []
  | String a s1 =>
      if within 0 127 a then byte_value a :: runes s1
      else match s1 with
      | EmptyString => [bad_byte]
      | String b s2 =>
          match decode2 a b with
          | Some r => r :: runes s2
          | None =>
              match s2 with
              | EmptyString => bad_byte :: runes s1
              | String c s3 =>
                  match decode3 a b c with
                  | Some r => r :: runes s3
                  | None =>
                      match s3 with
                      | EmptyString => bad_byte :: runes s1
                      | String d s4 =>
                          match decode4 a b c d with
                          | Some r => r :: runes s4
                          | None => bad_byte :: runes s1
                          end
                      end
                  end
              end
          end
      end
  end.

Definition byte_string (z : Z) : string := String (byte_chr z) EmptyString.

(** [utf8.EncodeRune] of a rune that is no surrogate. *)
Definition encode_rune (r : Z) : string :=
  if (r <? 128)%Z then byte_string r
  else if (r <? 2048)%Z then byte_string (192 + r / 64) +:+ byte_string (128 + r mod 64)
  else if (r <? 65536)%Z
  then byte_string (224 + r / 4096) +:+ byte_string (128 + r / 64 mod 64) +:+ byte_string (128 + r mod 64)
  else byte_string (240 + r / 262144) +:+ byte_string (128 + r / 4096 mod 64)
       +:+ byte_string (128 + r / 64 mod 64) +:+ byte_string (128 + r mod 64).

Definition valid_utf8 (s : string) : bool := forallb (fun r => 0 <=? r)%Z (runes s).

(** ** String literals *)

Definition code (c : ascii) : Z := byte_value c.

(** The value of a hexadecimal digit, itself given by its code. *)
Definition hex_rune (r : Z) : option Z :=
  if (48 <=? r)%Z && (r <=? 57)%Z then Some (r - 48)%Z
  else if (97 <=? r)%Z && (r <=? 102)%Z then Some (r - 87)%Z
  else if (65 <=? r)%Z && (r <=? 70)%Z then Some (r - 55)%Z
  else None.

(** [getu4]. *)
Definition getu4 (a b c d : Z) : option Z :=
  x ← hex_rune a; y ← hex_rune b; z ← hex_rune c; w ← hex_rune d;
  Some (((x * 16 + y) * 16 + z) * 16 + w)%Z.

(** The code after a backslash that stands for one byte, other than [u]. *)
Definition simple_escape (r : Z) : option Z :=
  if bool_decide (r ∈ code <$> [ "\"; "/"; "034" ]%char) then Some r
  else if (r =? code "b")%Z then Some 8%Z
  else if (r =? code "f")%Z then Some 12%Z
  else if (r =? code "n")%Z then Some 10%Z
  else if (r =? code "r")%Z then Some 13%Z
  else if (r =? code "t")%Z then Some 9%Z
  else None.

Definition high_surrogate (r : Z) : bool := (55296 <=? r)%Z && (r <? 56320)%Z.
Definition low_surrogate (r : Z) : bool := (56320 <=? r)%Z && (r <? 57344)%Z.

Definition prepend (p : string) (o : option string) : option string := o ≫= fun s => Some (p +:+ s).

(** [unquote] of the text between the quotes.  A surrogate that does not start a pair
    becomes U+FFFD, and so does a byte that starts no rune. *)
Fixpoint unquote (rs : list Z) : option string :=
  match rs with
  | [] => Some ""
  | r :: rs1 =>
      if (r =? code "\")%Z then
        match rs1 with
        | [] => None
        | e :: rs2 =>
            match simple_escape e with
            | Some b => prepend (encode_rune b) (unquote rs2)
            | None =>
                if negb (e =? code "u")%Z then None
                else match rs2 with
                | a :: b :: c :: d :: rs3 =>
                    match getu4 a b c d with
                    | None => None
                    | Some u =>
                        if high_surrogate u then
                          match rs3 with
                          | x :: y :: a' :: b' :: c' :: d' :: rs4 =>
                              match getu4 a' b' c' d' with
                              | Some v =>
                                  if (x =? code "\")%Z && (y =? code "u")%Z && low_surrogate v
                                  then prepend (encode_rune ((u - 55296) * 1024 + (v - 56320) + 65536)) (unquote rs4)
                                  else prepend (encode_rune RuneError) (unquote rs3)
                              | None => prepend (encode_rune RuneError) (unquote rs3)
                              end
                          | _ => prepend (encode_rune RuneError) (unquote rs3)
                          end
                        else if low_surrogate u then prepend (encode_rune RuneError) (unquote rs3)
                        else prepend (encode_rune u) (unquote rs3)
                    end
                | _ => None
                end
            end
        end
      else if (r =? bad_byte)%Z then prepend (encode_rune RuneError) (unquote rs1)
      else if (r =? 34)%Z || (r <? 32)%Z then None
      else prepend (encode_rune r) (unquote rs1)
  end.

Definition hex_char (n : Z) : string := String (digit_of hex_digits n) EmptyString.
Definition backslash : string := "\".

(** What [appendString] writes for a rune, escaping HTML. *)
Definition escape_rune (r : Z) : string :=
  if (r =? bad_byte)%Z then backslash +:+ "ufffd"
  else if (r =? 92)%Z || (r =? 34)%Z then backslash +:+ byte_string r
  else if (r =? 8)%Z then backslash +:+ "b"
  else if (r =? 12)%Z then backslash +:+ "f"
  else if (r =? 10)%Z then backslash +:+ "n"
  else if (r =? 13)%Z then backslash +:+ "r"
  else if (r =? 9)%Z then backslash +:+ "t"
  else if (r <? 32)%Z || (r =? code "<")%Z || (r =? code ">")%Z || (r =? code "&")%Z
  then backslash +:+ "u00" +:+ hex_char (r / 16) +:+ hex_char (r mod 16)
  else if (r =? 8232)%Z || (r =? 8233)%Z then backslash +:+ "u202" +:+ hex_char (r mod 16)
  else encode_rune r.

Fixpoint concat_runes (f : Z -> string) (rs : list Z) : string :=
  match rs with
  | [] => ""
  | r :: rs' => f r +:+ concat_runes f rs'
  end.

Definition escape_string (s : string) : string := concat_runes escape_rune (runes s).
Definition quote_string (s : string) : string := dquote +:+ escape_string s +:+ dquote.

(** ** Documents *)

Inductive json :=
| JsNull
| JsBool (b : bool)
| JsNumber (text : string)
| JsString (s : string)
| JsArray (elems : list json)
| JsObject (fields : list (string * json)).

(** One value read from the front of the data, with the data after it. *)
Inductive scan :=
| ScanEOF
| ScanError (msg : string)
| ScanValue (v : json) (rest : string).

(** ** The scanner *)

(** An open container: an array with its elements so far, an object with its fields so
    far and the key whose value is being read. *)
Inductive frame :=
| FArray (elems : list json)
| FObject (fields : list (string * json)) (key : option string).

(** The states inside a number. *)
Inductive number_state := NNeg | NZero | NInt | NDot | NFrac | NExp | NExpSign | NExpDigits.

(** What the scanner expects next.  Inside a string, [escape] counts what is left of an
    escape sequence: five after a backslash, then the hexadecimal digits. *)
Inductive mode :=
| BeginValue
| BeginValueOrEmpty
| BeginStringOrEmpty
| BeginString
| EndKey
| EndValue
| InString (text : string) (escape : nat)
| InLiteral (v : json) (rest : string)
| InNumber (text : string) (state : number_state).

(** The outcome of a byte: go on, the value has ended (with this byte or before it), or
    the byte is invalid. *)
Inductive outcome :=
| Next (m : mode) (stack : list frame)
| Done (v : json) (eaten : bool)
| Bad (msg : string).

Definition maxNestingDepth : Z := 10000.

Definition is_space (c : ascii) : bool :=
  Ascii.eqb c " " || Ascii.eqb c "009" || Ascii.eqb c "010" || Ascii.eqb c "013".

Definition invalid : outcome := Bad "invalid character".

(** A value is complete: it is the document, an element, or the value of a key. *)
Definition complete (v : json) (eaten : bool) (stack : list frame) : outcome :=
  match stack with
  | [] => Done v eaten
  | FArray l :: st => Next EndValue (FArray (l ++ [v]) :: st)
  | FObject fs (Some k) :: st => Next EndValue (FObject (fs ++ [(k, v)]) None :: st)
  | FObject _ None :: _ => invalid
  end.

(** A string is complete: the key of an object that has none, or a value. *)
Definition complete_string (text : string) (stack : list frame) : outcome :=
  match unquote (runes text) with
  | None => invalid
  | Some s => match stack with
              | FObject fs None :: st => Next EndKey (FObject fs (Some s) :: st)
              | _ => complete (JsString s) true stack
              end
  end.

Definition push (f : frame) (m : mode) (stack : list frame) : outcome :=
  if (Z.of_nat (length stack) <? maxNestingDepth)%Z then Next m (f :: stack) else Bad "exceeded max depth".

Definition begin_value (c : ascii) (stack : list frame) : outcome :=
  if is_space c then Next BeginValue stack
  else if Ascii.eqb c "{" then push (FObject [] None) BeginStringOrEmpty stack
  else if Ascii.eqb c "[" then push (FArray []) BeginValueOrEmpty stack
  else if Ascii.eqb c "034" then Next (InString "" 0) stack
  else if Ascii.eqb c "-" then Next (InNumber "-" NNeg) stack
  else if Ascii.eqb c "0" then Next (InNumber "0" NZero) stack
  else if is_digit c then Next (InNumber (String c "") NInt) stack
  else if Ascii.eqb c "t" then Next (InLiteral (JsBool true) "rue") stack
  else if Ascii.eqb c "f" then Next (InLiteral (JsBool false) "alse") stack
  else if Ascii.eqb c "n" then Next (InLiteral JsNull "ull") stack
  else invalid.

Definition begin_string (c : ascii) (stack : list frame) : outcome :=
  if is_space c then Next BeginString stack
  else if Ascii.eqb c "034" then Next (InString "" 0) stack
  else invalid.

(** [stateEndValue] inside a container. *)
Definition end_value (c : ascii) (stack : list frame) : outcome :=
  if is_space c then Next EndValue stack
  else match stack with
  | FArray l :: st =>
      if Ascii.eqb c "," then Next BeginValue stack
      else if Ascii.eqb c "]" then complete (JsArray l) true st else invalid
  | FObject fs None :: st =>
      if Ascii.eqb c "," then Next BeginString stack
      else if Ascii.eqb c "}" then complete (JsObject fs) true st else invalid
  | _ => invalid
  end.

Definition hex_byte (c : ascii) : bool := match unhex c with Some _ => true | None => false end.

Definition in_string (text : string) (escape : nat) (c : ascii) (stack : list frame) : outcome :=
  let text' := text +:+ String c "" in
  match escape with
  | O => if Ascii.eqb c "034" then complete_string text stack
         else if Ascii.eqb c "\" then Next (InString text' 5) stack
         else if (byte_value c <? 32)%Z then invalid
         else Next (InString text' 0) stack
  | 5 => if Ascii.eqb c "u" then Next (InString text' 4) stack
         else if bool_decide (c ∈ [ "b"; "f"; "n"; "r"; "t"; "\"; "/"; "034" ]%char)
         then Next (InString text' 0) stack
         else invalid
  | S k => if hex_byte c then Next (InString text' k) stack else invalid
  end.

(** The state of the number after one more byte, [None] when the number has ended. *)
Definition number_step (s : number_state) (c : ascii) : option number_state :=
  let e := Ascii.eqb c "e" || Ascii.eqb c "E" in
  match s with
  | NNeg => if Ascii.eqb c "0" then Some NZero else if is_digit c then Some NInt else None
  | NZero => if Ascii.eqb c "." then Some NDot else if e then Some NExp else None
  | NInt => if is_digit c then Some NInt else if Ascii.eqb c "." then Some NDot else if e then Some NExp else None
  | NDot => if is_digit c then Some NFrac else None
  | NFrac => if is_digit c then Some NFrac else if e then Some NExp else None
  | NExp => if Ascii.eqb c "+" || Ascii.eqb c "-" then Some NExpSign
            else if is_digit c then Some NExpDigits else None
  | NExpSign | NExpDigits => if is_digit c then Some NExpDigits else None
  end.

(** The states a number may end in. *)
Definition number_ends (s : number_state) : bool :=
  match s with NZero | NInt | NFrac | NExpDigits => true | _ => false end.

Definition in_number (text : string) (s : number_state) (c : ascii) (stack : list frame) : outcome :=
  match number_step s c with
  | Some s' => Next (InNumber (text +:+ String c "") s') stack
  | None =>
      if negb (number_ends s) then invalid
      else match complete (JsNumber text) false stack with
           | Next _ stack' => end_value c stack'
           | o => o
           end
  end.

Definition in_literal (v : json) (rest : string) (c : ascii) (stack : list frame) : outcome :=
  match rest with
  | String r rest' =>
      if negb (Ascii.eqb c r) then invalid
      else if bool_decide (rest' = "") then complete v true stack else Next (InLiteral v rest') stack
  | EmptyString => invalid
  end.

(** One byte. *)
Definition feed (m : mode) (stack : list frame) (c : ascii) : outcome :=
  match m with
  | BeginValue => begin_value c stack
  | BeginValueOrEmpty =>
      if is_space c then Next BeginValueOrEmpty stack
      else if Ascii.eqb c "]" then end_value c stack else begin_value c stack
  | BeginStringOrEmpty =>
      if is_space c then Next BeginStringOrEmpty stack
      else if Ascii.eqb c "}" then end_value c stack else begin_string c stack
  | BeginString => begin_string c stack
  | EndKey => if is_space c then Next EndKey stack
              else if Ascii.eqb c ":" then Next BeginValue stack else invalid
  | EndValue => end_value c stack
  | InString text escape => in_string text escape c stack
  | InLiteral v rest => in_literal v rest c stack
  | InNumber text s => in_number text s c stack
  end.

(** The data ends: nothing was there, the document is a number, or it is cut off. *)
Definition at_eof (m : mode) (stack : list frame) : scan :=
  match m, stack with
  | BeginValue, [] => ScanEOF
  | InNumber text s, [] => if number_ends s then ScanValue (JsNumber text) "" else ScanError "unexpected EOF"
  | _, _ => ScanError "unexpected EOF"
  end.

Fixpoint scan_from (m : mode) (stack : list frame) (s : string) : scan :=
  match s with
  | EmptyString => at_eof m stack
  | String c s' =>
      match feed m stack c with
      | Next m' stack' => scan_from m' stack' s'
      | Done v eaten => ScanValue v (if eaten then s' else s)
      | Bad msg => ScanError msg
      end
  end.

Definition json_scan (data : string) : scan := scan_from BeginValue [] data.

(** [json.Unmarshal] first checks that the text is one value and white space. *)
Definition json_Unmarshal (data : string) : option json :=
  match json_scan data with
  | ScanValue v rest => if str_forall is_space rest then Some v else None
  | _ => None
  end.

(** ** Encoding a value decoded into an interface *)

(** Decoding into a map keeps the last value of a key; encoding sorts the keys. *)
Fixpoint insert_sorted {A} (k : string) (v : A) (l : list (string * A)) : list (string * A) :=
  match l with
  | [] => [(k, v)]
  | (k', v') :: l' =>
      if bool_decide (k = k') then (k, v) :: l'
      else if String.ltb k k' then (k, v) :: l else (k', v') :: insert_sorted k v l'
  end.

Definition sorted_fields {A} (fs : list (string * A)) : list (string * A) :=
  fold_left (fun acc kv => insert_sorted kv.1 kv.2 acc) fs [].

(** [None]: a number does not fit a float64, which makes the decoding fail. *)
Fixpoint json_Marshal (j : json) : option string :=
  match j with
  | JsNull => Some "null"
  | JsBool b => Some (if b then "true" else "false")
  | JsNumber text => number_text text
  | JsString s => Some (quote_string s)
  | JsArray l =>
      texts ← (fix go l := match l with
                           | [] => Some []
                           | x :: l' => t ← json_Marshal x; ts ← go l'; Some (t :: ts)
                           end) l;
      Some ("[" +:+ Join texts "," +:+ "]")
  | JsObject fs =>
      texts ← (fix go l := match l with
                           | [] => Some []
                           | (k, x) :: l' => t ← json_Marshal x; ts ← go l'; Some ((k, t) :: ts)
                           end) fs;
      Some ("{" +:+ Join ((fun kt => quote_string kt.1 +:+ ":" +:+ kt.2) <$> sorted_fields texts) "," +:+ "}")
  end.

(** ** Checks on small documents *)

Definition dq (s : string) : string := dquote +:+ s +:+ dquote.

Example scan_values :
  json_scan "" = ScanEOF /\ json_scan "  " = ScanEOF /\ json_scan "12x" = ScanValue (JsNumber "12") "x" /\
  json_scan " {} [" = ScanValue (JsObject []) " [" /\ json_scan "[1,]" = ScanError "invalid character" /\
  json_scan "[1 , -0.5e+1]" = ScanValue (JsArray [JsNumber "1"; JsNumber "-0.5e+1"]) "" /\
  json_scan "01" = ScanValue (JsNumber "0") "1" /\ json_scan "-" = ScanError "unexpected EOF" /\
  json_scan ("{" +:+ dq "a" +:+ " : [true,null]}") =
    ScanValue (JsObject [("a", JsArray [JsBool true; JsNull])]) "" /\
  json_scan ("{" +:+ dq "a" +:+ "}") = ScanError "invalid character" /\
  json_Unmarshal "1 2" = None /\ json_Unmarshal " null " = Some JsNull.
Proof. vm_compute. repeat split. Qed.

(** Escapes, a surrogate pair, a lone surrogate and an invalid byte. *)
Example scan_strings :
  json_scan (dq "a\n\u0041\/") = ScanValue (JsString ("a" +:+ chr 10 +:+ "A/")) "" /\
  json_scan (dq "\ud83d\ude00") = ScanValue (JsString (chr 240 +:+ chr 159 +:+ chr 152 +:+ chr 128)) "" /\
  json_scan (dq "\ud83dx") = ScanValue (JsString (chr 239 +:+ chr 191 +:+ chr 189 +:+ "x")) "" /\
  json_scan (dq (chr 195 +:+ "x")) = ScanValue (JsString (chr 239 +:+ chr 191 +:+ chr 189 +:+ "x")) "" /\
  json_scan (dq (chr 10)) = ScanError "invalid character".
Proof. vm_compute. repeat split. Qed.

Example marshalled :
  json_Marshal (JsObject [("b", JsNumber "1.0"); ("a", JsString "<&>"); ("b", JsArray [JsNull; JsBool false])]) =
  Some ("{" +:+ dq "a" +:+ ":" +:+ dq "\u003c\u0026\u003e" +:+ "," +:+ dq "b" +:+ ":[null,false]}").
Proof. vm_compute. reflexivity. Qed.
