(* ===== verification/GoJsonFacts.v ===== *)
(** * encoding/json: reading back what was encoded

    UTF-8 decoding inverts encoding, [unquote] inverts [escape_string] on valid UTF-8, and
    the scanner reads an object of encoded keys and values back ([Unmarshal_strings]). *)

From Stdlib Require Import Ascii.
From S2P Require Import Prelude GoStd GoTime GoFloat GoJson.
#[local] Open Scope Z_scope.

(** ** UTF-8 *)

(** A code point that is no surrogate. *)
Definition scalar (r : Z) : Prop := 0 <= r < 55296 \/ 57344 <= r < 1114112.

Lemma byte_value_range (c : ascii) : 0 <= byte_value c < 256.
Proof. unfold byte_value. pose proof (Ascii.nat_ascii_bounded c). lia. Qed.

Lemma byte_value_chr (z : Z) : 0 <= z < 256 -> byte_value (byte_chr z) = z.
Proof. intros H. unfold byte_value, byte_chr. rewrite Ascii.nat_ascii_embedding; lia. Qed.

Lemma byte_chr_value (c : ascii) : byte_chr (byte_value c) = c.
Proof. unfold byte_value, byte_chr. by rewrite Nat2Z.id, Ascii.ascii_nat_embedding. Qed.

Lemma within_spec (lo hi : Z) (c : ascii) : within lo hi c = true <-> lo <= byte_value c <= hi.
Proof. unfold within. rewrite andb_true_iff, !Z.leb_le. done. Qed.

Lemma within_not (lo hi : Z) (c : ascii) : within lo hi c = false <-> ~ (lo <= byte_value c <= hi).
Proof. rewrite <- within_spec. by destruct (within lo hi c). Qed.

(** Byte tests and code points as linear arithmetic. *)
Ltac utf8 :=
  unfold continuation, low6 in *;
  repeat match goal with
  | H : within _ _ _ = true |- _ => apply within_spec in H
  | H : within _ _ _ = false |- _ => apply within_not in H
  end;
  rewrite ?byte_value_chr in * by (Z.div_mod_to_equations; lia);
  Z.div_mod_to_equations; lia.

Ltac decide_bytes :=
  repeat (first
    [ rewrite (proj2 (within_spec _ _ _)) by utf8
    | rewrite (proj2 (within_not _ _ _)) by utf8 ]; cbn [andb]).

Lemma decode2_encode (r : Z) : 128 <= r < 2048 ->
  decode2 (byte_chr (192 + r / 64)) (byte_chr (128 + r mod 64)) = Some r.
Proof. intros H. unfold decode2, continuation. decide_bytes. f_equal. utf8. Qed.

Lemma decode2_lead (a b : ascii) : ~ (194 <= byte_value a <= 223) -> decode2 a b = None.
Proof. intros H. unfold decode2. by rewrite (proj2 (within_not _ _ _)). Qed.

Lemma decode3_lead (a b c : ascii) : ~ (224 <= byte_value a <= 239) -> decode3 a b c = None.
Proof. intros H. unfold decode3. by rewrite (proj2 (within_not _ _ _)). Qed.

Lemma decode3_encode (r : Z) : scalar r -> 2048 <= r < 65536 ->
  decode3 (byte_chr (224 + r / 4096)) (byte_chr (128 + r / 64 mod 64)) (byte_chr (128 + r mod 64)) = Some r.
Proof.
  intros Hs H. unfold scalar in Hs. unfold decode3.
  replace (within 224 239 _) with true by (symmetry; apply within_spec; utf8).
  unfold continuation. rewrite !(proj2 (within_spec 128 191 _)) by utf8. cbn [andb].
  destruct (within 224 224 _) eqn:E1.
  - rewrite (proj2 (within_spec 160 191 _)) by utf8.
    rewrite (proj2 (within_not 237 237 _)) by utf8. cbn [andb]. f_equal. utf8.
  - destruct (within 237 237 _) eqn:E2; cbn [andb].
    + rewrite (proj2 (within_spec 128 159 _)) by utf8. f_equal. utf8.
    + f_equal. utf8.
Qed.

Lemma decode4_encode (r : Z) : 65536 <= r < 1114112 ->
  decode4 (byte_chr (240 + r / 262144)) (byte_chr (128 + r / 4096 mod 64))
          (byte_chr (128 + r / 64 mod 64)) (byte_chr (128 + r mod 64)) = Some r.
Proof.
  intros H. unfold decode4.
  replace (within 240 244 _) with true by (symmetry; apply within_spec; utf8).
  unfold continuation. rewrite !(proj2 (within_spec 128 191 _)) by utf8. cbn [andb].
  destruct (within 240 240 _) eqn:E1.
  - rewrite (proj2 (within_spec 144 191 _)) by utf8.
    rewrite (proj2 (within_not 244 244 _)) by utf8. cbn [andb]. f_equal. utf8.
  - destruct (within 244 244 _) eqn:E2; cbn [andb].
    + rewrite (proj2 (within_spec 128 143 _)) by utf8. f_equal. utf8.
    + f_equal. utf8.
Qed.

(** The bytes of an encoding in front of a text. *)
Ltac open_bytes :=
  unfold byte_string; rewrite <- ?string_app_assoc, ?string_app_cons, ?string_app_nil_l; cbn [runes].

Lemma runes_encode (r : Z) (s : string) : scalar r -> runes (encode_rune r +:+ s) = r :: runes s.
Proof.
  intros Hs. unfold encode_rune. pose proof Hs as Hs'. unfold scalar in Hs'.
  destruct (Z.ltb_spec r 128).
  { open_bytes. rewrite (proj2 (within_spec 0 127 _)) by utf8. by rewrite byte_value_chr by lia. }
  destruct (Z.ltb_spec r 2048).
  { open_bytes.
    rewrite (proj2 (within_not 0 127 _)) by utf8. by rewrite decode2_encode by lia. }
  destruct (Z.ltb_spec r 65536).
  { open_bytes.
    rewrite (proj2 (within_not 0 127 _)) by utf8.
    rewrite decode2_lead by utf8. by rewrite decode3_encode by (done || lia). }
  open_bytes.
  rewrite (proj2 (within_not 0 127 _)) by utf8.
  rewrite decode2_lead by utf8. rewrite decode3_lead by utf8. by rewrite decode4_encode by lia.
Qed.

Lemma decode2_inv (a b : ascii) (r : Z) :
  decode2 a b = Some r -> scalar r /\ encode_rune r = String a (String b "").
Proof.
  unfold decode2. destruct (_ && _) eqn:E; [| done]. intros [= <-]. bool_props.
  split; [unfold scalar; utf8 |]. unfold encode_rune.
  rewrite (proj2 (Z.ltb_ge _ 128)), (proj2 (Z.ltb_lt _ 2048)) by utf8.
  unfold byte_string. rewrite ?string_app_cons, ?string_app_nil_l.
  replace (192 + _) with (byte_value a) by utf8. replace (128 + _) with (byte_value b) by utf8.
  by rewrite !byte_chr_value.
Qed.

Lemma decode3_inv (a b c : ascii) (r : Z) :
  decode3 a b c = Some r -> scalar r /\ encode_rune r = String a (String b (String c "")).
Proof.
  unfold decode3. destruct (_ && _ && _ && _ && _) eqn:E; [| done]. intros [= <-]. bool_props.
  assert (scalar ((byte_value a - 224) * 4096 + low6 b * 64 + low6 c) /\
          2048 <= (byte_value a - 224) * 4096 + low6 b * 64 + low6 c < 65536) as [Hs Hr].
  { unfold scalar. destruct (within 224 224 a) eqn:G1, (within 237 237 a) eqn:G2; utf8. }
  split; [done |]. unfold encode_rune.
  rewrite (proj2 (Z.ltb_ge _ 128)), (proj2 (Z.ltb_ge _ 2048)), (proj2 (Z.ltb_lt _ 65536)) by lia.
  unfold byte_string. rewrite ?string_app_cons, ?string_app_nil_l.
  replace (224 + _) with (byte_value a) by utf8.
  replace (128 + _ / 64 mod 64) with (byte_value b) by utf8.
  replace (128 + _ mod 64) with (byte_value c) by utf8.
  by rewrite !byte_chr_value.
Qed.

Lemma decode4_inv (a b c d : ascii) (r : Z) :
  decode4 a b c d = Some r -> scalar r /\ encode_rune r = String a (String b (String c (String d ""))).
Proof.
  unfold decode4. destruct (_ && _ && _ && _ && _ && _) eqn:E; [| done]. intros [= <-]. bool_props.
  assert (Hs : 65536 <= (byte_value a - 240) * 262144 + low6 b * 4096 + low6 c * 64 + low6 d < 1114112).
  { destruct (within 240 240 a) eqn:G1, (within 244 244 a) eqn:G2; utf8. }
  split; [unfold scalar; lia |]. unfold encode_rune.
  rewrite (proj2 (Z.ltb_ge _ 128)), (proj2 (Z.ltb_ge _ 2048)), (proj2 (Z.ltb_ge _ 65536)) by lia.
  unfold byte_string. rewrite ?string_app_cons, ?string_app_nil_l.
  replace (240 + _) with (byte_value a) by utf8.
  replace (128 + _ / 4096 mod 64) with (byte_value b) by utf8.
  replace (128 + _ / 64 mod 64) with (byte_value c) by utf8.
  replace (128 + _ mod 64) with (byte_value d) by utf8.
  by rewrite !byte_chr_value.
Qed.

Lemma ascii_inv (a : ascii) :
  within 0 127 a = true -> scalar (byte_value a) /\ encode_rune (byte_value a) = String a "".
Proof.
  intros Ha. apply within_spec in Ha. split; [unfold scalar; lia |].
  unfold encode_rune. rewrite (proj2 (Z.ltb_lt _ 128)) by lia. unfold byte_string. by rewrite byte_chr_value.
Qed.

(** One step of [runes]: the text starts with the encoding of a code point, or with a
    byte that starts none. *)
Lemma runes_step (s : string) : s <> "" ->
  exists r pre rest, runes s = r :: runes rest /\ s = pre +:+ rest /\ (String.length rest < String.length s)%nat /\
    (r = bad_byte \/ (scalar r /\ encode_rune r = pre)).
Proof.
  destruct s as [|a s1]; [done |]. intros _.
  assert (Hbad : exists r pre rest, bad_byte :: runes s1 = r :: runes rest /\ String a s1 = pre +:+ rest /\
            (String.length rest < S (String.length s1))%nat /\ (r = bad_byte \/ (scalar r /\ encode_rune r = pre))).
  { exists bad_byte, (String a ""), s1. repeat split; [lia | by left]. }
  cbn [runes String.length]. destruct (within 0 127 a) eqn:Ha.
  { exists (byte_value a), (String a ""), s1. repeat split; [lia |]. right. by apply ascii_inv. }
  destruct s1 as [|b s2]; [by apply Hbad |].
  destruct (decode2 a b) as [r|] eqn:E2.
  { exists r, (String a (String b "")), s2. repeat split; [cbn; lia |]. right. by apply decode2_inv. }
  destruct s2 as [|c s3]; [by apply Hbad |].
  destruct (decode3 a b c) as [r|] eqn:E3.
  { exists r, (String a (String b (String c ""))), s3. repeat split; [cbn; lia |]. right. by apply decode3_inv. }
  destruct s3 as [|d s4]; [by apply Hbad |].
  destruct (decode4 a b c d) as [r|] eqn:E4; [| by apply Hbad].
  exists r, (String a (String b (String c (String d "")))), s4. repeat split; [cbn; lia |]. right. by apply decode4_inv.
Qed.

(** Induction over the runes of a text of valid UTF-8. *)
Lemma utf8_ind (P : string -> Prop) :
  P "" ->
  (forall r s, scalar r -> P s -> P (encode_rune r +:+ s)) ->
  forall s, valid_utf8 s = true -> P s.
Proof.
  intros H0 Hs s. induction s as [s IH] using (induction_ltof1 _ String.length). unfold ltof in IH.
  intros Hv. destruct (decide (s = "")) as [-> | Hne]; [done |].
  destruct (runes_step s Hne) as (r & pre & rest & Hr & -> & Hl & Hc).
  unfold valid_utf8 in Hv. rewrite Hr in Hv. cbn [forallb] in Hv. bool_props.
  destruct Hc as [-> | [Hsc <-]]; [done |]. by apply Hs, IH.
Qed.

Lemma runes_concat (f : Z -> string) (r : Z) (s : string) : scalar r ->
  concat_runes f (runes (encode_rune r +:+ s)) = f r +:+ concat_runes f (runes s).
Proof. intros Hs. by rewrite runes_encode. Qed.

(** ** String literals *)

(** A fact about the ASCII codes, checked code by code. *)
Lemma ascii_codes (P : Z -> Prop) (r : Z) : Forall P (seqZ 0 128) -> 0 <= r < 128 -> P r.
Proof. intros H Hr. rewrite Forall_forall in H. apply H, elem_of_seqZ. lia. Qed.

Lemma escape_rune_large (r : Z) : 128 <= r -> r <> 8232 -> r <> 8233 -> escape_rune r = encode_rune r.
Proof.
  intros H1 H2 H3. unfold escape_rune, code, bad_byte.
  change (byte_value "<") with 60. change (byte_value ">") with 62. change (byte_value "&") with 38.
  repeat match goal with |- context [(?a =? ?b)%Z] => rewrite (proj2 (Z.eqb_neq a b)) by lia end.
  by rewrite (proj2 (Z.ltb_ge r 32)) by lia.
Qed.

Lemma unquote_plain (r : Z) (rs : list Z) : 128 <= r -> unquote (r :: rs) = prepend (encode_rune r) (unquote rs).
Proof.
  intros H. cbn [unquote]. unfold code, bad_byte. change (byte_value "\") with 92.
  repeat match goal with |- context [(?a =? ?b)%Z] => rewrite (proj2 (Z.eqb_neq a b)) by lia end.
  by rewrite (proj2 (Z.ltb_ge r 32)) by lia.
Qed.

Lemma unquote_escape_rune (r : Z) (t : string) : scalar r ->
  unquote (runes (escape_rune r +:+ t)) = prepend (encode_rune r) (unquote (runes t)).
Proof.
  intros Hs. destruct (Z.ltb_spec r 128) as [Hr | Hr].
  - apply (ascii_codes (fun r => unquote (runes (escape_rune r +:+ t)) = prepend (encode_rune r) (unquote (runes t))));
      [| unfold scalar in Hs; lia].
    repeat constructor.
  - destruct (decide (r = 8232)) as [-> | H1]; [done |]. destruct (decide (r = 8233)) as [-> | H2]; [done |].
    by rewrite escape_rune_large, runes_encode, unquote_plain.
Qed.

(** [unquote] inverts the escaping of valid UTF-8. *)
Lemma unquote_escape (s : string) : valid_utf8 s = true -> unquote (runes (escape_string s)) = Some s.
Proof.
  intros Hv. pattern s. apply utf8_ind; [done | | done]. clear. intros r s Hr IH.
  unfold escape_string. rewrite runes_concat by done. fold (escape_string s).
  by rewrite unquote_escape_rune, IH.
Qed.

(** ** The scanner inside a string *)

(** What is left of an escape after one more byte, [None] when the byte ends the string
    or is invalid. *)
Definition step_escape (escape : nat) (c : ascii) : option nat :=
  match in_string "" escape c [] with
  | Next (InString _ e) _ => Some e
  | _ => None
  end.

Fixpoint passes (escape : nat) (w : string) : option nat :=
  match w with
  | EmptyString => Some escape
  | String c w' => match step_escape escape c with Some e => passes e w' | None => None end
  end.

Lemma complete_not_string (v : json) (b : bool) (st st' : list frame) (t : string) (e : nat) :
  complete v b st <> Next (InString t e) st'.
Proof. destruct st as [|[l | fs [k|]] st]; done. Qed.

Lemma complete_string_not_string (text : string) (st st' : list frame) (t : string) (e : nat) :
  complete_string text st <> Next (InString t e) st'.
Proof.
  unfold complete_string. destruct (unquote _); [| done].
  destruct st as [|[l | fs [k|]] st]; try done; apply complete_not_string.
Qed.

Lemma in_string_step (text : string) (e e' : nat) (c : ascii) (st : list frame) :
  step_escape e c = Some e' -> in_string text e c st = Next (InString (text +:+ String c "") e') st.
Proof.
  unfold step_escape. intros H.
  destruct (in_string "" e c []) as [[]| |] eqn:E; try done. injection H as ->. revert E.
  unfold in_string. destruct e as [|[|[|[|[|[|e]]]]]].
  1: destruct (Ascii.eqb c "034"); [by intros ?%complete_string_not_string |].
  1: destruct (Ascii.eqb c "\"); [intros [=]; by subst |]. 1: destruct (_ <? 32)%Z; [done |].
  6: destruct (Ascii.eqb c "u"); [intros [=]; by subst |]; destruct (bool_decide _); [| done].
  all: try (destruct (hex_byte c); [| done]).
  all: intros [=]; by subst.
Qed.

Lemma scan_passes (w t s : string) (e e' : nat) (st : list frame) :
  passes e w = Some e' ->
  scan_from (InString t e) st (w +:+ s) = scan_from (InString (t +:+ w) e') st s.
Proof.
  revert t e. induction w as [|c w IH]; intros t e; cbn [passes].
  - intros [= ->]. by rewrite string_app_nil_r.
  - destruct (step_escape e c) as [e1|] eqn:E; [| done]. intros H.
    rewrite string_app_cons. cbn [scan_from feed]. rewrite (in_string_step _ _ _ _ _ E), (IH _ _ H).
    by rewrite <- string_app_assoc.
Qed.

Lemma passes_app (a b : string) (e e' : nat) : passes e a = Some e' -> passes e (a +:+ b) = passes e' b.
Proof.
  revert e. induction a as [|c a IH]; intros e; cbn [passes]; [by intros [= ->] |].
  rewrite string_app_cons. cbn [passes]. destruct (step_escape e c); [apply IH | done].
Qed.

Lemma passes_high (c : ascii) (w : string) : 128 <= byte_value c -> passes 0 (String c w) = passes 0 w.
Proof.
  intros H. cbn [passes]. unfold step_escape, in_string.
  replace (Ascii.eqb c "034") with false by (symmetry; apply Ascii.eqb_neq; intros ->; change (byte_value "034") with 34 in H; lia).
  replace (Ascii.eqb c "\") with false by (symmetry; apply Ascii.eqb_neq; intros ->; change (byte_value "\") with 92 in H; lia).
  by rewrite (proj2 (Z.ltb_ge _ 32)) by lia.
Qed.

Lemma passes_encode (r : Z) : scalar r -> 128 <= r -> passes 0 (encode_rune r) = Some 0%nat.
Proof.
  intros Hs Hr. unfold scalar in Hs. unfold encode_rune. rewrite (proj2 (Z.ltb_ge r 128)) by lia.
  destruct (Z.ltb_spec r 2048); [| destruct (Z.ltb_spec r 65536)];
    unfold byte_string; rewrite ?string_app_cons, ?string_app_nil_l;
    repeat (rewrite passes_high; [| utf8]); reflexivity.
Qed.

Lemma passes_escape_rune (r : Z) : scalar r -> passes 0 (escape_rune r) = Some 0%nat.
Proof.
  intros Hs. destruct (Z.ltb_spec r 128) as [Hr | Hr].
  - apply (ascii_codes (fun r => passes 0 (escape_rune r) = Some 0%nat)); [| unfold scalar in Hs; lia].
    repeat constructor.
  - destruct (decide (r = 8232)) as [-> | H1]; [done |]. destruct (decide (r = 8233)) as [-> | H2]; [done |].
    rewrite escape_rune_large by done. by apply passes_encode.
Qed.

Lemma passes_escape (s : string) : valid_utf8 s = true -> passes 0 (escape_string s) = Some 0%nat.
Proof.
  intros Hv. pattern s. apply utf8_ind; [done | | done]. clear. intros r s Hr IH.
  unfold escape_string. rewrite runes_concat by done. fold (escape_string s).
  by rewrite (passes_app _ _ _ _ (passes_escape_rune r Hr)).
Qed.

(** A quoted text is read as a key where one is expected, and as a value elsewhere. *)
Lemma scan_key (k s : string) (m : mode) (fs : list (string * json)) (st : list frame) :
  valid_utf8 k = true -> m = BeginString \/ m = BeginStringOrEmpty ->
  scan_from m (FObject fs None :: st) (quote_string k +:+ s) = scan_from EndKey (FObject fs (Some k) :: st) s.
Proof.
  intros Hv Hm. unfold quote_string, dquote. rewrite <- !string_app_assoc.
  transitivity (scan_from (InString "" 0) (FObject fs None :: st) (escape_string k +:+ (chr 34 +:+ s))).
  { by destruct Hm as [-> | ->]. }
  rewrite (scan_passes _ _ _ _ _ _ (passes_escape k Hv)). cbn [scan_from].
  change (chr 34 +:+ s) with (String "034" s). cbn [scan_from feed in_string Ascii.eqb Bool.eqb].
  unfold complete_string. by rewrite string_app_nil_l, unquote_escape.
Qed.

(** ** Documents

    [print] writes a document without white space and with its fields in order. *)

Definition encode_field (kt : string * string) : string := quote_string kt.1 +:+ ":" +:+ kt.2.

Fixpoint print (j : json) : string :=
  match j with
  | JsNull => "null"
  | JsBool b => if b then "true" else "false"
  | JsNumber text => text
  | JsString s => quote_string s
  | JsArray l => "[" +:+ Join (print <$> l) "," +:+ "]"
  | JsObject fs => "{" +:+ Join ((fun kv => encode_field (kv.1, print kv.2)) <$> fs) "," +:+ "}"
  end.

(** No numbers, valid UTF-8, and no more than [n] containers inside each other. *)
Fixpoint printable (n : nat) (j : json) : bool :=
  match j with
  | JsNull | JsBool _ => true
  | JsNumber _ => false
  | JsString s => valid_utf8 s
  | JsArray l => match n with O => false | S n => forallb (printable n) l end
  | JsObject fs => match n with O => false | S n => forallb (fun kv => valid_utf8 kv.1 && printable n kv.2) fs end
  end.

(** A place where a value, not a key, is expected. *)
Definition value_place (stack : list frame) : Prop :=
  match stack with FObject _ None :: _ => False | _ => True end.

(** How the scan goes on after a complete value. *)
Definition resume (v : json) (stack : list frame) (s : string) : scan :=
  match complete v true stack with
  | Next m stack' => scan_from m stack' s
  | Done v _ => ScanValue v s
  | Bad msg => ScanError msg
  end.

Definition begins (m : mode) : Prop := m = BeginValue \/ m = BeginValueOrEmpty.

Lemma scan_string_value (v s : string) (m : mode) (st : list frame) :
  valid_utf8 v = true -> begins m -> value_place st ->
  scan_from m st (quote_string v +:+ s) = resume (JsString v) st s.
Proof.
  intros Hv Hm Hst. unfold quote_string, dquote. rewrite <- !string_app_assoc.
  transitivity (scan_from (InString "" 0) st (escape_string v +:+ (chr 34 +:+ s))); [by destruct Hm as [-> | ->] |].
  rewrite (scan_passes _ _ _ _ _ _ (passes_escape v Hv)).
  change (chr 34 +:+ s) with (String "034" s). cbn [scan_from feed in_string Ascii.eqb Bool.eqb].
  unfold complete_string, resume. rewrite string_app_nil_l, unquote_escape by done.
  destruct st as [|[l | fs [k|]] st]; try done.
Qed.

(** What scanning a printed document comes to. *)
Definition scans_back (n : nat) (j : json) : Prop :=
  forall m st s, begins m -> value_place st -> Z.of_nat (n + length st) <= maxNestingDepth ->
  scan_from m st (print j +:+ s) = resume j st s.

Lemma Join_cons (x y : string) (l : list string) (sep : string) :
  Join (x :: y :: l) sep = x +:+ sep +:+ Join (y :: l) sep.
Proof. done. Qed.

Lemma closes (j : json) (acc : list json) (st : list frame) (s : string) :
  resume j (FArray acc :: st) ("]" +:+ s) = resume (JsArray (acc ++ [j])) st s.
Proof. by destruct st as [|[l | fs [k|]] st]. Qed.

Lemma closes_object (fs : list (string * json)) (st : list frame) (s : string) :
  scan_from EndValue (FObject fs None :: st) ("}" +:+ s) = resume (JsObject fs) st s.
Proof. by destruct st as [|[l | fs' [k|]] st]. Qed.

Lemma scan_elems_text (n : nat) (j : json) (l acc : list json) (m : mode) (st : list frame) (s : string) :
  Forall (scans_back n) (j :: l) -> begins m -> Z.of_nat (n + S (length st)) <= maxNestingDepth ->
  scan_from m (FArray acc :: st) (Join (print <$> j :: l) "," +:+ "]" +:+ s) = resume (JsArray (acc ++ j :: l)) st s.
Proof.
  revert j m acc. induction l as [|j' l IH]; intros j m acc Hf Hm Hn; inversion Hf as [|? ? Hj Hl]; subst.
  - cbn [fmap list_fmap Join]. rewrite Hj by first [done | exact I | exact Hn]. apply closes.
  - rewrite 2!fmap_cons, Join_cons, <- !string_app_assoc, Hj by first [done | exact I | exact Hn].
    transitivity (scan_from BeginValue (FArray (acc ++ [j]) :: st) (Join (print <$> j' :: l) "," +:+ "]" +:+ s)); [done |].
    rewrite IH by (done || by left). by rewrite <- app_assoc.
Qed.

Definition print_field (kv : string * json) : string := encode_field (kv.1, print kv.2).

Lemma scan_field (n : nat) (m : mode) (kv : string * json) (fs : list (string * json)) (st : list frame) (s : string) :
  valid_utf8 kv.1 = true -> scans_back n kv.2 -> m = BeginString \/ m = BeginStringOrEmpty ->
  Z.of_nat (n + S (length st)) <= maxNestingDepth ->
  scan_from m (FObject fs None :: st) (print_field kv +:+ s) = scan_from EndValue (FObject (fs ++ [kv]) None :: st) s.
Proof.
  destruct kv as [k v]. unfold print_field, encode_field. cbn [fst snd]. intros Hk Hv Hm Hn.
  rewrite <- !string_app_assoc, scan_key by done.
  transitivity (scan_from BeginValue (FObject fs (Some k) :: st) (print v +:+ s)); [done |].
  by rewrite Hv by first [done | exact I | exact Hn | by left].
Qed.

Lemma scan_fields_text (n : nat) (kv : string * json) (l fs : list (string * json)) (m : mode) (st : list frame) (s : string) :
  Forall (fun kv => valid_utf8 kv.1 = true /\ scans_back n kv.2) (kv :: l) ->
  m = BeginString \/ m = BeginStringOrEmpty -> Z.of_nat (n + S (length st)) <= maxNestingDepth ->
  scan_from m (FObject fs None :: st) (Join (print_field <$> kv :: l) "," +:+ "}" +:+ s) =
  resume (JsObject (fs ++ kv :: l)) st s.
Proof.
  revert kv m fs. induction l as [|kv' l IH]; intros kv m fs Hf Hm Hn; inversion Hf as [|? ? [Hk Hv] Hl]; subst.
  - cbn [fmap list_fmap Join]. rewrite (scan_field n) by done. apply closes_object.
  - rewrite 2!fmap_cons, Join_cons, <- !string_app_assoc, (scan_field n) by done.
    transitivity (scan_from BeginString (FObject (fs ++ [kv]) None :: st) (Join (print_field <$> kv' :: l) "," +:+ "}" +:+ s));
      [done |].
    rewrite IH by (done || by left). by rewrite <- app_assoc.
Qed.

Lemma push_ok (f : frame) (m : mode) (st : list frame) :
  Z.of_nat (length st) < maxNestingDepth -> push f m st = Next m (f :: st).
Proof. unfold push. intros H. by rewrite (proj2 (Z.ltb_lt _ _) H). Qed.

Lemma opens_array (m : mode) (st : list frame) (s : string) :
  begins m -> Z.of_nat (length st) < maxNestingDepth ->
  scan_from m st ("[" +:+ s) = scan_from BeginValueOrEmpty (FArray [] :: st) s.
Proof.
  intros Hm Hn. change ("[" +:+ s) with (String "[" s). cbn [scan_from].
  assert (E : feed m st "[" = push (FArray []) BeginValueOrEmpty st) by by destruct Hm as [-> | ->].
  by rewrite E, push_ok.
Qed.

Lemma opens_object (m : mode) (st : list frame) (s : string) :
  begins m -> Z.of_nat (length st) < maxNestingDepth ->
  scan_from m st ("{" +:+ s) = scan_from BeginStringOrEmpty (FObject [] None :: st) s.
Proof.
  intros Hm Hn. change ("{" +:+ s) with (String "{" s). cbn [scan_from].
  assert (E : feed m st "{" = push (FObject [] None) BeginStringOrEmpty st) by by destruct Hm as [-> | ->].
  by rewrite E, push_ok.
Qed.

(** The scanner reads a printed document back, whatever follows it. *)
Lemma scan_print (n : nat) (j : json) : printable n j = true -> scans_back n j.
Proof.
  revert j. induction n as [n IH] using lt_wf_ind. intros j Hp m st s Hm Hst Hn.
  destruct j as [| [] | t | v | l | fs]; cbn [printable] in Hp.
  1-3: by destruct Hm as [-> | ->], st as [|[l | fs [k|]] st].
  - by destruct n.
  - apply scan_string_value; [by destruct n | done | done].
  - destruct n as [|n]; [done |].
    assert (Hpush : Z.of_nat (length st) < maxNestingDepth) by lia.
    transitivity (scan_from BeginValueOrEmpty (FArray [] :: st) (Join (print <$> l) "," +:+ "]" +:+ s)).
    { cbn [print]. rewrite <- !string_app_assoc. by rewrite opens_array. }
    destruct l as [|j l]; [by destruct st as [|[l | fs [k|]] st] |]. apply (scan_elems_text n); [| by right | cbn; lia].
    apply Forall_forall. intros x Hx. apply IH; [lia |]. by apply (forallb_forall (printable n) (j :: l)), list_elem_of_In.
  - destruct n as [|n]; [done |].
    assert (Hpush : Z.of_nat (length st) < maxNestingDepth) by lia.
    transitivity (scan_from BeginStringOrEmpty (FObject [] None :: st) (Join (print_field <$> fs) "," +:+ "}" +:+ s)).
    { cbn [print]. rewrite <- !string_app_assoc. by rewrite opens_object. }
    destruct fs as [|kv fs]; [by destruct st as [|[l | fs' [k|]] st] |]. apply (scan_fields_text n); [| by right | cbn; lia].
    apply Forall_forall. intros x Hx.
    pose proof (proj1 (forallb_forall _ (kv :: fs)) Hp x (proj1 (list_elem_of_In _ _) Hx)) as Hv.
    cbn beta in Hv. bool_props. split; [done |]. apply IH; [lia | done].
Qed.

Lemma json_scan_print (n : nat) (j : json) (s : string) :
  printable n j = true -> Z.of_nat n <= maxNestingDepth -> json_scan (print j +:+ s) = ScanValue j s.
Proof.
  intros Hp Hn. unfold json_scan. rewrite (scan_print n j Hp); [done | by left | done |].
  cbn [length]. lia.
Qed.

(** ** Objects of strings *)

Definition string_fields (l : list (string * string)) : list (string * json) := prod_map id JsString <$> l.

Definition encode_strings (l : list (string * string)) : string := print (JsObject (string_fields l)).

Definition valid_pair (kv : string * string) : bool := valid_utf8 kv.1 && valid_utf8 kv.2.

Lemma Unmarshal_strings (l : list (string * string)) :
  forallb valid_pair l = true -> json_Unmarshal (encode_strings l) = Some (JsObject (string_fields l)).
Proof.
  intros Hl. unfold json_Unmarshal. rewrite <- (string_app_nil_r (encode_strings l)).
  unfold encode_strings. rewrite (json_scan_print 1); [done | | done].
  cbn [printable]. unfold string_fields. induction l as [|[k v] l IH]; [done |].
  cbn in Hl |- *. unfold valid_pair in Hl. bool_props. cbn in *. rewrite IH by done. by repeat (apply andb_true_iff; split).
Qed.

(** ** What [json_Marshal] writes of an object of strings *)

Lemma insert_sorted_fmap {A B} (f : A -> B) (k : string) (v : A) (l : list (string * A)) :
  insert_sorted k (f v) (prod_map id f <$> l) = prod_map id f <$> insert_sorted k v l.
Proof.
  induction l as [|[k' v'] l IH]; [done |]. cbn. case_bool_decide; [done |].
  destruct (String.ltb k k'); [done |]. cbn. by rewrite IH.
Qed.

Lemma sorted_fields_fmap {A B} (f : A -> B) (l : list (string * A)) :
  sorted_fields (prod_map id f <$> l) = prod_map id f <$> sorted_fields l.
Proof.
  unfold sorted_fields. change (@nil (string * B)) with (prod_map id f <$> @nil (string * A)).
  generalize (@nil (string * A)). induction l as [|[k v] l IH]; intros acc; [done |].
  cbn [fmap list_fmap fold_left prod_map fst snd id]. by rewrite <- IH, insert_sorted_fmap.
Qed.

Lemma Marshal_strings (l : list (string * string)) :
  json_Marshal (JsObject (string_fields l)) = Some (encode_strings (sorted_fields l)).
Proof.
  cbn [json_Marshal].
  assert (E : (fix go l := match l with
                           | [] => Some []
                           | (k, x) :: l' => t ← json_Marshal x; ts ← go l'; Some ((k, t) :: ts)
                           end) (string_fields l) = Some (prod_map id quote_string <$> l)).
  { induction l as [|[k v] l IH]; [done |]. cbn [string_fields fmap list_fmap prod_map fst snd id json_Marshal].
    fold (string_fields l). cbn [mbind option_bind]. by rewrite IH. }
  rewrite E. cbn [mbind option_bind]. rewrite sorted_fields_fmap. unfold encode_strings, string_fields.
  cbn [print]. do 4 f_equal. rewrite <- !list_fmap_compose. by apply list_fmap_ext.
Qed.

Lemma insert_sorted_keys {A} (k : string) (v : A) (l : list (string * A)) :
  (insert_sorted k v l).*1 ⊆ k :: l.*1.
Proof.
  induction l as [|[k' v'] l IH]; [done |]. cbn. case_bool_decide; [set_solver |].
  destruct (String.ltb k k'); cbn; set_solver.
Qed.

Lemma insert_sorted_fresh {A} (k : string) (v : A) (l : list (string * A)) :
  k ∉ l.*1 -> insert_sorted k v l ≡ₚ (k, v) :: l.
Proof.
  induction l as [|[k' v'] l IH]; [done |]. cbn. intros Hk.
  rewrite bool_decide_false by set_solver. destruct (String.ltb k k'); [done |].
  rewrite IH by set_solver. apply Permutation_swap.
Qed.

(** Without duplicate keys, sorting the fields permutes them. *)
Lemma sorted_fields_perm {A} (l : list (string * A)) : NoDup l.*1 -> sorted_fields l ≡ₚ l.
Proof.
  unfold sorted_fields. enough (H : forall acc : list (string * A), NoDup (acc.*1 ++ l.*1) ->
    fold_left (fun acc kv => insert_sorted kv.1 kv.2 acc) l acc ≡ₚ acc ++ l) by apply (H []).
  induction l as [|[k v] l IH]; intros acc Hn; cbn; [by rewrite app_nil_r |].
  assert (Hk : k ∉ acc.*1) by (apply NoDup_app in Hn; set_solver).
  pose proof (insert_sorted_fresh k v acc Hk) as Hp.
  rewrite IH.
  - rewrite Hp. cbn. apply Permutation_middle.
  - rewrite Hp. cbn in Hn |- *. by rewrite <- Permutation_middle in Hn.
Qed.
