(* ===== verification/GoFlag.v ===== *)
(** * flag: the command line

    [flag.CommandLine.Parse] with the values [flag.String], [flag.Int] and [flag.Bool]
    set.  A program's flags are a lookup from names to definitions that update its
    settings; parsing stops at the first argument that is no flag. *)

From Stdlib Require Import Ascii.
From S2P Require Import Prelude GoStd GoTime.
#[local] Open Scope Z_scope.

(** ** strconv.ParseInt with base zero, and strconv.ParseBool *)

(** The value of a digit in any base up to 36. *)
Definition any_digit (c : ascii) : option Z :=
  let l := lower_byte c in
  if is_digit c then Some (digit_value c)
  else if is_lower l then Some (Z.of_nat (Ascii.nat_of_ascii l) - 87)
  else None.

Definition is_byte_of (c : ascii) (lower : ascii) : bool := Ascii.eqb (lower_byte c) lower.

(** The base a text chooses, and its digits. *)
Definition base_prefix (s : string) : Z * string :=
  match s with
  | String "0" (String c (String _ _ as t)) =>
      if is_byte_of c "b" then (2, t) else if is_byte_of c "o" then (8, t)
      else if is_byte_of c "x" then (16, t) else (8, str_drop 1 s)
  | String "0" t => (8, t)
  | _ => (10, s)
  end.

(** Underscores separate digits; one may follow the prefix. *)
Fixpoint underscores_from (hex : bool) (saw : ascii) (s : string) : bool :=
  match s with
  | EmptyString => negb (Ascii.eqb saw "_")
  | String c t =>
      if is_digit c || (hex && match any_digit c with Some d => d <? 16 | None => false end)
      then underscores_from hex "0" t
      else if Ascii.eqb c "_" then Ascii.eqb saw "0" && underscores_from hex "_" t
      else negb (Ascii.eqb saw "_") && underscores_from hex "!" t
  end.

Definition underscoreOK (s : string) : bool :=
  match s with
  | String "0" (String c t) =>
      if is_byte_of c "b" || is_byte_of c "o" || is_byte_of c "x"
      then underscores_from (is_byte_of c "x") "0" t
      else underscores_from false "^" s
  | _ => underscores_from false "^" s
  end.

Fixpoint digits_in (base acc : Z) (s : string) : option Z :=
  match s with
  | EmptyString => Some acc
  | String c t =>
      if Ascii.eqb c "_" then digits_in base acc t
      else match any_digit c with
           | Some d => if d <? base then digits_in base (acc * base + d) t else None
           | None => None
           end
  end.

Definition ParseUint (s : string) : option Z :=
  if bool_decide (s = "") then None
  else let '(base, digits) := base_prefix s in
       if str_exists (Ascii.eqb "_") digits && negb (underscoreOK s) then None
       else digits_in base 0 digits.

Definition ParseInt (s : string) : option Z :=
  let '(neg, s) := match s with
                   | String "-" t => (true, t)
                   | String "+" t => (false, t)
                   | _ => (false, s)
                   end in
  n ← ParseUint s;
  let v := if neg : bool then - n else n in
  if (int_min <=? v) && (v <=? int_max) then Some v else None.

Definition ParseBool (s : string) : option bool :=
  if bool_decide (s ∈ ["1"; "t"; "T"; "TRUE"; "true"; "True"]) then Some true
  else if bool_decide (s ∈ ["0"; "f"; "F"; "FALSE"; "false"; "False"]) then Some false
  else None.

(** ** Flag sets *)

(** What a flag does to the settings, [None] when it refuses its text; a boolean flag
    takes its value only after an equals sign. *)
Record flag (S : Type) := { IsBoolFlag : bool; Set_ : string -> S -> option S }.
Arguments IsBoolFlag {S}.
Arguments Set_ {S}.

Definition StringVar {S} (set : string -> S -> S) : flag S :=
  {| IsBoolFlag := false; Set_ v s := Some (set v s) |}.
Definition IntVar {S} (set : Z -> S -> S) : flag S :=
  {| IsBoolFlag := false; Set_ v s := n ← ParseInt v; Some (set n s) |}.
Definition BoolVar {S} (set : bool -> S -> S) : flag S :=
  {| IsBoolFlag := true; Set_ v s := b ← ParseBool v; Some (set b s) |}.

Definition FlagSet (S : Type) : Type := string -> option (flag S).

(** An argument: no flag, the terminator, a malformed flag, or a flag with its value. *)
Inductive argument :=
| NoFlag
| Terminator
| BadSyntax
| Flag (name : string) (value : option string).

Definition flag_name (s : string) : argument :=
  match s with
  | EmptyString => BadSyntax
  | String c t =>
      if Ascii.eqb c "-" || Ascii.eqb c "=" then BadSyntax
      else let '(name, value) := cut_byte "=" s in Flag name value
  end.

Definition classify_argument (arg : string) : argument :=
  match arg with
  | String "-" (String "-" EmptyString) => Terminator
  | String "-" (String "-" s) => flag_name s
  | String "-" (String c s) => flag_name (String c s)
  | _ => NoFlag
  end.

(** The outcome of parsing: the settings and the remaining arguments, a request for
    help, or a refused command line. *)
Inductive parsed (S : Type) :=
| Parsed (s : S) (rest : list string)
| HelpRequested
| FlagError (msg : string).
Arguments Parsed {S} s rest.
Arguments HelpRequested {S}.
Arguments FlagError {S} msg.

Fixpoint flag_Parse {S} (flags : FlagSet S) (s : S) (args : list string) : parsed S :=
  match args with
  | [] => Parsed s []
  | arg :: rest =>
      match classify_argument arg with
      | NoFlag => Parsed s args
      | Terminator => Parsed s rest
      | BadSyntax => FlagError ("bad flag syntax: " +:+ arg)
      | Flag name value =>
          match flags name with
          | None => if bool_decide (name = "help") || bool_decide (name = "h") then HelpRequested
                    else FlagError ("flag provided but not defined: -" +:+ name)
          | Some f =>
              let invalid v := FlagError ("invalid value " +:+ Quote v +:+ " for flag -" +:+ name) in
              match (if IsBoolFlag f then Some (default "true" value) else value) with
              | Some v => match Set_ f v s with Some s' => flag_Parse flags s' rest | None => invalid v end
              | None =>
                  match rest with
                  | [] => FlagError ("flag needs an argument: -" +:+ name)
                  | v :: rest' => match Set_ f v s with Some s' => flag_Parse flags s' rest' | None => invalid v end
                  end
              end
          end
      end
  end.

Example parse_ints :
  ParseInt "0" = Some 0 /\ ParseInt "-12" = Some (-12) /\ ParseInt "0x1F" = Some 31 /\ ParseInt "017" = Some 15 /\
  ParseInt "1_000" = Some 1000 /\ ParseInt "1__0" = None /\ ParseInt "_1" = None /\ ParseInt "0b12" = None /\
  ParseInt "0_7" = Some 7 /\ ParseInt "" = None /\ ParseInt "+" = None /\ ParseInt "0x" = None /\
  ParseInt "9223372036854775807" = Some int_max /\ ParseInt "9223372036854775808" = None /\
  ParseInt "-9223372036854775808" = Some int_min.
Proof. vm_compute. repeat split. Qed.

(** ** Assignments are read back *)

(** A name a flag can be given by. *)
Definition flag_named (name : string) : bool :=
  negb (bool_decide (name = "")) && negb (HasPrefix name "-") && negb (str_exists (Ascii.eqb "=") name).

(** [--name=value]. *)
Definition assignment (nv : string * string) : string := "--" +:+ nv.1 +:+ "=" +:+ nv.2.

(** The settings after a list of assignments, [None] when one is refused. *)
Fixpoint assign {S} (flags : FlagSet S) (s : S) (l : list (string * string)) : option S :=
  match l with
  | [] => Some s
  | nv :: l' => f ← flags nv.1; s' ← Set_ f nv.2 s; assign flags s' l'
  end.

Lemma classify_assignment (nv : string * string) :
  flag_named nv.1 = true -> classify_argument (assignment nv) = Flag nv.1 (Some nv.2).
Proof.
  destruct nv as [n v]. unfold flag_named, assignment. cbn [fst snd]. intros H. bool_props.
  destruct n as [|c n]; [done |].
  assert (Hc : Ascii.eqb c "-" = false) by (destruct (Ascii.eqb_spec c "-") as [-> | ]; [by cbn in *; destruct n | done]).
  assert (Hq : Ascii.eqb c "=" = false).
  { cbn [str_exists] in *. bool_props. by rewrite Ascii.eqb_sym. }
  transitivity (flag_name (String c n +:+ String "=" v)); [done |].
  rewrite string_app_cons. cbn [flag_name]. rewrite Hc, Hq. cbn [orb].
  rewrite <- string_app_cons. by rewrite cut_byte_app.
Qed.

(** Arguments of the form [--name=value] set exactly these values, in order, whatever
    the values contain. *)
Lemma Parse_assignments {S} (flags : FlagSet S) (s s' : S) (l : list (string * string)) :
  forallb (fun nv => flag_named nv.1) l = true -> assign flags s l = Some s' ->
  flag_Parse flags s (assignment <$> l) = Parsed s' [].
Proof.
  revert s. induction l as [|nv l IH]; intros s Hn; cbn [assign]; [by intros [= ->] |].
  cbn [forallb] in Hn. bool_props. rewrite fmap_cons. cbn [flag_Parse].
  rewrite classify_assignment by done. destruct (flags nv.1) as [f|]; [| done]. cbn [mbind option_bind].
  destruct (Set_ f nv.2 s) as [s1|] eqn:E; [| done]. cbn [mbind option_bind]. intros Ha.
  destruct (IsBoolFlag f); cbn [default from_option id]; rewrite E; by apply IH.
Qed.
