(* ===== verification/GoIP.v ===== *)
(** * net and net/netip: IP addresses as numbers

    [netip_ParseAddr] gives the number an IPv4 or IPv6 text stands for; the predicates
    of net.IP and [netip.Prefix] are comparisons of leading bits. *)

From Stdlib Require Import Ascii.
From S2P Require Import Prelude GoStd GoNet.

(** An address without zone; an IPv4-mapped IPv6 address is a [V6]. *)
Inductive Addr := V4 (n : Z) | V6 (n : Z).

#[global] Instance addr_eq_dec : EqDecision Addr.
Proof. solve_decision. Defined.

(** ** Parsing *)

Definition ipv4_value (s : string) : Z :=
  fold_left (fun acc f => acc * 256 + default 0 (Atoi f))%Z (split_byte "." s) 0%Z.

Fixpoint hex_value (acc : Z) (s : string) : Z :=
  match s with
  | EmptyString => acc
  | String c s' => hex_value (acc * 16 + default 0 (unhex c))%Z s'
  end.

(** The 16-bit groups of a colon-separated run; a dotted quad gives two. *)
Definition group_words (f : string) : list Z :=
  if ipv6_group f then [hex_value 0 f]
  else [Z.shiftr (ipv4_value f) 16; Z.land (ipv4_value f) 65535]%Z.

Definition words_value (ws : list Z) : Z := fold_left (fun acc w => acc * 65536 + w)%Z ws 0%Z.

Definition ipv6_value (s : string) : Z :=
  match cut_ellipsis s with
  | None => words_value (split_byte ":" s ≫= group_words)
  | Some (a, b) =>
      let high := run_fields a ≫= group_words in
      let low := run_fields b ≫= group_words in
      words_value (high ++ replicate (8 - length high - length low) 0%Z ++ low)
  end.

(** [netip.ParseAddr] of a text without zone. *)
Definition netip_ParseAddr (s : string) : option Addr :=
  match ip_family s with
  | Some c => if Ascii.eqb c "."%char
              then if is_ipv4 s then Some (V4 (ipv4_value s)) else None
              else if is_ipv6 s then Some (V6 (ipv6_value s)) else None
  | None => None
  end.

(** [net.ParseIP] succeeds exactly when [netip.ParseAddr] does. *)
Lemma net_ParseIP_ParseAddr (s : string) :
  net_ParseIP s = match netip_ParseAddr s with Some _ => true | None => false end.
Proof. unfold net_ParseIP, netip_ParseAddr. by repeat case_match. Qed.

(** ** Predicates *)

(** [IP.To4] and [Addr.Unmap]: IPv4 addresses and IPv4-mapped IPv6 addresses. *)
Definition Unmap (a : Addr) : Addr :=
  match a with
  | V4 n => V4 n
  | V6 n => if (Z.shiftr n 32 =? 65535)%Z then V4 (Z.land n 4294967295) else V6 n
  end.

(** The [bits] leading bits of the address are those of [base]. *)
Definition leading (bits : Z) (base a : Addr) : bool :=
  match base, a with
  | V4 p, V4 n => (Z.shiftr n (32 - bits) =? Z.shiftr p (32 - bits))%Z
  | V6 p, V6 n => (Z.shiftr n (128 - bits) =? Z.shiftr p (128 - bits))%Z
  | _, _ => false
  end.

(** [netip.ParsePrefix]: an address and its number of leading bits. *)
Definition ParsePrefix (cidr : string) : option (Addr * Z) :=
  match cut_byte "/"%char cidr with
  | (base, Some bits) =>
      match netip_ParseAddr base, Atoi bits with
      | Some base, Some bits => Some (base, bits)
      | _, _ => None
      end
  | _ => None
  end.

(** [netip.MustParsePrefix(cidr).Contains(addr)]; the texts of the source all parse. *)
Definition prefix_contains (cidr : string) (a : Addr) : bool :=
  match ParsePrefix cidr with Some (base, bits) => leading bits base a | None => false end.

(** net.IP methods; the receiver is looked at through [To4]. *)
Definition IsUnspecified (ip : Addr) : bool :=
  bool_decide (Unmap ip = V4 0) || bool_decide (Unmap ip = V6 0).
Definition IsLoopback (ip : Addr) : bool :=
  match Unmap ip with V4 n => (Z.shiftr n 24 =? 127)%Z | V6 n => (n =? 1)%Z end.
Definition IsMulticast (ip : Addr) : bool :=
  match Unmap ip with V4 n => (Z.shiftr n 28 =? 14)%Z | V6 n => (Z.shiftr n 120 =? 255)%Z end.
Definition IsLinkLocalUnicast (ip : Addr) : bool :=
  match Unmap ip with V4 n => (Z.shiftr n 16 =? 43518)%Z | V6 n => (Z.shiftr n 118 =? 1018)%Z end.
Definition IsPrivate (ip : Addr) : bool :=
  match Unmap ip with
  | V4 n => (Z.shiftr n 24 =? 10)%Z || (Z.shiftr n 20 =? 2753)%Z || (Z.shiftr n 16 =? 49320)%Z
  | V6 n => (Z.shiftr n 121 =? 126)%Z
  end.
Definition IsGlobalUnicast (ip : Addr) : bool :=
  negb (bool_decide (Unmap ip = V4 4294967295)) && negb (IsUnspecified ip) && negb (IsLoopback ip)
  && negb (IsMulticast ip) && negb (IsLinkLocalUnicast ip).

Example parse_v4 : netip_ParseAddr "192.0.2.1" = Some (V4 3221225985).
Proof. vm_compute. reflexivity. Qed.
Example parse_mapped : Unmap <$> netip_ParseAddr "::ffff:10.1.2.3" = Some (V4 167838211).
Proof. vm_compute. reflexivity. Qed.
Example parse_v6 : netip_ParseAddr "2001:db8::1" = Some (V6 42540766411282592856903984951653826561).
Proof. vm_compute. reflexivity. Qed.
Example parse_zone : netip_ParseAddr "fe80::1%eth0" = None.
Proof. vm_compute. reflexivity. Qed.

(** A block of leading bits is an interval of numbers. *)
Lemma shiftr_block (n k p : Z) : (0 <= k)%Z ->
  (Z.shiftr n k =? p)%Z = true <-> (p * 2 ^ k <= n < (p + 1) * 2 ^ k)%Z.
Proof.
  intros Hk. rewrite Z.eqb_eq, Z.shiftr_div_pow2 by done.
  pose proof (Z.pow_pos_nonneg 2 k ltac:(lia) Hk) as Hp. split.
  - intros <-. pose proof (Z.mul_div_le n (2 ^ k) Hp). pose proof (Z.mul_succ_div_gt n (2 ^ k) Hp). lia.
  - intros [H1 H2]. symmetry. apply (Z.div_unique_pos n (2 ^ k) p (n - p * 2 ^ k)); lia.
Qed.
