(* ===== verification/GoError.v ===== *)
(** * Go error values

    [error] values with the wrapping of [fmt.Errorf("%w")] and [errors.Join],
    [errors.Is], and the result type of fallible calls. *)

From S2P Require Import Prelude GoStd.

(** The package-level sentinel errors of the source, compared by identity. *)
Inductive sentinel :=
| ErrLegacyUnmapped        (* slugpolicy.ErrLegacyUnmapped *)
| ErrIdentity              (* slugpolicy.ErrIdentity *)
| errSlugRejection         (* controller.errSlugRejection *)
| ErrBYOCTLSNotReady       (* controller.ErrBYOCTLSNotReady *)
| ErrServerClosed          (* net/http.ErrServerClosed *)
| ErrUseLastResponse.      (* net/http.ErrUseLastResponse *)

(** The reasons the source distinguishes in errors of the Kubernetes client. *)
Inductive api_reason :=
| ReasonNotFound
| ReasonConflict
| ReasonAlreadyExists
| ReasonNoMatch
| ReasonOther.

Inductive error :=
| ErrSentinel (s : sentinel)
| ErrText (msg : string)
| ErrAPI (reason : api_reason) (msg : string)
| ErrWrapf (msg : string) (causes : list error)   (* fmt.Errorf with %w *)
| ErrJoin (causes : list error).                  (* errors.Join *)

#[global] Instance sentinel_eq_dec : EqDecision sentinel.
Proof. solve_decision. Defined.
#[global] Instance api_reason_eq_dec : EqDecision api_reason.
Proof. solve_decision. Defined.

Definition sentinel_text (s : sentinel) : string :=
  match s with
  | ErrLegacyUnmapped => "legacy instance has no reviewed slug mapping"
  | ErrIdentity => "instance identity does not match the slug policy"
  | errSlugRejection => "unsafe inference identity or route configuration"
  | ErrBYOCTLSNotReady => "BYOC TLS is not ready"
  | ErrServerClosed => "http: Server closed"
  | ErrUseLastResponse => "net/http: use last response"
  end.

(** [err.Error()]; joined errors are separated by newlines. *)
Fixpoint error_text (e : error) : string :=
  match e with
  | ErrSentinel s => sentinel_text s
  | ErrText msg | ErrAPI _ msg | ErrWrapf msg _ => msg
  | ErrJoin causes =>
      Join ((fix texts l := match l with [] => [] | x :: l' => error_text x :: texts l' end) causes)
           (chr 10)
  end.

(** [fmt.Errorf("%w: text", cause)]. *)
Definition Wrap (cause : error) (text : string) : error :=
  ErrWrapf (error_text cause +:+ ": " +:+ text) [cause].

(** [errors.Is(err, target)] for a sentinel target: itself or any wrapped error. *)
Fixpoint errors_Is (e : error) (target : sentinel) : bool :=
  match e with
  | ErrSentinel s => bool_decide (s = target)
  | ErrText _ | ErrAPI _ _ => false
  | ErrWrapf _ causes | ErrJoin causes =>
      (fix any l := match l with [] => false | x :: l' => errors_Is x target || any l' end) causes
  end.

(** The first client error in the chain, as the [apierrors.Is*] helpers look it up. *)
Fixpoint api_reason_of (e : error) : option api_reason :=
  match e with
  | ErrSentinel _ | ErrText _ => None
  | ErrAPI r _ => Some r
  | ErrWrapf _ causes | ErrJoin causes =>
      (fix first l := match l with
                      | [] => None
                      | x :: l' => match api_reason_of x with Some r => Some r | None => first l' end
                      end) causes
  end.

Definition IsNotFound (e : error) : bool := bool_decide (api_reason_of e = Some ReasonNotFound).
Definition IsConflict (e : error) : bool := bool_decide (api_reason_of e = Some ReasonConflict).
Definition IsAlreadyExists (e : error) : bool :=
  bool_decide (api_reason_of e = Some ReasonAlreadyExists).
Definition IsNoMatchError (e : error) : bool := bool_decide (api_reason_of e = Some ReasonNoMatch).

(** [client.IgnoreNotFound]. *)
Definition IgnoreNotFound (e : option error) : option error :=
  match e with
  | Some e' => if IsNotFound e' then None else Some e'
  | None => None
  end.

(** [errors.Join]: nil when every argument is nil. *)
Definition errors_Join (es : list (option error)) : option error :=
  match omap id es with
  | [] => None
  | causes => Some (ErrJoin causes)
  end.

(** A call that returns a value or an error. *)
Inductive res (A : Type) :=
| Ok (a : A)
| Err (e : error).
Arguments Ok {A} a.
Arguments Err {A} e.

Definition err_of {A} (r : res A) : option error :=
  match r with Ok _ => None | Err e => Some e end.

Definition is_ok {A} (r : res A) : bool :=
  match r with Ok _ => true | Err _ => false end.

Definition res_bind {A B} (r : res A) (k : A -> res B) : res B :=
  match r with Ok a => k a | Err e => Err e end.

Lemma errors_Is_join_cons (c : error) (cs : list error) (t : sentinel) :
  errors_Is (ErrJoin (c :: cs)) t = errors_Is c t || errors_Is (ErrJoin cs) t.
Proof. reflexivity. Qed.

Lemma errors_Is_join (cs : list error) (t : sentinel) :
  errors_Is (ErrJoin cs) t = true <-> exists c, c ∈ cs /\ errors_Is c t = true.
Proof.
  induction cs as [|c cs IH].
  - split; [done | intros (c & Hc & _); by apply not_elem_of_nil in Hc].
  - rewrite errors_Is_join_cons, orb_true_iff, IH. split.
    + intros [H | (x & Hx & H)]; [exists c | exists x]; split; set_solver.
    + intros (x & [-> | Hx]%elem_of_cons & H); [by left | right; by exists x].
Qed.

Lemma errors_Join_None (es : list (option error)) :
  errors_Join es = None <-> Forall (fun e => e = None) es.
Proof.
  unfold errors_Join. induction es as [|[e|] es IH]; cbn.
  - split; [constructor | done].
  - split; [done | intros H; inversion H; done].
  - rewrite Forall_cons. fold (omap (M:=list) (@id (option error)) es). tauto.
Qed.

(** A rejection cause stays recognisable through every wrapping the source applies. *)
Lemma errors_Is_Wrap (c : error) (msg : string) (t : sentinel) :
  errors_Is (Wrap c msg) t = errors_Is c t.
Proof. cbn. by rewrite orb_false_r. Qed.

#[export] Hint Rewrite errors_Is_Wrap : go.
