(* ===== verification/Kube.v ===== *)
(** * Kubernetes object data and the client library the controllers call

    The fields of the Kubernetes objects the source reads or writes, as records
    (a Go pointer is an [option], a nil and an empty map or slice are the same
    value, a time is its distance in nanoseconds from Go's zero time, so the zero
    time is 0).  The helper functions of k8s.io/apimachinery and
    controller-runtime are not part of the repository: class [KubeLib] holds them
    as parameters, class [KubeLaws] the documented behaviour the proofs use. *)

From Stdlib Require Import Ascii.
From S2P Require Import Prelude GoStd GoError.

(** ** metav1 *)

Record OwnerReference := {
  or_APIVersion : string;
  or_Kind : string;
  or_Name : string;
  or_UID : string;
  or_Controller : bool;
}.

Record ObjectMeta := {
  Name : string;
  Namespace : string;
  UID : string;
  ResourceVersion : string;
  Generation : Z;
  CreationTimestamp : Z;
  DeletionTimestamp : option Z;
  Labels : gmap string string;
  Annotations : gmap string string;
  Finalizers : list string;
  OwnerReferences : list OwnerReference;
}.

Record ObjectKey := { key_Namespace : string; key_Name : string }.

Definition ObjectKeyFromObject (m : ObjectMeta) : ObjectKey :=
  {| key_Namespace := Namespace m; key_Name := Name m |}.

Record Condition := {
  cond_Type : string;
  cond_Status : string;
  cond_ObservedGeneration : Z;
  cond_LastTransitionTime : Z;
  cond_Reason : string;
  cond_Message : string;
}.

Definition ConditionTrue : string := "True".
Definition ConditionFalse : string := "False".

(** [DeletionTimestamp.IsZero()]: a nil pointer or the zero time. *)
Definition time_IsZero (t : option Z) : bool :=
  match t with None => true | Some t => (t =? 0)%Z end.

(** Lookup in a nil-able Go map: the zero value when the key is absent. *)
Definition mget (m : gmap string string) (k : string) : string := default "" (m !! k).

Definition empty_meta : ObjectMeta :=
  {| Name := ""; Namespace := ""; UID := ""; ResourceVersion := ""; Generation := 0;
     CreationTimestamp := 0; DeletionTimestamp := None; Labels := ∅; Annotations := ∅;
     Finalizers := []; OwnerReferences := [] |}.

(** ** corev1: Secret, Service, Endpoints, pods *)

Definition SecretTypeOpaque : string := "Opaque".
Definition SecretTypeTLS : string := "kubernetes.io/tls".

Record Secret := {
  sec_Meta : ObjectMeta;
  sec_Type : string;
  sec_Data : gmap string string;
  sec_StringData : gmap string string;
}.

Inductive IntOrString := FromInt (n : Z) | FromString (s : string).

Record ServicePort := {
  sp_Name : string;
  sp_Port : Z;
  sp_TargetPort : IntOrString;
  sp_Protocol : string;
  sp_NodePort : Z;
  sp_AppProtocol : option string;
}.

Record LoadBalancerIngress := { lb_IP : string; lb_Hostname : string }.

Record Service := {
  svc_Meta : ObjectMeta;
  svc_Type : string;
  svc_Selector : gmap string string;
  svc_Ports : list ServicePort;
  svc_LoadBalancer : list LoadBalancerIngress;
}.

Record EndpointSubset := { es_Addresses : list string; es_Ports : list Z }.

Record Endpoints := { ep_Meta : ObjectMeta; ep_Subsets : list EndpointSubset }.

(** A quantity is its exact value in thousandths; every quantity of the source is one. *)
Record Quantity := { q_milli : Z }.

(** [Quantity.MilliValue] and [Quantity.Value] (rounded up away from zero). *)
Definition MilliValue (q : Quantity) : Z := q_milli q.
Definition QValue (q : Quantity) : Z :=
  if (0 <=? q_milli q)%Z then ((q_milli q + 999) / 1000)%Z else (- ((- q_milli q + 999) / 1000))%Z.

Record ResourceRequirements := {
  Requests : gmap string Quantity;
  Limits : gmap string Quantity;
}.

Record HTTPGetAction := { hg_Path : string; hg_Port : IntOrString }.

Record Probe := {
  pr_HTTPGet : option HTTPGetAction;
  pr_Exec : option (list string);
  pr_TCPSocket : option IntOrString;
  pr_InitialDelaySeconds : Z;
  pr_PeriodSeconds : Z;
  pr_TimeoutSeconds : Z;
  pr_SuccessThreshold : Z;
  pr_FailureThreshold : Z;
}.

Record EnvVar := { env_Name : string; env_Value : string }.
Record ContainerPort := { cp_Name : string; cp_ContainerPort : Z; cp_Protocol : string }.
Record VolumeMount := { vm_Name : string; vm_MountPath : string; vm_ReadOnly : bool }.

Record SecurityContext := {
  sc_RunAsNonRoot : option bool;
  sc_RunAsUser : option Z;
  sc_AllowPrivilegeEscalation : option bool;
  sc_ReadOnlyRootFilesystem : option bool;
  sc_CapabilitiesDrop : list string;
}.

Record Container := {
  c_Name : string;
  c_Image : string;
  c_Command : list string;
  c_Args : list string;
  c_Env : list EnvVar;
  c_Ports : list ContainerPort;
  c_Resources : ResourceRequirements;
  c_ReadinessProbe : option Probe;
  c_LivenessProbe : option Probe;
  c_VolumeMounts : list VolumeMount;
  c_SecurityContext : option SecurityContext;
  c_ImagePullPolicy : string;
  c_TerminationMessagePath : string;
  c_TerminationMessagePolicy : string;
}.

Record SecretVolumeSource := { sv_SecretName : string; sv_DefaultMode : option Z }.
Record ConfigMapVolumeSource := { cv_Name : string; cv_DefaultMode : option Z }.

Record Volume := {
  v_Name : string;
  v_EmptyDir : bool;
  v_Secret : option SecretVolumeSource;
  v_ConfigMap : option ConfigMapVolumeSource;
}.

Record PodSpec := {
  ps_DNSPolicy : string;
  ps_InitContainers : list Container;
  ps_Containers : list Container;
  ps_Volumes : list Volume;
  ps_RestartPolicy : string;
  ps_TerminationGracePeriodSeconds : option Z;
  ps_SchedulerName : string;
  ps_ServiceAccountName : string;
  ps_DeprecatedServiceAccount : string;
  ps_AutomountServiceAccountToken : option bool;
  ps_FSGroup : option Z;
}.

(** ** appsv1.Deployment *)

Record PodTemplateSpec := {
  pt_Labels : gmap string string;
  pt_Annotations : gmap string string;
  pt_Spec : PodSpec;
}.

Record DeploymentStatus := {
  ds_ObservedGeneration : Z;
  ds_UpdatedReplicas : Z;
  ds_ReadyReplicas : Z;
  ds_AvailableReplicas : Z;
}.

Record Deployment := {
  d_Meta : ObjectMeta;
  d_Replicas : option Z;
  d_Selector : gmap string string;
  d_Strategy : string;
  d_Template : PodTemplateSpec;
  d_Status : DeploymentStatus;
}.

(** ** networkingv1.Ingress *)

Record IngressServiceBackend := { sb_Name : string; sb_Port : Z }.
Record IngressBackend := { be_Service : option IngressServiceBackend }.

Record HTTPIngressPath := {
  hp_Path : string;
  hp_PathType : option string;
  hp_Backend : IngressBackend;
}.

(** [rule_HTTP] is the optional list of HTTP paths of the rule. *)
Record IngressRule := { rule_Host : string; rule_HTTP : option (list HTTPIngressPath) }.
Record IngressTLS := { tls_Hosts : list string; tls_SecretName : string }.

Record Ingress := {
  ing_Meta : ObjectMeta;
  ing_ClassName : option string;
  ing_DefaultBackend : option IngressBackend;
  ing_Rules : list IngressRule;
  ing_TLS : list IngressTLS;
}.

(** ** Unstructured Traefik Middleware *)

(** What [unstructured.Nested*] finds at a path: nothing, nothing below a null parent
    (which [SetNested*] refuses), a value of another shape (an error), or a value of
    the asked shape. *)
Inductive nested (A : Type) :=
| NotSet
| NullParent
| Malformed
| Present (a : A).
Arguments NotSet {A}.
Arguments NullParent {A}.
Arguments Malformed {A}.
Arguments Present {A} a.

(** The values of a forwardAuth map the source sets; any other option is [JOther]. *)
Inductive jvalue :=
| JString (s : string)
| JBool (b : bool)
| JEmptyList
| JOther (raw : string).

Record Middleware := {
  mw_Meta : ObjectMeta;
  mw_Prefixes : nested (list string);                (* spec.stripPrefix.prefixes *)
  mw_ForwardAuth : nested (gmap string jvalue);      (* spec.forwardAuth *)
}.

Definition empty_middleware : Middleware :=
  {| mw_Meta := empty_meta; mw_Prefixes := NotSet; mw_ForwardAuth := NotSet |}.

(** ** corev1: Namespace and ConfigMap *)

Record NamespaceObject := { ns_Meta : ObjectMeta }.
Record ConfigMap := { cm_Meta : ObjectMeta; cm_Data : gmap string string }.

(** ** Unstructured Gardener objects *)

(** The values of a spec map as the source sets and compares them: scalars, a list of
    strings, a map one level deep; anything else is [UOther] or [LOther]. *)
Inductive uleaf := LString (s : string) | LOther (raw : string).
Inductive uvalue :=
| UNull
| UBool (b : bool)
| UInt (n : Z)
| UString (s : string)
| UStrings (l : list string)
| UMap (m : gmap string uleaf)
| UOther (raw : string).

(** cert.gardener.cloud/v1alpha1 Certificate: spec, status.state and
    status.observedGeneration. *)
Record GardenerCertificate := {
  crt_Meta : ObjectMeta;
  crt_Spec : nested (gmap string uvalue);
  crt_State : nested string;
  crt_ObservedGeneration : nested Z;
}.

(** dns.gardener.cloud/v1alpha1 DNSEntry. *)
Record DNSEntry := { dns_Meta : ObjectMeta; dns_Spec : nested (gmap string uvalue) }.

(** [value, _, _ := unstructured.Nested*]: the zero value unless one of the shape is found. *)
Definition nested_or {A} (zero : A) (n : nested A) : A :=
  match n with Present a => a | _ => zero end.

#[global] Instance uleaf_eq_dec : EqDecision uleaf.
Proof. solve_decision. Defined.
#[global] Instance uvalue_eq_dec : EqDecision uvalue.
Proof. solve_decision. Defined.
#[global] Instance nested_eq_dec {A} `{EqDecision A} : EqDecision (nested A).
Proof. solve_decision. Defined.
#[global] Instance owner_eq_dec : EqDecision OwnerReference.
Proof. solve_decision. Defined.
#[global] Instance objectkey_eq_dec : EqDecision ObjectKey.
Proof. solve_decision. Defined.
#[global] Instance condition_eq_dec : EqDecision Condition.
Proof. solve_decision. Defined.
#[global] Instance intorstring_eq_dec : EqDecision IntOrString.
Proof. solve_decision. Defined.
#[global] Instance serviceport_eq_dec : EqDecision ServicePort.
Proof. solve_decision. Defined.
#[global] Instance quantity_eq_dec : EqDecision Quantity.
Proof. solve_decision. Defined.
#[global] Instance resources_eq_dec : EqDecision ResourceRequirements.
Proof. solve_decision. Defined.
#[global] Instance httpget_eq_dec : EqDecision HTTPGetAction.
Proof. solve_decision. Defined.
#[global] Instance probe_eq_dec : EqDecision Probe.
Proof. solve_decision. Defined.
#[global] Instance envvar_eq_dec : EqDecision EnvVar.
Proof. solve_decision. Defined.
#[global] Instance backend_eq_dec : EqDecision IngressServiceBackend.
Proof. solve_decision. Defined.
#[global] Instance ingressbackend_eq_dec : EqDecision IngressBackend.
Proof. solve_decision. Defined.
#[global] Instance httppath_eq_dec : EqDecision HTTPIngressPath.
Proof. solve_decision. Defined.
#[global] Instance rule_eq_dec : EqDecision IngressRule.
Proof. solve_decision. Defined.
#[global] Instance tls_eq_dec : EqDecision IngressTLS.
Proof. solve_decision. Defined.
#[global] Instance jvalue_eq_dec : EqDecision jvalue.
Proof. solve_decision. Defined.

#[global] Instance envport_eq_dec : EqDecision ContainerPort.
Proof. solve_decision. Defined.
#[global] Instance mount_eq_dec : EqDecision VolumeMount.
Proof. solve_decision. Defined.
#[global] Instance securitycontext_eq_dec : EqDecision SecurityContext.
Proof. solve_decision. Defined.
#[global] Instance container_eq_dec : EqDecision Container.
Proof. solve_decision. Defined.
#[global] Instance secretvolume_eq_dec : EqDecision SecretVolumeSource.
Proof. solve_decision. Defined.
#[global] Instance configmapvolume_eq_dec : EqDecision ConfigMapVolumeSource.
Proof. solve_decision. Defined.
#[global] Instance volume_eq_dec : EqDecision Volume.
Proof. solve_decision. Defined.
#[global] Instance podspec_eq_dec : EqDecision PodSpec.
Proof. solve_decision. Defined.
#[global] Instance template_eq_dec : EqDecision PodTemplateSpec.
Proof. solve_decision. Defined.

(** ** The library functions, as parameters *)

Class KubeLib := {
  (* k8s.io/apimachinery/pkg/util/validation: len(errors) == 0 *)
  IsDNS1123Label : string -> bool;
  IsDNS1123Subdomain : string -> bool;
  IsValidLabelValue : string -> bool;
  (* resource.MustParse, intstr.IntValue *)
  MustParse : string -> Quantity;
  IntValue : IntOrString -> Z;
  (* metav1.GetControllerOf, controllerutil.SetControllerReference *)
  GetControllerOf : list OwnerReference -> option OwnerReference;
  (* metav1.IsControlledBy(obj, owner): the references of obj, the UID of owner *)
  IsControlledBy : list OwnerReference -> string -> bool;
  SetControllerReference : OwnerReference -> ObjectMeta -> res ObjectMeta;
  (* controllerutil finalizer helpers on metadata.finalizers *)
  ContainsFinalizer : list string -> string -> bool;
  AddFinalizer : list string -> string -> list string;
  RemoveFinalizer : list string -> string -> list string;
  (* meta.SetStatusCondition at a given current time, meta.FindStatusCondition *)
  SetStatusCondition : Z -> list Condition -> Condition -> list Condition;
  FindStatusCondition : list Condition -> string -> option Condition;
  (* reflect.DeepEqual of pod templates, which also sees how a quantity was written *)
  TemplateDeepEqual : PodTemplateSpec -> PodTemplateSpec -> bool;
}.

(** The documented behaviour of those functions that the theorems rely on. *)
Class KubeLaws `{KubeLib} : Prop := {
  label_no_slash s : IsDNS1123Label s = true -> str_exists (Ascii.eqb "/"%char) s = false;
  label_value_no_slash s : IsValidLabelValue s = true -> str_exists (Ascii.eqb "/"%char) s = false;
  MustParse_milli n : (0 <= n < 2 ^ 31)%Z -> q_milli (MustParse (Itoa n +:+ "m")) = n;
  MustParse_Mi n : (0 <= n < 2 ^ 31)%Z -> q_milli (MustParse (Itoa n +:+ "Mi")) = (n * 1048576000)%Z;
  MustParse_Gi n : (0 <= n < 2 ^ 31)%Z -> q_milli (MustParse (Itoa n +:+ "Gi")) = (n * 1073741824000)%Z;
  IntValue_int n : IntValue (FromInt n) = n;
  SetControllerReference_ok o m m' :
    or_Controller o = true -> SetControllerReference o m = Ok m' ->
    GetControllerOf (OwnerReferences m') = Some o /\
    m' = m <| OwnerReferences := OwnerReferences m' |>;
  (* an object that has no references yet, in the namespace of its owner *)
  SetControllerReference_fresh o m :
    OwnerReferences m = [] -> exists m', SetControllerReference o m = Ok m';
  IsControlledBy_spec owners uid :
    IsControlledBy owners uid = true <-> exists o, GetControllerOf owners = Some o /\ or_UID o = uid;
  TemplateDeepEqual_sound a b : TemplateDeepEqual a b = true -> a = b;
  RemoveFinalizer_spec fs f : ContainsFinalizer (RemoveFinalizer fs f) f = false;
  ContainsFinalizer_nil f : ContainsFinalizer [] f = false;
  AddFinalizer_spec fs f : ContainsFinalizer (AddFinalizer fs f) f = true;
  FindStatusCondition_set now cs c :
    exists t, FindStatusCondition (SetStatusCondition now cs c) (cond_Type c) =
              Some (c <| cond_LastTransitionTime := t |>);
  (* one condition of a type stays one, and the others stay as they are *)
  SetStatusCondition_unique now cs c :
    NoDup (cond_Type <$> cs) ->
    NoDup (cond_Type <$> SetStatusCondition now cs c) /\
    forall x, x ∈ SetStatusCondition now cs c ->
      (x ∈ cs /\ cond_Type x <> cond_Type c) \/ exists t, x = c <| cond_LastTransitionTime := t |>;
}.

(** The key of the object with this metadata and that of a named object. *)
Definition key_of (ns n : string) : ObjectKey := {| key_Namespace := ns; key_Name := n |}.
