(* ===== verification/KubeRef.v ===== *)
(** * A reference instance of the Kubernetes helper library

    Concrete functions with the documented behaviour of the library functions that
    [KubeLib] leaves open, and the proof that they satisfy [KubeLaws].  Theorems are
    proved for every instance; this one makes them concrete and executable. *)

From Stdlib Require Import Ascii.
From S2P Require Import Prelude GoStd GoError Kube.

Module Ref.

Definition label_char (c : ascii) : bool := is_lower c || is_digit c || Ascii.eqb c "-".

(** First and last byte alphanumeric. *)
Definition ends_ok (p : ascii -> bool) (s : string) : bool :=
  match s, str_rev s with
  | String a _, String b _ => p a && p b
  | _, _ => false
  end.

Definition dns_label (s : string) : bool :=
  (String.length s <=? 63)%nat && str_forall label_char s
  && ends_ok (fun c => is_lower c || is_digit c) s.

Definition dns_subdomain (s : string) : bool :=
  (String.length s <=? 253)%nat &&
  forallb (fun l => str_forall label_char l && ends_ok (fun c => is_lower c || is_digit c) l)
          (split_byte "." s).

Definition label_value (s : string) : bool :=
  bool_decide (s = "") ||
  ((String.length s <=? 63)%nat
   && str_forall (fun c => is_alnum c || Ascii.eqb c "-" || Ascii.eqb c "_" || Ascii.eqb c ".") s
   && ends_ok is_alnum s).

Definition digits (s : string) : Z := default 0%Z (Atoi s).
Definition strip (n : nat) (s : string) : string := str_take (String.length s - n) s.

Definition parse_quantity (s : string) : Quantity :=
  {| q_milli :=
       (if HasSuffix s "m" then digits (strip 1 s)
        else if HasSuffix s "Mi" then digits (strip 2 s) * 1048576000
        else if HasSuffix s "Gi" then digits (strip 2 s) * 1073741824000
        else digits s * 1000)%Z |}.

Definition int_value (p : IntOrString) : Z :=
  match p with FromInt n => n | FromString s => default 0%Z (Atoi s) end.

Definition controller_of (l : list OwnerReference) : option OwnerReference :=
  head (filter (fun r => or_Controller r = true) l).

Definition controlled_by (l : list OwnerReference) (uid : string) : bool :=
  match controller_of l with Some o => bool_decide (or_UID o = uid) | None => false end.

Definition set_controller (o : OwnerReference) (m : ObjectMeta) : res ObjectMeta :=
  match controller_of (OwnerReferences m) with
  | Some r =>
      if bool_decide (r = o) then Ok m
      else Err (ErrText "Object is already owned by another controller")
  | None => Ok (m <| OwnerReferences := OwnerReferences m ++ [o <| or_Controller := true |>] |>)
  end.

Definition contains_finalizer (fs : list string) (f : string) : bool := bool_decide (f ∈ fs).
Definition add_finalizer (fs : list string) (f : string) : list string :=
  if contains_finalizer fs f then fs else fs ++ [f].
Definition remove_finalizer (fs : list string) (f : string) : list string :=
  filter (fun x => x <> f) fs.

Definition find_condition (cs : list Condition) (t : string) : option Condition :=
  head (filter (fun c => cond_Type c = t) cs).

(** The transition time moves only when the status changes. *)
Fixpoint set_condition (now : Z) (cs : list Condition) (new : Condition) : list Condition :=
  match cs with
  | [] => [new <| cond_LastTransitionTime := now |>]
  | c :: cs' =>
      if bool_decide (cond_Type c = cond_Type new) then
        new <| cond_LastTransitionTime :=
                 if bool_decide (cond_Status c = cond_Status new)
                 then cond_LastTransitionTime c else now |> :: cs'
      else c :: set_condition now cs' new
  end.

Lemma parse_suffix (n : Z) (suf : string) :
  (0 <= n < 2 ^ 31)%Z -> digits (strip (String.length suf) (Itoa n +:+ suf)) = n.
Proof.
  intros Hn. unfold strip. rewrite string_length_app.
  replace (String.length (Itoa n) + String.length suf - String.length suf)
    with (String.length (Itoa n)) by lia.
  rewrite str_take_app. unfold digits. rewrite Atoi_Itoa; [done |]. unfold int_min, int_max. lia.
Qed.

Lemma controller_of_snoc (l : list OwnerReference) (o o' : OwnerReference) :
  controller_of l = None -> o <| or_Controller := true |> = o' ->
  controller_of (l ++ [o <| or_Controller := true |>]) = Some o'.
Proof.
  intros Hl <-. unfold controller_of in *. induction l as [|r l IH]; [done |].
  rewrite <-app_comm_cons. destruct (decide (or_Controller r = true)) as [Hr | Hr].
  - by rewrite filter_cons_True in Hl.
  - rewrite filter_cons_False in * by done. auto.
Qed.

(** Which suffix applies depends on the last bytes only. *)
Lemma quantity_tail (a suf : string) :
  q_milli (parse_quantity (a +:+ suf)) =
  let s := a +:+ suf in
  let tail p := HasPrefix (str_rev suf +:+ str_rev a) (str_rev p) in
  (if tail "m" then digits (strip 1 s)
   else if tail "Mi" then digits (strip 2 s) * 1048576000
   else if tail "Gi" then digits (strip 2 s) * 1073741824000
   else digits s * 1000)%Z.
Proof. unfold parse_quantity, HasSuffix. by rewrite str_rev_concat. Qed.

Lemma dns_label_no_slash (s : string) : dns_label s = true -> str_exists (Ascii.eqb "/") s = false.
Proof.
  unfold dns_label. rewrite !andb_true_iff. intros [[_ H] _].
  induction s as [|c s IH]; [done |]. cbn [str_exists str_forall] in *.
  apply andb_true_iff in H as [Hc Hs]. rewrite (IH Hs), orb_false_r.
  destruct (Ascii.eqb_spec "/" c) as [<- |]; [discriminate Hc | done].
Qed.

Lemma label_value_no_slash (s : string) :
  label_value s = true -> str_exists (Ascii.eqb "/") s = false.
Proof.
  unfold label_value. rewrite orb_true_iff, !andb_true_iff. intros [->%bool_decide_eq_true | [[_ H] _]]; [done |].
  induction s as [|c s IH]; [done |]. cbn [str_exists str_forall] in *.
  apply andb_true_iff in H as [Hc Hs]. rewrite (IH Hs), orb_false_r.
  destruct (Ascii.eqb_spec "/" c) as [<- |]; [discriminate Hc | done].
Qed.

Lemma ends_ok_app (p : ascii -> bool) (a : ascii) (s t : string) :
  p a = true -> t <> "" -> str_forall p t = true -> ends_ok p (String a s +:+ t) = true.
Proof.
  intros Ha Hne Ht. unfold ends_ok. rewrite string_app_cons.
  rewrite <-(string_app_cons a s t), str_rev_concat.
  pose proof (str_forall_rev p t Ht) as Hr.
  assert (Hl : str_rev t <> "").
  { destruct t as [|c t]; [done |]. rewrite str_rev_cons. by destruct (str_rev t). }
  destruct (str_rev t) as [|b r]; [done |]. rewrite string_app_cons. cbn in *.
  apply andb_true_iff in Hr as [-> _]. by rewrite Ha.
Qed.

(** A lowercase-hex tail after a DNS-safe head gives a DNS label and a label value. *)
Lemma hex_label_ok (a : ascii) (s t : string) :
  is_lower a = true -> str_forall (fun c => is_lower c || Ascii.eqb c "-") s = true ->
  t <> "" -> str_forall is_lower_hex t = true ->
  String.length (String a s +:+ t) <= 63 ->
  dns_label (String a s +:+ t) = true /\ label_value (String a s +:+ t) = true.
Proof.
  intros Ha Hs Hne Ht Hlen. apply Nat.leb_le in Hlen.
  assert (Hhex : forall c, is_lower_hex c = true -> is_lower c || is_digit c = true)
    by (intros [[] [] [] [] [] [] [] []]; vm_compute; done).
  unfold dns_label, label_value. rewrite Hlen, !str_forall_app.
  rewrite !ends_ok_app; try done.
  - cbn [str_forall]. unfold label_char, is_alnum. rewrite Ha. cbn.
    repeat rewrite (str_forall_impl _ _ s) with (2 := Hs)
      by (intros [[] [] [] [] [] [] [] []]; vm_compute; done).
    repeat rewrite (str_forall_impl _ _ t) with (2 := Ht)
      by (intros [[] [] [] [] [] [] [] []]; vm_compute; done).
    by rewrite !orb_true_r.
  - unfold is_alnum. by rewrite Ha, orb_true_r.
  - revert Ht. apply str_forall_impl. intros c Hc. unfold is_alnum.
    by rewrite <-orb_assoc, Hhex, orb_true_r.
  - by rewrite Ha.
  - revert Ht. apply str_forall_impl, Hhex.
Qed.

Lemma find_set (now : Z) (cs : list Condition) (c : Condition) :
  exists t, find_condition (set_condition now cs c) (cond_Type c) =
            Some (c <| cond_LastTransitionTime := t |>).
Proof.
  induction cs as [|d cs IH]; cbn.
  - exists now. unfold find_condition. by rewrite filter_cons_True.
  - case_bool_decide as Hd.
    + eexists. unfold find_condition. by rewrite filter_cons_True.
    + destruct IH as [t IH]. exists t. unfold find_condition in *.
      by rewrite filter_cons_False.
Qed.

Lemma set_types (now : Z) (cs : list Condition) (c : Condition) (t : string) :
  t ∈ cond_Type <$> set_condition now cs c -> t ∈ cond_Type <$> cs \/ t = cond_Type c.
Proof.
  induction cs as [|d cs IH]; cbn; [set_solver |]. case_bool_decide; cbn; [set_solver |].
  rewrite !elem_of_cons. naive_solver.
Qed.

Lemma set_unique (now : Z) (cs : list Condition) (c : Condition) :
  NoDup (cond_Type <$> cs) ->
  NoDup (cond_Type <$> set_condition now cs c) /\
  forall x, x ∈ set_condition now cs c ->
    (x ∈ cs /\ cond_Type x <> cond_Type c) \/ exists t, x = c <| cond_LastTransitionTime := t |>.
Proof.
  induction cs as [|d cs IH]; cbn [set_condition]; rewrite ?fmap_cons; intros Hn.
  - split; [apply NoDup_singleton |]. intros x ->%list_elem_of_singleton. right. by eexists.
  - apply NoDup_cons in Hn as [Hd Hn]. case_bool_decide as Ht; rewrite fmap_cons.
    + split; [apply NoDup_cons; split; [change (cond_Type c ∉ cond_Type <$> cs); by rewrite <-Ht | done] |].
      intros x [-> | Hx]%elem_of_cons; [right; by eexists | left]. split; [set_solver |].
      intros Hx'. apply Hd. rewrite Ht. rewrite <-Hx'. by apply list_elem_of_fmap_2.
    + destruct (IH Hn) as [IH1 IH2]. split.
      * apply NoDup_cons; split; [| done]. by intros [? | ?]%set_types.
      * intros x [-> | Hx]%elem_of_cons; [left; set_solver |].
        destruct (IH2 x Hx) as [[? ?] | ?]; [left; set_solver | by right].
Qed.

End Ref.

#[export] Instance ref_lib : KubeLib := {
  IsDNS1123Label := Ref.dns_label;
  IsDNS1123Subdomain := Ref.dns_subdomain;
  IsValidLabelValue := Ref.label_value;
  MustParse := Ref.parse_quantity;
  IntValue := Ref.int_value;
  GetControllerOf := Ref.controller_of;
  IsControlledBy := Ref.controlled_by;
  SetControllerReference := Ref.set_controller;
  ContainsFinalizer := Ref.contains_finalizer;
  AddFinalizer := Ref.add_finalizer;
  RemoveFinalizer := Ref.remove_finalizer;
  SetStatusCondition := Ref.set_condition;
  FindStatusCondition := Ref.find_condition;
  TemplateDeepEqual a b := bool_decide (a = b);
}.

#[export] Instance ref_laws : KubeLaws.
Proof.
  split.
  - apply Ref.dns_label_no_slash.
  - apply Ref.label_value_no_slash.
  - intros n Hn. exact (eq_trans (Ref.quantity_tail (Itoa n) "m") (Ref.parse_suffix n "m" Hn)).
  - intros n Hn. exact (eq_trans (Ref.quantity_tail (Itoa n) "Mi")
             (f_equal (fun z => z * 1048576000)%Z (Ref.parse_suffix n "Mi" Hn))).
  - intros n Hn. exact (eq_trans (Ref.quantity_tail (Itoa n) "Gi")
             (f_equal (fun z => z * 1073741824000)%Z (Ref.parse_suffix n "Gi" Hn))).
  - done.
  - intros o m m' Ho. cbn. unfold Ref.set_controller.
    destruct (Ref.controller_of (OwnerReferences m)) as [r|] eqn:E.
    + case_bool_decide; [| done]. intros [= <-]. subst r. split; [done | by destruct m].
    + intros [= <-]. split; [| by destruct m].
      apply Ref.controller_of_snoc; [done | by destruct o; cbn in *; subst].
  - intros o m Hm. cbn. unfold Ref.set_controller. rewrite Hm. by eexists.
  - intros owners uid. cbn. unfold Ref.controlled_by. destruct (Ref.controller_of owners) as [o|].
    + rewrite bool_decide_eq_true. naive_solver.
    + naive_solver.
  - intros a b. cbn. by rewrite bool_decide_eq_true.
  - intros fs f. apply bool_decide_eq_false. cbn. unfold Ref.remove_finalizer.
    intros Hin%list_elem_of_filter. tauto.
  - intros f. apply bool_decide_eq_false. cbn. set_solver.
  - intros fs f. cbn. unfold Ref.add_finalizer. destruct (Ref.contains_finalizer fs f) eqn:E; [done |].
    apply bool_decide_eq_true. set_solver.
  - apply Ref.find_set.
  - apply Ref.set_unique.
Qed.
