(* ===== verification/Api.v ===== *)
(** * The API types of the operator (api/v1alpha1)

    [LLMInstance] and [APITokenRequest] with their spec and status, and [IsBYOC]. *)

From S2P Require Import Prelude GoStd GoError Kube.

(** ** llminstance_types.go *)

(** Validated to [100 <= requestMilli <= limitMilli <= 16000] by the CRD. *)
Record ModelCPUResources := { RequestMilli : Z; LimitMilli : Z }.
Record ModelMemoryResources := { RequestMiB : Z; LimitMiB : Z }.

Record ModelServerResources := {
  CPU : option ModelCPUResources;
  Memory : option ModelMemoryResources;
}.

Record ClusterRef := { KubeconfigSecretName : string }.

Record LLMInstanceSpec := {
  spec_Model : string;
  spec_Replicas : Z;
  spec_Resources : option ModelServerResources;
  spec_ContextSize : option Z;
  spec_ParallelSlots : option Z;
  spec_DNSPolicy : string;
  spec_ClusterRef : option ClusterRef;
}.

Record LLMInstanceStatus := {
  Slug : string;
  SlugSource : string;
  Phase : string;
  Endpoint : string;
  ActiveBYOCKubeconfigSecretName : string;
  ActiveBYOCTargetID : string;
  ActiveBYOCTLSDomain : string;
  ActiveBYOCTLSNamespace : string;
  ActiveBYOCSlug : string;
  ObservedGeneration : Z;
  Conditions : list Condition;
}.

Record LLMInstance := {
  inst_Meta : ObjectMeta;
  Spec : LLMInstanceSpec;
  Status : LLMInstanceStatus;
}.

(** [IsBYOC]: an unset clusterRef and an empty secret name both mean hosted. *)
Definition IsBYOC (i : LLMInstance) : bool :=
  match spec_ClusterRef (Spec i) with
  | Some ref => negb (bool_decide (KubeconfigSecretName ref = ""))
  | None => false
  end.

(** ** tokenrequest_types.go *)

Record APITokenRequestSpec := { InstanceName : string; Description : string }.

Record APITokenRequestStatus := {
  tr_Phase : string;
  SecretName : string;
  tr_ObservedGeneration : Z;
  tr_Conditions : list Condition;
}.

Record APITokenRequest := {
  tr_Meta : ObjectMeta;
  tr_Spec : APITokenRequestSpec;
  tr_Status : APITokenRequestStatus;
}.

(** ** groupversion_info.go *)

Definition GroupVersion : string := "llm.privatellms.msp/v1alpha1".
Definition LLMInstanceKind : string := "LLMInstance".
Definition APITokenRequestKind : string := "APITokenRequest".

(** The controller reference the library builds for an owner of a registered kind. *)
Definition controller_ref (kind : string) (m : ObjectMeta) : OwnerReference :=
  {| or_APIVersion := GroupVersion; or_Kind := kind; or_Name := Name m; or_UID := UID m;
     or_Controller := true |}.

#[global] Instance status_eq_dec : EqDecision LLMInstanceStatus.
Proof. solve_decision. Defined.
