(* ===== verification/Io.v ===== *)
(** * Effects: the calls the operator makes, and a logic over all their answers

    A handler is a value of [io A]: a tree of the calls it makes to the API
    servers, the clock, the random source and the network, branching on the
    answers.  Nothing is assumed of an answer, so a property proved with [safe]
    holds against every API server, stale cache, concurrent writer and failure.
    [run] interprets a handler against one environment. *)

From S2P Require Import Prelude GoStd GoError Kube Api.

(** The object kinds the clients read and write. *)
Inductive kind :=
| KInstance
| KTokenRequest
| KSecret
| KIngress
| KDeployment
| KService
| KEndpoints
| KMiddleware
| KNamespace
| KConfigMap
| KCertificate
| KDNSEntry.

Definition obj (K : kind) : Type :=
  match K with
  | KInstance => LLMInstance
  | KTokenRequest => APITokenRequest
  | KSecret => Secret
  | KIngress => Ingress
  | KDeployment => Deployment
  | KService => Service
  | KEndpoints => Endpoints
  | KMiddleware => Middleware
  | KNamespace => NamespaceObject
  | KConfigMap => ConfigMap
  | KCertificate => GardenerCertificate
  | KDNSEntry => DNSEntry
  end.

#[global] Instance kind_eq_dec : EqDecision kind.
Proof. solve_decision. Defined.

Definition meta_of (K : kind) : obj K -> ObjectMeta :=
  match K with
  | KInstance => inst_Meta
  | KTokenRequest => tr_Meta
  | KSecret => sec_Meta
  | KIngress => ing_Meta
  | KDeployment => d_Meta
  | KService => svc_Meta
  | KEndpoints => ep_Meta
  | KMiddleware => mw_Meta
  | KNamespace => ns_Meta
  | KConfigMap => cm_Meta
  | KCertificate => crt_Meta
  | KDNSEntry => dns_Meta
  end.

(** The client a call goes through: the manager's cached client, the uncached API
    reader, or a client of the bring-your-own cluster reached with a kubeconfig. *)
Inductive client :=
| Cached
| Live
| Remote (kubeconfig : string).

Record Preconditions := { pre_UID : option string; pre_ResourceVersion : option string }.

(** What a verified HTTPS client reports of a response: whether a chain was verified,
    the raw peer certificates, and the status. *)
Record HTTPSResponse := { hr_Verified : bool; hr_Peers : list string; hr_StatusCode : Z }.

Inductive event :=
| EGet (c : client) (K : kind) (key : ObjectKey)
| EList (c : client) (K : kind) (namespace : option string) (labels : list (string * string))
| ECreate (c : client) (K : kind) (o : obj K)
| EUpdate (c : client) (K : kind) (o : obj K)
| EUpdateStatus (c : client) (K : kind) (o : obj K)
| EPatchStatus (c : client) (K : kind) (base o : obj K)
| EDelete (c : client) (K : kind) (o : obj K) (pre : Preconditions)
| ENow                                    (* time.Now *)
| ERandom (n : nat)                       (* rand.Read of n bytes *)
| EProbe (url : string)                   (* GET without credentials, no redirects followed *)
| EHTTPS (url : string).                  (* GET over TLS, no redirects followed *)

(** What a call returns: writes return the object as the server stored it. *)
Definition answer (e : event) : Type :=
  match e with
  | EGet _ K _ => res (obj K)
  | EList _ K _ _ => res (list (obj K))
  | ECreate _ K _ | EUpdate _ K _ | EUpdateStatus _ K _ | EPatchStatus _ K _ _ => res (obj K)
  | EDelete _ _ _ _ => option error
  | ENow => Z
  | ERandom _ => res (list Z)
  | EProbe _ => res Z                     (* the status code; Err: no request or no response *)
  | EHTTPS _ => res HTTPSResponse
  end.

Inductive io (A : Type) : Type :=
| Ret (a : A)
| Vis (e : event) (k : answer e -> io A).
Arguments Ret {A} a.
Arguments Vis {A} e k.

Definition call (e : event) : io (answer e) := Vis e Ret.

#[export] Instance io_ret : MRet io := @Ret.
#[export] Instance io_bind : MBind io := fun A B k =>
  fix bind (m : io A) : io B :=
    match m with
    | Ret a => k a
    | Vis e j => Vis e (fun r => bind (j r))
    end.

(** ** Fallible handlers *)

Definition fio (A : Type) : Type := io (res A).

Definition fret {A} (a : A) : fio A := Ret (Ok a).
Definition fail {A} (e : error) : fio A := Ret (Err e).
(** Run a fallible handler and look at its result ([if err := m; err != nil]). *)
Definition attempt {A} (m : fio A) : io (res A) := m.
Definition fbind {A B} (m : fio A) (k : A -> fio B) : fio B :=
  mbind (M:=io) (fun r => match r with Ok a => k a | Err e => fail e end) m.

(** Sequencing, and sequencing that returns early on an error
    ([if err := m; err != nil { return err }]). *)
Notation "'let!' x ':=' m 'in' k" := (mbind (M:=io) (fun x => k) m)
  (at level 10, x pattern, m at level 100, k at level 200,
   format "'let!'  x  ':='  m  'in' '//' k").
Notation "'let?' x ':=' m 'in' k" := (fbind m (fun x => k))
  (at level 10, x pattern, m at level 100, k at level 200,
   format "'let?'  x  ':='  m  'in' '//' k").

(** ** Runs against one environment *)

(** An environment answers each call from its state. *)
Definition env (S : Type) : Type := forall e : event, S -> S * answer e.

Fixpoint run {S A} (E : env S) (s : S) (m : io A) : S * A :=
  match m with
  | Ret a => (s, a)
  | Vis e k => let '(s', r) := E e s in run E s' (k r)
  end.

(** The answers of an environment without state. *)
Definition oracle : Type := forall e : event, answer e.

Fixpoint run_oracle {A} (O : oracle) (m : io A) : A :=
  match m with
  | Ret a => a
  | Vis e k => run_oracle O (k (O e))
  end.

(** The calls of a run, in order. *)
Fixpoint calls {A} (O : oracle) (m : io A) : list event :=
  match m with
  | Ret _ => []
  | Vis e k => e :: calls O (k (O e))
  end.

(** ** Safety against every answer

    A [monitor] watches a handler: its state advances with each call and its
    answer, and it forbids the calls that are not [allowed] in that state. *)

Record monitor (S : Type) := {
  allowed : S -> event -> Prop;
  advance : S -> forall e : event, answer e -> S;
}.
Arguments allowed {S} m s e.
Arguments advance {S} m s e r.

Fixpoint safe {S A} (M : monitor S) (s : S) (m : io A) (Q : S -> A -> Prop) : Prop :=
  match m with
  | Ret a => Q s a
  | Vis e k => allowed M s e /\ forall r : answer e, safe M (advance M s e r) (k r) Q
  end.

(** The monitor with no memory: every call satisfies [P]. *)
Definition always (P : event -> Prop) : monitor unit :=
  {| allowed := fun _ e => P e; advance := fun s _ _ => s |}.

Notation ensures P m Q := (safe (always P) tt m (fun _ => Q)).

(** The monitor that remembers every call with its answer, newest first. *)
Definition history : Type := list {e : event & answer e}.
Definition saw (h : history) (e : event) (r : answer e) : Prop := existT e r ∈ h.
Definition recording (P : history -> event -> Prop) : monitor history :=
  {| allowed := P; advance := fun h e r => existT e r :: h |}.

(** What was seen stays seen. *)
Definition grows (h h' : history) : Prop := h ⊆ h'.

(** Every remembered answer is the one the oracle gives. *)
Definition consistent (O : oracle) (h : history) : Prop :=
  Forall (fun x => projT2 x = O (projT1 x)) h.

(** The calls that change the state of a cluster. *)
Definition is_write (e : event) : bool :=
  match e with
  | ECreate _ _ _ | EUpdate _ _ _ | EUpdateStatus _ _ _ | EPatchStatus _ _ _ _
  | EDelete _ _ _ _ => true
  | _ => false
  end.

Definition read_only (e : event) : Prop := is_write e = false.

(** ** Laws *)

Lemma io_bind_ret {A B} (a : A) (k : A -> io B) : (Ret a ≫= k) = k a.
Proof. reflexivity. Qed.

Lemma safe_bind {S A B} (M : monitor S) s (m : io A) (k : A -> io B) Q :
  safe M s (m ≫= k) Q <-> safe M s m (fun s' a => safe M s' (k a) Q).
Proof.
  revert s; induction m as [a | e j IH]; intros s; [done |]; cbn.
  split; intros [? H]; (split; [done |]); intros r; apply IH, H.
Qed.

Lemma safe_mono {S A} (M : monitor S) s (m : io A) (Q Q' : S -> A -> Prop) :
  safe M s m Q -> (forall s' a, Q s' a -> Q' s' a) -> safe M s m Q'.
Proof.
  intros Hm HQ. revert s Hm; induction m as [a | e k IH]; intros s; cbn; [apply HQ |].
  intros [? H]; split; [done |]. intros r. apply IH, H.
Qed.

Lemma saw_here (h : history) (e : event) (r : answer e) : saw (existT e r :: h) e r.
Proof. apply list_elem_of_here. Qed.

Lemma saw_later (h : history) (x : {e : event & answer e}) (e : event) (r : answer e) :
  saw h e r -> saw (x :: h) e r.
Proof. apply list_elem_of_further. Qed.

#[export] Hint Resolve saw_here saw_later : go.

(** A recorded handler may be watched with more permissive rules. *)
Lemma safe_recording_mono {A} (P P' : history -> event -> Prop) h (m : io A)
  (Q Q' : history -> A -> Prop) :
  safe (recording P) h m Q -> (forall h e, P h e -> P' h e) -> (forall h a, Q h a -> Q' h a) ->
  safe (recording P') h m Q'.
Proof.
  intros Hm HP HQ. revert h Hm. induction m as [a | e k IH]; intros h; cbn; [apply HQ |].
  intros [? H]; split; [auto |]. intros r. apply IH, H.
Qed.

Lemma saw_grows (h h' : history) (e : event) (r : answer e) : grows h h' -> saw h e r -> saw h' e r.
Proof. unfold grows, saw. set_solver. Qed.

(** The history of a handler extends the one it started from. *)
Lemma safe_grows {A} (P : history -> event -> Prop) h (m : io A) (Q : history -> A -> Prop) :
  safe (recording P) h m Q -> safe (recording P) h m (fun h' a => grows h h' /\ Q h' a).
Proof.
  revert h. induction m as [a | e k IH]; intros h; cbn; [by split |].
  intros [? H]; split; [done |]. intros r. eapply safe_mono; [apply IH, H |].
  cbn. unfold grows. intros h' a [? ?]. split; [set_solver | done].
Qed.

(** The calls remembered changed nothing. *)
Definition unwritten (h : history) : Prop := Forall (fun x => read_only (projT1 x)) h.

Lemma safe_unwritten {A} h (m : io A) (Q : history -> A -> Prop) :
  safe (recording (fun _ => read_only)) h m Q ->
  safe (recording (fun _ => read_only)) h m (fun h' a => (unwritten h -> unwritten h') /\ Q h' a).
Proof.
  revert h. induction m as [a | e k IH]; intros h; cbn; [by split |].
  intros [He H]; split; [done |]. intros r. eapply safe_mono; [apply IH, H |].
  cbn. intros h' a [Hu ?]. split; [| done]. intros Hh. apply Hu. by constructor.
Qed.

(** A handler proved under its own rules runs under any rules that admit them from
    here on. *)
Lemma safe_within {A} (P P' : history -> event -> Prop) h (m : io A) (Q : history -> A -> Prop) :
  safe (recording P) h m Q -> (forall h' e, grows h h' -> P h' e -> P' h' e) ->
  safe (recording P') h m (fun h' a => grows h h' /\ Q h' a).
Proof.
  intros Hm HP. apply safe_grows. revert h Hm HP. induction m as [a | e k IH]; intros h; cbn; [done |].
  intros [? H] HP. split; [apply HP; [unfold grows; set_solver | done] |].
  intros r. apply IH; [apply H |]. intros h' e' Hg. apply HP. unfold grows in *. set_solver.
Qed.

(** Nothing is forbidden and nothing is claimed. *)
Lemma safe_any {S A} (M : monitor S) s (m : io A) :
  (forall s e, allowed M s e) -> safe M s m (fun _ _ => True).
Proof. intros HM. revert s. induction m as [a | e k IH]; intros s; cbn; [done |]. split; auto. Qed.

Lemma grows_trans (h h' h'' : history) : grows h h' -> grows h' h'' -> grows h h''.
Proof. unfold grows. set_solver. Qed.

Lemma grows_cons (h : history) (x : {e : event & answer e}) : grows h (x :: h).
Proof. unfold grows. set_solver. Qed.

#[export] Hint Resolve grows_trans grows_cons saw_grows : go.

(** Against an environment without state, what was recorded is what it answers. *)
Lemma safe_recording_run {A} (P : history -> event -> Prop) h (m : io A)
  (Q : history -> A -> Prop) (O : oracle) :
  safe (recording P) h m Q -> consistent O h ->
  exists h', consistent O h' /\ Q h' (run_oracle O m).
Proof.
  revert h. induction m as [a | e k IH]; intros h; cbn; [eauto |].
  intros [_ H] Hh. eapply IH; [apply H |]. by constructor.
Qed.

Lemma consistent_saw (O : oracle) (h : history) (e : event) (r : answer e) :
  consistent O h -> saw h e r -> O e = r.
Proof. intros Hh Hs. unfold consistent in Hh. rewrite Forall_forall in Hh. symmetry. exact (Hh _ Hs). Qed.

Lemma safe_and {S A} (M : monitor S) s (m : io A) (Q Q' : S -> A -> Prop) :
  safe M s m Q -> safe M s m Q' -> safe M s m (fun s' a => Q s' a /\ Q' s' a).
Proof.
  revert s; induction m as [a | e k IH]; intros s; cbn; [done |].
  intros [? H] [? H']; split; [done |]. intros r. apply IH; auto.
Qed.

Lemma ensures_mono {A} (P P' : event -> Prop) (m : io A) (Q Q' : A -> Prop) :
  ensures P m Q -> (forall e, P e -> P' e) -> (forall a, Q a -> Q' a) -> ensures P' m Q'.
Proof.
  intros Hm HP HQ. revert Hm. induction m as [a | e k IH]; cbn; [apply HQ |].
  intros [? H]; split; [auto |]. intros r. apply IH, H.
Qed.

Lemma safe_fbind {S A B} (M : monitor S) s (m : fio A) (k : A -> fio B) Q :
  safe M s m (fun s' r => match r with Ok a => safe M s' (k a) Q | Err e => Q s' (Err e) end) ->
  safe M s (fbind m k) Q.
Proof.
  unfold fbind. intros H. apply safe_bind. eapply safe_mono; [exact H |].
  intros s' [a | e]; cbn; auto.
Qed.

(** Safety speaks of every run: its calls are allowed and its result satisfies [Q]. *)
Lemma ensures_run_oracle {A} (P : event -> Prop) (m : io A) (Q : A -> Prop) (O : oracle) :
  ensures P m Q -> Forall P (calls O m) /\ Q (run_oracle O m).
Proof.
  induction m as [a | e k IH]; cbn; [by split; [constructor |] |].
  intros [? H]. destruct (IH (O e) (H (O e))) as [Hc Hq]. split; [by constructor | done].
Qed.

Lemma run_oracle_bind {A B} (O : oracle) (m : io A) (k : A -> io B) :
  run_oracle O (m ≫= k) = run_oracle O (k (run_oracle O m)).
Proof. induction m as [a | e j IH]; cbn; [done | apply IH]. Qed.

Lemma run_bind {S A B} (E : env S) s (m : io A) (k : A -> io B) :
  run E s (m ≫= k) = let '(s', a) := run E s m in run E s' (k a).
Proof.
  revert s; induction m as [a | e j IH]; intros s; cbn; [done |].
  destruct (E e s) as [s' r]. apply IH.
Qed.

Lemma calls_bind {A B} (O : oracle) (m : io A) (k : A -> io B) :
  calls O (m ≫= k) = calls O m ++ calls O (k (run_oracle O m)).
Proof. induction m as [a | e j IH]; cbn; [done |]. by rewrite IH. Qed.

Lemma run_oracle_fbind {A B} (O : oracle) (m : fio A) (k : A -> fio B) :
  run_oracle O (fbind m k) =
  match run_oracle O m with Ok a => run_oracle O (k a) | Err e => Err e end.
Proof. unfold fbind. rewrite run_oracle_bind. by destruct (run_oracle O m). Qed.

Lemma calls_fbind {A B} (O : oracle) (m : fio A) (k : A -> fio B) :
  calls O (fbind m k) =
  calls O m ++ match run_oracle O m with Ok a => calls O (k a) | Err _ => [] end.
Proof. unfold fbind. rewrite calls_bind. by destruct (run_oracle O m). Qed.

#[export] Hint Rewrite @run_oracle_bind @run_oracle_fbind @calls_bind @calls_fbind : go.

(** ** Runs that change nothing *)

(** Against these answers the handler returns [a] and only reads. *)
Definition quiet {A} (O : oracle) (m : io A) (a : A) : Prop := run_oracle O m = a /\ Forall read_only (calls O m).

Lemma quiet_ret {A} (O : oracle) (a : A) : quiet O (Ret a) a.
Proof. by split; [| constructor]. Qed.

Lemma quiet_call (O : oracle) (e : event) (r : answer e) : read_only e -> O e = r -> quiet O (call e) r.
Proof. intros He <-. split; [done | by constructor]. Qed.

Lemma quiet_bind {A B} (O : oracle) (m : io A) (k : A -> io B) a b :
  quiet O m a -> quiet O (k a) b -> quiet O (m ≫= k) b.
Proof.
  intros [<- Hm] [<- Hk]. split; [apply run_oracle_bind |]. rewrite calls_bind. by apply Forall_app.
Qed.

Lemma quiet_fbind {A B} (O : oracle) (m : fio A) (k : A -> fio B) a b :
  quiet O m (Ok a) -> quiet O (k a) b -> quiet O (fbind m k) b.
Proof. intros Hm Hk. unfold fbind. by eapply quiet_bind. Qed.

Lemma quiet_writes {A B} (O : oracle) (m : io A) (k : A -> io B) a :
  quiet O m a ->
  run_oracle O (m ≫= k) = run_oracle O (k a) /\
  filter (fun e => is_write e = true) (calls O (m ≫= k)) = filter (fun e => is_write e = true) (calls O (k a)).
Proof.
  intros [Hr Hc]. rewrite run_oracle_bind, calls_bind, Hr, filter_app. split; [done |].
  enough (filter (fun e => is_write e = true) (calls O m) = []) as -> by done.
  induction Hc as [|e l He Hl IH]; [done |]. rewrite filter_cons_False; [done |]. unfold read_only in He. congruence.
Qed.

(** A handler that may only read is quiet. *)
Lemma safe_quiet {A} (O : oracle) (h : history) (m : io A) (Q : history -> A -> Prop) :
  safe (recording (fun _ => read_only)) h m Q -> quiet O m (run_oracle O m).
Proof.
  intros Hm. split; [done |]. revert h Hm. induction m as [a | e k IH]; intros h; cbn; [by constructor |].
  intros [He Hk]. constructor; [done |]. eapply IH, Hk.
Qed.

(** The handler returns [b] and its writes are [W]. *)
Definition writes {A} (O : oracle) (m : io A) (W : list event) (b : A) : Prop :=
  run_oracle O m = b /\ filter (fun e => is_write e = true) (calls O m) = W.

Lemma writes_bind {A B} (O : oracle) (m : io A) (k : A -> io B) a W b :
  quiet O m a -> writes O (k a) W b -> writes O (m ≫= k) W b.
Proof. intros Hm [Hr Hw]. destruct (quiet_writes O m k a Hm) as [E1 E2]. split; by rewrite ?E1, ?E2. Qed.

(** ** Total correctness against one environment

    Run from [s], the handler ends in a state and with a result that satisfy [Q]. *)

Section Total.
  Context {S : Type}.
  Variable E : env S.

Definition total {A} (s : S) (m : io A) (Q : S -> A -> Prop) : Prop := Q (run E s m).1 (run E s m).2.

(** The answers [E] gives in a state that stays as it is. *)
Definition answers (s : S) : oracle := fun e => (E e s).2.

Lemma total_ret {A} s (a : A) (Q : S -> A -> Prop) : Q s a -> total s (Ret a) Q.
Proof. done. Qed.

Lemma total_call s (e : event) (Q : S -> answer e -> Prop) : Q (E e s).1 (E e s).2 -> total s (call e) Q.
Proof. unfold total. cbn. by destruct (E e s). Qed.

(** The rest of a handler after its call. *)
Lemma total_vis {A} s (e : event) (k : answer e -> io A) (Q : S -> A -> Prop) :
  total (E e s).1 (k (E e s).2) Q -> total s (call e ≫= k) Q.
Proof. unfold total. cbn. by destruct (E e s). Qed.

Lemma total_bind {A B} s (m : io A) (k : A -> io B) Q :
  total s m (fun s' a => total s' (k a) Q) -> total s (m ≫= k) Q.
Proof. unfold total. rewrite run_bind. by destruct (run E s m). Qed.

Lemma total_fbind {A B} s (m : fio A) (k : A -> fio B) Q :
  total s m (fun s' r => match r with Ok a => total s' (k a) Q | Err e => Q s' (Err e) end) ->
  total s (fbind m k) Q.
Proof.
  intros H. apply total_bind. unfold total in *. by destruct (run E s m) as [s' []].
Qed.

Lemma total_mono {A} s (m : io A) (Q Q' : S -> A -> Prop) :
  total s m Q -> (forall s' a, Q s' a -> Q' s' a) -> total s m Q'.
Proof. unfold total. auto. Qed.

(** A quiet handler leaves the state to the rest, when reading changes nothing. *)
Lemma total_quiet {A} s (m : io A) a (Q : S -> A -> Prop) :
  (forall e s, read_only e -> (E e s).1 = s) -> quiet (answers s) m a -> Q s a -> total s m Q.
Proof.
  intros HE [<- Hc] HQ. unfold total. revert Hc HQ. induction m as [a | e k IH]; cbn; [done |].
  intros [He Hk]%Forall_cons HQ. specialize (HE e s He) as Hs. unfold answers in *. destruct (E e s) as [s' r].
  cbn in *. subst s'. by apply IH.
Qed.

End Total.

(** ** Relying on the answers

    [assured R P m Q]: as long as every answer is as [R] says, every call of [m] is as
    [P] says and so is its result [Q]. *)

Fixpoint assured {A} (R : forall e, answer e -> Prop) (P : event -> Prop) (m : io A) (Q : A -> Prop) : Prop :=
  match m with
  | Ret a => Q a
  | Vis e k => P e /\ forall r, R e r -> assured R P (k r) Q
  end.

Section Assured.
  Context {R : forall e, answer e -> Prop} {P : event -> Prop}.

Lemma assured_bind {A B} (m : io A) (k : A -> io B) (Q : B -> Prop) :
  assured R P m (fun a => assured R P (k a) Q) -> assured R P (m ≫= k) Q.
Proof. induction m as [a | e j IH]; cbn; [done |]. intros [? H]. split; auto. Qed.

Lemma assured_mono {A} (m : io A) (Q Q' : A -> Prop) :
  assured R P m Q -> (forall a, Q a -> Q' a) -> assured R P m Q'.
Proof. intros Hm HQ. revert Hm. induction m as [a | e j IH]; cbn; [apply HQ |]. intros [? H]. split; auto. Qed.

Lemma assured_fbind {A B} (m : fio A) (k : A -> fio B) (Q : res B -> Prop) :
  assured R P m (fun r => match r with Ok a => assured R P (k a) Q | Err e => Q (Err e) end) ->
  assured R P (fbind m k) Q.
Proof. intros H. apply assured_bind. eapply assured_mono; [exact H |]. by intros []. Qed.

(** A handler whose calls are all allowed needs nothing of the answers. *)
Lemma recorded_assured {A} (D : history -> event -> Prop) (h : history) (m : io A) (Q : history -> A -> Prop) :
  safe (recording D) h m Q -> (forall h e, D h e -> P e) -> assured R P m (fun a => exists h, Q h a).
Proof.
  intros Hm HD. revert h Hm. induction m as [a | e j IH]; intros h; cbn; [by exists h |].
  intros [? H]. split; [by eapply HD |]. intros r _. eapply IH, H.
Qed.

(** Against fixed answers that are as [R] says. *)
Lemma assured_calls {A} (O : oracle) (m : io A) (Q : A -> Prop) :
  assured R P m Q -> (forall e, R e (O e)) -> Forall P (calls O m).
Proof. intros Hm HO. revert Hm. induction m as [a | e j IH]; cbn; [constructor |]. intros [? H]. constructor; auto. Qed.

End Assured.

(** An environment that keeps [I] answers as [R] says to the calls [P] allows. *)
Definition upholds {S} (E : env S) (I : S -> Prop) (R : forall e, answer e -> Prop) (P : event -> Prop) : Prop :=
  forall s e, I s -> P e -> I (E e s).1 /\ R e (E e s).2.

(** ** Handlers that run concurrently

    Any number of handlers are under way; a step is one call of one of them, or the start
    of a new one. *)

Section Pool.
  Context {S : Type}.
  Variable E : env S.
  Variable starts : io unit -> Prop.

Inductive pool_step : S * list (io unit) -> S * list (io unit) -> Prop :=
| ps_call s ms ms' e k :
    pool_step (s, ms ++ Vis e k :: ms') ((E e s).1, ms ++ k (E e s).2 :: ms')
| ps_start s ms m : starts m -> pool_step (s, ms) (s, m :: ms).

(** What each handler assures holds in every state the handlers reach together. *)
Lemma pool_invariant (I : S -> Prop) (R : forall e, answer e -> Prop) (P : event -> Prop) (s s' : S) (ms : list (io unit)) :
  upholds E I R P -> (forall m, starts m -> assured R P m (fun _ => True)) ->
  I s -> rtc pool_step (s, []) (s', ms) -> I s'.
Proof.
  intros HE Hs Hi. set (ok := fun x : S * list (io unit) => I x.1 /\ Forall (fun m => assured R P m (fun _ => True)) x.2).
  enough (forall x y, rtc pool_step x y -> ok x -> ok y) as K.
  { intros Hr. by apply (K _ _ Hr). }
  induction 1 as [x | x y z Hstep _ IH]; [done |]. intros [Hx Hms]. apply IH. clear IH Hi.
  destruct Hstep as [t l l' e k | t l m Hm]; cbn in *; [| by split; [| constructor; auto]].
  apply Forall_app in Hms as [Hl Hms]. apply Forall_cons in Hms as [[Hp Hk] Hl'].
  destruct (HE t e Hx Hp) as [Ht Ha]. split; [done |]. apply Forall_app; split; [done |]. constructor; auto.
Qed.

(** One of the interleavings: a handler that starts and runs to its end on its own. *)
Lemma pool_handler (s : S) (ms : list (io unit)) (m : io unit) :
  starts m -> rtc pool_step (s, ms) ((run E s m).1, Ret tt :: ms).
Proof.
  intros Hm. eapply rtc_l; [by apply ps_start |]. clear Hm. revert s. induction m as [[] | e k IH]; intros s; cbn [run]; [done |].
  eapply rtc_l; [apply (ps_call s [] ms e k) |]. destruct (E e s) as [s' r]. apply IH.
Qed.

End Pool.

(** Walk through a handler that relies on the answers. *)
Ltac assured_step :=
  match goal with
  | |- assured _ _ (fbind _ _) _ => apply assured_fbind
  | |- assured _ _ (_ ≫= _) _ => apply assured_bind
  | |- assured _ _ (mbind _ _) _ => apply assured_bind
  | |- assured _ _ (call _) _ => split; [| intros ?r ?Hr; cbn [assured]]
  | |- assured _ _ (match ?x with _ => _ end) _ => destruct x eqn:?
  | |- assured _ _ (let '(_, _) := ?x in _) _ => destruct x eqn:?
  | |- assured _ _ (Ret _) _ => cbn [assured]
  | |- assured _ _ (mret _) _ => cbn [assured mret io_ret]
  | |- assured _ _ (fret _) _ => cbn [assured fret]
  | |- assured _ _ (fail _) _ => cbn [assured fail]
  | |- match ?x with _ => _ end => destruct x eqn:?
  end.

(** Step over a read with the answer given. *)
Ltac on_read H :=
  first [eapply quiet_fbind | eapply quiet_bind]; [refine (quiet_call _ _ _ _ H); done | cbv beta iota].

(** Walk through a handler: split binds, branches and calls, leaving the
    postconditions and the side conditions of the calls. *)
Ltac safe_step :=
  match goal with
  | |- safe _ _ (fbind _ _) _ => apply safe_fbind
  | |- safe _ _ (_ ≫= _) _ => apply safe_bind
  | |- safe _ _ (mbind _ _) _ => apply safe_bind
  | |- safe _ _ (call _) _ => split; [| intros ?r]
  | |- safe _ _ (match ?x with _ => _ end) _ => destruct x eqn:?
  | |- safe _ _ (let '(_, _) := ?x in _) _ => destruct x eqn:?
  | |- safe _ _ (Ret _) _ => cbn [safe]
  | |- safe _ _ (fret _) _ => cbn [safe fret]
  | |- safe _ _ (fail _) _ => cbn [safe fail]
  | |- match ?x with _ => _ end => destruct x eqn:?
  end.

Ltac safe_steps := repeat safe_step.

(** Step over one call: its permission, then each answer with the call recorded. *)
Ltac on_call pat :=
  first [apply safe_fbind | apply safe_bind | idtac];
  split; [| intros pat; cbn [safe fret fail advance recording]].

(** Use a proved lemma for the next step under its own rules. *)
Ltac on_part lem :=
  first [apply safe_fbind | apply safe_bind | idtac];
  eapply safe_mono; [eapply safe_within; [apply lem | cbv beta] | cbv beta].

(** Use a proved lemma for the next step, keeping what was seen before it. *)
Ltac on_step lem :=
  first [apply safe_fbind | apply safe_bind | idtac];
  eapply safe_mono; [apply safe_grows, lem | cbv beta].
