(* ===== verification/Names.v ===== *)
(** * Names shared by the files of package controller

    The label and annotation keys and the constants that more than one file of
    internal/controller uses, and the result of a reconcile. *)

From S2P Require Import Prelude GoStd.

Definition instanceLabelKey : string := "llm.privatellms.msp/instance".
Definition slugAnnotationKey : string := "llm.privatellms.msp/slug".
Definition byocBootstrapTrue : string := "true".
Definition byocServicePortName : string := "https".

(** [ctrl.Result], the delay in seconds. *)
Record Result := { Requeue : bool; RequeueAfter : Z }.

Definition no_result : Result := {| Requeue := false; RequeueAfter := 0 |}.
Definition requeue_now : Result := {| Requeue := true; RequeueAfter := 0 |}.
Definition requeue_after (seconds : Z) : Result := {| Requeue := false; RequeueAfter := seconds |}.
