(* ===== verification/SlugPolicy.v ===== *)
(** * Slug policy (internal/slugpolicy/policy.go)

    The operator-owned policy that names instances: [Parse] with its duplicate-key
    scan, [validateEntry] and [Select].  JSON is read by [GoJson], the cutover by [GoTime]. *)

From Stdlib Require Import Ascii.
From S2P Require Import Prelude GoStd GoTime GoJson Sha256 GoError Kube KubeRef.

(** ** Tokens *)

(** The tokens of [Decoder.Token]; scalars other than strings are [TScalar]. *)
Inductive token :=
| TDelim (c : ascii)
| TString (s : string)
| TScalar.

Fixpoint tokens_of (j : json) : list token :=
  match j with
  | JsString s => [TString s]
  | JsArray l =>
      TDelim "[" :: (fix elems l := match l with [] => [] | x :: l' => tokens_of x ++ elems l' end) l
        ++ [TDelim "]"]
  | JsObject fs =>
      TDelim "{" :: (fix flds l := match l with
                                   | [] => []
                                   | (k, x) :: l' => TString k :: tokens_of x ++ flds l'
                                   end) fs
        ++ [TDelim "}"]
  | _ => [TScalar]
  end.

(** ** Data *)

Definition Legacy : string := "Legacy".
Definition Derived : string := "Derived".
Definition legacyMode : string := "legacy".
Definition deriveMode : string := "derive".

Record entry := {
  e_UID : string;
  e_Namespace : string;
  e_Name : string;
  e_Mode : string;
  e_Slug : string;
}.

Record configuration := { cfg_Cutover : string; cfg_Entries : list entry }.

Record Policy := { cutover : Z; entries : gmap string entry }.

Record Selection := { sel_Slug : string; sel_Source : string }.

Definition zero_entry : entry :=
  {| e_UID := ""; e_Namespace := ""; e_Name := ""; e_Mode := ""; e_Slug := "" |}.

(** ** The duplicate-key scan *)

Definition canonical_fields : list string :=
  ["cutover"; "entries"; "uid"; "namespace"; "name"; "mode"; "slug"].

(** [Decoder.More]: the next token does not close the current array or object. *)
Definition More (ts : list token) : bool :=
  match ts with
  | [] => false
  | TDelim c :: _ => negb (Ascii.eqb c "]" || Ascii.eqb c "}")
  | _ => true
  end.

(** The closing [decoder.Token()]. *)
Definition next_token (ts : list token) : res (list token) :=
  match ts with [] => Err (ErrText "EOF") | _ :: ts' => Ok ts' end.

(** [fuel] bounds the recursion; twice the number of tokens is always enough
    ([rejectDuplicateKeys_spec]).  The result is the unread part of the stream. *)
Fixpoint rejectDuplicateKeys (fuel : nat) (ts : list token) : res (list token) :=
  match fuel with
  | O => Err (ErrText "out of fuel")
  | S f =>
      match ts with
      | [] => Err (ErrText "EOF")
      | TDelim c :: ts' =>
          if Ascii.eqb c "{" then res_bind (scan_fields f ∅ ts') next_token
          else if Ascii.eqb c "[" then res_bind (scan_elems f ts') next_token
          else Err (ErrText "unexpected closing delimiter")
      | _ :: ts' => Ok ts'
      end
  end
with scan_fields (fuel : nat) (keys : gset string) (ts : list token) : res (list token) :=
  match fuel with
  | O => Err (ErrText "out of fuel")
  | S f =>
      if More ts then
        match ts with
        | TString name :: ts' =>
            if bool_decide (name ∈ keys) then Err (ErrText "duplicate or invalid object field")
            else if negb (bool_decide (name ∈ canonical_fields))
            then Err (ErrText "unknown or noncanonical object field")
            else res_bind (rejectDuplicateKeys f ts') (scan_fields f ({[name]} ∪ keys))
        | _ => Err (ErrText "duplicate or invalid object field")
        end
      else Ok ts
  end
with scan_elems (fuel : nat) (ts : list token) : res (list token) :=
  match fuel with
  | O => Err (ErrText "out of fuel")
  | S f =>
      if More ts then res_bind (rejectDuplicateKeys f ts) (scan_elems f) else Ok ts
  end.

(** ** Decoding into the configuration, unknown fields disallowed *)

Definition decode_string (current : string) (j : json) : res string :=
  match j with
  | JsNull => Ok current
  | JsString s => Ok s
  | _ => Err (ErrText "json: cannot unmarshal value into Go struct field of type string")
  end.

Definition decode_entry_field (e : entry) (kv : string * json) : res entry :=
  let '(k, v) := kv in
  if EqualFold k "uid" then res_bind (decode_string (e_UID e) v) (fun s => Ok (e <| e_UID := s |>))
  else if EqualFold k "namespace"
  then res_bind (decode_string (e_Namespace e) v) (fun s => Ok (e <| e_Namespace := s |>))
  else if EqualFold k "name"
  then res_bind (decode_string (e_Name e) v) (fun s => Ok (e <| e_Name := s |>))
  else if EqualFold k "mode"
  then res_bind (decode_string (e_Mode e) v) (fun s => Ok (e <| e_Mode := s |>))
  else if EqualFold k "slug"
  then res_bind (decode_string (e_Slug e) v) (fun s => Ok (e <| e_Slug := s |>))
  else Err (ErrText "json: unknown field").

Fixpoint fold_res {A B} (f : A -> B -> res A) (a : A) (l : list B) : res A :=
  match l with
  | [] => Ok a
  | x :: l' => res_bind (f a x) (fun a' => fold_res f a' l')
  end.

Definition decode_entry (j : json) : res entry :=
  match j with
  | JsNull => Ok zero_entry
  | JsObject fs => fold_res decode_entry_field zero_entry fs
  | _ => Err (ErrText "json: cannot unmarshal value into Go value of type slugpolicy.entry")
  end.

Definition decode_entries (j : json) : res (list entry) :=
  match j with
  | JsNull => Ok []
  | JsArray l =>
      fold_res (fun acc x => res_bind (decode_entry x) (fun e => Ok (acc ++ [e]))) [] l
  | _ => Err (ErrText "json: cannot unmarshal value into Go struct field of type []entry")
  end.

Definition decode_config_field (c : configuration) (kv : string * json) : res configuration :=
  let '(k, v) := kv in
  if EqualFold k "cutover"
  then res_bind (decode_string (cfg_Cutover c) v) (fun s => Ok (c <| cfg_Cutover := s |>))
  else if EqualFold k "entries"
  then res_bind (decode_entries v) (fun es => Ok (c <| cfg_Entries := es |>))
  else Err (ErrText "json: unknown field").

Definition decode_configuration (j : json) : res configuration :=
  let zero := {| cfg_Cutover := ""; cfg_Entries := [] |} in
  match j with
  | JsNull => Ok zero
  | JsObject fs => fold_res decode_config_field zero fs
  | _ => Err (ErrText "json: cannot unmarshal value into Go value of type slugpolicy.configuration")
  end.

(** [io.LimitReader]. *)
Definition LimitReader (data : string) (n : Z) : string :=
  if (Z.of_nat (String.length data) <=? n)%Z then data else str_take (Z.to_nat n) data.

(** The state of the loop over [config.Entries]. *)
Record loop_state := {
  ls_entries : gmap string entry;
  ls_slugs : gset string;
  ls_identities : gset string;
}.

Section SlugPolicy.
  Context `{KubeLib}.

Definition validateEntry (item : entry) : option error :=
  if bool_decide (e_UID item = "") || negb (bool_decide (TrimSpace (e_UID item) = e_UID item))
     || negb (IsDNS1123Label (e_Namespace item)) || negb (IsDNS1123Subdomain (e_Name item))
  then Some (ErrText "slug policy entry requires UID, namespace and name")
  else if bool_decide (e_Mode item = legacyMode) then
    if bool_decide (e_Slug item = "") || negb (IsValidLabelValue (e_Slug item))
       || HasPrefix (e_Slug item) "llm-" || HasPrefix "llm-" (e_Slug item)
    then Some (ErrText "legacy slug must be a nonempty label value outside the reserved llm- prefix")
    else None
  else if bool_decide (e_Mode item = deriveMode) then
    if negb (bool_decide (e_Slug item = ""))
    then Some (ErrText "derive entries must not supply a slug")
    else None
  else Some (ErrText "slug policy entry mode must be legacy or derive").

(** One iteration of the loop over the configured entries. *)
Definition add_entry (st : loop_state) (item : entry) : res loop_state :=
  match validateEntry item with
  | Some err => Err err
  | None =>
      let identity := e_Namespace item +:+ "/" +:+ e_Name item in
      if bool_decide (is_Some (ls_entries st !! e_UID item)) ||
         bool_decide (identity ∈ ls_identities st)
      then Err (ErrText "slug policy contains duplicate instance identity")
      else
        let overlap slug := HasPrefix slug (e_Slug item) || HasPrefix (e_Slug item) slug in
        if bool_decide (e_Mode item = legacyMode) && existsb overlap (elements (ls_slugs st))
        then Err (ErrText "slug policy contains duplicate or prefix-overlapping legacy slugs")
        else Ok {|
          ls_entries := <[e_UID item := item]> (ls_entries st);
          ls_slugs := if bool_decide (e_Mode item = legacyMode)
                      then {[e_Slug item]} ∪ ls_slugs st else ls_slugs st;
          ls_identities := {[identity]} ∪ ls_identities st |}
  end.

Definition build_policy (config : configuration) : res Policy :=
  match time_ParseRFC3339 (cfg_Cutover config) with
  | None => Err (ErrText "slug policy requires a fixed RFC3339 cutover timestamp")
  | Some t =>
      if (t =? 0)%Z then Err (ErrText "slug policy requires a fixed RFC3339 cutover timestamp")
      else res_bind
        (fold_res add_entry {| ls_entries := ∅; ls_slugs := ∅; ls_identities := ∅ |}
                  (cfg_Entries config))
        (fun st => Ok {| cutover := t; entries := ls_entries st |})
  end.

(** [Parse]; the argument is what the reader yields. *)
Definition Parse (reader : res string) : res Policy :=
  match reader with
  | Err e => Err (ErrWrapf ("read slug policy: " +:+ error_text e) [e])
  | Ok content =>
      let data := LimitReader content (2 ^ 20 + 1) in
      if (2 ^ 20 <? Z.of_nat (String.length data))%Z
      then Err (ErrText "slug policy exceeds 1 MiB")
      else match json_scan data with
      | ScanEOF => Err (ErrText "invalid slug policy JSON: EOF")
      | ScanError msg => Err (ErrText ("invalid slug policy JSON: " +:+ msg))
      | ScanValue doc rest =>
          let ts := tokens_of doc in
          match rejectDuplicateKeys (2 * length ts) ts with
          | Err e => Err (ErrWrapf ("invalid slug policy JSON: " +:+ error_text e) [e])
          | Ok _ =>
              match decode_configuration doc with
              | Err e => Err (ErrWrapf ("decode slug policy: " +:+ error_text e) [e])
              | Ok config =>
                  match json_scan rest with
                  | ScanEOF => build_policy config
                  | _ => Err (ErrText "slug policy must contain exactly one JSON document")
                  end
              end
          end
      end
  end.

Definition derived_slug (uid : string) : string :=
  let digest := Sum256 (bytes_of ("llm.privatellms.msp/slug/v1:" +:+ uid)) in
  "llm-" +:+ hex_encode (take 16 digest).

(** [Policy.Select]; a nil policy is [None]. *)
Definition Select (p : option Policy) (object : ObjectMeta) : res Selection :=
  match p with
  | None => Err (ErrSentinel ErrIdentity)
  | Some p =>
      let created := CreationTimestamp object in
      if bool_decide (UID object = "") || (created =? 0)%Z then Err (ErrSentinel ErrIdentity)
      else
        let uid := UID object in
        let derive := Ok {| sel_Slug := derived_slug uid; sel_Source := Derived |} in
        match entries p !! uid with
        | Some item =>
            if negb (bool_decide (e_Namespace item = Namespace object)) ||
               negb (bool_decide (e_Name item = Name object))
            then Err (ErrSentinel ErrIdentity)
            else if bool_decide (e_Mode item = legacyMode)
            then Ok {| sel_Slug := e_Slug item; sel_Source := Legacy |}
            else derive
        | None => if negb (cutover p <? created)%Z then Err (ErrSentinel ErrLegacyUnmapped) else derive
        end
  end.

End SlugPolicy.

(** ** The duplicate-key scan decides the reading a human gives the document *)

(** Every object of the document has canonical, pairwise distinct field names. *)
Fixpoint unambiguous (j : json) : bool :=
  match j with
  | JsArray l => (fix all l := match l with [] => true | x :: l' => unambiguous x && all l' end) l
  | JsObject fs =>
      (fix all keys l := match l with
                         | [] => true
                         | (k, x) :: l' =>
                             negb (bool_decide (k ∈ keys)) && bool_decide (k ∈ canonical_fields)
                             && unambiguous x && all ({[k]} ∪ keys) l'
                         end) (∅ : gset string) fs
  | _ => true
  end.

(** The tokens of the elements of an array and of the fields of an object. *)
Definition elem_tokens (l : list json) : list token := mjoin (tokens_of <$> l).
Definition field_tokens (fs : list (string * json)) : list token :=
  mjoin ((fun kv => TString kv.1 :: tokens_of kv.2) <$> fs).

Definition unambiguous_elems (l : list json) : bool := forallb unambiguous l.
Fixpoint unambiguous_fields (keys : gset string) (fs : list (string * json)) : bool :=
  match fs with
  | [] => true
  | (k, x) :: l' =>
      negb (bool_decide (k ∈ keys)) && bool_decide (k ∈ canonical_fields)
      && unambiguous x && unambiguous_fields ({[k]} ∪ keys) l'
  end.

Lemma elem_tokens_cons (x : json) (l : list json) :
  elem_tokens (x :: l) = tokens_of x ++ elem_tokens l.
Proof. reflexivity. Qed.

Lemma field_tokens_cons (k : string) (x : json) (fs : list (string * json)) :
  field_tokens ((k, x) :: fs) = TString k :: tokens_of x ++ field_tokens fs.
Proof. reflexivity. Qed.

Lemma tokens_of_array (l : list json) :
  tokens_of (JsArray l) = TDelim "[" :: elem_tokens l ++ [TDelim "]"].
Proof. cbn. f_equal. f_equal. induction l as [|x l IH]; cbn; [done | by rewrite IH]. Qed.

Lemma tokens_of_object (fs : list (string * json)) :
  tokens_of (JsObject fs) = TDelim "{" :: field_tokens fs ++ [TDelim "}"].
Proof.
  cbn. f_equal. f_equal. induction fs as [|[k x] fs IH]; cbn; [done | by rewrite IH].
Qed.

Lemma unambiguous_array (l : list json) : unambiguous (JsArray l) = unambiguous_elems l.
Proof. cbn. induction l as [|x l IH]; cbn; [done | by rewrite IH]. Qed.

Lemma unambiguous_object (fs : list (string * json)) :
  unambiguous (JsObject fs) = unambiguous_fields ∅ fs.
Proof.
  cbn. generalize (∅ : gset string).
  induction fs as [|[k x] fs IH]; intros keys; cbn; [done | by rewrite IH].
Qed.

(** Induction on documents through arrays and objects. *)
Lemma json_nested_ind (P : json -> Prop) :
  (forall j, (forall l, j <> JsArray l) -> (forall fs, j <> JsObject fs) -> P j) ->
  (forall l, Forall P l -> P (JsArray l)) ->
  (forall fs, Forall (fun kv => P kv.2) fs -> P (JsObject fs)) ->
  forall j, P j.
Proof.
  intros Hs Ha Ho. fix IH 1. intros [| b | t | s | l | fs]; try (apply Hs; done).
  - apply Ha. induction l as [|x l IHl]; constructor; [apply IH | exact IHl].
  - apply Ho. induction fs as [|[k x] fs IHl]; constructor; [apply IH | exact IHl].
Qed.

Lemma tokens_of_open (j : json) (rest : list token) : More (tokens_of j ++ rest) = true.
Proof. by destruct j. Qed.

(** The defining equations of the scan. *)
Lemma scan_elems_S (f : nat) (ts : list token) :
  scan_elems (S f) ts =
  if More ts then res_bind (rejectDuplicateKeys f ts) (scan_elems f) else Ok ts.
Proof. reflexivity. Qed.

Lemma scan_fields_S (f : nat) (keys : gset string) (name : string) (ts : list token) :
  scan_fields (S f) keys (TString name :: ts) =
  if bool_decide (name ∈ keys) then Err (ErrText "duplicate or invalid object field")
  else if negb (bool_decide (name ∈ canonical_fields))
  then Err (ErrText "unknown or noncanonical object field")
  else res_bind (rejectDuplicateKeys f ts) (scan_fields f ({[name]} ∪ keys)).
Proof. reflexivity. Qed.

Lemma rejectDuplicateKeys_open (f : nat) (c : ascii) (ts : list token) :
  rejectDuplicateKeys (S f) (TDelim c :: ts) =
  if Ascii.eqb c "{" then res_bind (scan_fields f ∅ ts) next_token
  else if Ascii.eqb c "[" then res_bind (scan_elems f ts) next_token
  else Err (ErrText "unexpected closing delimiter").
Proof. reflexivity. Qed.

(** A scan of [j] either rejects it or stops exactly after it. *)
Definition scans (j : json) : Prop :=
  forall fuel rest, 2 * length (tokens_of j) <= fuel ->
    if unambiguous j then rejectDuplicateKeys fuel (tokens_of j ++ rest) = Ok rest
    else exists e, rejectDuplicateKeys fuel (tokens_of j ++ rest) = Err e.

Lemma scans_elems (l : list json) (fuel : nat) (rest : list token) :
  Forall scans l -> 2 * length (elem_tokens l) + 1 <= fuel ->
  if unambiguous_elems l
  then scan_elems fuel (elem_tokens l ++ TDelim "]" :: rest) = Ok (TDelim "]" :: rest)
  else exists e, scan_elems fuel (elem_tokens l ++ TDelim "]" :: rest) = Err e.
Proof.
  intros Hl; revert fuel; induction Hl as [|x l Hx Hl IH]; intros fuel Hf.
  - destruct fuel; [cbn in Hf; lia | done].
  - rewrite elem_tokens_cons in *. rewrite length_app in Hf. rewrite <-app_assoc.
    destruct fuel as [|f]; [lia |]. cbn [unambiguous_elems forallb].
    rewrite scan_elems_S, tokens_of_open.
    assert (1 <= length (tokens_of x)) by (destruct x; cbn; lia).
    specialize (Hx f (elem_tokens l ++ TDelim "]" :: rest) ltac:(lia)).
    destruct (unambiguous x); cbn [andb].
    + rewrite Hx. apply (IH f). lia.
    + destruct Hx as [e ->]. by exists e.
Qed.

Lemma scans_fields (fs : list (string * json)) (keys : gset string) (fuel : nat) (rest : list token) :
  Forall (fun kv => scans kv.2) fs -> 2 * length (field_tokens fs) + 1 <= fuel ->
  if unambiguous_fields keys fs
  then scan_fields fuel keys (field_tokens fs ++ TDelim "}" :: rest) = Ok (TDelim "}" :: rest)
  else exists e, scan_fields fuel keys (field_tokens fs ++ TDelim "}" :: rest) = Err e.
Proof.
  intros Hl; revert keys fuel; induction Hl as [|[k x] l Hx Hl IH]; intros keys fuel Hf.
  - destruct fuel; [cbn in Hf; lia | done].
  - rewrite field_tokens_cons in *. cbn [app length] in *. rewrite length_app in Hf.
    rewrite <-app_assoc.
    destruct fuel as [|f]; [lia |]. cbn [unambiguous_fields].
    rewrite scan_fields_S.
    destruct (bool_decide (k ∈ keys)); cbn [negb andb]; [by eexists |].
    destruct (bool_decide (k ∈ canonical_fields)); cbn [negb andb]; [| by eexists].
    cbn in Hx.
    specialize (Hx f (field_tokens l ++ TDelim "}" :: rest) ltac:(lia)).
    destruct (unambiguous x); cbn [andb].
    + rewrite Hx. apply (IH _ f). lia.
    + destruct Hx as [e ->]. by exists e.
Qed.

Lemma scans_all (j : json) : scans j.
Proof.
  induction j as [j Ha Ho | l IH | fs IH] using json_nested_ind; intros fuel rest Hf.
  - destruct j; try (destruct fuel; [cbn in Hf; lia | done]).
    + by destruct (Ha elems).
    + by destruct (Ho fields).
  - rewrite tokens_of_array, unambiguous_array in *. cbn [length app] in *.
    rewrite length_app in Hf; cbn [length] in Hf. rewrite <-app_assoc; cbn [app].
    destruct fuel as [|f]; [lia |]. rewrite rejectDuplicateKeys_open. cbn [Ascii.eqb Bool.eqb].
    pose proof (scans_elems l f rest IH ltac:(lia)) as H.
    destruct (unambiguous_elems l); [by rewrite H | destruct H as [e ->]; by exists e].
  - rewrite tokens_of_object, unambiguous_object in *. cbn [length app] in *.
    rewrite length_app in Hf; cbn [length] in Hf. rewrite <-app_assoc; cbn [app].
    destruct fuel as [|f]; [lia |]. rewrite rejectDuplicateKeys_open. cbn [Ascii.eqb Bool.eqb].
    pose proof (scans_fields fs ∅ f rest IH ltac:(lia)) as H.
    destruct (unambiguous_fields ∅ fs); [by rewrite H | destruct H as [e ->]; by exists e].
Qed.

(** ** What a parsed policy guarantees *)

Definition is_legacy (e : entry) : bool := bool_decide (e_Mode e = legacyMode).
Definition identity_of (e : entry) : string := e_Namespace e +:+ "/" +:+ e_Name e.

(** Neither slug is a prefix of the other. *)
Definition prefix_free (a b : string) : Prop := HasPrefix a b = false /\ HasPrefix b a = false.

(** Two truncated digests of different UIDs coincide. *)
Definition slug_collision (u v : string) : Prop :=
  u <> v /\
  take 16 (Sum256 (bytes_of ("llm.privatellms.msp/slug/v1:" +:+ u))) =
  take 16 (Sum256 (bytes_of ("llm.privatellms.msp/slug/v1:" +:+ v))).

Section Properties.
  Context `{KubeLib}.

(** An entry may follow the entries [prev]. *)
Definition admissible (prev : list entry) (item : entry) : Prop :=
  validateEntry item = None /\
  forall e, e ∈ prev ->
    e_UID e <> e_UID item /\ identity_of e <> identity_of item /\
    (is_legacy e = true -> is_legacy item = true -> prefix_free (e_Slug e) (e_Slug item)).

Fixpoint admissible_list (prev es : list entry) : Prop :=
  match es with
  | [] => True
  | e :: es' => admissible prev e /\ admissible_list (prev ++ [e]) es'
  end.

(** The loop state holds exactly the entries seen so far. *)
Record represents (st : loop_state) (prev : list entry) : Prop := {
  rep_entries u e : ls_entries st !! u = Some e <-> e ∈ prev /\ e_UID e = u;
  rep_slugs s : s ∈ ls_slugs st <-> exists e, e ∈ prev /\ is_legacy e = true /\ e_Slug e = s;
  rep_identities i : i ∈ ls_identities st <-> exists e, e ∈ prev /\ identity_of e = i;
}.

Lemma represents_empty :
  represents {| ls_entries := ∅; ls_slugs := ∅; ls_identities := ∅ |} [].
Proof. split; cbn; intros; try rewrite lookup_empty; set_solver. Qed.

Lemma overlap_free (slugs : gset string) (s : string) :
  existsb (fun x => HasPrefix x s || HasPrefix s x) (elements slugs) = false <->
  forall x, x ∈ slugs -> prefix_free x s.
Proof.
  setoid_rewrite <-(elem_of_elements slugs). generalize (elements slugs) as l.
  induction l as [|x l IH]; cbn.
  - split; [intros _ y Hy; by apply not_elem_of_nil in Hy | done].
  - rewrite orb_false_iff, IH. setoid_rewrite elem_of_cons.
    split; [intros [Hx%orb_false_iff Hl] y [-> | Hy]; [exact Hx | exact (Hl y Hy)] |].
    intros Hall. split; [apply orb_false_iff, Hall; by left | auto].
Qed.

(** One iteration accepts exactly the admissible entries and records them. *)
Lemma add_entry_spec (st : loop_state) (prev : list entry) (item : entry) :
  represents st prev ->
  match add_entry st item with
  | Ok st' => admissible prev item /\ represents st' (prev ++ [item])
  | Err _ => ~ admissible prev item
  end.
Proof.
  intros [Hu Hs Hi]. unfold add_entry, admissible.
  destruct (validateEntry item) as [err|] eqn:Hv; [by intros [? _] |].
  fold (identity_of item). fold (is_legacy item).
  case_bool_decide as Huid; cbn [orb].
  { intros [_ Hall]. destruct Huid as [e He]. apply Hu in He as [Hin Heq].
    by destruct (Hall e Hin) as (? & _). }
  case_bool_decide as Hid.
  { intros [_ Hall]. apply Hi in Hid as (e & Hin & Heq). by destruct (Hall e Hin) as (_ & ? & _). }
  destruct (is_legacy item && _) eqn:Hov.
  { apply andb_true_iff in Hov as [Hleg Hov]. intros [_ Hall].
    assert (existsb (fun x => HasPrefix x (e_Slug item) || HasPrefix (e_Slug item) x)
              (elements (ls_slugs st)) = false); [| congruence].
    apply overlap_free. intros x (e & Hin & Hle & <-)%Hs. by apply (Hall e Hin). }
  assert (Hno : is_legacy item = true -> forall x, x ∈ ls_slugs st -> prefix_free x (e_Slug item)).
  { intros Hleg. rewrite Hleg in Hov. by apply overlap_free. }
  assert (Hfresh : ls_entries st !! e_UID item = None) by by apply eq_None_not_Some.
  split.
  - split; [done |]. intros e Hin. split; [| split].
    + intros Heq. apply Huid. exists e. by apply Hu.
    + intros Heq. apply Hid, Hi. by exists e.
    + intros Hle Hleg. apply Hno; [done |]. apply Hs. by exists e.
  - split; cbn.
    + intros u e. destruct (decide (e_UID item = u)) as [<- | Hne].
      * rewrite lookup_insert_eq, elem_of_app, list_elem_of_singleton. split; [naive_solver |].
        intros [[Hin | ->] Heq]; [| done]. exfalso. apply Huid. exists e. by apply Hu.
      * rewrite lookup_insert_ne, Hu, elem_of_app, list_elem_of_singleton by done. naive_solver.
    + intros s. rewrite exists_snoc. destruct (is_legacy item) eqn:Hleg.
      * rewrite elem_of_union, elem_of_singleton, Hs.
        split; [intros [-> | ?]; [by right | by left] | intros [? | [_ <-]]; [by right | by left]].
      * rewrite Hs. split; [by left | by intros [? | [? _]]].
    + intros i. rewrite exists_snoc, elem_of_union, elem_of_singleton, Hi.
      split; [intros [-> | ?]; [by right | by left] | intros [? | <-]; [by right | by left]].
Qed.

Lemma add_entries_spec (st : loop_state) (prev es : list entry) :
  represents st prev ->
  match fold_res add_entry st es with
  | Ok st' => admissible_list prev es /\ represents st' (prev ++ es)
  | Err _ => ~ admissible_list prev es
  end.
Proof.
  revert st prev; induction es as [|e es IH]; intros st prev Hrep; cbn.
  { by rewrite app_nil_r. }
  pose proof (add_entry_spec st prev e Hrep) as He.
  destruct (add_entry st e) as [st' | err]; cbn; [| tauto].
  destruct He as [Ha Hrep']. specialize (IH st' _ Hrep').
  destruct (fold_res add_entry st' es) as [st'' | err]; [| tauto].
  rewrite <-app_assoc in IH. destruct IH. done.
Qed.

(** The invariant of a policy built by [Parse]. *)
Record policy_wf (p : Policy) : Prop := {
  wf_cutover : cutover p <> 0%Z;
  wf_entry u e : entries p !! u = Some e -> e_UID e = u /\ validateEntry e = None;
  wf_identity u v e f :
    entries p !! u = Some e -> entries p !! v = Some f -> identity_of e = identity_of f -> u = v;
  wf_legacy u v e f :
    entries p !! u = Some e -> entries p !! v = Some f ->
    is_legacy e = true -> is_legacy f = true -> HasPrefix (e_Slug e) (e_Slug f) = true -> u = v;
}.

Lemma admissible_list_app (prev es : list entry) (e : entry) :
  admissible_list prev (es ++ [e]) <-> admissible_list prev es /\ admissible (prev ++ es) e.
Proof.
  revert prev; induction es as [|x es IH]; intros prev; cbn.
  - rewrite app_nil_r. tauto.
  - rewrite IH, <-app_assoc. cbn. tauto.
Qed.

(** Any two entries of an admissible list are compatible. *)
Lemma admissible_pair (es : list entry) (e f : entry) :
  admissible_list [] es -> e ∈ es -> f ∈ es ->
  validateEntry e = None /\
  (identity_of e = identity_of f -> e_UID e = e_UID f) /\
  (is_legacy e = true -> is_legacy f = true -> HasPrefix (e_Slug e) (e_Slug f) = true ->
   e_UID e = e_UID f).
Proof.
  revert e f. induction es as [|x es IH] using rev_ind; intros e f; [set_solver |].
  rewrite admissible_list_app, !elem_of_app, !list_elem_of_singleton. cbn.
  intros [Hes [Hv Hx]] [He | ->] [Hf | ->].
  - by apply IH.
  - destruct (Hx e He) as (? & ? & Hp). destruct (IH e e Hes He He) as (? & _).
    split; [done |]. split; [done |]. intros Hle Hlx Hpre. destruct (Hp Hle Hlx). congruence.
  - destruct (Hx f Hf) as (? & ? & Hp).
    split; [done |]. split; [congruence |]. intros Hlx Hle Hpre. destruct (Hp Hle Hlx). congruence.
  - done.
Qed.

Lemma build_policy_wf (config : configuration) (p : Policy) :
  build_policy config = Ok p -> policy_wf p.
Proof.
  unfold build_policy. destruct (time_ParseRFC3339 _) as [t|]; [| done].
  destruct (Z.eqb_spec t 0) as [|Ht]; [done |].
  pose proof (add_entries_spec _ [] (cfg_Entries config) represents_empty) as Hes.
  destruct (fold_res _ _ _) as [st|]; cbn; [| done]. intros [= <-].
  destruct Hes as [Hadm [Hu _ _]]. cbn in Hu. split; cbn; [done | | |].
  - intros u e [Hin <-]%Hu. split; [done |]. apply (admissible_pair _ e e Hadm Hin Hin).
  - intros u v e f [He <-]%Hu [Hf <-]%Hu. apply (admissible_pair _ e f Hadm He Hf).
  - intros u v e f [He <-]%Hu [Hf <-]%Hu. apply (admissible_pair _ e f Hadm He Hf).
Qed.

Lemma Parse_wf (reader : res string) (p : Policy) : Parse reader = Ok p -> policy_wf p.
Proof.
  unfold Parse. destruct reader as [content | e]; [| done].
  destruct (_ <? _)%Z; [done |]. destruct (json_scan _) as [| |doc rest]; [done .. |].
  destruct (rejectDuplicateKeys _ _); [| done].
  destruct (decode_configuration doc) as [config|]; [| done].
  destruct (json_scan rest); [| done ..]. apply build_policy_wf.
Qed.

(** C27: policy parsing accepts a configuration exactly when its cutover is a
    nonzero RFC 3339 time, every entry is valid, and no two entries share a UID or
    an instance identity or have prefix-overlapping legacy slugs. *)
Theorem build_policy_accepts (config : configuration) :
  is_ok (build_policy config) = true <->
  (exists t, time_ParseRFC3339 (cfg_Cutover config) = Some t /\ t <> 0%Z) /\
  admissible_list [] (cfg_Entries config).
Proof.
  unfold build_policy. destruct (time_ParseRFC3339 _) as [t|]; [| naive_solver].
  destruct (Z.eqb_spec t 0) as [|Ht]; [naive_solver |].
  pose proof (add_entries_spec _ [] (cfg_Entries config) represents_empty) as Hes.
  destruct (fold_res _ _ _) as [st|]; cbn in *; naive_solver.
Qed.

End Properties.

(** The token-level scan with the fuel [Parse] gives it terminates and accepts
    a document exactly when every object in it has canonical, pairwise distinct
    field names at every depth. *)
Theorem rejectDuplicateKeys_spec (j : json) :
  is_ok (rejectDuplicateKeys (2 * length (tokens_of j)) (tokens_of j)) = unambiguous j.
Proof.
  pose proof (scans_all j (2 * length (tokens_of j)) [] (le_n _)) as Hs.
  rewrite app_nil_r in Hs. destruct (unambiguous j); [by rewrite Hs |].
  by destruct Hs as [e ->].
Qed.

(** ** Selected slugs *)

Lemma derived_slug_length (uid : string) : String.length (derived_slug uid) = 36.
Proof.
  unfold derived_slug. cbv zeta. rewrite string_length_app, hex_encode_length, length_take, Sum256_length.
  reflexivity.
Qed.

Lemma derived_slug_inj (u v : string) :
  derived_slug u = derived_slug v -> u = v \/ slug_collision u v.
Proof.
  intros Heq. apply string_app_inj_l, hex_encode_inj in Heq;
    [| apply Forall_take, Sum256_range ..].
  destruct (decide (u = v)); [by left | right; by split].
Qed.

Lemma derived_slug_reserved (uid : string) : HasPrefix (derived_slug uid) "llm-" = true.
Proof. apply HasPrefix_app. Qed.

(** C29: every derived slug is 36 bytes of lowercase hexadecimal digits after the
    reserved prefix [llm-], so it is a DNS label and a label value. *)
Theorem derived_slug_shape (uid : string) :
  String.length (derived_slug uid) = 36 /\
  HasPrefix (derived_slug uid) "llm-" = true /\
  str_forall is_lower_hex (str_drop 4 (derived_slug uid)) = true /\
  Ref.dns_label (derived_slug uid) = true /\ Ref.label_value (derived_slug uid) = true.
Proof.
  set (t := hex_encode (take 16 (Sum256 (bytes_of ("llm.privatellms.msp/slug/v1:" +:+ uid))))).
  pose proof (hex_encode_charset (take 16 (Sum256 (bytes_of ("llm.privatellms.msp/slug/v1:" +:+ uid)))))
    as Hc. fold t in Hc.
  pose proof (derived_slug_length uid) as Hlen.
  change (derived_slug uid) with ("llm-" +:+ t) in *.
  split; [exact Hlen |]. split; [apply HasPrefix_app |]. split; [exact Hc |].
  apply Ref.hex_label_ok; [done | done | | exact Hc | lia].
  intros Ht. rewrite Ht in Hlen. discriminate Hlen.
Qed.

Section Selection.
  Context `{KubeLib}.

Lemma select_cases (p : Policy) (o : ObjectMeta) (s : Selection) :
  Select (Some p) o = Ok s ->
  UID o <> "" /\ CreationTimestamp o <> 0%Z /\
  ((exists e, entries p !! UID o = Some e /\ is_legacy e = true /\
              e_Namespace e = Namespace o /\ e_Name e = Name o /\
              s = {| sel_Slug := e_Slug e; sel_Source := Legacy |}) \/
   ((is_Some (entries p !! UID o) \/ (cutover p < CreationTimestamp o)%Z) /\
    s = {| sel_Slug := derived_slug (UID o); sel_Source := Derived |})).
Proof.
  cbn. destruct (bool_decide (UID o = "") || _) eqn:Hid; [done |]. bool_props.
  destruct (entries p !! UID o) as [e|] eqn:He.
  - destruct (negb _ || negb _) eqn:Hb; [done |]. bool_props. fold (is_legacy e).
    destruct (is_legacy e) eqn:Hl; intros [= <-]; (split; [done | split; [done |]]); [left | right].
    + by exists e.
    + split; [left; by exists e | done].
  - destruct (negb (cutover p <? CreationTimestamp o)%Z) eqn:Hb; [done |]. bool_props.
    intros [= <-]. split; [done | split; [done |]]. right. split; [by right | done].
Qed.

Lemma legacy_outside_reserved (p : Policy) (u : string) (e : entry) :
  policy_wf p -> entries p !! u = Some e -> is_legacy e = true ->
  prefix_free (e_Slug e) "llm-".
Proof.
  intros Hwf He Hl. destruct (wf_entry p Hwf u e He) as [_ Hv]. revert Hv.
  unfold validateEntry. destruct (bool_decide _ || _ || _ || _); [done |].
  fold (is_legacy e). rewrite Hl.
  destruct (bool_decide _ || _ || _ || _) eqn:Hb; [done |]. bool_props. by split.
Qed.

(** A legacy slug and a derived one are never prefix-related. *)
Lemma legacy_derived_free (p : Policy) (u v : string) (e : entry) :
  policy_wf p -> entries p !! u = Some e -> is_legacy e = true ->
  prefix_free (e_Slug e) (derived_slug v).
Proof.
  intros Hwf He Hl. destruct (legacy_outside_reserved p u e Hwf He Hl) as [H1 H2].
  split; apply not_true_is_false; intros Hp.
  - pose proof (HasPrefix_trans _ _ _ Hp (derived_slug_reserved v)). congruence.
  - destruct (HasPrefix_common _ _ _ Hp (derived_slug_reserved v)); congruence.
Qed.

Lemma select_no_overlap_pure (reader : res string) (p : Policy) (a b : ObjectMeta) (s t : Selection) :
  Parse reader = Ok p -> Select (Some p) a = Ok s -> Select (Some p) b = Ok t ->
  HasPrefix (sel_Slug s) (sel_Slug t) = true ->
  UID a = UID b \/ slug_collision (UID a) (UID b).
Proof.
  intros Hp Ha Hb Hover.
  apply Parse_wf in Hp.
  destruct (select_cases p a s Ha) as (_ & _ & [(e & He & Hle & _ & _ & ->) | [_ ->]]);
    destruct (select_cases p b t Hb) as (_ & _ & [(f & Hf & Hlf & _ & _ & ->) | [_ ->]]); cbn in Hover.
  - left. exact (wf_legacy p Hp _ _ e f He Hf Hle Hlf Hover).
  - destruct (legacy_derived_free p _ (UID b) e Hp He Hle). congruence.
  - destruct (legacy_derived_free p _ (UID a) f Hp Hf Hlf). congruence.
  - apply derived_slug_inj, HasPrefix_length_eq, Hover. by rewrite !derived_slug_length.
Qed.

(** C16: under a parsed policy the slugs selected for two objects are never
    prefix-related (so no route path covers another) unless the objects have the
    same UID or their UIDs collide in the truncated SHA-256. *)
Theorem select_no_overlap (reader : res string) (p : Policy) (a b : ObjectMeta) (s t : Selection)
  (Hp : Parse reader = Ok p) (Ha : Select (Some p) a = Ok s) (Hb : Select (Some p) b = Ok t)
  (Hover : HasPrefix (sel_Slug s) (sel_Slug t) = true) :
  UID a = UID b \/ slug_collision (UID a) (UID b).
Proof. by eapply select_no_overlap_pure. Qed.

(** An instance that existed at the cutover is never renamed silently: a
    selection for it comes from a reviewed entry with exactly its UID, and a legacy
    slug is only given to the reviewed namespace and name. *)
Theorem select_reviewed (p : Policy) (o : ObjectMeta) (s : Selection)
  (Hs : Select (Some p) o = Ok s) (Hold : (CreationTimestamp o <= cutover p)%Z) :
  exists e, entries p !! UID o = Some e /\ e_Namespace e = Namespace o /\ e_Name e = Name o /\
    (is_legacy e = true -> sel_Slug s = e_Slug e /\ sel_Source s = Legacy) /\
    (is_legacy e = false -> sel_Slug s = derived_slug (UID o) /\ sel_Source s = Derived).
Proof.
  revert Hs. cbn. destruct (_ || _); [done |].
  destruct (entries p !! UID o) as [e|] eqn:He.
  - destruct (negb _ || negb _) eqn:Hb; [done |]. bool_props. fold (is_legacy e).
    intros Hs. exists e. do 3 (split; [done |]).
    split; intros Hl; rewrite Hl in Hs; by injection Hs as <-.
  - apply Z.ltb_ge in Hold. by rewrite Hold.
Qed.

End Selection.

(** ** A concrete policy *)

Module PolicyExample.

(** The document of the repository's migration test, as a value. *)
Definition document : json :=
  JsObject
    [("cutover", JsString "2026-10-28T12:00:00Z");
     ("entries", JsArray
       [JsObject [("uid", JsString "old-uid"); ("namespace", JsString "tenant-a");
                  ("name", JsString "old"); ("mode", JsString "legacy");
                  ("slug", JsString "Existing_Slug")];
        JsObject [("uid", JsString "unused-uid"); ("namespace", JsString "tenant-a");
                  ("name", JsString "unused"); ("mode", JsString "derive")]])].

(** Its text. *)
Definition text : string :=
  match json_Marshal document with Some t => t | None => "" end.

Definition policy : Policy :=
  match Parse (H := ref_lib) (Ok text) with
  | Ok p => p
  | Err _ => {| cutover := 0; entries := ∅ |}
  end.

Definition old : ObjectMeta :=
  empty_meta <| Name := "old" |> <| Namespace := "tenant-a" |> <| UID := "old-uid" |>
             <| CreationTimestamp := 100%Z |>.

Definition fresh : ObjectMeta :=
  empty_meta <| Name := "fresh" |> <| Namespace := "tenant-a" |> <| UID := "fresh-uid" |>
             <| CreationTimestamp := 63928785601000000000%Z |>.

Definition old_selection : Selection := {| sel_Slug := "Existing_Slug"; sel_Source := Legacy |}.

Example parse_ok : Parse (H := ref_lib) (Ok text) = Ok policy.
Proof. vm_compute. reflexivity. Qed.

Example old_selected : Select (Some policy) old = Ok old_selection.
Proof. vm_compute. reflexivity. Qed.

(** At the cutover itself an unmapped instance is still refused. *)
Example boundary_refused :
  Select (Some policy) (fresh <| CreationTimestamp := 63928785600000000000%Z |>) =
  Err (ErrSentinel ErrLegacyUnmapped).
Proof. vm_compute. reflexivity. Qed.

Example fresh_derived :
  Select (Some policy) fresh =
  Ok {| sel_Slug := derived_slug "fresh-uid"; sel_Source := Derived |}.
Proof. vm_compute. reflexivity. Qed.

End PolicyExample.

Lemma select_no_overlap_witness :
  UID PolicyExample.old = UID PolicyExample.old \/
  slug_collision (UID PolicyExample.old) (UID PolicyExample.old).
Proof.
  apply (select_no_overlap (H := ref_lib) (Ok PolicyExample.text)
           PolicyExample.policy PolicyExample.old PolicyExample.old
           PolicyExample.old_selection PolicyExample.old_selection);
    vm_compute; reflexivity.
Defined.

Lemma select_reviewed_witness :
  exists e, entries PolicyExample.policy !! UID PolicyExample.old = Some e /\
    e_Namespace e = "tenant-a" /\ e_Name e = "old" /\
    (is_legacy e = true -> "Existing_Slug" = e_Slug e /\ Legacy = Legacy) /\
    (is_legacy e = false -> "Existing_Slug" = derived_slug "old-uid" /\ Legacy = Derived).
Proof.
  apply (select_reviewed PolicyExample.policy PolicyExample.old PolicyExample.old_selection).
  - vm_compute. reflexivity.
  - vm_compute. discriminate.
Defined.
