(* ===== verification/PolicyFile.v ===== *)
(** * Policy files are read as written

    The text of a configuration, as an operator's tooling writes it, parses to the policy
    the configuration builds: scanning, the duplicate-key scan, decoding and the checks of
    [SlugPolicy.Parse] compose without loss. *)

From S2P Require Import Prelude GoStd GoTime GoJson GoJsonFacts GoError Kube KubeRef SlugPolicy.

(** ** The document of a configuration *)

Definition entry_json (e : entry) : json :=
  JsObject [("uid", JsString (e_UID e)); ("namespace", JsString (e_Namespace e)); ("name", JsString (e_Name e));
            ("mode", JsString (e_Mode e)); ("slug", JsString (e_Slug e))].

Definition config_json (c : configuration) : json :=
  JsObject [("cutover", JsString (cfg_Cutover c)); ("entries", JsArray (entry_json <$> cfg_Entries c))].

Definition policy_text (c : configuration) : string := print (config_json c).

Definition utf8_entry (e : entry) : bool :=
  valid_utf8 (e_UID e) && valid_utf8 (e_Namespace e) && valid_utf8 (e_Name e) && valid_utf8 (e_Mode e)
  && valid_utf8 (e_Slug e).

Lemma entry_printable (e : entry) : printable 1 (entry_json e) = utf8_entry e.
Proof.
  unfold utf8_entry.
  transitivity (valid_utf8 (e_UID e) && (valid_utf8 (e_Namespace e) && (valid_utf8 (e_Name e) &&
                (valid_utf8 (e_Mode e) && (valid_utf8 (e_Slug e) && true))))); [done |].
  by rewrite andb_true_r, !andb_assoc.
Qed.

Lemma config_printable (c : configuration) :
  valid_utf8 (cfg_Cutover c) = true -> forallb utf8_entry (cfg_Entries c) = true ->
  printable 3 (config_json c) = true.
Proof.
  intros Hc He. cbn -[valid_utf8 entry_json printable].
  assert (E : forallb (printable 1) (entry_json <$> cfg_Entries c) = true).
  { induction (cfg_Entries c) as [|e l IH]; [done |]. cbn [forallb] in He. bool_props.
    rewrite fmap_cons. cbn [forallb]. rewrite entry_printable, IH by done. by apply andb_true_iff. }
  change (valid_utf8 "cutover" && valid_utf8 (cfg_Cutover c)
          && (valid_utf8 "entries" && forallb (printable 1) (entry_json <$> cfg_Entries c) && true) = true).
  by rewrite Hc, E.
Qed.

(** Every object of it has canonical fields, each once. *)
Lemma config_unambiguous (c : configuration) : unambiguous (config_json c) = true.
Proof.
  unfold config_json. rewrite unambiguous_object. cbn [unambiguous_fields].
  rewrite unambiguous_array.
  assert (unambiguous_elems (entry_json <$> cfg_Entries c) = true) as ->.
  { induction (cfg_Entries c) as [|e l IH]; [done |]. rewrite fmap_cons. cbn [unambiguous_elems forallb].
    apply andb_true_iff. split; [| done]. by vm_compute. }
  by vm_compute.
Qed.

Lemma decode_entry_json (e : entry) : decode_entry (entry_json e) = Ok e.
Proof. by destruct e. Qed.

Lemma decode_entries_json (es acc : list entry) :
  fold_res (fun acc x => res_bind (decode_entry x) (fun e => Ok (acc ++ [e]))) acc (entry_json <$> es) = Ok (acc ++ es).
Proof.
  revert acc. induction es as [|e es IH]; intros acc; [by rewrite app_nil_r |].
  rewrite fmap_cons. cbn [fold_res]. rewrite decode_entry_json. cbn [res_bind]. by rewrite IH, <- app_assoc.
Qed.

Lemma decode_config_json (c : configuration) : decode_configuration (config_json c) = Ok c.
Proof.
  destruct c as [cut es]. unfold decode_configuration, config_json. cbn [fold_res].
  change (decode_config_field {| cfg_Cutover := ""; cfg_Entries := [] |} ("cutover", JsString cut))
    with (@Ok configuration {| cfg_Cutover := cut; cfg_Entries := [] |}). cbn [res_bind fold_res].
  transitivity (res_bind (res_bind (decode_entries (JsArray (entry_json <$> es)))
                            (fun es => Ok {| cfg_Cutover := cut; cfg_Entries := es |})) (fun c => Ok c)); [done |].
  cbn [decode_entries]. rewrite decode_entries_json. done.
Qed.

Section PolicyFile.
  Context `{KubeLib}.

(** C28: a policy file in JSON is read as it is written: for every configuration in
    valid UTF-8 whose text fits the limit of 1 MiB, parsing the text gives exactly what
    validating the configuration gives, its errors included. *)
Theorem policy_file_read (c : configuration)
  (Hcut : valid_utf8 (cfg_Cutover c) = true) (Hes : forallb utf8_entry (cfg_Entries c) = true)
  (Hlen : (Z.of_nat (String.length (policy_text c)) <= 2 ^ 20)%Z) :
  Parse (Ok (policy_text c)) = build_policy c.
Proof.
  unfold Parse, LimitReader. rewrite (proj2 (Z.leb_le _ _)) by lia. rewrite (proj2 (Z.ltb_ge _ _)) by lia.
  pose proof (config_printable c Hcut Hes) as Hp.
  rewrite <- (string_app_nil_r (policy_text c)). unfold policy_text at 1.
  rewrite (json_scan_print 3 _ "" Hp) by done.
  pose proof (scans_all (config_json c) _ [] (Nat.le_refl _)) as Hs. rewrite app_nil_r in Hs.
  rewrite config_unambiguous in Hs. rewrite Hs, decode_config_json. done.
Qed.

End PolicyFile.

Definition example_config : configuration :=
  {| cfg_Cutover := "2026-10-28T12:00:00Z";
     cfg_Entries := [{| e_UID := "old-uid"; e_Namespace := "tenant-a"; e_Name := "old"; e_Mode := "legacy";
                        e_Slug := "Existing_Slug" |};
                     {| e_UID := "unused-uid"; e_Namespace := "tenant-a"; e_Name := "unused"; e_Mode := "derive";
                        e_Slug := "" |}] |}.

Lemma policy_file_read_witness : Parse (H := ref_lib) (Ok (policy_text example_config)) = Ok PolicyExample.policy.
Proof.
  rewrite (policy_file_read (H := ref_lib) example_config eq_refl eq_refl); [| by vm_compute].
  vm_compute. reflexivity.
Defined.
