(* ===== verification/Model.v ===== *)
(** * Model selection (llminstance_controller.go) and provider ceilings
      (model_server_ceilings.go)

    [resolveModel] and [modelForInstance] turn a spec into the settings of the
    inference server; [ModelServerCeilings] bounds them before any workload exists. *)

From S2P Require Import Prelude GoStd GoError Kube KubeRef Api.

(** ** Model selection *)

Record modelSelection := {
  ms_name : string;
  ms_file : string;
  ms_url : string;
  ms_sha256 : string;
  serverArgs : list string;
  ephemeralStorageRequest : string;
  ephemeralStorageLimit : string;
  memoryRequest : string;
  memoryLimit : string;
  cpuRequest : string;
  cpuLimit : string;
}.

(** A selection that sets only name, file and URL. *)
Definition plain_model (name file url : string) : modelSelection :=
  {| ms_name := name; ms_file := file; ms_url := url; ms_sha256 := ""; serverArgs := [];
     ephemeralStorageRequest := ""; ephemeralStorageLimit := "";
     memoryRequest := ""; memoryLimit := ""; cpuRequest := ""; cpuLimit := "" |}.

Definition tinyLlamaModel : string := "tinyllama".
Definition qwen3Model : string := "qwen3-4b".

Definition qwen3_selection : modelSelection :=
  {| ms_name := "qwen3-4b";
     ms_file := "Qwen3-4B-Q4_K_M.gguf";
     ms_url := "https://huggingface.co/Qwen/Qwen3-4B-GGUF/resolve/34778e26c8fa5e8bc0daa2389a9f958cffb1aedd/Qwen3-4B-Q4_K_M.gguf";
     ms_sha256 := "7485fe6f11af29433bc51cab58009521f205840f5b4ae3a32fa7f92e8534fdf5";
     serverArgs := ["--ctx-size"; "8192"; "--jinja"; "--reasoning-format"; "deepseek"; "--reasoning"; "off"; "--no-webui"];
     ephemeralStorageRequest := "4Gi";
     ephemeralStorageLimit := "5Gi";
     memoryRequest := "4Gi";
     memoryLimit := "7Gi";
     cpuRequest := "500m";
     cpuLimit := "1800m" |}.

Definition tinyllama_url : string :=
  "https://huggingface.co/TheBloke/TinyLlama-1.1B-Chat-v1.0-GGUF/resolve/main/tinyllama-1.1b-chat-v1.0.Q4_K_M.gguf?download=true".

Definition name_or (trimmed fallback : string) : string :=
  if bool_decide (trimmed = "") then fallback else trimmed.

Definition resolveModel (requested : string) : modelSelection :=
  let trimmed := TrimSpace requested in
  let id := ToLower trimmed in
  let among names := bool_decide (id ∈ (names : list string)) in
  if among [qwen3Model; "qwen3-4b-q4_k_m"; "qwen3-4b-q4_k_m.gguf"] then qwen3_selection
  else if among ["gemma-3-1b-it"; "gemma-3-1b-it-q4_k_m"; "gemma-3-1b-it-q4_k_m.gguf"] then
    plain_model (name_or trimmed "gemma-3-1b-it") "gemma-3-1b-it-Q4_K_M.gguf"
      "https://huggingface.co/ggml-org/gemma-3-1b-it-GGUF/resolve/main/gemma-3-1b-it-Q4_K_M.gguf?download=true"
  else if among ["gemma-3-4b-it"; "gemma-3-4b-it-q4_k_m"; "gemma-3-4b-it-q4_k_m.gguf"] then
    plain_model (name_or trimmed "gemma-3-4b-it") "gemma-3-4b-it-Q4_K_M.gguf"
      "https://huggingface.co/ggml-org/gemma-3-4b-it-GGUF/resolve/main/gemma-3-4b-it-Q4_K_M.gguf?download=true"
  else if among ["gemma-3-12b-it"; "gemma-3-12b-it-q4_k_m"; "gemma-3-12b-it-q4_k_m.gguf"] then
    plain_model (name_or trimmed "gemma-3-12b-it") "gemma-3-12b-it-Q4_K_M.gguf"
      "https://huggingface.co/ggml-org/gemma-3-12b-it-GGUF/resolve/main/gemma-3-12b-it-Q4_K_M.gguf?download=true"
  else if among ["phi-2"] then
    plain_model (name_or trimmed "phi-2") "phi-2.Q4_0.gguf"
      "https://huggingface.co/TheBloke/phi-2-GGUF/resolve/main/phi-2.Q4_0.gguf?download=true"
  else if among ["tinyllama-1.1b-chat-v1.0"; tinyLlamaModel; ""; "default"] then
    plain_model trimmed "tinyllama.gguf" tinyllama_url
  else plain_model trimmed "tinyllama.gguf" tinyllama_url.

Definition path (m : modelSelection) : string := "/models/" +:+ ms_file m.

(** Overwrite the value after the first occurrence of the flag, or append both. *)
Fixpoint setServerIntFlag (args : list string) (flag : string) (value : Z) : list string :=
  match args with
  | x :: ((_ :: rest') as rest) =>
      if bool_decide (x = flag) then x :: Itoa value :: rest'
      else x :: setServerIntFlag rest flag value
  | _ => args ++ [flag; Itoa value]
  end.

Definition modelForInstance (inst : LLMInstance) : modelSelection :=
  let model := resolveModel (spec_Model (Spec inst)) in
  let model :=
    match spec_Resources (Spec inst) with
    | None => model
    | Some resources =>
        let model :=
          match CPU resources with
          | Some cpu => model <| cpuRequest := Itoa (RequestMilli cpu) +:+ "m" |>
                              <| cpuLimit := Itoa (LimitMilli cpu) +:+ "m" |>
          | None => model
          end in
        match Memory resources with
        | Some memory => model <| memoryRequest := Itoa (RequestMiB memory) +:+ "Mi" |>
                               <| memoryLimit := Itoa (LimitMiB memory) +:+ "Mi" |>
        | None => model
        end
    end in
  let model :=
    match spec_ContextSize (Spec inst) with
    | Some n => model <| serverArgs ::= fun args => setServerIntFlag args "--ctx-size" n |>
    | None => model
    end in
  match spec_ParallelSlots (Spec inst) with
  | Some n => model <| serverArgs ::= fun args => setServerIntFlag args "--parallel" n |>
  | None => model
  end.

(** ** Provider ceilings *)

Record ModelServerCeilings := {
  CPUMilli : Z;
  MemoryMiB : Z;
  ContextSize : Z;
  ParallelSlots : Z;
}.

(** The first limit of the table outside its range, as an error. *)
Fixpoint validate_limits (limits : list (string * Z * Z)) : option error :=
  match limits with
  | [] => None
  | (name, value, maximum) :: limits' =>
      if (value <? 0)%Z || (maximum <? value)%Z
      then Some (ErrText (name +:+ " must be between 0 and " +:+ Itoa maximum))
      else validate_limits limits'
  end.

Definition Validate (c : ModelServerCeilings) : option error :=
  validate_limits
    [("max-model-cpu-milli", CPUMilli c, 16000%Z);
     ("max-model-memory-mib", MemoryMiB c, 65536%Z);
     ("max-context-size", ContextSize c, 131072%Z);
     ("max-parallel-slots", ParallelSlots c, 16%Z)].

(** The first numeric value that follows an occurrence of the flag. *)
Fixpoint serverIntFlag (args : list string) (name : string) (fallback : Z) : Z :=
  match args with
  | x :: ((y :: _) as rest) =>
      if bool_decide (x = name) then
        match Atoi y with
        | Some value => value
        | None => serverIntFlag rest name fallback
        end
      else serverIntFlag rest name fallback
  | _ => fallback
  end.

(** The first requested amount above its ceiling, as an error. *)
Fixpoint check_limits (limits : list (string * Z * Z)) : option error :=
  match limits with
  | [] => None
  | (name, requested, maximum) :: limits' =>
      if (maximum <? requested)%Z
      then Some (ErrText (name +:+ " " +:+ Itoa requested +:+ " exceeds provider ceiling "
                          +:+ Itoa maximum +:+ "; ask the provider to raise the ceiling"))
      else check_limits limits'
  end.

Section Ceilings.
  Context `{KubeLib}.

Definition cpuMilli (value : string) : Z :=
  if bool_decide (value = "") then 0%Z else MilliValue (MustParse value).

(** Go's integer division truncates towards zero. *)
Definition memoryMiB (value : string) : Z :=
  if bool_decide (value = "") then 0%Z else Z.quot (QValue (MustParse value)) (1024 * 1024).

(** A ceiling of zero falls back to the budget of the model. *)
Definition ceiling_or (configured baseline : Z) : Z :=
  if (configured =? 0)%Z then baseline else configured.

Definition check (c : ModelServerCeilings) (inst : LLMInstance) : option error :=
  match Validate c with
  | Some err => Some err
  | None =>
      let baseline := resolveModel (spec_Model (Spec inst)) in
      let desired := modelForInstance inst in
      let cpuRequestMax := ceiling_or (CPUMilli c) (cpuMilli (cpuRequest baseline)) in
      let cpuLimitMax := ceiling_or (CPUMilli c) (cpuMilli (cpuLimit baseline)) in
      let memoryRequestMax := ceiling_or (MemoryMiB c) (memoryMiB (memoryRequest baseline)) in
      let memoryLimitMax := ceiling_or (MemoryMiB c) (memoryMiB (memoryLimit baseline)) in
      let contextMax := ceiling_or (ContextSize c) (serverIntFlag (serverArgs baseline) "--ctx-size" 0) in
      let parallelMax := ceiling_or (ParallelSlots c) (serverIntFlag (serverArgs baseline) "--parallel" 4) in
      check_limits
        [("CPU request (millicores)", cpuMilli (cpuRequest desired), cpuRequestMax);
         ("CPU limit (millicores)", cpuMilli (cpuLimit desired), cpuLimitMax);
         ("memory request (MiB)", memoryMiB (memoryRequest desired), memoryRequestMax);
         ("memory limit (MiB)", memoryMiB (memoryLimit desired), memoryLimitMax);
         ("contextSize", serverIntFlag (serverArgs desired) "--ctx-size" 0, contextMax);
         ("parallelSlots", serverIntFlag (serverArgs desired) "--parallel" 4, parallelMax)]
  end.

End Ceilings.

(** ** Laws of the flags *)

Lemma serverIntFlag_cons (x y : string) (rest : list string) (name : string) (d : Z) :
  serverIntFlag (x :: y :: rest) name d =
  if bool_decide (x = name) then
    match Atoi y with Some v => v | None => serverIntFlag (y :: rest) name d end
  else serverIntFlag (y :: rest) name d.
Proof. reflexivity. Qed.

Lemma setServerIntFlag_cons (x y : string) (rest : list string) (flag : string) (v : Z) :
  setServerIntFlag (x :: y :: rest) flag v =
  if bool_decide (x = flag) then x :: Itoa v :: rest
  else x :: setServerIntFlag (y :: rest) flag v.
Proof. reflexivity. Qed.

Lemma setServerIntFlag_head (x : string) (rest : list string) (flag : string) (v : Z) :
  exists y t, setServerIntFlag (x :: rest) flag v = x :: y :: t.
Proof.
  destruct rest as [|y rest]; [cbn; eauto |].
  rewrite setServerIntFlag_cons. case_bool_decide; [eauto |].
  destruct rest; cbn; [eauto |]. case_bool_decide; eauto.
Qed.

Definition int32 (z : Z) : Prop := (- 2 ^ 31 <= z < 2 ^ 31)%Z.

Lemma Atoi_int32 (z : Z) : int32 z -> Atoi (Itoa z) = Some z.
Proof. intros Hz. apply Atoi_Itoa. unfold int32, int_min, int_max in *. lia. Qed.

(** Setting an integer flag of the server and reading it back yields the value
    set, whatever the argument list, for every flag name that is not itself a number. *)
Theorem server_flag_roundtrip (args : list string) (flag : string) (v d : Z)
  (Hv : int32 v) (Hflag : Atoi flag = None) :
  serverIntFlag (setServerIntFlag args flag v) flag d = v.
Proof.
  induction args as [|x [|y rest] IH].
  - cbn. rewrite bool_decide_true by done. by rewrite Atoi_int32.
  - cbn [setServerIntFlag app]. rewrite serverIntFlag_cons, Hflag, serverIntFlag_cons.
    rewrite Atoi_int32 by done. by case_bool_decide; rewrite bool_decide_true.
  - rewrite setServerIntFlag_cons. case_bool_decide as Hx.
    + rewrite serverIntFlag_cons, bool_decide_true by done. by rewrite Atoi_int32.
    + destruct (setServerIntFlag_head y rest flag v) as (z & t & E).
      rewrite E in *. by rewrite serverIntFlag_cons, bool_decide_false.
Qed.

Lemma server_flag_roundtrip_witness :
  serverIntFlag (setServerIntFlag ["--jinja"; "--ctx-size"] "--ctx-size" 4096) "--ctx-size" 0 = 4096%Z.
Proof.
  apply (server_flag_roundtrip ["--jinja"; "--ctx-size"] "--ctx-size" 4096 0).
  - unfold int32. lia.
  - reflexivity.
Defined.

(** Every model has either no server arguments of its own or those of qwen3. *)
Lemma resolveModel_args (s : string) :
  serverArgs (resolveModel s) = [] \/ serverArgs (resolveModel s) = serverArgs qwen3_selection.
Proof. unfold resolveModel. cbv zeta. repeat case_bool_decide; auto. Qed.

(** ** What an instance asks for, and the budgets it must respect *)

Definition override {A} (read : A -> Z) (o : option A) (baseline : Z) : Z :=
  match o with Some a => read a | None => baseline end.

Definition cpu_of (inst : LLMInstance) : option ModelCPUResources :=
  spec_Resources (Spec inst) ≫= CPU.
Definition memory_of (inst : LLMInstance) : option ModelMemoryResources :=
  spec_Resources (Spec inst) ≫= Memory.

(** The non-negative 32-bit amounts the API schema admits. *)
Definition nat32 (z : Z) : Prop := (0 <= z < 2 ^ 31)%Z.

Record schema_ok (inst : LLMInstance) : Prop := {
  ok_cpu cpu : cpu_of inst = Some cpu -> nat32 (RequestMilli cpu) /\ nat32 (LimitMilli cpu);
  ok_memory m : memory_of inst = Some m -> nat32 (RequestMiB m) /\ nat32 (LimitMiB m);
  ok_context n : spec_ContextSize (Spec inst) = Some n -> nat32 n;
  ok_slots n : spec_ParallelSlots (Spec inst) = Some n -> nat32 n;
}.

Lemma nat32_int32 (z : Z) : nat32 z -> int32 z.
Proof. unfold nat32, int32. lia. Qed.

(** The amounts in force after [modelForInstance], as strings and flags. *)
Lemma modelForInstance_cpu (inst : LLMInstance) :
  let base := resolveModel (spec_Model (Spec inst)) in
  cpuRequest (modelForInstance inst) =
    match cpu_of inst with Some c => Itoa (RequestMilli c) +:+ "m" | None => cpuRequest base end /\
  cpuLimit (modelForInstance inst) =
    match cpu_of inst with Some c => Itoa (LimitMilli c) +:+ "m" | None => cpuLimit base end.
Proof.
  cbv zeta. unfold modelForInstance, cpu_of. destruct (spec_Resources (Spec inst)) as [[[c|] [m|]]|];
  destruct (spec_ContextSize (Spec inst)), (spec_ParallelSlots (Spec inst)); done.
Qed.

Lemma modelForInstance_memory (inst : LLMInstance) :
  let base := resolveModel (spec_Model (Spec inst)) in
  memoryRequest (modelForInstance inst) =
    match memory_of inst with Some m => Itoa (RequestMiB m) +:+ "Mi" | None => memoryRequest base end /\
  memoryLimit (modelForInstance inst) =
    match memory_of inst with Some m => Itoa (LimitMiB m) +:+ "Mi" | None => memoryLimit base end.
Proof.
  cbv zeta. unfold modelForInstance, memory_of. destruct (spec_Resources (Spec inst)) as [[[c|] [m|]]|];
  destruct (spec_ContextSize (Spec inst)), (spec_ParallelSlots (Spec inst)); done.
Qed.

Definition set_opt (flag : string) (o : option Z) (args : list string) : list string :=
  match o with Some n => setServerIntFlag args flag n | None => args end.

Lemma modelForInstance_args (inst : LLMInstance) :
  serverArgs (modelForInstance inst) =
  set_opt "--parallel" (spec_ParallelSlots (Spec inst))
    (set_opt "--ctx-size" (spec_ContextSize (Spec inst))
       (serverArgs (resolveModel (spec_Model (Spec inst))))).
Proof.
  unfold modelForInstance. destruct (spec_Resources (Spec inst)) as [[[c|] [m|]]|];
  destruct (spec_ContextSize (Spec inst)), (spec_ParallelSlots (Spec inst)); done.
Qed.

(** Setting both flags on the arguments of any model leaves each readable. *)
Lemma model_flags (s : string) (ctx par : option Z) :
  (forall n, ctx = Some n -> nat32 n) -> (forall n, par = Some n -> nat32 n) ->
  let base := serverArgs (resolveModel s) in
  let args := set_opt "--parallel" par (set_opt "--ctx-size" ctx base) in
  serverIntFlag args "--ctx-size" 0 = override id ctx (serverIntFlag base "--ctx-size" 0) /\
  serverIntFlag args "--parallel" 4 = override id par (serverIntFlag base "--parallel" 4).
Proof.
  intros Hc Hp. cbv zeta.
  assert (HA : forall n, nat32 n -> Atoi (Itoa n) = Some n)
    by (intros n Hn; apply Atoi_int32, nat32_int32, Hn).
  assert (HN : forall n f, Atoi f = None -> nat32 n -> Itoa n <> f)
    by (intros n f Hf Hn <-; rewrite HA in Hf by done; done).
  destruct (resolveModel_args s) as [-> | ->];
    destruct ctx as [c|], par as [p|]; cbn [set_opt override setServerIntFlag serverIntFlag app
      serverArgs qwen3_selection id];
    repeat first
      [ rewrite bool_decide_true by done
      | rewrite bool_decide_false by (first [done | apply HN; [reflexivity | eauto]])
      | rewrite HA by eauto
      | progress cbn [setServerIntFlag serverIntFlag app override id] ]; done.
Qed.

Section CeilingLaws.
  Context `{KubeLaws}.

(** What an instance is granted when its own settings are left unset. *)
Definition budgets (c : ModelServerCeilings) (base : modelSelection) : list Z :=
  [ceiling_or (CPUMilli c) (cpuMilli (cpuRequest base));
   ceiling_or (CPUMilli c) (cpuMilli (cpuLimit base));
   ceiling_or (MemoryMiB c) (memoryMiB (memoryRequest base));
   ceiling_or (MemoryMiB c) (memoryMiB (memoryLimit base));
   ceiling_or (ContextSize c) (serverIntFlag (serverArgs base) "--ctx-size" 0);
   ceiling_or (ParallelSlots c) (serverIntFlag (serverArgs base) "--parallel" 4)].

Definition amounts (inst : LLMInstance) (base : modelSelection) : list Z :=
  [override RequestMilli (cpu_of inst) (cpuMilli (cpuRequest base));
   override LimitMilli (cpu_of inst) (cpuMilli (cpuLimit base));
   override RequestMiB (memory_of inst) (memoryMiB (memoryRequest base));
   override LimitMiB (memory_of inst) (memoryMiB (memoryLimit base));
   override id (spec_ContextSize (Spec inst)) (serverIntFlag (serverArgs base) "--ctx-size" 0);
   override id (spec_ParallelSlots (Spec inst)) (serverIntFlag (serverArgs base) "--parallel" 4)].

Lemma app_nonempty (s : string) (c : Ascii.ascii) (t : string) : s +:+ String c t <> "".
Proof. by destruct s. Qed.

Lemma cpuMilli_Itoa (n : Z) : nat32 n -> cpuMilli (Itoa n +:+ "m") = n.
Proof.
  intros Hn. unfold cpuMilli. rewrite bool_decide_false by apply app_nonempty.
  by apply MustParse_milli.
Qed.

Lemma memoryMiB_Itoa (n : Z) : nat32 n -> memoryMiB (Itoa n +:+ "Mi") = n.
Proof.
  intros Hn. unfold memoryMiB. rewrite bool_decide_false by apply app_nonempty.
  unfold QValue. rewrite MustParse_Mi by done. unfold nat32 in Hn.
  destruct (Z.leb_spec 0 (n * 1048576000)); [| lia].
  replace (n * 1048576000 + 999)%Z with (n * 1048576 * 1000 + 999)%Z by lia.
  rewrite Z.div_add_l by lia. change (999 / 1000)%Z with 0%Z. rewrite Z.add_0_r.
  change (1024 * 1024)%Z with 1048576%Z. apply Z.quot_mul. lia.
Qed.

Lemma check_limits_None (limits : list (string * Z * Z)) :
  check_limits limits = None <-> Forall (fun l => (l.1.2 <= l.2)%Z) limits.
Proof.
  induction limits as [|[[name r] m] l IH]; cbn; [by split |].
  rewrite Forall_cons. destruct (Z.ltb_spec m r); cbn; split; try (intros [? ?]; lia); try done; tauto.
Qed.

Lemma check_iff (c : ModelServerCeilings) (inst : LLMInstance) (Hi : schema_ok inst) :
  let base := resolveModel (spec_Model (Spec inst)) in
  check c inst = None <->
  Validate c = None /\ Forall2 Z.le (amounts inst base) (budgets c base).
Proof.
  cbv zeta. destruct Hi as [Hcpu Hmem Hctx Hpar]. unfold check.
  destruct (Validate c); [by split; [| intros [? _]] |].
  destruct (modelForInstance_cpu inst) as [-> ->].
  destruct (modelForInstance_memory inst) as [-> ->].
  rewrite modelForInstance_args.
  destruct (model_flags (spec_Model (Spec inst)) _ _ Hctx Hpar) as [-> ->].
  rewrite check_limits_None. unfold amounts, budgets.
  rewrite !Forall_cons, !Forall2_cons. cbn [fst snd].
  assert (E : forall P Q R S : Prop, (P <-> Q) -> (R <-> S) -> (P /\ R <-> Q /\ S)) by tauto.
  destruct (cpu_of inst) as [cpu|]; destruct (memory_of inst) as [m|];
    try destruct (Hcpu _ eq_refl); try destruct (Hmem _ eq_refl); cbn [override];
    rewrite ?cpuMilli_Itoa, ?memoryMiB_Itoa, Forall_nil, Forall2_nil by done; tauto.
Qed.

(** C32: the ceiling check accepts exactly the instances whose six amounts in force
    - its own settings, or those of its model - stay within the configured ceilings,
    an unset ceiling being the budget of the model, under a valid configuration. *)
Theorem check_spec (c : ModelServerCeilings) (inst : LLMInstance) (Hi : schema_ok inst) :
  let base := resolveModel (spec_Model (Spec inst)) in
  check c inst = None <->
  Validate c = None /\ Forall2 Z.le (amounts inst base) (budgets c base).
Proof. apply check_iff; done. Qed.

(** With no provider ceiling configured, an instance that keeps the settings of
    its model passes the check, for every model name. *)
Theorem check_default (inst : LLMInstance) (Hr : spec_Resources (Spec inst) = None)
  (Hc : spec_ContextSize (Spec inst) = None) (Hp : spec_ParallelSlots (Spec inst) = None) :
  check {| CPUMilli := 0; MemoryMiB := 0; ContextSize := 0; ParallelSlots := 0 |} inst = None.
Proof.
  apply check_iff; unfold cpu_of, memory_of, amounts, budgets.
  - split; unfold cpu_of, memory_of; rewrite ?Hr, ?Hc, ?Hp; by intros ? ?.
  - unfold cpu_of, memory_of. rewrite Hr, Hc, Hp. split; [done |].
    rewrite !Forall2_cons. repeat apply conj; try apply Z.le_refl. constructor.
Qed.

End CeilingLaws.

Module ModelExample.

Definition inst : LLMInstance := {|
  inst_Meta := empty_meta;
  Spec := {| spec_Model := "Qwen3-4B"; spec_Replicas := 1;
             spec_Resources := Some {| CPU := Some {| RequestMilli := 500; LimitMilli := 1800 |};
                                       Memory := None |};
             spec_ContextSize := Some 4096%Z; spec_ParallelSlots := None;
             spec_DNSPolicy := "ClusterFirst"; spec_ClusterRef := None |};
  Status := {| Slug := ""; SlugSource := ""; Phase := ""; Endpoint := "";
               ActiveBYOCKubeconfigSecretName := ""; ActiveBYOCTargetID := "";
               ActiveBYOCTLSDomain := ""; ActiveBYOCTLSNamespace := ""; ActiveBYOCSlug := "";
               ObservedGeneration := 0; Conditions := [] |} |}.

Definition unset : ModelServerCeilings :=
  {| CPUMilli := 0; MemoryMiB := 0; ContextSize := 0; ParallelSlots := 0 |}.
Definition tight : ModelServerCeilings :=
  {| CPUMilli := 1500; MemoryMiB := 0; ContextSize := 0; ParallelSlots := 0 |}.

Example check_unset : check unset inst = None.
Proof. vm_compute. reflexivity. Qed.

Example check_tight : check tight inst = Some (ErrText
  "CPU limit (millicores) 1800 exceeds provider ceiling 1500; ask the provider to raise the ceiling").
Proof. vm_compute. reflexivity. Qed.

Lemma inst_ok : schema_ok inst.
Proof. split; cbn; intros ? [= <-]; cbn; unfold nat32; lia. Qed.

End ModelExample.

Lemma check_spec_witness :
  schema_ok ModelExample.inst /\
  (check ModelExample.unset ModelExample.inst = None <->
   Validate ModelExample.unset = None /\
   Forall2 Z.le (amounts ModelExample.inst (resolveModel "Qwen3-4B"))
                (budgets ModelExample.unset (resolveModel "Qwen3-4B"))).
Proof.
  split; [exact ModelExample.inst_ok |].
  exact (check_spec ModelExample.unset ModelExample.inst ModelExample.inst_ok).
Defined.

Lemma check_default_witness :
  check ModelExample.unset
    (ModelExample.inst <| Spec -> spec_Resources := None |>
                        <| Spec -> spec_ContextSize := None |>) = None.
Proof. apply check_default; reflexivity. Defined.
