(* ===== verification/Auth.v ===== *)
(** * The forwardAuth server (internal/auth/server.go)

    [parseBinding] reads the instance binding of the operator-managed URL,
    [Handler] answers one verification request, [authorize] and [ownsToken] decide
    it from live reads.  The theorems hold against every answer of the API server:
    a granted request has a complete chain of evidence among the answers read for
    that very request. *)

From S2P Require Import Prelude GoStd GoError Kube KubeRef Api Io SlugPolicy.

Definition slugKey : string := "llm.privatellms.msp/slug".
Definition credentialInstanceKey : string := "llm.privatellms.msp/credential-instance-uid".
Definition credentialTargetKey : string := "llm.privatellms.msp/credential-target".
Definition instanceLabel : string := "llm.privatellms.msp/instance".
Definition requestLabel : string := "llm.privatellms.msp/apitokenrequest".
Definition tokenDataKey : string := "OPENAI_API_KEY".

Record instanceBinding := {
  ib_namespace : string;
  ib_name : string;
  ib_uid : string;
  ib_slug : string;
}.

(** What the server reads of a request: the query and the Authorization headers. *)
Record Request := { RawQuery : string; Authorization : list string }.

Record Response := { Code : Z; WWWAuthenticate : option string; Body : string }.

Definition http_Error (code : Z) (www : option string) (text : string) : Response :=
  {| Code := code; WWWAuthenticate := www; Body := text +:+ chr 10 |}.

(** [r.Header.Get]: the first value, or the empty string. *)
Definition Header_Get (values : list string) : string := default "" (head values).

Section Auth.
  Context `{KubeLib}.
  Variable SlugPolicy : option Policy.

(** The key occurs exactly once, with a value that is not blank. *)
Definition binding_key_ok (query : list (string * string)) (key : string) : bool :=
  match query_values query key with
  | [v] => negb (bool_decide (TrimSpace v = ""))
  | _ => false
  end.

Definition parseBinding (query : list (string * string)) : option instanceBinding :=
  if forallb (binding_key_ok query) ["namespace"; "instance"; "uid"; "slug"] then
    let b := {| ib_namespace := query_get query "namespace"; ib_name := query_get query "instance";
                ib_uid := query_get query "uid"; ib_slug := query_get query "slug" |} in
    if IsDNS1123Label (ib_namespace b) && IsDNS1123Subdomain (ib_name b)
       && IsValidLabelValue (ib_slug b)
    then Some b else None
  else None.

Definition ownsToken (inst : LLMInstance) (sec : Secret) : fio bool :=
  let m := sec_Meta sec in
  if negb (bool_decide (Namespace m = Namespace (inst_Meta inst)))
     || negb (bool_decide (sec_Type sec = SecretTypeOpaque))
     || negb (time_IsZero (DeletionTimestamp m))
     || negb (bool_decide (mget (Labels m) instanceLabel = Name (inst_Meta inst)))
     || negb (bool_decide (mget (Annotations m) credentialInstanceKey = UID (inst_Meta inst)))
     || negb (bool_decide (mget (Annotations m) credentialTargetKey = ""))
  then fret false
  else
    match GetControllerOf (OwnerReferences m) with
    | None => fret false
    | Some owner =>
        if bool_decide (or_UID owner = "") || negb (bool_decide (or_Kind owner = "APITokenRequest"))
           || negb (bool_decide (or_APIVersion owner = GroupVersion))
        then fret false
        else
          let! got := call (EGet Live KTokenRequest (key_of (Namespace (inst_Meta inst)) (or_Name owner))) in
          match got with
          | Err err => if IsNotFound err then fret false else fail err
          | Ok tr =>
              fret (bool_decide (UID (tr_Meta tr) = or_UID owner)
                    && time_IsZero (DeletionTimestamp (tr_Meta tr))
                    && bool_decide (InstanceName (tr_Spec tr) = Name (inst_Meta inst))
                    && bool_decide (SecretName (tr_Status tr) = Name m)
                    && (tr_ObservedGeneration (tr_Status tr) =? Generation (tr_Meta tr))%Z
                    && bool_decide (mget (Labels m) requestLabel = Name (tr_Meta tr)))
          end
    end.

(** The loop over the listed Secrets. *)
Fixpoint authorize_loop (inst : LLMInstance) (token : string) (items : list Secret) : fio bool :=
  match items with
  | [] => fret false
  | sec :: items' =>
      if negb (bool_decide (mget (sec_Data sec) tokenDataKey = token))
      then authorize_loop inst token items'
      else
        let? valid := ownsToken inst sec in
        if valid : bool then fret true else authorize_loop inst token items'
  end.

(** The identity test on the instance read, before any Secret is listed. *)
Definition identity_ok (binding : instanceBinding) (inst : LLMInstance) : bool :=
  match Select SlugPolicy (inst_Meta inst) with
  | Err _ => false
  | Ok selection =>
      negb (negb (bool_decide (sel_Slug selection = ib_slug binding))
            || negb (bool_decide (Slug (Status inst) = sel_Slug selection))
            || negb (bool_decide (SlugSource (Status inst) = sel_Source selection)))
      && negb (negb (bool_decide (UID (inst_Meta inst) = ib_uid binding))
               || negb (time_IsZero (DeletionTimestamp (inst_Meta inst)))
               || IsBYOC inst
               || negb (bool_decide (ActiveBYOCKubeconfigSecretName (Status inst) = "")))
  end.

Definition authorize (binding : instanceBinding) (token : string) : fio bool :=
  let! got := call (EGet Live KInstance (key_of (ib_namespace binding) (ib_name binding))) in
  match got with
  | Err err => match IgnoreNotFound (Some err) with Some e => fail e | None => fret false end
  | Ok inst =>
      if negb (identity_ok binding inst) then fret false
      else
        let? secrets := call (EList Live KSecret (Some (Namespace (inst_Meta inst)))
                                [(slugKey, ib_slug binding)]) in
        authorize_loop inst token secrets
  end.

(** The token of the header, when it is a non-blank bearer token. *)
Definition bearer_token (header : string) : option string :=
  let token := TrimSpace (TrimPrefix header "Bearer ") in
  if negb (HasPrefix header "Bearer ") || bool_decide (token = "") then None else Some token.

Definition Handler (r : Request) : io Response :=
  match parseBinding (ParseQuery (RawQuery r)) with
  | None => mret (http_Error 400 None "missing or invalid instance binding")
  | Some binding =>
      match bearer_token (Header_Get (Authorization r)) with
      | None => mret (http_Error 401 (Some "Bearer") "missing bearer token")
      | Some token =>
          let! result := authorize binding token in
          mret match result with
               | Err _ => http_Error 500 None "internal error"
               | Ok false =>
                   http_Error 401 (Some ("Bearer error=" +:+ dquote +:+ "invalid_token" +:+ dquote))
                     "invalid token"
               | Ok true => {| Code := 200; WWWAuthenticate := None; Body := "ok" |}
               end
      end
  end.

End Auth.

(** ** What a granted request rests on *)

Section Evidence.
  Context `{KubeLib}.
  Variable SlugPolicy : option Policy.

(** The instance read is the one the URL binds: same UID, hosted, alive, and its
    recorded slug is the one the policy selects and the URL carries. *)
Record binds_instance (b : instanceBinding) (inst : LLMInstance) : Prop := {
  bi_uid : UID (inst_Meta inst) = ib_uid b;
  bi_alive : time_IsZero (DeletionTimestamp (inst_Meta inst)) = true;
  bi_hosted : IsBYOC inst = false;
  bi_inactive : ActiveBYOCKubeconfigSecretName (Status inst) = "";
  bi_slug : Slug (Status inst) = ib_slug b;
  bi_policy : Select SlugPolicy (inst_Meta inst) =
              Ok {| sel_Slug := ib_slug b; sel_Source := SlugSource (Status inst) |};
}.

(** The Secret holds the token and is bound to the instance by operator metadata. *)
Record binds_secret (inst : LLMInstance) (token : string) (sec : Secret) : Prop := {
  bs_token : mget (sec_Data sec) tokenDataKey = token;
  bs_namespace : Namespace (sec_Meta sec) = Namespace (inst_Meta inst);
  bs_type : sec_Type sec = SecretTypeOpaque;
  bs_alive : time_IsZero (DeletionTimestamp (sec_Meta sec)) = true;
  bs_instance : mget (Labels (sec_Meta sec)) instanceLabel = Name (inst_Meta inst);
  bs_uid : mget (Annotations (sec_Meta sec)) credentialInstanceKey = UID (inst_Meta inst);
  bs_target : mget (Annotations (sec_Meta sec)) credentialTargetKey = "";
}.

(** The Secret's controller is the token request, which names the Secret and the
    instance and whose status is that of its current generation. *)
Record binds_request (inst : LLMInstance) (sec : Secret) (owner : OwnerReference)
    (tr : APITokenRequest) : Prop := {
  br_owner : GetControllerOf (OwnerReferences (sec_Meta sec)) = Some owner;
  br_kind : or_Kind owner = "APITokenRequest";
  br_version : or_APIVersion owner = GroupVersion;
  br_uid_set : or_UID owner <> "";
  br_uid : UID (tr_Meta tr) = or_UID owner;
  br_alive : time_IsZero (DeletionTimestamp (tr_Meta tr)) = true;
  br_instance : InstanceName (tr_Spec tr) = Name (inst_Meta inst);
  br_secret : SecretName (tr_Status tr) = Name (sec_Meta sec);
  br_generation : tr_ObservedGeneration (tr_Status tr) = Generation (tr_Meta tr);
  br_label : mget (Labels (sec_Meta sec)) requestLabel = Name (tr_Meta tr);
}.

Definition instance_event (b : instanceBinding) : event :=
  EGet Live KInstance (key_of (ib_namespace b) (ib_name b)).
Definition secrets_event (b : instanceBinding) (inst : LLMInstance) : event :=
  EList Live KSecret (Some (Namespace (inst_Meta inst))) [(slugKey, ib_slug b)].
Definition request_event (inst : LLMInstance) (owner : OwnerReference) : event :=
  EGet Live KTokenRequest (key_of (Namespace (inst_Meta inst)) (or_Name owner)).

Lemma identity_ok_spec (b : instanceBinding) (inst : LLMInstance) :
  identity_ok SlugPolicy b inst = true <-> binds_instance b inst.
Proof.
  unfold identity_ok. split.
  - destruct (Select SlugPolicy (inst_Meta inst)) as [[slug source]|] eqn:E; [| done].
    intros ?. bool_props. cbn in *. split; congruence.
  - intros [H1 H2 H3 H4 H5 H6]. rewrite H6, H1, H2, H3, H4, H5. cbn.
    by rewrite !bool_decide_true.
Qed.

(** [ownsToken] as a decision: either no call and a refusal, or one lookup of the
    controlling token request. *)
Lemma ownsToken_cases (inst : LLMInstance) (token : string) (sec : Secret) :
  mget (sec_Data sec) tokenDataKey = token ->
  (ownsToken inst sec = fret false /\
   (forall owner tr, ~ (binds_secret inst token sec /\ binds_request inst sec owner tr))) \/
  exists owner (test : APITokenRequest -> bool),
    ownsToken inst sec =
      (let! got := call (request_event inst owner) in
       match got with
       | Err err => if IsNotFound err then fret false else fail err
       | Ok tr => fret (test tr)
       end) /\
    GetControllerOf (OwnerReferences (sec_Meta sec)) = Some owner /\
    forall tr, test tr = true <-> binds_secret inst token sec /\ binds_request inst sec owner tr.
Proof.
  intros Htok. unfold ownsToken. case_match eqn:E1.
  - left. split; [done |]. intros owner tr [[] []]. 
    rewrite !orb_true_iff, !negb_true_iff, !bool_decide_eq_false in E1.
    destruct E1 as [[[[[?|?]|?]|?]|?]|?]; congruence.
  - destruct (GetControllerOf (OwnerReferences (sec_Meta sec))) as [owner|] eqn:Ho;
      [| left; split; [done |]; intros owner tr [_ []]; congruence].
    case_match eqn:E2.
    + left. split; [done |]. intros o tr [_ []].
      rewrite !orb_true_iff, !negb_true_iff, !bool_decide_eq_false, bool_decide_eq_true in E2.
      simplify_eq. destruct E2 as [[?|?]|?]; congruence.
    + right. eexists owner, _. split; [reflexivity | split; [done |]]. intros tr. cbn beta.
      bool_props. split.
      * intros ?. bool_props. split; split; congruence.
      * intros [_ [_ _ _ _ Q1 Q2 Q3 Q4 Q5 Q6]]. rewrite Q1, Q2, Q3, Q4, Q5, Q6.
        by rewrite !bool_decide_true, Z.eqb_refl by done.
Qed.

End Evidence.

(** ** Soundness: what was read when a request is granted *)

Section Soundness.
  Context `{KubeLib}.
  Variable SlugPolicy : option Policy.

Definition binding_of (r : Request) : option instanceBinding := parseBinding (ParseQuery (RawQuery r)).
Definition token_of (r : Request) : option string := bearer_token (Header_Get (Authorization r)).

(** The chain of evidence among the recorded answers. *)
Definition granted (h : history) (r : Request) : Prop :=
  exists b token inst secrets sec owner tr,
    binding_of r = Some b /\ token_of r = Some token /\
    saw h (instance_event b) (Ok inst) /\ binds_instance SlugPolicy b inst /\
    saw h (secrets_event b inst) (Ok secrets) /\ sec ∈ secrets /\ binds_secret inst token sec /\
    saw h (request_event inst owner) (Ok tr) /\ binds_request inst sec owner tr.

(** The reads the server may make, each justified by earlier answers: the bound
    instance; the Secrets of an instance that passed the identity test; the
    controller of a listed Secret that holds the presented token. *)
Inductive permitted (r : Request) (h : history) : event -> Prop :=
| permit_instance b token :
    binding_of r = Some b -> token_of r = Some token -> h = [] -> permitted r h (instance_event b)
| permit_secrets b inst :
    binding_of r = Some b -> saw h (instance_event b) (Ok inst) ->
    binds_instance SlugPolicy b inst -> permitted r h (secrets_event b inst)
| permit_request b token inst secrets sec owner :
    binding_of r = Some b -> token_of r = Some token ->
    saw h (secrets_event b inst) (Ok secrets) -> sec ∈ secrets ->
    mget (sec_Data sec) tokenDataKey = token ->
    GetControllerOf (OwnerReferences (sec_Meta sec)) = Some owner ->
    permitted r h (request_event inst owner).

(** An answer that is an error other than NotFound. *)
Definition failed (h : history) : Prop :=
  exists K key err, saw h (EGet Live K key) (Err err) /\ IsNotFound err = false.
Definition list_failed (h : history) : Prop :=
  exists ns labels err, saw h (EList Live KSecret ns labels) (Err err).

Definition verdict (r : Request) (h : history) (v : res bool) : Prop :=
  match v with
  | Ok true => granted h r
  | Ok false => True
  | Err _ => failed h \/ list_failed h
  end.

Lemma authorize_loop_safe (r : Request) (b : instanceBinding) (token : string) (inst : LLMInstance)
  (secrets items : list Secret) (h : history) :
  binding_of r = Some b -> token_of r = Some token ->
  saw h (instance_event b) (Ok inst) -> binds_instance SlugPolicy b inst ->
  saw h (secrets_event b inst) (Ok secrets) -> items ⊆ secrets ->
  safe (recording (permitted r)) h (authorize_loop inst token items) (verdict r).
Proof.
  intros Hb Ht Hi Hbi. revert h Hi. induction items as [|sec items IH]; intros h Hi Hs Hin; [done |].
  assert (Hin' : items ⊆ secrets) by set_solver. assert (Hsec : sec ∈ secrets) by set_solver.
  cbn [authorize_loop]. case_match eqn:Etok; [by apply IH |]. bool_props.
  destruct (ownsToken_cases inst token sec Etok)
    as [[-> _] | (owner & test & -> & Howner & Htest)]; [by apply IH |].
  apply safe_fbind, safe_bind. split; [by eapply permit_request |].
  intros [tr | err]; cbn [safe fret fail];
    [destruct (test tr) eqn:Et | destruct (IsNotFound err) eqn:En]; cbn [safe fret fail advance recording].
  - apply Htest in Et as [? ?]. exists b, token, inst, secrets, sec, owner, tr.
    split_and!; try done; auto with go.
  - apply IH; auto with go.
  - apply IH; auto with go.
  - left. repeat eexists; [apply saw_here | done].
Qed.

Lemma authorize_safe (r : Request) (b : instanceBinding) (token : string) :
  binding_of r = Some b -> token_of r = Some token ->
  safe (recording (permitted r)) [] (authorize SlugPolicy b token) (verdict r).
Proof.
  intros Hb Ht. unfold authorize. apply safe_bind. split; [by eapply permit_instance |].
  intros [inst | err]; cbn [safe advance recording].
  - destruct (identity_ok SlugPolicy b inst) eqn:E; [| done]. cbn [negb].
    apply identity_ok_spec in E. apply safe_fbind. split; [apply permit_secrets; auto with go |].
    intros [secrets | err]; cbn [safe advance recording].
    + eapply authorize_loop_safe; try done; auto with go.
    + right. repeat eexists. apply saw_here.
  - cbn. destruct (IsNotFound err) eqn:E; [done |].
    left. exists KInstance. eexists _, err. split; [apply saw_here | done].
Qed.

(** The response code, against the evidence. *)
Definition explained (r : Request) (h : history) (resp : Response) : Prop :=
  (Code resp = 200 /\ granted h r)%Z \/
  (Code resp = 400 /\ binding_of r = None /\ h = [])%Z \/
  (Code resp = 401 /\ binding_of r <> None /\ (token_of r = None -> h = []))%Z \/
  (Code resp = 500 /\ (failed h \/ list_failed h))%Z.

Lemma Handler_safe (r : Request) :
  safe (recording (permitted r)) [] (Handler SlugPolicy r) (explained r).
Proof.
  unfold Handler, explained. fold (binding_of r) (token_of r).
  destruct (binding_of r) as [b|] eqn:Hb; [| by right; left].
  destruct (token_of r) as [token|] eqn:Ht; [| by right; right; left].
  safe_step. eapply safe_mono; [by apply authorize_safe |].
  intros h [[]|err] Hv; [by left | by right; right; left | by right; right; right].
Qed.

(** C1: against every behaviour of the API server, a verification request is
    answered 200 only when the answers read for this very request contain a complete
    chain of evidence: the bound instance is hosted, alive and carries the slug the
    policy selects; a listed Secret of its namespace holds the presented token and is
    bound to its UID; and the token request that controls the Secret is alive, current
    and names both.  So BYOC, deleting and recreated instances and unbound keys are denied. *)
Theorem verify_sound (r : Request) :
  safe (recording (fun _ _ => True)) [] (Handler SlugPolicy r)
    (fun h resp => Code resp = 200%Z -> granted h r).
Proof.
  eapply safe_recording_mono; [apply Handler_safe | done |].
  unfold explained. intros h resp Hr Hc. rewrite Hc in Hr. by destruct Hr as [[]|[[]|[[]|[]]]].
Qed.

(** The server only makes live reads, each justified by earlier answers, and every
    response is one of 200, 400 (malformed binding, nothing read), 401 (nothing read
    when no bearer token is presented) and 500 (only after a failed read). *)
Theorem verify_discipline (r : Request) :
  safe (recording (permitted r)) [] (Handler SlugPolicy r) (explained r).
Proof. apply Handler_safe. Qed.

(** ** Completeness, against a server with stable answers *)

Section Complete.
  Variable O : oracle.

(** The chain of evidence among the answers of a fixed state of the API server. *)
Definition entitled (r : Request) : Prop :=
  exists b token inst secrets sec owner tr,
    binding_of r = Some b /\ token_of r = Some token /\
    O (instance_event b) = Ok inst /\ binds_instance SlugPolicy b inst /\
    O (secrets_event b inst) = Ok secrets /\ sec ∈ secrets /\ binds_secret inst token sec /\
    O (request_event inst owner) = Ok tr /\ binds_request inst sec owner tr.

(** No lookup of a token request fails for another reason than absence. *)
Definition lookups_answered : Prop :=
  forall key err, O (EGet Live KTokenRequest key) = Err err -> IsNotFound err = true.

Lemma authorize_loop_complete (token : string) (inst : LLMInstance) (items : list Secret)
  (sec : Secret) (owner : OwnerReference) (tr : APITokenRequest) :
  lookups_answered -> sec ∈ items -> binds_secret inst token sec ->
  O (request_event inst owner) = Ok tr -> binds_request inst sec owner tr ->
  run_oracle O (authorize_loop inst token items) = Ok true.
Proof.
  intros Hl Hin Hs Htr Hr. induction items as [|x items IH]; [set_solver |].
  cbn [authorize_loop]. case_match eqn:Etok; bool_props.
  - apply IH. apply elem_of_cons in Hin as [-> | ?]; [by destruct Hs | done].
  - unfold fbind. rewrite run_oracle_bind. apply elem_of_cons in Hin as [<- | Hin].
    + destruct (ownsToken_cases inst token sec Etok) as [[_ Hn] | (o & test & -> & Ho & Ht)].
      * by destruct (Hn owner tr).
      * rewrite run_oracle_bind. cbn [call run_oracle].
        assert (o = owner) as -> by (destruct Hr; congruence). rewrite Htr. cbn.
        rewrite (proj2 (Ht tr)); done.
    + destruct (ownsToken_cases inst token x Etok) as [[-> _] | (o & test & -> & _)]; cbn; [by apply IH |].
      destruct (O (request_event inst o)) as [t | err] eqn:E; cbn.
      * destruct (test t); cbn; [done | by apply IH].
      * rewrite (Hl _ _ E). by apply IH.
Qed.

Lemma Handler_granted (r : Request) :
  Code (run_oracle O (Handler SlugPolicy r)) = 200%Z -> entitled r.
Proof.
  intros Hc. destruct (safe_recording_run _ _ _ _ O (Handler_safe r)) as (h & Hh & Hx); [by constructor |].
  unfold explained in Hx. rewrite Hc in Hx. destruct Hx as [[_ Hg]|[[]|[[]|[]]]]; try done.
  destruct Hg as (b & token & inst & secrets & sec & owner & tr & ? & ? & Hi & ? & Hs & ? & ? & Ht & ?).
  exists b, token, inst, secrets, sec, owner, tr.
  eapply consistent_saw in Hi, Hs, Ht; done.
Qed.

Lemma Handler_complete (r : Request) (Hl : lookups_answered) :
  Code (run_oracle O (Handler SlugPolicy r)) = 200%Z <-> entitled r.
Proof.
  split.
  - apply Handler_granted.
  - intros (b & token & inst & secrets & sec & owner & tr & Hb & Ht & Hi & Hbi & Hs & ? & ? & ? & ?).
    unfold Handler. fold (binding_of r) (token_of r). rewrite Hb, Ht, run_oracle_bind.
    unfold authorize. rewrite run_oracle_bind. cbn [call run_oracle].
    fold (instance_event b). rewrite Hi. rewrite (proj2 (identity_ok_spec _ _ _) Hbi). cbn [negb].
    unfold fbind. rewrite run_oracle_bind. cbn [call run_oracle].
    fold (secrets_event b inst). rewrite Hs.
    by erewrite authorize_loop_complete.
Qed.

(** C30: when every token request lookup is answered, the server grants a request
    exactly when the chain of evidence exists, wherever its Secret is in the list and
    whatever other Secrets hold the same key. *)
Theorem verify_complete (r : Request) (Hl : lookups_answered) :
  Code (run_oracle O (Handler SlugPolicy r)) = 200%Z <-> entitled r.
Proof. apply Handler_complete; done. Qed.

End Complete.
End Soundness.

(** ** One key opens one route *)

Section Confinement.
  Context `{KubeLib}.
  Variable SlugPolicy : option Policy.

(** What a Secret says its key is for. *)
Definition credential (sec : Secret) : string * string * string :=
  (Namespace (sec_Meta sec), mget (Labels (sec_Meta sec)) instanceLabel,
   mget (Annotations (sec_Meta sec)) credentialInstanceKey).

(** The API server returns the instance that was asked for. *)
Definition names_honoured (O : oracle) : Prop :=
  forall key inst, O (EGet Live KInstance key) = Ok inst ->
    key_of (Namespace (inst_Meta inst)) (Name (inst_Meta inst)) = key.

(** A key listed in either state is for the same instance in the other. *)
Definition keys_kept (O O' : oracle) : Prop :=
  forall ns labels secrets sec ns' labels' secrets' sec',
    O (EList Live KSecret ns labels) = Ok secrets -> sec ∈ secrets ->
    O' (EList Live KSecret ns' labels') = Ok secrets' -> sec' ∈ secrets' ->
    mget (sec_Data sec) tokenDataKey = mget (sec_Data sec') tokenDataKey ->
    mget (sec_Data sec) tokenDataKey <> "" -> credential sec = credential sec'.

(** The slug of an instance is determined by its UID. *)
Lemma Select_by_UID (a b : ObjectMeta) (s t : Selection) :
  UID a = UID b -> Select SlugPolicy a = Ok s -> Select SlugPolicy b = Ok t -> s = t.
Proof.
  unfold Select. intros ->. destruct SlugPolicy as [p|]; [| done].
  destruct (entries p !! UID b) as [item|]; repeat case_match; congruence.
Qed.

Lemma bearer_token_set (header token : string) : bearer_token header = Some token -> token <> "".
Proof. unfold bearer_token. destruct (_ || _) eqn:E; [done |]. intros [= <-]. by bool_props. Qed.

(** What is bound by the Secret determines the binding of the URL. *)
Lemma binding_by_credential (O O' : oracle) (b b' : instanceBinding) (inst inst' : LLMInstance)
  (token : string) (sec sec' : Secret) :
  names_honoured O -> names_honoured O' ->
  O (instance_event b) = Ok inst -> O' (instance_event b') = Ok inst' ->
  binds_instance SlugPolicy b inst -> binds_instance SlugPolicy b' inst' ->
  binds_secret inst token sec -> binds_secret inst' token sec' ->
  credential sec = credential sec' -> b = b'.
Proof.
  intros Hn Hn' Hi Hi' [U1 _ _ _ _ P1] [U2 _ _ _ _ P2] [_ S1 _ _ S2 S3 _] [_ T1 _ _ T2 T3 _] [= E1 E2 E3].
  apply Hn in Hi as [= N1 M1]. apply Hn' in Hi' as [= N2 M2].
  assert (Hu : UID (inst_Meta inst) = UID (inst_Meta inst')) by congruence.
  pose proof (Select_by_UID _ _ _ _ Hu P1 P2) as [= Hs _].
  destruct b, b'. cbn in *. congruence.
Qed.

(** C2: one key opens one route.  Two requests that are granted with the same key, in two
    states of the API server that may be far apart in time, carry the same namespace,
    name, UID and slug, as long as a key stays with the instance it was issued for; so
    a key once granted is refused at the route of any other instance, and of one that
    was deleted and created again. *)
Theorem key_opens_one_route (O O' : oracle) (r r' : Request)
  (Hn : names_honoured O) (Hn' : names_honoured O') (Hk : keys_kept O O')
  (Ht : token_of r = token_of r')
  (Hr : Code (run_oracle O (Handler SlugPolicy r)) = 200%Z)
  (Hr' : Code (run_oracle O' (Handler SlugPolicy r')) = 200%Z) :
  binding_of r = binding_of r'.
Proof.
  apply Handler_granted in Hr as (b & token & inst & secrets & sec & o & tr & B & T & Hi & Bi & Hs & Hin & Bs & _).
  apply Handler_granted in Hr' as (b' & token' & inst' & secrets' & sec' & o' & tr' & B' & T' & Hi' & Bi' & Hs' & Hin' & Bs' & _).
  assert (token' = token) as -> by congruence. rewrite B, B'. f_equal.
  pose proof (bearer_token_set _ _ T) as Hset. pose proof (bs_token _ _ _ Bs) as Hb. pose proof (bs_token _ _ _ Bs') as Hb'.
  eapply (binding_by_credential O O'); try done.
  eapply Hk; [exact Hs | done | exact Hs' | done | congruence | congruence].
Qed.

End Confinement.

(** ** A concrete namespace with one hosted instance and one bound token *)

Module AuthExample.

Definition inst : LLMInstance := {|
  inst_Meta := PolicyExample.old;
  Spec := {| spec_Model := ""; spec_Replicas := 1; spec_Resources := None; spec_ContextSize := None;
             spec_ParallelSlots := None; spec_DNSPolicy := ""; spec_ClusterRef := None |};
  Status := {| Slug := "Existing_Slug"; SlugSource := Legacy; Phase := "Ready"; Endpoint := "";
               ActiveBYOCKubeconfigSecretName := ""; ActiveBYOCTargetID := "";
               ActiveBYOCTLSDomain := ""; ActiveBYOCTLSNamespace := ""; ActiveBYOCSlug := "";
               ObservedGeneration := 1; Conditions := [] |} |}.

Definition tr : APITokenRequest := {|
  tr_Meta := empty_meta <| Name := "req" |> <| Namespace := "tenant-a" |> <| UID := "tr-uid" |>
                        <| Generation := 1%Z |>;
  tr_Spec := {| InstanceName := "old"; Description := "" |};
  tr_Status := {| tr_Phase := "Ready"; SecretName := "key-1"; tr_ObservedGeneration := 1;
                  tr_Conditions := [] |} |}.

Definition sec : Secret := {|
  sec_Meta := empty_meta <| Name := "key-1" |> <| Namespace := "tenant-a" |>
    <| Labels := {[ slugKey := "Existing_Slug"; instanceLabel := "old"; requestLabel := "req" ]} |>
    <| Annotations := {[ credentialInstanceKey := "old-uid" ]} |>
    <| OwnerReferences := [controller_ref APITokenRequestKind (tr_Meta tr)] |>;
  sec_Type := SecretTypeOpaque;
  sec_Data := {[ tokenDataKey := "secret-token" ]};
  sec_StringData := ∅ |}.

(** A Secret holding the same key that no request controls. *)
Definition stray : Secret := sec <| sec_Meta -> OwnerReferences := [] |>.

Definition server (secrets : list Secret) : oracle := fun e =>
  match e return answer e with
  | EGet _ KInstance _ => Ok inst
  | EGet _ KTokenRequest _ => Ok tr
  | EGet _ _ _ => Err (ErrAPI ReasonNotFound "not found")
  | EList _ KSecret _ _ => Ok secrets
  | EList _ _ _ _ => Ok []
  | ECreate _ _ _ | EUpdate _ _ _ | EUpdateStatus _ _ _ | EPatchStatus _ _ _ _ =>
      Err (ErrAPI ReasonOther "read only")
  | EDelete _ _ _ _ => Some (ErrAPI ReasonOther "read only")
  | ENow => 0%Z
  | ERandom _ => Err (ErrText "no entropy")
  | EProbe _ => Ok 200%Z
  | EHTTPS _ => Err (ErrText "no network")
  end.

Definition request : Request := {|
  RawQuery := "namespace=tenant-a&instance=old&uid=old-uid&slug=Existing_Slug";
  Authorization := ["Bearer secret-token"] |}.

Definition code (secrets : list Secret) (r : Request) : Z :=
  Code (run_oracle (server secrets) (Handler (Some PolicyExample.policy) r)).

Example granted_after_stray : code [stray; sec] request = 200%Z.
Proof. vm_compute. reflexivity. Qed.

Example denied_stray : code [stray] request = 401%Z.
Proof. vm_compute. reflexivity. Qed.

Example denied_wrong_token : code [sec] (request <| Authorization := ["Bearer other"] |>) = 401%Z.
Proof. vm_compute. reflexivity. Qed.

Example duplicate_key :
  code [sec] (request <| RawQuery ::= fun q => q +:+ "&uid=other" |>) = 400%Z.
Proof. vm_compute. reflexivity. Qed.

Lemma answered (secrets : list Secret) : lookups_answered (server secrets).
Proof. intros key err [=]. Qed.

(** The server that finds the instance by its name only. *)
Definition by_name (secrets : list Secret) : oracle := fun e =>
  match e return answer e with
  | EGet _ KInstance key =>
      if bool_decide (key_of (Namespace (inst_Meta inst)) (Name (inst_Meta inst)) = key) then Ok inst
      else Err (ErrAPI ReasonNotFound "not found")
  | e => server secrets e
  end.

Lemma by_name_honoured (secrets : list Secret) : names_honoured (by_name secrets).
Proof. intros key i. cbn. case_bool_decide; [by intros [= <-] | done]. Qed.

Definition reordered : Request :=
  request <| RawQuery := "slug=Existing_Slug&uid=old-uid&instance=old&namespace=tenant-a" |>.

End AuthExample.

Lemma verify_complete_witness :
  lookups_answered (AuthExample.server [AuthExample.stray; AuthExample.sec]) /\
  entitled (Some PolicyExample.policy) (AuthExample.server [AuthExample.stray; AuthExample.sec])
    AuthExample.request.
Proof.
  split; [apply AuthExample.answered |].
  apply (verify_complete (Some PolicyExample.policy)
           (AuthExample.server [AuthExample.stray; AuthExample.sec]) AuthExample.request
           (AuthExample.answered _)).
  vm_compute. reflexivity.
Defined.

(** The same state, with reads by name, before and after another Secret appeared. *)
Lemma key_opens_one_route_witness :
  binding_of AuthExample.request = binding_of AuthExample.reordered.
Proof.
  apply (key_opens_one_route (Some PolicyExample.policy)
           (AuthExample.by_name [AuthExample.sec]) (AuthExample.by_name [AuthExample.stray; AuthExample.sec])).
  - apply AuthExample.by_name_honoured.
  - apply AuthExample.by_name_honoured.
  - intros ns labels secrets sec ns' labels' secrets' sec' [= <-] Hs [= <-] Hs' _ _.
    apply list_elem_of_singleton in Hs as ->.
    by apply elem_of_cons in Hs' as [-> | ->%list_elem_of_singleton].
  - vm_compute. reflexivity.
  - vm_compute. reflexivity.
  - vm_compute. reflexivity.
Defined.
