(* ===== verification/TokenRequest.v ===== *)
(** * The token request controller (internal/controller/tokenrequest_controller.go)

    One reconcile of an [APITokenRequest]: its finalizer, the Secret that carries
    the key and the endpoint, key rotation, and the status.  An object the Go code
    mutates through a pointer is threaded: an operation returns the object as it
    leaves it, and a write returns what the server stored. *)

From Stdlib Require Import Ascii.
From S2P Require Import Prelude GoStd GoNet GoError Kube KubeRef Api Io Names SlugPolicy.

Definition openAIAPIKeyKey : string := "OPENAI_API_KEY".
Definition openAIAPIURLKey : string := "OPENAI_API_URL".
Definition compatibilityLabelKey : string := "apeirora.eu/llm-api-compatibility".
Definition compatibilityLabelOpenAI : string := "openai".
Definition secretUpdatedAtAnnotation : string := "llm.privatellms.msp/secret-updated-at".
Definition tokenSecretVersionAnnotation : string := "llm.privatellms.msp/token-secret-version".
Definition endpointUnavailableAnnotation : string := "llm.privatellms.msp/endpoint-unavailable".
Definition credentialTargetAnnotation : string := "llm.privatellms.msp/credential-target".
Definition credentialInstanceAnnotation : string := "llm.privatellms.msp/credential-instance-uid".
Definition unavailableAPIURL : string := "https://unavailable.invalid".
Definition apiTokenRequestFinalizer : string := "llm.privatellms.msp/apitokenrequest-finalizer".
Definition tokenRequestLabelKey : string := "llm.privatellms.msp/apitokenrequest".

(** [generateToken]: URL-safe base64 without padding of fresh random bytes. *)
Definition generateToken (numBytes : nat) : fio string :=
  let? b := call (ERandom numBytes) in
  fret (TrimRightByte (base64url_encode b) "="%char).

(** Replace the condition of the same type. *)
Definition setTRStatusCondition (tr : APITokenRequest) (cond : Condition) : APITokenRequest :=
  tr <| tr_Status -> tr_Conditions ::=
    fun cs => filter (fun c => cond_Type c <> cond_Type cond) cs ++ [cond] |>.

Definition ready_condition (status reason message : string) (now : Z) : Condition :=
  {| cond_Type := "Ready"; cond_Status := status; cond_ObservedGeneration := 0;
     cond_LastTransitionTime := now; cond_Reason := reason; cond_Message := message |}.

Definition updateReadyStatus (tr : APITokenRequest) (secretName : string) : fio APITokenRequest :=
  let! now := call ENow in
  let tr := setTRStatusCondition tr (ready_condition ConditionTrue "Provisioned" "Token generated" now) in
  call (EUpdateStatus Cached KTokenRequest
    (tr <| tr_Status -> SecretName := secretName |>
        <| tr_Status -> tr_Phase := "Ready" |>
        <| tr_Status -> tr_ObservedGeneration := Generation (tr_Meta tr) |>)).

Definition updatePendingStatus (tr : APITokenRequest) (reason message : string) : fio APITokenRequest :=
  let! now := call ENow in
  let tr := setTRStatusCondition tr (ready_condition ConditionFalse reason message now) in
  call (EUpdateStatus Cached KTokenRequest
    (tr <| tr_Status -> tr_Phase := "Pending" |>
        <| tr_Status -> tr_ObservedGeneration := Generation (tr_Meta tr) |>)).

(** The URL contract of a BYOC endpoint. *)
Section Endpoint.
  Context `{KubeLib}.

Definition validBYOCTokenEndpoint (endpoint : string) : bool :=
  match url_Parse endpoint with
  | None => false
  | Some u =>
      if negb (bool_decide (Scheme u = byocServicePortName)) || bool_decide (Host u = "") || HasUser u
         || negb (bool_decide (Opaque u = "")) || negb (bool_decide (URLQuery u = "")) || ForceQuery u
         || negb (bool_decide (Fragment u = "")) || negb (bool_decide (RawPath u = ""))
         || (negb (bool_decide (Path u = "")) && negb (bool_decide (Path u = "/")))
         || (negb (bool_decide (Port u = "")) && negb (bool_decide (Port u = "443")))
      then false
      else
        let host := Hostname u in
        if negb (bool_decide (Host u = host)) && negb (bool_decide (Host u = host +:+ ":443")) then false
        else negb (net_ParseIP host) && IsDNS1123Subdomain host && Contains host "."
             && negb (HasSuffix host ".invalid")
  end.

(** The Secret is controlled by exactly this request. *)
Definition ownsTokenSecret (tr : APITokenRequest) (sec : Secret) : bool :=
  match GetControllerOf (OwnerReferences (sec_Meta sec)) with
  | None => false
  | Some owner =>
      negb (bool_decide (UID (tr_Meta tr) = ""))
      && bool_decide (Namespace (sec_Meta sec) = Namespace (tr_Meta tr))
      && bool_decide (or_APIVersion owner = GroupVersion)
      && bool_decide (or_Kind owner = "APITokenRequest")
      && bool_decide (or_UID owner = UID (tr_Meta tr))
      && bool_decide (or_Name owner = Name (tr_Meta tr))
      && bool_decide (sec_Type sec = SecretTypeOpaque)
  end.

End Endpoint.

(** [inst.IsBYOC() || inst.Status.ActiveBYOCKubeconfigSecretName != ""]. *)
Definition byoc_bound (inst : LLMInstance) : bool :=
  IsBYOC inst || negb (bool_decide (ActiveBYOCKubeconfigSecretName (Status inst) = "")).

Definition legacyHostedBindingMatches (sec : Secret) (inst : LLMInstance) (selectedSlug : string) : bool :=
  bool_decide (mget (Labels (sec_Meta sec)) instanceLabelKey = Name (inst_Meta inst))
  && negb (bool_decide (selectedSlug = ""))
  && bool_decide (mget (Labels (sec_Meta sec)) slugAnnotationKey = selectedSlug).

(** What rotation decides before it draws a key. *)
Inductive rotation :=
| KeepKey
| RefuseKey (err : error)
| AdoptKey                    (* backfill the instance UID of a matching legacy key *)
| DrawKey (target : string).

Definition decide_rotation (sec : Secret) (inst : option LLMInstance) (allowHosted : bool)
    (selectedSlug : string) : rotation :=
  match inst with
  | None => KeepKey
  | Some inst =>
      let instanceUID := UID (inst_Meta inst) in
      let annotation := mget (Annotations (sec_Meta sec)) in
      let bind byoc target :=
        if negb byoc && bool_decide (annotation credentialTargetAnnotation = "")
           && bool_decide (annotation credentialInstanceAnnotation = "")
           && legacyHostedBindingMatches sec inst selectedSlug
        then if bool_decide (instanceUID = "") then KeepKey else AdoptKey
        else if bool_decide (annotation credentialTargetAnnotation = target)
                && bool_decide (annotation credentialInstanceAnnotation = instanceUID)
        then KeepKey else DrawKey target in
      if byoc_bound inst then
        let target := ActiveBYOCTargetID (Status inst) in
        if bool_decide (target = "") then KeepKey
        else if bool_decide (instanceUID = "")
        then RefuseKey (ErrText "cannot bind a BYOC key without an instance UID")
        else bind true target
      else if negb allowHosted then KeepKey
      else bind false ""
  end.

Definition instance_uid (inst : option LLMInstance) : string :=
  match inst with Some i => UID (inst_Meta i) | None => "" end.

Definition annotate (sec : Secret) (key value : string) : Secret :=
  sec <| sec_Meta -> Annotations ::= fun m => <[key := value]> m |>.

(** The Secret after rotation, and whether it changed. *)
Definition rotateTokenForTarget (sec : Secret) (inst : option LLMInstance) (allowHosted : bool)
    (selectedSlug : string) : fio (Secret * bool) :=
  match decide_rotation sec inst allowHosted selectedSlug with
  | KeepKey => fret (sec, false)
  | RefuseKey err => fail err
  | AdoptKey => fret (annotate sec credentialInstanceAnnotation (instance_uid inst), true)
  | DrawKey target =>
      let? token := generateToken 32 in
      let sec := sec <| sec_Data ::= fun m => <[openAIAPIKeyKey := token]> m |> in
      let sec := if bool_decide (target = "")
                 then sec <| sec_Meta -> Annotations ::= fun m => delete credentialTargetAnnotation m |>
                 else annotate sec credentialTargetAnnotation target in
      fret (annotate sec credentialInstanceAnnotation (instance_uid inst), true)
  end.

(** [applySecretMutations]: each mutation with whether it changed the Secret. *)
Definition set_label (key value : string) (su : Secret * bool) : Secret * bool :=
  let '(sec, updated) := su in
  if bool_decide (mget (Labels (sec_Meta sec)) key = value) then (sec, updated)
  else (sec <| sec_Meta -> Labels ::= fun m => <[key := value]> m |>, true).

Definition applySecretMutations (sec : Secret) (instanceName slug endpoint : string) : Secret * bool :=
  let su :=
    match Annotations (sec_Meta sec) !! endpointUnavailableAnnotation with
    | Some _ => (sec <| sec_Meta -> Annotations ::= fun m => delete endpointUnavailableAnnotation m |>, true)
    | None => (sec, false)
    end in
  let su := set_label instanceLabelKey instanceName su in
  let su := set_label compatibilityLabelKey compatibilityLabelOpenAI su in
  let su := if bool_decide (slug = "") then su else set_label slugAnnotationKey slug su in
  let '(sec, updated) := su in
  match sec_Data sec !! openAIAPIURLKey with
  | Some val => if bool_decide (val = endpoint) then (sec, updated)
                else (sec <| sec_Data ::= fun m => <[openAIAPIURLKey := endpoint]> m |>, true)
  | None => (sec <| sec_Data ::= fun m => <[openAIAPIURLKey := endpoint]> m |>, true)
  end.

(** Mark the request for synchronisation when the Secret's revision is new. *)
Definition touchAPITokenRequest (tr : APITokenRequest) (secretVersion : string) : fio APITokenRequest :=
  if negb (bool_decide (secretVersion = ""))
     && bool_decide (mget (Annotations (tr_Meta tr)) tokenSecretVersionAnnotation = secretVersion)
  then fret tr
  else
    let! now := call ENow in
    call (EUpdate Cached KTokenRequest
      (tr <| tr_Meta -> Annotations ::= fun m =>
               <[tokenSecretVersionAnnotation := secretVersion]>
                 (<[secretUpdatedAtAnnotation := FormatRFC3339Nano now]> m) |>)).

Section Controller.
  Context `{KubeLib}.
  Variable SlugPolicy : option Policy.

Definition tokenLabels (tr : APITokenRequest) (inst : LLMInstance) (slug : string) : gmap string string :=
  let m := <["app.kubernetes.io/name" := "llm-token"]>
             (<[instanceLabelKey := Name (inst_Meta inst)]>
               (<[tokenRequestLabelKey := Name (tr_Meta tr)]>
                 {[ compatibilityLabelKey := compatibilityLabelOpenAI ]})) in
  if bool_decide (slug = "") then m else <[slugAnnotationKey := slug]> m.

(** The Secret as the code assembles it, before the owner reference. *)
Definition newTokenSecret (tr : APITokenRequest) (inst : LLMInstance)
    (secretName slug endpoint token : string) : res Secret :=
  let uid := UID (inst_Meta inst) in
  let target := ActiveBYOCTargetID (Status inst) in
  let annotations := {[ "llm.privatellms.msp/description" := TrimSpace (Description (tr_Spec tr)) ]} in
  let annotations := if bool_decide (uid = "") then annotations
                     else <[credentialInstanceAnnotation := uid]> annotations in
  let secret annotations :=
    {| sec_Meta := empty_meta <| Name := secretName |> <| Namespace := Namespace (tr_Meta tr) |>
                     <| Labels := tokenLabels tr inst slug |> <| Annotations := annotations |>;
       sec_Type := SecretTypeOpaque;
       sec_Data := ∅;
       sec_StringData := <[openAIAPIKeyKey := token]> {[ openAIAPIURLKey := endpoint ]} |} in
  if byoc_bound inst then
    if bool_decide (target = "") || bool_decide (uid = "")
    then Err (ErrText "cannot mint a BYOC token before its target identity is established")
    else Ok (secret (<[credentialInstanceAnnotation := uid]>
                       (<[credentialTargetAnnotation := target]> annotations)))
  else Ok (secret annotations).

Definition createSecret (tr : APITokenRequest) (inst : LLMInstance)
    (secretName slug endpoint : string) : fio unit :=
  let? token := generateToken 32 in
  match newTokenSecret tr inst secretName slug endpoint token with
  | Err err => fail err
  | Ok secret =>
      match SetControllerReference (controller_ref APITokenRequestKind (tr_Meta tr)) (sec_Meta secret) with
      | Err err => fail err
      | Ok meta =>
          let? _ := call (ECreate Cached KSecret (secret <| sec_Meta := meta |>)) in
          fret tt
      end
  end.

Definition refuse_use (sec : Secret) (verb : string) : error :=
  ErrText ("refusing to " +:+ verb +:+ " token Secret " +:+ Namespace (sec_Meta sec) +:+ "/"
           +:+ Name (sec_Meta sec) +:+ ": unexpected controller owner or type").

Definition ensureSecret (tr : APITokenRequest) (inst : LLMInstance)
    (secretName slug endpoint : string) : fio APITokenRequest :=
  let! got := call (EGet Cached KSecret (key_of (Namespace (tr_Meta tr)) secretName)) in
  match got with
  | Err err =>
      if IsNotFound err
      then let? _ := createSecret tr inst secretName slug endpoint in fret tr
      else fail err
  | Ok sec =>
      if negb (ownsTokenSecret tr sec) then fail (refuse_use sec "use")
      else
        let? (sec, rotated) := rotateTokenForTarget sec (Some inst) true slug in
        let '(sec, updated) := applySecretMutations sec (Name (inst_Meta inst)) slug endpoint in
        let? sec := if updated || rotated then call (EUpdate Cached KSecret sec) else fret sec in
        touchAPITokenRequest tr (ResourceVersion (sec_Meta sec))
  end.

(** A BYOC instance whose target identity is established while it is not Ready. *)
Definition pendingBYOC (inst : option LLMInstance) : bool :=
  match inst with
  | Some inst => byoc_bound inst && negb (bool_decide (ActiveBYOCTargetID (Status inst) = ""))
  | None => false
  end.

Definition relabel_pending (inst : option LLMInstance) (su : Secret * bool) : Secret * bool :=
  match inst with
  | Some i => if pendingBYOC inst then set_label instanceLabelKey (Name (inst_Meta i)) su else su
  | None => su
  end.

(** Point the Secret at the unavailable endpoint and mark it. *)
Definition withdraw (su : Secret * bool) : Secret * bool :=
  let '(sec, changed) := su in
  let '(sec, changed) :=
    if bool_decide (mget (sec_Data sec) openAIAPIURLKey = unavailableAPIURL) then (sec, changed)
    else (sec <| sec_Data ::= fun m => <[openAIAPIURLKey := unavailableAPIURL]> m |>, true) in
  if bool_decide (mget (Annotations (sec_Meta sec)) endpointUnavailableAnnotation = byocBootstrapTrue)
  then (sec, changed)
  else (annotate sec endpointUnavailableAnnotation byocBootstrapTrue, true).

Definition invalidateTokenEndpoint (tr : APITokenRequest) (inst : option LLMInstance) : fio APITokenRequest :=
  let! got := call (EGet Cached KSecret (key_of (Namespace (tr_Meta tr)) (Name (tr_Meta tr) +:+ "-token"))) in
  match got with
  | Err err => match IgnoreNotFound (Some err) with Some e => fail e | None => fret tr end
  | Ok sec =>
      if negb (ownsTokenSecret tr sec) then fail (refuse_use sec "invalidate")
      else
        let? su := rotateTokenForTarget sec inst false "" in
        let '(sec, changed) := withdraw (relabel_pending inst su) in
        let? sec := if changed : bool then call (EUpdate Cached KSecret sec) else fret sec in
        let? tr := touchAPITokenRequest tr (ResourceVersion (sec_Meta sec)) in
        fret (tr <| tr_Status -> SecretName := Name (sec_Meta sec) |>)
  end.

Definition ensureFinalizer (tr : APITokenRequest) : io (APITokenRequest * option Result) :=
  if ContainsFinalizer (Finalizers (tr_Meta tr)) apiTokenRequestFinalizer then mret (tr, None)
  else
    let tr := tr <| tr_Meta -> Finalizers ::= fun fs => AddFinalizer fs apiTokenRequestFinalizer |> in
    let! stored := call (EUpdate Cached KTokenRequest tr) in
    match stored with
    | Err _ => mret (tr, Some (requeue_after 5))
    | Ok tr => mret (tr, Some requeue_now)
    end.

(** Delete the listed Secrets this request controls, pinned to the listed revision;
    failures are logged only. *)
Fixpoint deleteOwned (tr : APITokenRequest) (items : list Secret) : io unit :=
  match items with
  | [] => mret tt
  | sec :: items' =>
      if negb (ownsTokenSecret tr sec) then deleteOwned tr items'
      else
        let! _ := call (EDelete Cached KSecret sec
                          {| pre_UID := Some (UID (sec_Meta sec));
                             pre_ResourceVersion := Some (ResourceVersion (sec_Meta sec)) |}) in
        deleteOwned tr items'
  end.

(** Drop the finalizer, re-reading the request after a conflict, at most [n] times. *)
Fixpoint dropFinalizer (n : nat) (key : ObjectKey) (tr : APITokenRequest) : io (option error) :=
  match n with
  | O => mret None
  | S n' =>
      let tr := tr <| tr_Meta -> Finalizers ::= fun fs => RemoveFinalizer fs apiTokenRequestFinalizer |> in
      let! stored := call (EUpdate Cached KTokenRequest tr) in
      match stored with
      | Ok _ => mret None
      | Err err =>
          if IsNotFound err then mret None
          else if IsConflict err then
            let! fresh := call (EGet Cached KTokenRequest key) in
            match fresh with
            | Err _ => mret None
            | Ok fresh => dropFinalizer n' key fresh
            end
          else mret (Some err)
      end
  end.

Definition finalizeTokenRequest (tr : APITokenRequest) : io (Result * option error) :=
  if negb (ContainsFinalizer (Finalizers (tr_Meta tr)) apiTokenRequestFinalizer)
  then mret (no_result, None)
  else
    let! listed := call (EList Cached KSecret (Some (Namespace (tr_Meta tr)))
                           [(tokenRequestLabelKey, Name (tr_Meta tr))]) in
    let! _ := match listed with
              | Ok secrets => deleteOwned tr secrets
              | Err _ => mret tt
              end in
    let! err := dropFinalizer 3 (ObjectKeyFromObject (tr_Meta tr)) tr in
    mret (no_result, err).

(** The slug the policy selects, when the status records exactly it. *)
Definition verified_slug (inst : LLMInstance) : string :=
  match Select SlugPolicy (inst_Meta inst) with
  | Err _ => ""
  | Ok selection =>
      if negb (bool_decide (Slug (Status inst) = sel_Slug selection))
         || negb (bool_decide (SlugSource (Status inst) = sel_Source selection))
      then "" else sel_Slug selection
  end.

(** The Ready condition is True for the current generation of a live instance. *)
Definition instance_ready (inst : LLMInstance) : bool :=
  match FindStatusCondition (Conditions (Status inst)) "Ready" with
  | None => false
  | Some ready =>
      bool_decide (cond_Status ready = ConditionTrue)
      && (ObservedGeneration (Status inst) =? Generation (inst_Meta inst))%Z
      && (cond_ObservedGeneration ready =? Generation (inst_Meta inst))%Z
      && time_IsZero (DeletionTimestamp (inst_Meta inst))
  end.

Definition valid_endpoint (inst : LLMInstance) (endpoint : string) : bool :=
  negb (byoc_bound inst)
  || (negb (bool_decide (ActiveBYOCTargetID (Status inst) = "")) && validBYOCTokenEndpoint endpoint).

Definition waiting_for (slug endpoint : string) (instanceReady validEndpoint : bool) : list string :=
  (if bool_decide (slug = "") then ["operator-selected slug"] else [])
  ++ (if bool_decide (endpoint = "") then ["status.endpoint"] else [])
  ++ (if instanceReady then [] else ["current Ready condition"])
  ++ (if validEndpoint then [] else ["verified HTTPS endpoint"]).

(** Return early with the zero result when a step fails. *)
Definition or_return {A} (m : fio A) (k : A -> io (Result * option error)) : io (Result * option error) :=
  let! r := m in
  match r with Err err => mret (no_result, Some err) | Ok a => k a end.

(** The part after the finalizer: the referenced instance has been read. *)
Definition reconcileInstance (tr : APITokenRequest) (inst : LLMInstance) : io (Result * option error) :=
  let slug := verified_slug inst in
  let instanceReady := instance_ready inst in
  let endpoint := TrimSpace (Endpoint (Status inst)) in
  let validEndpoint := valid_endpoint inst endpoint in
  if bool_decide (slug = "") || bool_decide (endpoint = "") || negb instanceReady || negb validEndpoint then
    or_return (invalidateTokenEndpoint tr (Some inst)) (fun tr =>
    let message := "Waiting for LLMInstance " +:+ Quote (Name (inst_Meta inst)) +:+ " to populate "
                   +:+ Join (waiting_for slug endpoint instanceReady validEndpoint) " and " in
    or_return (updatePendingStatus tr "InstanceNotReady" message) (fun _ =>
    mret (requeue_after 10, None)))
  else
    let secretName := Name (tr_Meta tr) +:+ "-token" in
    or_return (ensureSecret tr inst secretName slug endpoint) (fun tr =>
    or_return (updateReadyStatus tr secretName) (fun _ =>
    mret (no_result, None))).

Definition Reconcile (req : ObjectKey) : io (Result * option error) :=
  let! got := call (EGet Cached KTokenRequest req) in
  match got with
  | Err err => mret (no_result, IgnoreNotFound (Some err))
  | Ok tr =>
      if negb (time_IsZero (DeletionTimestamp (tr_Meta tr))) then finalizeTokenRequest tr
      else
        let! (tr, handled) := ensureFinalizer tr in
        match handled with
        | Some res => mret (res, None)
        | None =>
            let! got := call (EGet Cached KInstance (key_of (key_Namespace req) (InstanceName (tr_Spec tr)))) in
            match got with
            | Ok inst => reconcileInstance tr inst
            | Err err =>
                if IsNotFound err then
                  or_return (invalidateTokenEndpoint tr None) (fun tr =>
                  or_return (updatePendingStatus tr "InstanceNotFound" "Referenced LLMInstance not found") (fun _ =>
                  mret (requeue_after 10, IgnoreNotFound (Some err))))
                else mret (requeue_after 10, IgnoreNotFound (Some err))
            end
        end
  end.

(** The requests to enqueue when an instance changes. *)
Definition findTokenRequestsForInstance (inst : LLMInstance) : io (list ObjectKey) :=
  let! listed := call (EList Cached KTokenRequest (Some (Namespace (inst_Meta inst))) []) in
  mret match listed with
       | Err _ => []
       | Ok items =>
           (fun tr => ObjectKeyFromObject (tr_Meta tr)) <$>
             filter (fun tr => TrimSpace (InstanceName (tr_Spec tr)) = Name (inst_Meta inst)) items
       end.

End Controller.
