(* ===== verification/TokenRequestFacts.v ===== *)
(** * The token request controller: rotation, mutations and key material

    Pure laws of the operations on the Secret, and what [rotateTokenForTarget]
    guarantees on every branch. *)

From Stdlib Require Import Ascii.
From S2P Require Import Prelude GoStd GoNet GoError Kube KubeRef Api Io Names SlugPolicy TokenRequest.

(** ** Maps *)

Lemma mget_insert (m : gmap string string) (k v : string) : mget (<[k := v]> m) k = v.
Proof. unfold mget. by rewrite lookup_insert_eq. Qed.

Lemma mget_insert_ne (m : gmap string string) (k k' v : string) :
  k <> k' -> mget (<[k := v]> m) k' = mget m k'.
Proof. intros Hk. unfold mget. by rewrite lookup_insert_ne. Qed.

Lemma mget_delete (m : gmap string string) (k : string) : mget (delete k m) k = "".
Proof. unfold mget. by rewrite lookup_delete_eq. Qed.

Lemma mget_delete_ne (m : gmap string string) (k k' : string) :
  k <> k' -> mget (delete k m) k' = mget m k'.
Proof. intros Hk. unfold mget. by rewrite lookup_delete_ne. Qed.

#[export] Hint Rewrite mget_insert mget_delete : go.

(** Evaluate reads through updates at distinct literal keys. *)
Ltac maps :=
  repeat first [ rewrite mget_insert | rewrite mget_delete
               | rewrite mget_insert_ne by done | rewrite mget_delete_ne by done ].

(** ** What may differ between a Secret and its update *)

(** Same object and revision: only labels, annotations and data may differ. *)
Definition same_secret (a b : Secret) : Prop :=
  b = a <| sec_Meta -> Labels := Labels (sec_Meta b) |>
        <| sec_Meta -> Annotations := Annotations (sec_Meta b) |>
        <| sec_Data := sec_Data b |>.

Lemma same_secret_refl (s : Secret) : same_secret s s.
Proof. destruct s as [[]]; done. Qed.

Lemma same_secret_trans (a b c : Secret) : same_secret a b -> same_secret b c -> same_secret a c.
Proof. unfold same_secret. intros -> ->. destruct a as [[]], c as [[]]; done. Qed.

Lemma same_secret_annotate (s : Secret) (k v : string) : same_secret s (annotate s k v).
Proof. destruct s as [[]]; done. Qed.

#[export] Hint Resolve same_secret_refl same_secret_annotate : go.

(** ** The binding of a key *)

(** The key of the Secret is bound to the instance and to its current target. *)
Definition bound (inst : LLMInstance) (sec : Secret) : Prop :=
  mget (Annotations (sec_Meta sec)) credentialInstanceAnnotation = UID (inst_Meta inst) /\
  mget (Annotations (sec_Meta sec)) credentialTargetAnnotation =
    if byoc_bound inst then ActiveBYOCTargetID (Status inst) else "".

Definition key_in (sec : Secret) : string := mget (sec_Data sec) openAIAPIKeyKey.

(** A hosted key that carries no binding yet, created for the same name and slug. *)
Definition adoptable (inst : LLMInstance) (slug : string) (sec : Secret) : Prop :=
  byoc_bound inst = false /\
  mget (Annotations (sec_Meta sec)) credentialTargetAnnotation = "" /\
  mget (Annotations (sec_Meta sec)) credentialInstanceAnnotation = "" /\
  legacyHostedBindingMatches sec inst slug = true.

(** A decision to keep or adopt a key is justified, and a drawn key is for the
    current target. *)
Lemma decide_rotation_spec (sec : Secret) (inst : LLMInstance) (slug : string) :
  UID (inst_Meta inst) <> "" ->
  (byoc_bound inst = true -> ActiveBYOCTargetID (Status inst) <> "") ->
  match decide_rotation sec (Some inst) true slug with
  | KeepKey => bound inst sec
  | AdoptKey => adoptable inst slug sec
  | DrawKey target =>
      target = (if byoc_bound inst then ActiveBYOCTargetID (Status inst) else "") /\
      ~ bound inst sec /\ ~ adoptable inst slug sec
  | RefuseKey _ => False
  end.
Proof.
  intros Huid Ht. unfold decide_rotation, bound, adoptable. cbn.
  destruct (byoc_bound inst) eqn:Hb; cbn [negb andb].
  - rewrite bool_decide_false by auto. rewrite bool_decide_false by done.
    destruct (bool_decide _ && bool_decide _) eqn:E; bool_props; [done |].
    split_and!; [done | | by intros []]. intros [H1 H2]. by rewrite !bool_decide_true in E.
  - destruct (bool_decide _ && _ && legacyHostedBindingMatches sec inst slug) eqn:E1.
    + bool_props. by rewrite bool_decide_false.
    + destruct (bool_decide _ && bool_decide (_ = UID _)) eqn:E2; bool_props; [done |].
      split_and!; [done | |].
      * intros [H1 H2]. by rewrite !bool_decide_true in E2.
      * intros (_ & H1 & H2 & H3). by rewrite !bool_decide_true, H3 in E1.
Qed.

Lemma rotate_safe (sec : Secret) (inst : LLMInstance) (slug : string) (P : history -> event -> Prop)
  (h : history) (Huid : UID (inst_Meta inst) <> "")
  (Ht : byoc_bound inst = true -> ActiveBYOCTargetID (Status inst) <> "")
  (HP : forall h n, P h (ERandom n)) :
  safe (recording P) h (rotateTokenForTarget sec (Some inst) true slug) (fun h' r =>
    (h' = h \/ exists a, h' = existT (ERandom 32) a :: h) /\
    match r with
    | Err err => saw h' (ERandom 32) (Err err)
    | Ok (sec', changed) =>
        bound inst sec' /\ same_secret sec sec' /\
        Labels (sec_Meta sec') = Labels (sec_Meta sec) /\
        (changed = false -> sec' = sec) /\
        ((key_in sec' = key_in sec /\ (bound inst sec \/ adoptable inst slug sec)) \/
         exists b, saw h' (ERandom 32) (Ok b) /\
                   key_in sec' = TrimRightByte (base64url_encode b) "="%char /\
                   ~ bound inst sec /\ ~ adoptable inst slug sec)
    end).
Proof.
  pose proof (decide_rotation_spec sec inst slug Huid Ht) as D. unfold rotateTokenForTarget.
  destruct (decide_rotation sec (Some inst) true slug) as [| err | | target]; [| done | |].
  - split; [by left |]. split_and!; auto with go.
  - split; [by left |]. destruct sec as [[] ? ? ?]. destruct D as (Hb & D1 & D2 & D3).
    unfold bound, key_in, adoptable, annotate. cbn in *. rewrite Hb. maps.
    split_and!; try done. left. split; [done | by right].
  - destruct D as (-> & Hnb & Hna). unfold generateToken. apply safe_fbind, safe_fbind.
    split; [apply HP |]. intros [b | err]; cbn [safe fret fail advance recording]; [| eauto with go].
    split; [eauto |]. destruct sec as [[] ? ? ?].
    unfold bound, key_in, annotate in *. case_bool_decide as E; cbn in *; maps; rewrite ?E in *;
      (split_and!; [done | done | done | done | done |]).
    all: right; exists b; split_and!; try done; auto with go.
Qed.

(** Rotating for a Ready instance leaves the Secret bound to the UID of the instance
    and to its current target, and the key survives only when the Secret was already
    so bound, or was an unbound hosted key of the same name and reviewed slug; any
    other key is replaced by one drawn in this call.  Nothing else of the Secret changes. *)
Theorem rotate_spec (sec : Secret) (inst : LLMInstance) (slug : string) (P : history -> event -> Prop)
  (h : history) (Huid : UID (inst_Meta inst) <> "")
  (Ht : byoc_bound inst = true -> ActiveBYOCTargetID (Status inst) <> "")
  (HP : forall h n, P h (ERandom n)) :
  safe (recording P) h (rotateTokenForTarget sec (Some inst) true slug) (fun h' r =>
    (h' = h \/ exists a, h' = existT (ERandom 32) a :: h) /\
    match r with
    | Err err => saw h' (ERandom 32) (Err err)
    | Ok (sec', changed) =>
        bound inst sec' /\ same_secret sec sec' /\
        Labels (sec_Meta sec') = Labels (sec_Meta sec) /\
        (changed = false -> sec' = sec) /\
        ((key_in sec' = key_in sec /\ (bound inst sec \/ adoptable inst slug sec)) \/
         exists b, saw h' (ERandom 32) (Ok b) /\
                   key_in sec' = TrimRightByte (base64url_encode b) "="%char /\
                   ~ bound inst sec /\ ~ adoptable inst slug sec)
    end).
Proof. apply rotate_safe; done. Qed.

(** ** Publishing and withdrawing an endpoint *)

(** The metadata and data of a Secret that hands out a Ready instance's endpoint. *)
Record published (data : gmap string string) (inst : LLMInstance) (slug endpoint : string)
    (sec : Secret) : Prop := {
  pub_url : mget data openAIAPIURLKey = endpoint;
  pub_instance : mget (Labels (sec_Meta sec)) instanceLabelKey = Name (inst_Meta inst);
  pub_slug : mget (Labels (sec_Meta sec)) slugAnnotationKey = slug;
  pub_compat : mget (Labels (sec_Meta sec)) compatibilityLabelKey = compatibilityLabelOpenAI;
  pub_available : Annotations (sec_Meta sec) !! endpointUnavailableAnnotation = None;
  pub_bound : bound inst sec;
}.

Record withdrawn (sec : Secret) : Prop := {
  wd_url : mget (sec_Data sec) openAIAPIURLKey = unavailableAPIURL;
  wd_mark : mget (Annotations (sec_Meta sec)) endpointUnavailableAnnotation = byocBootstrapTrue;
}.

Lemma set_label_spec (key value : string) (s : Secret) (u : bool) :
  let su := set_label key value (s, u) in
  mget (Labels (sec_Meta su.1)) key = value /\
  (forall k, k <> key -> mget (Labels (sec_Meta su.1)) k = mget (Labels (sec_Meta s)) k) /\
  Annotations (sec_Meta su.1) = Annotations (sec_Meta s) /\
  sec_Data su.1 = sec_Data s /\ same_secret s su.1 /\
  (su.2 = false -> u = false /\ su.1 = s).
Proof.
  cbv zeta. unfold set_label. case_bool_decide as E; cbn.
  - split_and!; auto with go.
  - destruct s as [[] ? ? ?]; cbn. maps. split_and!; try done. intros k Hk. by maps.
Qed.

Lemma set_label_same (s : Secret) (k v : string) (u : bool) :
  mget (Labels (sec_Meta s)) k = v -> set_label k v (s, u) = (s, u).
Proof. intros E. unfold set_label. by rewrite bool_decide_true. Qed.

(** [applySecretMutations] as one specification. *)
Lemma applySecretMutations_spec (sec : Secret) (inst : LLMInstance) (slug endpoint : string) :
  slug <> "" ->
  let su := applySecretMutations sec (Name (inst_Meta inst)) slug endpoint in
  (bound inst sec -> published (sec_Data su.1) inst slug endpoint su.1) /\
  key_in su.1 = key_in sec /\ same_secret sec su.1 /\
  (su.2 = false -> su.1 = sec).
Proof.
  intros Hs. cbv zeta. unfold applySecretMutations. rewrite (bool_decide_false (slug = "")) by done.
  set (su0 := match Annotations _ !! _ with Some _ => _ | None => _ end).
  assert (H0 : Annotations (sec_Meta su0.1) !! endpointUnavailableAnnotation = None /\
    (bound inst sec -> bound inst su0.1) /\
    sec_Data su0.1 = sec_Data sec /\ same_secret sec su0.1 /\ (su0.2 = false -> su0.1 = sec)).
  { subst su0. destruct (Annotations (sec_Meta sec) !! endpointUnavailableAnnotation) eqn:E; cbn;
      [| auto with go]. destruct sec as [[] ? ? ?]; cbn in *. rewrite lookup_delete_eq.
    unfold bound; cbn. maps. done. }
  destruct su0 as [s0 u0]. cbn [fst snd] in H0. destruct H0 as (A0 & B0 & D0 & S0 & C0).
  pose proof (set_label_spec instanceLabelKey (Name (inst_Meta inst)) s0 u0) as H1. cbv zeta in H1.
  destruct (set_label instanceLabelKey _ (s0, u0)) as [s1 u1]. cbn [fst snd] in H1.
  destruct H1 as (L1 & O1 & A1 & D1 & S1 & C1).
  pose proof (set_label_spec compatibilityLabelKey compatibilityLabelOpenAI s1 u1) as H2. cbv zeta in H2.
  destruct (set_label compatibilityLabelKey _ (s1, u1)) as [s2 u2]. cbn [fst snd] in H2.
  destruct H2 as (L2 & O2 & A2 & D2 & S2 & C2).
  pose proof (set_label_spec slugAnnotationKey slug s2 u2) as H3. cbv zeta in H3.
  destruct (set_label slugAnnotationKey _ (s2, u2)) as [s3 u3]. cbn [fst snd] in H3.
  destruct H3 as (L3 & O3 & A3 & D3 & S3 & C3).
  assert (S : same_secret sec s3) by (eauto using same_secret_trans).
  assert (Ed : sec_Data s3 = sec_Data sec) by congruence.
  assert (Ea : Annotations (sec_Meta s3) = Annotations (sec_Meta s0)) by congruence.
  assert (P : forall t, sec_Meta t = sec_Meta s3 -> mget (sec_Data t) openAIAPIURLKey = endpoint ->
    bound inst sec -> published (sec_Data t) inst slug endpoint t).
  { intros t Et Hu Hb. split; rewrite ?Et; try done.
    - by rewrite O3, O2 by done.
    - by rewrite O3 by done.
    - congruence.
    - unfold bound in *. rewrite Et, Ea. by apply B0. }
  assert (Q : forall t, t = s3 <| sec_Data ::= fun m => <[openAIAPIURLKey := endpoint]> m |> ->
    (bound inst sec -> published (sec_Data t) inst slug endpoint t) /\
    key_in t = key_in sec /\ same_secret sec t /\ (true = false -> t = sec)).
  { intros t ->. split_and!; [| | | done].
    - apply P; [by destruct s3 | destruct s3; cbn; by maps].
    - unfold key_in. rewrite <-Ed. destruct s3; cbn. by maps.
    - eapply same_secret_trans; [exact S |]. by destruct s3 as [[] ? ? ?]. }
  destruct (sec_Data s3 !! openAIAPIURLKey) as [val|] eqn:Ev; [case_bool_decide as Eq |]; cbn [fst snd]; try by apply Q.
  split_and!; [| | done |].
  - apply P; [done |]. unfold mget. by rewrite Ev.
  - unfold key_in. by rewrite Ed.
  - intros ->. destruct (C3 eq_refl) as [-> ->]. destruct (C2 eq_refl) as [-> ->].
    destruct (C1 eq_refl) as [-> ->]. auto.
Qed.

(** Applying the mutations for the same instance, slug and endpoint again changes
    nothing and reports no change, so an up-to-date Secret is never rewritten. *)
Theorem applySecretMutations_idempotent (sec : Secret) (name slug endpoint : string) :
  let sec' := (applySecretMutations sec name slug endpoint).1 in
  applySecretMutations sec' name slug endpoint = (sec', false).
Proof.
  cbv zeta. pose proof set_label_same as F.
  assert (G : forall s : Secret, Annotations (sec_Meta s) !! endpointUnavailableAnnotation = None ->
    mget (Labels (sec_Meta s)) instanceLabelKey = name ->
    mget (Labels (sec_Meta s)) compatibilityLabelKey = compatibilityLabelOpenAI ->
    (slug <> "" -> mget (Labels (sec_Meta s)) slugAnnotationKey = slug) ->
    sec_Data s !! openAIAPIURLKey = Some endpoint ->
    applySecretMutations s name slug endpoint = (s, false)).
  { intros s H1 H2 H3 H4 H5. unfold applySecretMutations. rewrite H1, !F by done.
    case_bool_decide; rewrite ?F by auto; rewrite H5; by rewrite bool_decide_true. }
  apply G; unfold applySecretMutations, set_label; destruct sec as [[] ? ? ?]; cbn;
    repeat first [ case_bool_decide; cbn in *; maps
                 | progress (maps; cbn in *)
                 | match goal with |- context [match ?x with Some _ => _ | None => _ end] => destruct x eqn:?; cbn in * end ];
    rewrite ?lookup_delete_eq, ?lookup_insert_eq; try done; subst; intros; maps; congruence.
Qed.
