(* ===== verification/TokenRequestSafety.v ===== *)
(** * The token request controller: which writes a reconcile may make

    [token_write] lists the writes with the evidence each needs among the answers
    of the same reconcile; the theorems hold for every API server and cache. *)

From Stdlib Require Import Ascii.
From S2P Require Import Prelude GoStd GoNet GoError Kube KubeRef Api Io Names SlugPolicy TokenRequest TokenRequestFacts.

Lemma same_meta_fields (m m' : ObjectMeta) :
  m' = m <| OwnerReferences := OwnerReferences m' |> ->
  Name m' = Name m /\ Namespace m' = Namespace m /\ Labels m' = Labels m /\ Annotations m' = Annotations m.
Proof. intros ->. done. Qed.

Lemma with_meta_fields (s : Secret) (m : ObjectMeta) :
  sec_Meta (s <| sec_Meta := m |>) = m /\ sec_Type (s <| sec_Meta := m |>) = sec_Type s /\
  sec_StringData (s <| sec_Meta := m |>) = sec_StringData s.
Proof. done. Qed.

Section Frames.
  Context `{KubeLib}.

Lemma withdraw_spec (s : Secret) (u : bool) :
  let su := withdraw (s, u) in
  withdrawn su.1 /\ key_in su.1 = key_in s /\ same_secret s su.1 /\
  (su.2 = false -> u = false /\ su.1 = s).
Proof.
  cbv zeta. unfold withdraw, annotate, key_in. destruct s as [[] ? ? ?].
  case_bool_decide as E1; case_bool_decide as E2; cbn in *; maps; split_and!; try done;
    split; cbn; maps; done.
Qed.

Lemma relabel_pending_spec (inst : option LLMInstance) (s : Secret) (u : bool) :
  let su := relabel_pending inst (s, u) in
  key_in su.1 = key_in s /\ same_secret s su.1 /\ (su.2 = false -> u = false /\ su.1 = s).
Proof.
  cbv zeta. unfold relabel_pending. destruct inst as [i|]; [| auto with go].
  destruct (pendingBYOC (Some i)); [| auto with go].
  pose proof (set_label_spec instanceLabelKey (Name (inst_Meta i)) s u) as L. cbv zeta in L.
  destruct L as (_ & _ & _ & D & S & C). unfold key_in. by rewrite D.
Qed.

(** Rotation in any mode changes nothing but annotations and data, and draws at most
    one key. *)
Lemma rotate_frame (sec : Secret) (inst : option LLMInstance) (hosted : bool) (slug : string)
  (P : history -> event -> Prop) (h : history) (HP : forall h n, P h (ERandom n)) :
  safe (recording P) h (rotateTokenForTarget sec inst hosted slug) (fun _ r =>
    match r with
    | Ok (sec', changed) => same_secret sec sec' /\ (changed = false -> sec' = sec)
    | Err _ => True
    end).
Proof.
  unfold rotateTokenForTarget, generateToken, annotate.
  destruct (decide_rotation sec inst hosted slug) as [| err | | target]; cbn [safe fret fail].
  - auto with go.
  - done.
  - split; [| done]. by destruct sec as [[] ? ? ?].
  - apply safe_fbind, safe_fbind. split; [apply HP |].
    intros [b | err]; cbn [safe fret fail]; [| done].
    split; [| done]. case_bool_decide; by destruct sec as [[] ? ? ?].
Qed.

Lemma ownsTokenSecret_spec (tr : APITokenRequest) (sec : Secret) :
  ownsTokenSecret tr sec = true <->
  UID (tr_Meta tr) <> "" /\ Namespace (sec_Meta sec) = Namespace (tr_Meta tr) /\
  sec_Type sec = SecretTypeOpaque /\
  exists owner, GetControllerOf (OwnerReferences (sec_Meta sec)) = Some owner /\
    or_APIVersion owner = GroupVersion /\ or_Kind owner = "APITokenRequest" /\
    or_UID owner = UID (tr_Meta tr) /\ or_Name owner = Name (tr_Meta tr).
Proof.
  unfold ownsTokenSecret. split.
  - destruct (GetControllerOf _) as [o|]; [| done]. intros ?. bool_props. split_and!; [done | done | done | by exists o].
  - intros (H1 & H2 & H3 & o & -> & H4 & H5 & H6 & H7).
    by rewrite bool_decide_false, !bool_decide_true.
Qed.

End Frames.

Section Safety.
  Context `{KubeLaws}.
  Variable SlugPolicy : option Policy.
  Variable req : ObjectKey.

Definition request_read (h : history) (tr : APITokenRequest) : Prop :=
  saw h (EGet Cached KTokenRequest req) (Ok tr).
Definition instance_read (h : history) (tr : APITokenRequest) (inst : LLMInstance) : Prop :=
  saw h (EGet Cached KInstance (key_of (key_Namespace req) (InstanceName (tr_Spec tr)))) (Ok inst).

Definition secret_name (tr : APITokenRequest) : string := Name (tr_Meta tr) +:+ "-token".
Definition secret_event (tr : APITokenRequest) : event :=
  EGet Cached KSecret (key_of (Namespace (tr_Meta tr)) (secret_name tr)).

(** The instance is Ready for its current generation under its reviewed slug, with an
    endpoint that is usable for its mode. *)
Record publishable (inst : LLMInstance) : Prop := {
  pb_slug : verified_slug SlugPolicy inst <> "";
  pb_endpoint : TrimSpace (Endpoint (Status inst)) <> "";
  pb_ready : instance_ready inst = true;
  pb_valid : valid_endpoint inst (TrimSpace (Endpoint (Status inst))) = true;
}.

Definition published_for (data : gmap string string) (inst : LLMInstance) (sec : Secret) : Prop :=
  published data inst (verified_slug SlugPolicy inst) (TrimSpace (Endpoint (Status inst))) sec.

(** A Secret that hands out the endpoint is stored, or was found so. *)
Definition delivered (h : history) (tr : APITokenRequest) (inst : LLMInstance) : Prop :=
  exists sec,
    (saw h (secret_event tr) (Ok sec) /\ ownsTokenSecret tr sec = true /\
     published_for (sec_Data sec) inst sec) \/
    (exists stored, saw h (EUpdate Cached KSecret sec) (Ok stored) /\
     published_for (sec_Data sec) inst sec) \/
    (exists stored, saw h (ECreate Cached KSecret sec) (Ok stored) /\
     published_for (sec_StringData sec) inst sec).

(** The key of the update is the one of the Secret read when that was bound to the
    instance and target (or adoptable), and otherwise one drawn in this reconcile. *)
Definition key_justified (h : history) (inst : LLMInstance) (sec0 sec : Secret) : Prop :=
  (key_in sec = key_in sec0 /\
   (bound inst sec0 \/ adoptable inst (verified_slug SlugPolicy inst) sec0)) \/
  exists b, saw h (ERandom 32) (Ok b) /\ key_in sec = TrimRightByte (base64url_encode b) "="%char.

Inductive token_write (h : history) : event -> Prop :=
| tw_read e : read_only e -> token_write h e
| tw_create tr inst sec b :
    request_read h tr -> instance_read h tr inst -> publishable inst ->
    Name (sec_Meta sec) = secret_name tr -> Namespace (sec_Meta sec) = Namespace (tr_Meta tr) ->
    sec_Type sec = SecretTypeOpaque ->
    GetControllerOf (OwnerReferences (sec_Meta sec)) =
      Some (controller_ref APITokenRequestKind (tr_Meta tr)) ->
    saw h (ERandom 32) (Ok b) ->
    mget (sec_StringData sec) openAIAPIKeyKey = TrimRightByte (base64url_encode b) "="%char ->
    mget (Labels (sec_Meta sec)) tokenRequestLabelKey = Name (tr_Meta tr) ->
    published_for (sec_StringData sec) inst sec ->
    token_write h (ECreate Cached KSecret sec)
| tw_publish tr inst sec0 sec :
    request_read h tr -> instance_read h tr inst -> publishable inst ->
    saw h (secret_event tr) (Ok sec0) -> ownsTokenSecret tr sec0 = true -> same_secret sec0 sec ->
    published_for (sec_Data sec) inst sec -> key_justified h inst sec0 sec ->
    token_write h (EUpdate Cached KSecret sec)
| tw_withdraw tr sec0 sec :
    request_read h tr ->
    saw h (secret_event tr) (Ok sec0) -> ownsTokenSecret tr sec0 = true -> same_secret sec0 sec ->
    withdrawn sec ->
    token_write h (EUpdate Cached KSecret sec)
| tw_delete tr secrets sec :
    request_read h tr -> time_IsZero (DeletionTimestamp (tr_Meta tr)) = false ->
    saw h (EList Cached KSecret (Some (Namespace (tr_Meta tr)))
             [(tokenRequestLabelKey, Name (tr_Meta tr))]) (Ok secrets) ->
    sec ∈ secrets -> ownsTokenSecret tr sec = true ->
    token_write h (EDelete Cached KSecret sec
      {| pre_UID := Some (UID (sec_Meta sec)); pre_ResourceVersion := Some (ResourceVersion (sec_Meta sec)) |})
| tw_request key tr0 tr :
    saw h (EGet Cached KTokenRequest key) (Ok tr0) -> tr = tr0 <| tr_Meta := tr_Meta tr |> ->
    token_write h (EUpdate Cached KTokenRequest tr)
| tw_pending tr :
    tr_Phase (tr_Status tr) = "Pending" -> tr_ObservedGeneration (tr_Status tr) = Generation (tr_Meta tr) ->
    token_write h (EUpdateStatus Cached KTokenRequest tr)
| tw_ready tr0 inst tr :
    request_read h tr0 -> instance_read h tr0 inst -> publishable inst -> delivered h tr0 inst ->
    tr_Phase (tr_Status tr) = "Ready" -> SecretName (tr_Status tr) = secret_name tr0 ->
    tr_ObservedGeneration (tr_Status tr) = Generation (tr_Meta tr) ->
    token_write h (EUpdateStatus Cached KTokenRequest tr).

Local Abbreviation allowed_here := (recording token_write).

Lemma publishable_uid (inst : LLMInstance) : publishable inst -> UID (inst_Meta inst) <> "".
Proof.
  intros [Hs _ _ _] E. unfold verified_slug, Select in Hs. rewrite E in Hs.
  destruct SlugPolicy; done.
Qed.

Lemma publishable_target (inst : LLMInstance) :
  publishable inst -> byoc_bound inst = true -> ActiveBYOCTargetID (Status inst) <> "".
Proof.
  intros [_ _ _ Hv] Hb. unfold valid_endpoint in Hv. rewrite Hb in Hv. cbn in Hv. by bool_props.
Qed.

Lemma touch_safe (h : history) (tr : APITokenRequest) (version : string) :
  request_read h tr ->
  safe allowed_here h (touchAPITokenRequest tr version) (fun _ _ => True).
Proof.
  intros Htr. unfold touchAPITokenRequest. case_match; [done |].
  on_call now; [by apply tw_read |]. split; [| done].
  eapply tw_request; [apply saw_later, Htr | by destruct tr as [[]]].
Qed.

(** The Secret the code assembles, in terms of what it promises. *)
Lemma newTokenSecret_spec (tr : APITokenRequest) (inst : LLMInstance) (token : string) (sec : Secret) :
  publishable inst ->
  newTokenSecret tr inst (secret_name tr) (verified_slug SlugPolicy inst)
    (TrimSpace (Endpoint (Status inst))) token = Ok sec ->
  Name (sec_Meta sec) = secret_name tr /\ Namespace (sec_Meta sec) = Namespace (tr_Meta tr) /\
  sec_Type sec = SecretTypeOpaque /\ mget (sec_StringData sec) openAIAPIKeyKey = token /\
  mget (Labels (sec_Meta sec)) tokenRequestLabelKey = Name (tr_Meta tr) /\
  published_for (sec_StringData sec) inst sec.
Proof.
  intros Hp. pose proof (publishable_uid inst Hp) as Hu. pose proof (pb_slug inst Hp) as Hs.
  unfold newTokenSecret, published_for, tokenLabels.
  rewrite (bool_decide_false (UID _ = "")), (bool_decide_false (verified_slug _ _ = "")) by done.
  rewrite orb_false_r.
  destruct (byoc_bound inst) eqn:Hb; [case_bool_decide; [done |] |]; intros [= <-]; cbn; maps;
    (split_and!; try done); split; unfold bound; cbn; rewrite ?Hb; maps; try done.
  all: by rewrite !lookup_insert_ne.
Qed.

Lemma createSecret_safe (h : history) (tr : APITokenRequest) (inst : LLMInstance) :
  request_read h tr -> instance_read h tr inst -> publishable inst ->
  safe allowed_here h
    (createSecret tr inst (secret_name tr) (verified_slug SlugPolicy inst) (TrimSpace (Endpoint (Status inst))))
    (fun h' r => is_ok r = true -> delivered h' tr inst).
Proof.
  intros Htr Hi Hp. unfold createSecret, generateToken. apply safe_fbind, safe_fbind.
  split; [by apply tw_read |]. intros [b | err]; cbn [safe fret fail advance recording]; [| done].
  destruct (newTokenSecret _ _ _ _ _ _) as [sec | err] eqn:En; [| done].
  apply newTokenSecret_spec in En as (En & Ens & Et & Ek & El & Ep); [| done].
  destruct (SetControllerReference _ _) as [m | err] eqn:Em; [| done].
  apply SetControllerReference_ok in Em as [Ho Em]; [| done].
  destruct (same_meta_fields _ _ Em) as (Fn & Fns & Fl & Fa).
  destruct (with_meta_fields sec m) as (Gm & Gt & Gs).
  assert (Epub : published_for (sec_StringData sec) inst (sec <| sec_Meta := m |>)).
  { destruct Ep as [P1 P2 P3 P4 P5 P6]. unfold bound in *.
    split; unfold bound; rewrite ?Gm, ?Fl, ?Fa; done. }
  on_call stored.
  - apply (tw_create _ tr inst _ b); rewrite ?Gm, ?Gt, ?Gs, ?Fn, ?Fns, ?Fl;
      try done; unfold request_read, instance_read; auto with go.
  - destruct stored; [| done]. intros _. eexists. right; right. eauto with go.
Qed.

Lemma ensureSecret_safe (h : history) (tr : APITokenRequest) (inst : LLMInstance) :
  request_read h tr -> instance_read h tr inst -> publishable inst ->
  safe allowed_here h
    (ensureSecret tr inst (secret_name tr) (verified_slug SlugPolicy inst) (TrimSpace (Endpoint (Status inst))))
    (fun h' r => is_ok r = true -> delivered h' tr inst).
Proof.
  intros Htr Hi Hp. unfold ensureSecret. on_call got; [by apply tw_read |].
  destruct got as [sec | err].
  2: { destruct (IsNotFound err); [| done]. apply safe_fbind.
       eapply safe_mono; [apply createSecret_safe; unfold request_read, instance_read; auto with go |].
       intros h' [[]|e] Hd; cbn; auto. }
  destruct (ownsTokenSecret tr sec) eqn:Ho; cbn [negb]; [| done].
  on_step (rotate_safe sec inst (verified_slug SlugPolicy inst) token_write
    (existT (secret_event tr) (Ok sec) :: h) (publishable_uid _ Hp) (publishable_target _ Hp)
    (fun h n => tw_read h (ERandom n) eq_refl)).
  intros h' [[sec' changed] | err] (Hg & _ & Hr); [| done].
  destruct Hr as (Hb & Hs & _ & Hc & Hk).
  pose proof (applySecretMutations_spec sec' inst _ (TrimSpace (Endpoint (Status inst))) (pb_slug _ Hp)) as Ha.
  cbv zeta in Ha. destruct (applySecretMutations _ _ _ _) as [sec2 updated]. cbn [fst snd] in Ha.
  destruct Ha as (Hpub & Hkey & Hs2 & Hc2). specialize (Hpub Hb).
  assert (Htr' : request_read h' tr) by (eapply saw_grows; [exact Hg | by apply saw_later]).
  assert (Hi' : instance_read h' tr inst) by (eapply saw_grows; [exact Hg | by apply saw_later]).
  assert (Hsec : saw h' (secret_event tr) (Ok sec)) by (eapply saw_grows; [exact Hg | apply saw_here]).
  apply safe_fbind. destruct (updated || changed) eqn:Eu.
  - split.
    + eapply tw_publish; eauto using same_secret_trans.
      unfold key_justified. rewrite Hkey. destruct Hk as [[? ?] | (b & ? & ? & _)]; eauto.
    + intros [stored | err]; cbn [safe advance recording]; [| done].
      eapply safe_mono; [apply safe_grows, touch_safe, saw_later, Htr' |].
      intros h'' r [Hg'' _] _. exists sec2. right; left. exists stored. split; [| done].
      eapply saw_grows; [exact Hg'' | apply saw_here].
  - apply orb_false_iff in Eu as [-> ->]. rewrite (Hc2 eq_refl), (Hc eq_refl) in *.
    cbn [safe fret]. eapply safe_mono; [apply safe_grows, touch_safe, Htr' |].
    intros h'' r [Hg'' _] _. exists sec. left. split_and!; [| done | done].
    by eapply saw_grows.
Qed.

Lemma invalidate_safe (h : history) (tr : APITokenRequest) (inst : option LLMInstance) :
  request_read h tr ->
  safe allowed_here h (invalidateTokenEndpoint tr inst) (fun _ _ => True).
Proof.
  intros Htr. unfold invalidateTokenEndpoint. on_call got; [by apply tw_read |].
  destruct got as [sec | err]; [| by destruct (IgnoreNotFound (Some err))].
  destruct (ownsTokenSecret tr sec) eqn:Ho; cbn [negb]; [| done].
  on_step (rotate_frame sec inst false "" token_write (existT (secret_event tr) (Ok sec) :: h)
    (fun h n => tw_read h (ERandom n) eq_refl)).
  intros h' [[sec' changed] | err] [Hg Hr]; [| done]. destruct Hr as [Hs Hc].
  pose proof (relabel_pending_spec inst sec' changed) as (_ & Hs1 & Hc1).
  destruct (relabel_pending inst (sec', changed)) as [sec1 changed1].
  pose proof (withdraw_spec sec1 changed1) as (Hw & _ & Hs2 & Hc2).
  destruct (withdraw (sec1, changed1)) as [sec2 changed2]. cbn [fst snd] in *.
  assert (Htr' : request_read h' tr) by (eapply saw_grows; [exact Hg | by apply saw_later]).
  apply safe_fbind. destruct changed2.
  - split.
    + eapply tw_withdraw; eauto using same_secret_trans. eapply saw_grows; [exact Hg | apply saw_here].
    + intros [stored | err]; cbn [safe advance recording]; [| done]. apply safe_fbind.
      eapply safe_mono; [apply touch_safe, saw_later, Htr' |]. by intros ? [].
  - cbn [safe fret]. apply safe_fbind.
    eapply safe_mono; [apply touch_safe, Htr' |]. by intros ? [].
Qed.

Lemma deleteOwned_safe (h : history) (tr : APITokenRequest) (secrets items : list Secret) :
  request_read h tr -> time_IsZero (DeletionTimestamp (tr_Meta tr)) = false ->
  saw h (EList Cached KSecret (Some (Namespace (tr_Meta tr)))
           [(tokenRequestLabelKey, Name (tr_Meta tr))]) (Ok secrets) ->
  items ⊆ secrets ->
  safe allowed_here h (deleteOwned tr items) (fun _ _ => True).
Proof.
  intros Htr Hd. revert h Htr. induction items as [|sec items IH]; intros h Htr Hl Hin; [done |].
  assert (items ⊆ secrets) by set_solver. cbn [deleteOwned].
  destruct (ownsTokenSecret tr sec) eqn:Ho; cbn [negb]; [| by apply IH].
  on_call stored; [eapply tw_delete; eauto; set_solver |].
  apply IH; unfold request_read; auto with go.
Qed.

Lemma dropFinalizer_safe (n : nat) (h : history) (key key0 : ObjectKey) (tr : APITokenRequest) :
  saw h (EGet Cached KTokenRequest key0) (Ok tr) ->
  safe allowed_here h (dropFinalizer n key tr) (fun _ _ => True).
Proof.
  revert h key0 tr. induction n as [|n IH]; intros h key0 tr Htr; [done |]. cbn [dropFinalizer].
  on_call stored; [eapply tw_request; [exact Htr | by destruct tr as [[]]] |].
  destruct stored as [? | err]; [done |]. repeat case_match; try done.
  on_call got; [by apply tw_read |]. destruct got as [fresh | err']; [| done].
  eapply (IH _ key). apply saw_here.
Qed.

Lemma finalize_safe (h : history) (tr : APITokenRequest) :
  request_read h tr -> time_IsZero (DeletionTimestamp (tr_Meta tr)) = false ->
  safe allowed_here h (finalizeTokenRequest tr) (fun _ _ => True).
Proof.
  intros Htr Hd. unfold finalizeTokenRequest. case_match; [done |].
  on_call listed; [by apply tw_read |]. apply safe_bind.
  assert (Htr' : request_read (existT (EList Cached KSecret (Some (Namespace (tr_Meta tr)))
    [(tokenRequestLabelKey, Name (tr_Meta tr))]) listed :: h) tr) by apply saw_later, Htr.
  eapply (safe_mono _ _ _ (fun h' _ => request_read h' tr)).
  - destruct listed as [secrets | err]; [| done].
    eapply safe_mono; [apply safe_grows, (deleteOwned_safe _ tr secrets secrets); auto with go; done |].
    intros h' _ [Hg _]. by eapply saw_grows.
  - intros h' _ Htr''. apply safe_bind. eapply safe_mono; [by eapply dropFinalizer_safe |]. done.
Qed.

Lemma or_return_safe {A} (h : history) (m : fio A) (k : A -> io (Result * option error))
  (Q : history -> A -> Prop) :
  safe allowed_here h m (fun h' r => match r with Ok a => Q h' a | Err _ => True end) ->
  (forall h' a, grows h h' -> Q h' a -> safe allowed_here h' (k a) (fun _ _ => True)) ->
  safe allowed_here h (or_return m k) (fun _ _ => True).
Proof.
  intros Hm Hk. apply safe_bind. eapply safe_mono; [apply safe_grows, Hm |].
  intros h' [a | err] [Hg Hq]; [by apply Hk | done].
Qed.

Lemma pending_safe (h : history) (tr : APITokenRequest) (reason message : string) :
  safe allowed_here h (updatePendingStatus tr reason message) (fun _ _ => True).
Proof.
  unfold updatePendingStatus. on_call now; [by apply tw_read |]. split; [| done].
  by apply tw_pending; destruct tr as [[] ? []].
Qed.

Lemma reconcileInstance_safe (h : history) (tr : APITokenRequest) (inst : LLMInstance) :
  request_read h tr -> instance_read h tr inst ->
  safe allowed_here h (reconcileInstance SlugPolicy tr inst) (fun _ _ => True).
Proof.
  intros Htr Hi. unfold reconcileInstance. case_match eqn:Ew.
  - eapply (or_return_safe _ _ _ (fun _ _ => True)).
    + eapply safe_mono; [by apply invalidate_safe |]. by intros ? [].
    + intros h' tr' _ _. eapply (or_return_safe _ _ _ (fun _ _ => True)); [| done].
      eapply safe_mono; [apply pending_safe |]. by intros ? [].
  - assert (Hp : publishable inst) by (bool_props; by split).
    eapply (or_return_safe _ _ _ (fun h' _ => delivered h' tr inst)).
    + eapply safe_mono; [by apply ensureSecret_safe |]. intros h' [] Hd; auto.
    + intros h' tr' Hg Hd. eapply (or_return_safe _ _ _ (fun _ _ => True)); [| done].
      unfold updateReadyStatus. on_call now; [by apply tw_read |]. split; [| by intros []].
      eapply (tw_ready _ tr inst); unfold request_read, instance_read;
        eauto using saw_later, saw_grows; try by destruct tr' as [[] ? []].
      destruct Hd as (sec & Hd). exists sec.
      destruct Hd as [(? & ? & ?) | [(? & ? & ?) | (? & ? & ?)]]; eauto 6 with go.
Qed.

(** C3: whatever the cache and the API server answer, a reconcile of a token request
    only writes what its own reads justify: Secrets it controls, at the revision read,
    and never another object of the Secret; an endpoint is handed out only for an
    instance read as Ready under its reviewed slug, with the key bound to its UID and
    target, and otherwise withdrawn; Secrets are deleted only while the request is
    being deleted; and the request becomes Ready only after the Secret is stored. *)
Theorem reconcile_token_writes :
  safe (recording token_write) [] (Reconcile SlugPolicy req) (fun _ _ => True).
Proof.
  unfold Reconcile. on_call got; [by apply tw_read |]. destruct got as [tr | err]; [| done].
  assert (Htr : request_read [existT (EGet Cached KTokenRequest req) (Ok tr)] tr) by apply saw_here.
  destruct (time_IsZero (DeletionTimestamp (tr_Meta tr))) eqn:Hd; cbn [negb]; [| by apply finalize_safe].
  unfold ensureFinalizer. destruct (ContainsFinalizer _ _).
  2: { apply safe_bind. on_call stored; [| by destruct stored].
       eapply tw_request; [exact Htr | by destruct tr as [[]]]. }
  apply safe_bind. cbn [safe mret io_ret]. on_call got; [by apply tw_read |].
  destruct got as [inst | err].
  - apply reconcileInstance_safe; unfold request_read, instance_read; auto with go.
  - destruct (IsNotFound err); [| done].
    eapply (or_return_safe _ _ _ (fun _ _ => True)).
    + eapply safe_mono; [apply invalidate_safe; unfold request_read; auto with go |]. by intros ? [].
    + intros h' tr' _ _. eapply (or_return_safe _ _ _ (fun _ _ => True)); [| done].
      eapply safe_mono; [apply pending_safe |]. by intros ? [].
Qed.

End Safety.
