(* ===== verification/TokenRequestFlow.v ===== *)
(** * The token request controller: keys, cleanup and the steady state *)

From Stdlib Require Import Ascii.
From S2P Require Import Prelude GoStd GoNet GoError Kube KubeRef Api Io Names SlugPolicy TokenRequest TokenRequestFacts TokenRequestSafety.

(** A generated key is 43 URL-safe bytes without padding, and two keys are equal
    only when the 32 random bytes behind them are. *)
Theorem token_shape (O O' : oracle) (b b' : list Z)
  (Hb : O (ERandom 32) = Ok b) (Hb' : O' (ERandom 32) = Ok b')
  (Hl : length b = 32) (Hl' : length b' = 32) (Hr : Forall is_byte b) (Hr' : Forall is_byte b') :
  exists t t', run_oracle O (generateToken 32) = Ok t /\ run_oracle O' (generateToken 32) = Ok t' /\
    String.length t = 43 /\ str_forall url_char t = true /\ (t = t' -> b = b').
Proof.
  unfold generateToken. rewrite !run_oracle_fbind. cbn [call run_oracle]. rewrite Hb, Hb'. cbn [fret run_oracle].
  exists (raw64 b), (raw64 b'). split_and!; [done | done | | apply raw64_charset |].
  - rewrite raw64_length, Hl. reflexivity.
  - intros E. by apply raw64_inj; [| | congruence |].
Qed.

Section Flow.
  Context `{KubeLaws}.
  Variable SlugPolicy : option Policy.

(** ** Cleanup *)

(** At most three updates, each without the finalizer; Secrets are deleted before the
    first of them, and nothing else is written. *)
Definition cleanup : monitor nat := {|
  allowed n e :=
    match e with
    | EDelete Cached KSecret _ _ => n = 0%nat
    | EUpdate Cached KTokenRequest tr =>
        (n < 3)%nat /\ ContainsFinalizer (Finalizers (tr_Meta tr)) apiTokenRequestFinalizer = false
    | e => read_only e
    end;
  advance n e _ := match e with EUpdate _ _ _ => S n | _ => n end;
|}.

Lemma deleteOwned_cleanup (tr : APITokenRequest) (items : list Secret) :
  safe cleanup 0%nat (deleteOwned tr items) (fun n _ => n = 0%nat).
Proof.
  induction items as [|sec items IH]; [done |]. cbn [deleteOwned]. case_match; [done |].
  apply safe_bind. by split.
Qed.

Lemma dropFinalizer_cleanup (n k : nat) (key : ObjectKey) (tr : APITokenRequest) :
  k + n = 3 -> safe cleanup k (dropFinalizer n key tr) (fun k' _ => k' <= 3).
Proof.
  revert k tr. induction n as [|n IH]; intros k tr Hk; [cbn; lia |]. cbn [dropFinalizer].
  apply safe_bind. split; [split; [lia | apply RemoveFinalizer_spec] |].
  intros [stored | err]; cbn [safe advance cleanup mret io_ret]; [lia |].
  case_match; [cbn; lia |]. case_match; [| cbn; lia].
  apply safe_bind. split; [done |]. intros [got | e]; cbn [safe advance cleanup mret io_ret]; [| lia].
  apply IH. lia.
Qed.

(** C31: cleaning up a deleted token request makes at most three updates of the request,
    each without the finalizer, after all its Secret deletions, whatever conflicts and
    failures it meets; it always returns. *)
Theorem finalize_bounded (tr : APITokenRequest) :
  safe cleanup 0%nat (finalizeTokenRequest tr) (fun n r => n <= 3 /\ r.1 = no_result).
Proof.
  unfold finalizeTokenRequest. case_match; [by split; [lia |] |]. apply safe_bind. split; [done |].
  intros listed. cbn [safe advance cleanup]. apply safe_bind.
  eapply (safe_mono _ _ _ (fun n _ => n = 0%nat)).
  - destruct listed; [apply deleteOwned_cleanup | done].
  - intros n [] ->. apply safe_bind. eapply safe_mono; [by apply (dropFinalizer_cleanup 3 0) |].
    intros n err Hn. by split.
Qed.

Lemma deleteOwned_calls (O : oracle) (tr : APITokenRequest) (items : list Secret) :
  calls O (deleteOwned tr items) =
  (fun sec => EDelete Cached KSecret sec
     {| pre_UID := Some (UID (sec_Meta sec)); pre_ResourceVersion := Some (ResourceVersion (sec_Meta sec)) |})
  <$> filter (fun sec => ownsTokenSecret tr sec = true) items.
Proof.
  induction items as [|sec items IH]; [done |]. cbn [deleteOwned].
  destruct (ownsTokenSecret tr sec) eqn:E; cbn [negb].
  - rewrite filter_cons_True by done. rewrite calls_bind, IH. reflexivity.
  - by rewrite filter_cons_False by congruence.
Qed.

(** When the list of labelled Secrets is answered, cleanup asks for the deletion of
    exactly the listed Secrets the request controls, each pinned to the UID and revision
    listed, in order; and when the update is accepted the request is released. *)
Theorem finalize_complete (O : oracle) (tr stored : APITokenRequest) (secrets : list Secret)
  (Hf : ContainsFinalizer (Finalizers (tr_Meta tr)) apiTokenRequestFinalizer = true)
  (Hl : O (EList Cached KSecret (Some (Namespace (tr_Meta tr)))
             [(tokenRequestLabelKey, Name (tr_Meta tr))]) = Ok secrets)
  (Hu : forall o, O (EUpdate Cached KTokenRequest o) = Ok stored) :
  run_oracle O (finalizeTokenRequest tr) = (no_result, None) /\
  filter (fun e => is_write e = true) (calls O (finalizeTokenRequest tr)) =
    ((fun sec => EDelete Cached KSecret sec
       {| pre_UID := Some (UID (sec_Meta sec)); pre_ResourceVersion := Some (ResourceVersion (sec_Meta sec)) |})
     <$> filter (fun sec => ownsTokenSecret tr sec = true) secrets)
    ++ [EUpdate Cached KTokenRequest
          (tr <| tr_Meta -> Finalizers ::= fun fs => RemoveFinalizer fs apiTokenRequestFinalizer |>)].
Proof.
  unfold finalizeTokenRequest. rewrite Hf. cbn [negb].
  rewrite !run_oracle_bind, !calls_bind. cbn [call run_oracle calls]. rewrite Hl.
  cbn [dropFinalizer]. rewrite !run_oracle_bind, !calls_bind. cbn [call run_oracle calls].
  rewrite Hu. cbn [run_oracle calls mret io_ret]. split; [done |].
  rewrite deleteOwned_calls. cbn [app]. rewrite filter_cons_False by done.
  rewrite filter_app. f_equal.
  by apply filter_fmap_all.
Qed.

(** ** The steady state *)

Lemma decide_rotation_bound (sec : Secret) (inst : LLMInstance) (slug : string) :
  UID (inst_Meta inst) <> "" ->
  (byoc_bound inst = true -> ActiveBYOCTargetID (Status inst) <> "") ->
  bound inst sec -> decide_rotation sec (Some inst) true slug = KeepKey.
Proof.
  intros Hu Ht [H1 H2]. unfold decide_rotation. cbn. rewrite H1, H2.
  destruct (byoc_bound inst); cbn [negb andb].
  - rewrite bool_decide_false by auto. rewrite bool_decide_false by done. by rewrite !bool_decide_true.
  - rewrite (bool_decide_false (UID _ = "")) by done. rewrite andb_false_r. cbn.
    by rewrite !bool_decide_true.
Qed.

Lemma applySecretMutations_published (sec : Secret) (inst : LLMInstance) (slug endpoint : string) :
  endpoint <> "" -> published (sec_Data sec) inst slug endpoint sec ->
  applySecretMutations sec (Name (inst_Meta inst)) slug endpoint = (sec, false).
Proof.
  intros He [H1 H2 H3 H4 H5 _]. unfold applySecretMutations. rewrite H5, !set_label_same by done.
  unfold mget in H1.
  destruct (sec_Data sec !! openAIAPIURLKey) as [v|] eqn:Ev; cbn in H1; [| by destruct He].
  destruct (bool_decide (slug = "")); rewrite ?set_label_same by done; rewrite Ev;
    by rewrite (bool_decide_true (v = endpoint)).
Qed.

(** Once the Secret is published for the instance and the request carries its
    revision, a reconcile of a Ready request makes exactly three reads and one status
    update: no key is drawn and no Secret or request metadata is written.  The status
    update carries a transition time of now, although nothing changed. *)
Theorem steady_state (O : oracle) (req : ObjectKey) (tr : APITokenRequest) (inst : LLMInstance)
  (sec : Secret)
  (Htr : O (EGet Cached KTokenRequest req) = Ok tr)
  (Hd : time_IsZero (DeletionTimestamp (tr_Meta tr)) = true)
  (Hf : ContainsFinalizer (Finalizers (tr_Meta tr)) apiTokenRequestFinalizer = true)
  (Hi : O (EGet Cached KInstance (key_of (key_Namespace req) (InstanceName (tr_Spec tr)))) = Ok inst)
  (Hp : publishable SlugPolicy inst)
  (Hs : O (secret_event tr) = Ok sec) (Ho : ownsTokenSecret tr sec = true)
  (Hpub : published_for SlugPolicy (sec_Data sec) inst sec)
  (Hv : ResourceVersion (sec_Meta sec) <> "")
  (Ht : mget (Annotations (tr_Meta tr)) tokenSecretVersionAnnotation = ResourceVersion (sec_Meta sec)) :
  calls O (Reconcile SlugPolicy req) =
    [EGet Cached KTokenRequest req;
     EGet Cached KInstance (key_of (key_Namespace req) (InstanceName (tr_Spec tr)));
     secret_event tr; ENow;
     EUpdateStatus Cached KTokenRequest
       ((setTRStatusCondition tr (ready_condition ConditionTrue "Provisioned" "Token generated" (O ENow)))
          <| tr_Status -> SecretName := secret_name tr |>
          <| tr_Status -> tr_Phase := "Ready" |>
          <| tr_Status -> tr_ObservedGeneration := Generation (tr_Meta tr) |>)].
Proof.
  unfold Reconcile. rewrite calls_bind. cbn [call calls run_oracle app]. rewrite Htr, Hd. cbn [negb].
  unfold ensureFinalizer. rewrite Hf. rewrite calls_bind. cbn [calls run_oracle mret io_ret app].
  rewrite calls_bind. cbn [call calls run_oracle app]. rewrite Hi. do 2 f_equal.
  unfold reconcileInstance. destruct (id Hp) as [P1 P2 P3 P4]. rewrite P3, P4.
  rewrite !bool_decide_false by done. cbn [orb negb]. unfold or_return.
  rewrite calls_bind. fold (secret_name tr).
  assert (E : calls O (ensureSecret tr inst (secret_name tr) (verified_slug SlugPolicy inst)
                         (TrimSpace (Endpoint (Status inst)))) = [secret_event tr] /\
              run_oracle O (ensureSecret tr inst (secret_name tr) (verified_slug SlugPolicy inst)
                         (TrimSpace (Endpoint (Status inst)))) = Ok tr).
  { unfold ensureSecret. rewrite calls_bind, run_oracle_bind. cbn [call calls run_oracle app].
    fold (secret_event tr). rewrite Hs, Ho. cbn [negb]. unfold rotateTokenForTarget.
    rewrite decide_rotation_bound; [| by eapply publishable_uid | by eapply publishable_target | apply Hpub].
    rewrite calls_fbind, run_oracle_fbind. cbn [calls run_oracle fret app].
    rewrite applySecretMutations_published by done. cbn [orb].
    rewrite calls_fbind, run_oracle_fbind. cbn [calls run_oracle fret app].
    unfold touchAPITokenRequest. rewrite Ht, bool_decide_false, bool_decide_true by done. done. }
  destruct E as [-> ->]. cbn [app]. f_equal. rewrite calls_bind. unfold updateReadyStatus.
  rewrite calls_bind. cbn [call calls run_oracle app]. do 3 f_equal. rewrite run_oracle_bind.
  cbn [call run_oracle]. by case_match.
Qed.

End Flow.

(** ** A concrete request with its published Secret *)

Module TokenExample.

Definition inst : LLMInstance := {|
  inst_Meta := PolicyExample.old <| Generation := 2%Z |>;
  Spec := {| spec_Model := ""; spec_Replicas := 1; spec_Resources := None; spec_ContextSize := None;
             spec_ParallelSlots := None; spec_DNSPolicy := ""; spec_ClusterRef := None |};
  Status := {| Slug := "Existing_Slug"; SlugSource := Legacy; Phase := "Ready";
               Endpoint := "https://llm.example.com/llm/Existing_Slug";
               ActiveBYOCKubeconfigSecretName := ""; ActiveBYOCTargetID := "";
               ActiveBYOCTLSDomain := ""; ActiveBYOCTLSNamespace := ""; ActiveBYOCSlug := "";
               ObservedGeneration := 2;
               Conditions := [{| cond_Type := "Ready"; cond_Status := "True";
                                 cond_ObservedGeneration := 2; cond_LastTransitionTime := 7;
                                 cond_Reason := "Provisioned"; cond_Message := "" |}] |} |}.

Definition req : ObjectKey := key_of "tenant-a" "req".

Definition tr : APITokenRequest := {|
  tr_Meta := empty_meta <| Name := "req" |> <| Namespace := "tenant-a" |> <| UID := "tr-uid" |>
                        <| Generation := 1%Z |> <| Finalizers := [apiTokenRequestFinalizer] |>
                        <| Annotations := {[ tokenSecretVersionAnnotation := "41" ]} |>;
  tr_Spec := {| InstanceName := "old"; Description := "" |};
  tr_Status := {| tr_Phase := ""; SecretName := ""; tr_ObservedGeneration := 0; tr_Conditions := [] |} |}.

Definition sec : Secret := {|
  sec_Meta := empty_meta <| Name := "req-token" |> <| Namespace := "tenant-a" |> <| ResourceVersion := "41" |>
    <| Labels := {[ slugAnnotationKey := "Existing_Slug"; instanceLabelKey := "old";
                    tokenRequestLabelKey := "req"; compatibilityLabelKey := "openai" ]} |>
    <| Annotations := {[ credentialInstanceAnnotation := "old-uid" ]} |>
    <| OwnerReferences := [controller_ref APITokenRequestKind (tr_Meta tr)] |>;
  sec_Type := SecretTypeOpaque;
  sec_Data := {[ openAIAPIKeyKey := "k"; openAIAPIURLKey := "https://llm.example.com/llm/Existing_Slug" ]};
  sec_StringData := ∅ |}.

Definition zeros : list Z := replicate 32 0%Z.

Definition server : oracle := fun e =>
  match e return answer e with
  | EGet _ KInstance _ => Ok inst
  | EGet _ KTokenRequest _ => Ok tr
  | EGet _ KSecret _ => Ok sec
  | EGet _ _ _ => Err (ErrAPI ReasonNotFound "not found")
  | EList _ KSecret _ _ => Ok [sec]
  | EList _ _ _ _ => Ok []
  | EUpdate _ KTokenRequest _ => Ok tr
  | ECreate _ _ o | EUpdate _ _ o | EUpdateStatus _ _ o | EPatchStatus _ _ _ o => Ok o
  | EDelete _ _ _ _ => None
  | ENow => 0%Z
  | ERandom _ => Ok zeros
  | EProbe _ => Ok 200%Z
  | EHTTPS _ => Err (ErrText "no network")
  end.

Lemma ready : publishable (Some PolicyExample.policy) inst.
Proof. split; vm_compute; congruence. Qed.

Lemma is_published : published_for (Some PolicyExample.policy) (sec_Data sec) inst sec.
Proof. split; vm_compute; auto. Qed.

End TokenExample.

Lemma token_shape_witness :
  exists t t', run_oracle TokenExample.server (generateToken 32) = Ok t /\
    run_oracle TokenExample.server (generateToken 32) = Ok t' /\
    String.length t = 43 /\ str_forall url_char t = true /\ (t = t' -> TokenExample.zeros = TokenExample.zeros).
Proof.
  apply (token_shape TokenExample.server TokenExample.server TokenExample.zeros TokenExample.zeros);
    try reflexivity; apply Forall_replicate; exact is_byte_0.
Defined.

Lemma finalize_complete_witness :
  run_oracle TokenExample.server (finalizeTokenRequest TokenExample.tr) = (no_result, None).
Proof.
  apply (finalize_complete TokenExample.server TokenExample.tr TokenExample.tr [TokenExample.sec]);
    intros; reflexivity.
Defined.

Lemma steady_state_witness :
  length (calls TokenExample.server (Reconcile (Some PolicyExample.policy) TokenExample.req)) = 5.
Proof.
  assert (Hv : ResourceVersion (sec_Meta TokenExample.sec) <> "") by discriminate.
  rewrite (steady_state (H := ref_lib) (Some PolicyExample.policy) TokenExample.server TokenExample.req
             TokenExample.tr TokenExample.inst TokenExample.sec eq_refl eq_refl eq_refl eq_refl
             TokenExample.ready eq_refl eq_refl TokenExample.is_published Hv eq_refl).
  reflexivity.
Defined.

Lemma rotate_spec_witness :
  safe (recording (fun _ _ => True)) []
    (rotateTokenForTarget TokenExample.sec (Some TokenExample.inst) true "Existing_Slug")
    (fun _ r => is_ok r = true -> match r with Ok (s, _) => bound TokenExample.inst s | Err _ => False end).
Proof.
  eapply safe_mono.
  - apply (rotate_spec TokenExample.sec TokenExample.inst "Existing_Slug" (fun _ _ => True) []).
    + vm_compute. discriminate.
    + vm_compute. discriminate.
    + intros. exact I.
  - intros h [[s c] | e] [_ Hr]; [intros _; apply Hr | intros [=]].
Defined.

Lemma finalize_bounded_witness :
  safe cleanup 0%nat (finalizeTokenRequest TokenExample.tr) (fun n r => n <= 3 /\ r.1 = no_result).
Proof. exact (finalize_bounded (H := ref_lib) (H0 := ref_laws) TokenExample.tr). Defined.

Lemma reconcile_token_writes_witness :
  safe (recording (token_write (Some PolicyExample.policy) TokenExample.req)) []
    (Reconcile (Some PolicyExample.policy) TokenExample.req) (fun _ _ => True).
Proof. exact (reconcile_token_writes (H := ref_lib) (H0 := ref_laws) (Some PolicyExample.policy) TokenExample.req). Defined.
