(* ===== verification/SlugRoute.v ===== *)
(** * Slug selection, persistence and route ownership (internal/controller/slug_policy.go)

    The reconciler's configuration, which slug an instance may use, how it is
    persisted before anything is routed, and which Ingress paths it may claim. *)

From Stdlib Require Import Ascii.
From S2P Require Import Prelude GoStd GoError Kube KubeRef Api Io Names SlugPolicy Model.

(** ** The reconciler's configuration (llminstance_controller.go, llminstance_byoc_tls.go) *)

Record BYOCTLSConfig := {
  Domain : string;
  tls_Namespace : string;
  IssuerName : string;
  IssuerNamespace : string;
  DNSClass : string;
}.

Record LLMInstanceReconciler := {
  RouteReader : option client;
  rec_SlugPolicy : option Policy;
  rec_Ceilings : ModelServerCeilings;
  PublicHost : string;
  AuthServiceURL : string;
  PublicScheme : string;
  ExtraIngressAnnotations : gmap string string;
  TLSSecretName : string;
  BYOCTLS : BYOCTLSConfig;
}.

(** ** Rejections *)

Definition slug_rejection (text : string) : error := Wrap (ErrSentinel errSlugRejection) text.

Definition errSlugRouteOwnership : error :=
  slug_rejection "named Ingress is not controlled by this LLMInstance".
Definition errSlugRouteConflict : error :=
  slug_rejection "another Ingress overlaps the selected inference path".
Definition errSlugBackendOwnership : error :=
  slug_rejection "named hosted backend is not controlled by this LLMInstance".

(** [fmt.Errorf("%w: %w", errSlugRejection, err)]. *)
Definition reject_because (err : error) : error :=
  ErrWrapf (sentinel_text errSlugRejection +:+ ": " +:+ error_text err) [ErrSentinel errSlugRejection; err].

Definition routeReader (r : LLMInstanceReconciler) : client := default Cached (RouteReader r).

Definition instance_key (inst : LLMInstance) : ObjectKey := ObjectKeyFromObject (inst_Meta inst).
Definition llama_name (inst : LLMInstance) : string := Name (inst_Meta inst) +:+ "-llama".

(** ** Hosts and rules *)

Definition hostClaimsSlugHost (rule host : string) : bool :=
  let rule := ToLower rule in
  let host := ToLower host in
  if bool_decide (rule = "") || bool_decide (rule = host) then true
  else HasPrefix rule "*." && HasSuffix host (str_drop 1 rule)
       && (CountByte host "." =? CountByte rule ".")%nat.

(** Raw prefix overlap of one path with the selected one. *)
Definition path_conflicts (selectedPath : string) (path : HTTPIngressPath) : bool :=
  let candidate := TrimRightByte (hp_Path path) "/" in
  HasPrefix candidate selectedPath || HasPrefix selectedPath candidate.

Definition rule_conflicts (host selectedPath : string) (rule : IngressRule) : bool :=
  match rule_HTTP rule with
  | Some paths => hostClaimsSlugHost (rule_Host rule) host && existsb (path_conflicts selectedPath) paths
  | None => false
  end.

Definition slugIngressRules (r : LLMInstanceReconciler) (path svcName : string) : list IngressRule :=
  let backend := {| be_Service := Some {| sb_Name := svcName; sb_Port := 8000 |} |} in
  [{| rule_Host := PublicHost r;
      rule_HTTP := Some [{| hp_Path := path; hp_PathType := Some "Exact"; hp_Backend := backend |};
                         {| hp_Path := path +:+ "/"; hp_PathType := Some "Prefix"; hp_Backend := backend |}] |}].

Definition selectSlug (r : LLMInstanceReconciler) (inst : LLMInstance) : res Selection :=
  match Select (rec_SlugPolicy r) (inst_Meta inst) with
  | Err err => Err (reject_because err)
  | Ok selection =>
      let st := Status inst in
      if bool_decide (sel_Source selection = Derived) && bool_decide (Slug st = "")
         && (negb (bool_decide (Endpoint st = "")) || negb (bool_decide (ActiveBYOCSlug st = ""))
             || negb (bool_decide (ActiveBYOCKubeconfigSecretName st = "")))
      then Err (slug_rejection "a previously provisioned instance requires its reviewed legacy slug")
      else if (negb (bool_decide (ActiveBYOCSlug st = "")) && negb (bool_decide (ActiveBYOCSlug st = sel_Slug selection)))
              || (negb (bool_decide (Slug st = "")) && negb (bool_decide (Slug st = sel_Slug selection)))
      then Err (slug_rejection "operator slug mapping changed; explicit endpoint and workload migration is required")
      else Ok selection
  end.

(** The instance afterwards, and the slug with whether to requeue. *)
Definition ensureSlug (r : LLMInstanceReconciler) (inst : LLMInstance)
    : io (LLMInstance * res (string * bool)) :=
  match selectSlug r inst with
  | Err err => mret (inst, Err err)
  | Ok selection =>
      if bool_decide (Slug (Status inst) = sel_Slug selection)
         && bool_decide (SlugSource (Status inst) = sel_Source selection)
      then mret (inst, Ok (sel_Slug selection, false))
      else
        let before := inst in
        let inst := inst <| Status -> Slug := sel_Slug selection |>
                         <| Status -> SlugSource := sel_Source selection |> in
        let! patched := call (EPatchStatus Cached KInstance before inst) in
        match patched with
        | Err err => mret (inst, Err err)
        | Ok inst =>
            let! got := call (EGet (routeReader r) KInstance (instance_key before)) in
            mret (inst,
              match got with
              | Err err => Err err
              | Ok persisted =>
                  if negb (bool_decide (UID (inst_Meta persisted) = UID (inst_Meta before)))
                     || negb (bool_decide (instance_key persisted = instance_key before))
                  then Err (slug_rejection "instance identity changed during slug persistence")
                  else if negb (bool_decide (Slug (Status persisted) = sel_Slug selection))
                          || negb (bool_decide (SlugSource (Status persisted) = sel_Source selection))
                  then Err (slug_rejection "LLMInstance schema must persist status.slug and status.slugSource")
                  else Ok (sel_Slug selection, true)
              end)
        end
  end.

(** ** Ownership *)

Section Routes.
  Context `{KubeLib}.
  Variable rc : LLMInstanceReconciler.

Definition ownsLLMResource (inst : LLMInstance) (obj : ObjectMeta) : bool :=
  match GetControllerOf (OwnerReferences obj) with
  | None => false
  | Some owner =>
      negb (bool_decide (UID (inst_Meta inst) = ""))
      && bool_decide (Namespace obj = Namespace (inst_Meta inst))
      && bool_decide (or_UID owner = UID (inst_Meta inst))
      && bool_decide (or_Name owner = Name (inst_Meta inst))
      && bool_decide (or_Kind owner = "LLMInstance")
      && bool_decide (or_APIVersion owner = GroupVersion)
  end.

Definition ownsSlugIngress (inst : LLMInstance) (ing : Ingress) : bool :=
  ownsLLMResource inst (ing_Meta ing).

(** The whole Ingress, other than the instance's own, overlaps the selected path. *)
Definition ingress_conflicts (inst : LLMInstance) (slug : string) (ing : Ingress) : bool :=
  if bool_decide (ObjectKeyFromObject (ing_Meta ing) = key_of (Namespace (inst_Meta inst)) (llama_name inst))
     && ownsSlugIngress inst ing
  then false
  else match ing_DefaultBackend ing with
       | Some _ => true
       | None => existsb (rule_conflicts (PublicHost rc) ("/llm/" +:+ slug)) (ing_Rules ing)
       end.

Definition checkSlugRoute (inst : LLMInstance) (slug : string) : fio unit :=
  let! got := call (EGet (routeReader rc) KIngress (key_of (Namespace (inst_Meta inst)) (llama_name inst))) in
  let continue :=
    let? ingresses := call (EList (routeReader rc) KIngress None []) in
    if existsb (ingress_conflicts inst slug) ingresses then fail errSlugRouteConflict else fret tt in
  match got with
  | Ok named => if negb (ownsSlugIngress inst named) then fail errSlugRouteOwnership else continue
  | Err err => if negb (IsNotFound err) then fail err else continue
  end.

(** ** Status writes (llminstance_controller.go) *)

Definition instance_condition (inst : LLMInstance) (status reason message : string) : Condition :=
  {| cond_Type := "Ready"; cond_Status := status; cond_ObservedGeneration := Generation (inst_Meta inst);
     cond_LastTransitionTime := 0; cond_Reason := reason; cond_Message := message |}.

(** The instance with the condition, phase, endpoint and generation set at time [now]. *)
Definition with_status (inst : LLMInstance) (now : Z) (status phase endpoint reason message : string) : LLMInstance :=
  inst <| Status -> Conditions ::= fun cs => SetStatusCondition now cs (instance_condition inst status reason message) |>
       <| Status -> Phase := phase |>
       <| Status -> Endpoint := endpoint |>
       <| Status -> ObservedGeneration := Generation (inst_Meta inst) |>.

Definition updateProvisioningStatus (inst : LLMInstance) (endpoint reason message : string) : fio LLMInstance :=
  let! now := call ENow in
  call (EUpdateStatus Cached KInstance
          (with_status inst now ConditionFalse "Provisioning" endpoint reason message)).

Definition updateReadyStatus (inst : LLMInstance) (endpoint : string) : fio LLMInstance :=
  let! now := call ENow in
  call (EUpdateStatus Cached KInstance
          (with_status inst now ConditionTrue "Ready" endpoint "Provisioned" "LLM instance is ready")).

Definition rejectModelSettings (inst : LLMInstance) (message : string) : io (option error) :=
  let! now := call ENow in
  let rejected := with_status inst now ConditionFalse "Rejected" "" "ModelSettingsRejected" message in
  if bool_decide (Status inst = Status rejected) then mret None
  else let! stored := call (EUpdateStatus Cached KInstance rejected) in mret (err_of stored).

(** Withdraw the instance's own route and endpoint for an unsafe identity; any other
    error is returned untouched. *)
Definition rejectSlug (inst : LLMInstance) (cause : error) : io (option error) :=
  if negb (errors_Is cause errSlugRejection) then mret (Some cause)
  else
    let! got := call (EGet (routeReader rc) KIngress (key_of (Namespace (inst_Meta inst)) (llama_name inst))) in
    let! routeErr :=
      match got with
      | Ok ing =>
          if negb (ownsSlugIngress inst ing) then mret (Some errSlugRouteOwnership)
          else
            let! deleted := call (EDelete Cached KIngress ing
              {| pre_UID := Some (UID (ing_Meta ing)); pre_ResourceVersion := Some (ResourceVersion (ing_Meta ing)) |}) in
            mret (IgnoreNotFound deleted)
      | Err err => mret (IgnoreNotFound (Some err))
      end in
    let! stored := updateProvisioningStatus inst "" "SlugOwnershipError"
                     "Inference identity requires a valid operator policy and an exclusively owned route" in
    mret (errors_Join [Some cause; routeErr; err_of stored]).

End Routes.
