(* ===== verification/Workload.v ===== *)
(** * The hosted workload: Deployment, Service and readiness
      (internal/controller/llminstance_controller.go)

    Building the Deployment, bringing an existing one to the desired state, the
    Service, and the readiness evaluation. *)

From Stdlib Require Import Ascii.
From S2P Require Import Prelude GoStd GoError Kube KubeRef Api Io Names SlugPolicy Model SlugRoute.

Definition llamaServerImage : string :=
  "ghcr.io/ggml-org/llama.cpp@sha256:51570a4f93c5ce81ac6f2b1ea16a58771cfded2adb34241df7e75329b24fe76e".

Definition llamaLabels (instanceName : string) : gmap string string :=
  <["app.kubernetes.io/name" := "llama-cpp-server"]> {[ instanceLabelKey := instanceName ]}.

Definition no_container : Container :=
  {| c_Name := ""; c_Image := ""; c_Command := []; c_Args := []; c_Env := []; c_Ports := [];
     c_Resources := {| Requests := ∅; Limits := ∅ |}; c_ReadinessProbe := None; c_LivenessProbe := None;
     c_VolumeMounts := []; c_SecurityContext := None; c_ImagePullPolicy := "";
     c_TerminationMessagePath := ""; c_TerminationMessagePolicy := "" |}.

Definition no_podspec : PodSpec :=
  {| ps_DNSPolicy := ""; ps_InitContainers := []; ps_Containers := []; ps_Volumes := [];
     ps_RestartPolicy := ""; ps_TerminationGracePeriodSeconds := None; ps_SchedulerName := "";
     ps_ServiceAccountName := ""; ps_DeprecatedServiceAccount := "";
     ps_AutomountServiceAccountToken := None; ps_FSGroup := None |}.

Definition llamaModelVolume : Volume :=
  {| v_Name := "models-volume"; v_EmptyDir := true; v_Secret := None; v_ConfigMap := None |}.

Definition models_mount : VolumeMount :=
  {| vm_Name := "models-volume"; vm_MountPath := "/models"; vm_ReadOnly := false |}.

Definition curl_base : string :=
  "curl --fail --location --retry 10 --retry-all-errors --retry-delay 5 --retry-max-time 600 --connect-timeout 30".

(** The shell command of the init container; a pinned model is verified before and
    after the download and moved into place only when its digest matches. *)
Definition modelDownloadCommand (model : modelSelection) : string :=
  let p := path model in
  if bool_decide (ms_sha256 model = "") then
    curl_base +:+ " --continue-at - --output " +:+ p +:+ " " +:+ ms_url model
  else
    let tmp := p +:+ ".partial" in
    "if [ -f " +:+ p +:+ " ] && printf '" +:+ ms_sha256 model +:+ "  " +:+ p
    +:+ "\n' | sha256sum -c -; then exit 0; fi; rm -f " +:+ p +:+ "; (" +:+ curl_base
    +:+ " --continue-at - --output " +:+ tmp +:+ " " +:+ ms_url model +:+ " || (rm -f " +:+ tmp +:+ " && "
    +:+ curl_base +:+ " --output " +:+ tmp +:+ " " +:+ ms_url model +:+ ")) && if printf '"
    +:+ ms_sha256 model +:+ "  " +:+ tmp +:+ "\n' | sha256sum -c -; then mv " +:+ tmp +:+ " " +:+ p
    +:+ "; else rm -f " +:+ tmp +:+ "; exit 1; fi".

Definition health_probe (initialDelay period : Z) : Probe :=
  {| pr_HTTPGet := Some {| hg_Path := "/health"; hg_Port := FromInt 8000 |};
     pr_Exec := None; pr_TCPSocket := None;
     pr_InitialDelaySeconds := initialDelay; pr_PeriodSeconds := period; pr_TimeoutSeconds := 2;
     pr_SuccessThreshold := 0; pr_FailureThreshold := 6 |}.

Definition llmReadinessProbe : Probe := health_probe 0 5.
Definition llmLivenessProbe : Probe := health_probe 20 10.

Definition effectiveDNSPolicy (inst : LLMInstance) : string :=
  if bool_decide (spec_DNSPolicy (Spec inst) = "Default") then "Default" else "ClusterFirst".

Definition ensureDeploymentDNSPolicy (deploy : Deployment) (desired : string) : Deployment * bool :=
  if bool_decide (ps_DNSPolicy (pt_Spec (d_Template deploy)) = desired) then (deploy, false)
  else (deploy <| d_Template -> pt_Spec -> ps_DNSPolicy := desired |>, true).

Definition ensureDeploymentReplicas (deploy : Deployment) (desired : Z) : Deployment * bool * Z :=
  let current := default 0%Z (d_Replicas deploy) in
  if bool_decide (d_Replicas deploy = None) || negb (current =? desired)%Z
  then (deploy <| d_Replicas := Some desired |>, true, current)
  else (deploy, false, current).

(** Set the value of every MODEL_PATH variable; report a change and whether one exists. *)
Fixpoint ensure_env (modelPath : string) (env : list EnvVar) : list EnvVar * bool * bool :=
  match env with
  | [] => ([], false, false)
  | e :: env' =>
      let '(env'', updated, hasEnv) := ensure_env modelPath env' in
      if bool_decide (env_Name e = "MODEL_PATH") then
        if bool_decide (env_Value e = modelPath) then (e :: env'', updated, true)
        else (e <| env_Value := modelPath |> :: env'', true, true)
      else (e :: env'', updated, hasEnv)
  end.

(** The container's environment with the model path, appended when absent. *)
Definition ensure_model_env (modelPath : string) (c : Container) : Container * bool :=
  let '(env, updated, hasEnv) := ensure_env modelPath (c_Env c) in
  if negb hasEnv
  then (c <| c_Env := env ++ [{| env_Name := "MODEL_PATH"; env_Value := modelPath |}] |>, true)
  else (c <| c_Env := env |>, updated).

Section Workload.
  Context `{KubeLib}.

(** A resource list with an entry for each quantity that is set. *)
Definition resource_list (entries : list (string * string)) : gmap string Quantity :=
  list_to_map (omap (fun kv => if bool_decide (kv.2 = "") then None else Some (kv.1, MustParse kv.2)) entries).

Definition llamaInitContainer (model : modelSelection) : Container :=
  no_container <| c_Name := "download-model" |> <| c_Image := "curlimages/curl:8.8.0" |>
    <| c_Command := ["/bin/sh"; "-c"] |> <| c_Args := [modelDownloadCommand model] |>
    <| c_VolumeMounts := [models_mount] |>
    <| c_Resources := {| Requests := resource_list [("ephemeral-storage", ephemeralStorageRequest model)];
                         Limits := resource_list [("ephemeral-storage", ephemeralStorageLimit model)] |} |>.

Definition serverContainerArgs (model : modelSelection) (extraArgs : list string) : list string :=
  ["-m"; path model; "--port"; "8000"; "--host"; "0.0.0.0"] ++ serverArgs model ++ extraArgs.

Definition llamaServerContainer (model : modelSelection) (extraArgs : list string) : Container :=
  no_container <| c_Name := "llama-cpp-server" |> <| c_Image := llamaServerImage |>
    <| c_Command := ["/app/llama-server"] |> <| c_Args := serverContainerArgs model extraArgs |>
    <| c_Env := [{| env_Name := "MODEL_PATH"; env_Value := path model |}] |>
    <| c_Ports := [{| cp_Name := ""; cp_ContainerPort := 8000; cp_Protocol := "TCP" |}] |>
    <| c_ReadinessProbe := Some llmReadinessProbe |> <| c_LivenessProbe := Some llmLivenessProbe |>
    <| c_VolumeMounts := [models_mount] |>
    <| c_Resources := {| Requests := resource_list [("cpu", cpuRequest model); ("memory", memoryRequest model)];
                         Limits := resource_list [("cpu", cpuLimit model); ("memory", memoryLimit model)] |} |>.

Definition buildDeployment (inst : LLMInstance) (labels : gmap string string) (replicas : Z)
    (model : modelSelection) : Deployment :=
  {| d_Meta := empty_meta <| Name := llama_name inst |> <| Namespace := Namespace (inst_Meta inst) |>
                          <| Labels := labels |>;
     d_Replicas := Some replicas;
     d_Selector := labels;
     d_Strategy := "";
     d_Template := {| pt_Labels := labels; pt_Annotations := ∅;
                      pt_Spec := no_podspec <| ps_DNSPolicy := effectiveDNSPolicy inst |>
                                            <| ps_InitContainers := [llamaInitContainer model] |>
                                            <| ps_Containers := [llamaServerContainer model []] |>
                                            <| ps_Volumes := [llamaModelVolume] |> |};
     d_Status := {| ds_ObservedGeneration := 0; ds_UpdatedReplicas := 0; ds_ReadyReplicas := 0;
                    ds_AvailableReplicas := 0 |} |}.

(** The probe exists and asks the health path on the server's port. *)
Definition probe_ok (p : option Probe) : bool :=
  match p with
  | Some p => match pr_HTTPGet p with
              | Some g => bool_decide (hg_Path g = "/health") && (IntValue (hg_Port g) =? 8000)%Z
              | None => false
              end
  | None => false
  end.

Definition ensureLLMContainerProbes : Container -> Container * bool :=
  in_order
    [set_when (fun c => negb (probe_ok (c_ReadinessProbe c)))
              (fun c => c <| c_ReadinessProbe := Some llmReadinessProbe |>);
     set_when (fun c => negb (probe_ok (c_LivenessProbe c)))
              (fun c => c <| c_LivenessProbe := Some llmLivenessProbe |>)].

Definition ensure_init (model : modelSelection) (c : Container) : Container * bool :=
  let desired := llamaInitContainer model in
  if negb (bool_decide (c_Name c = "download-model")) then (c, false)
  else
    in_order
      [set_when (fun c => negb (bool_decide (c_Args c = [modelDownloadCommand model])))
                (fun c => c <| c_Args := [modelDownloadCommand model] |>);
       set_when (fun c => negb (bool_decide (c_Resources c = c_Resources desired)))
                (fun c => c <| c_Resources := c_Resources desired |>)] c.

Definition ensure_server (model : modelSelection) (extraArgs : list string) (c : Container) : Container * bool :=
  let desired := llamaServerContainer model extraArgs in
  if negb (bool_decide (c_Name c = "llama-cpp-server")) then (c, false)
  else
    in_order
      [set_when (fun c => negb (bool_decide (c_Image c = c_Image desired)))
                (fun c => c <| c_Image := c_Image desired |>);
       ensure_model_env (path model);
       set_when (fun c => negb (bool_decide (c_Args c = serverContainerArgs model extraArgs)))
                (fun c => c <| c_Args := serverContainerArgs model extraArgs |>);
       set_when (fun c => negb (bool_decide (c_Resources c = c_Resources desired)))
                (fun c => c <| c_Resources := c_Resources desired |>);
       ensureLLMContainerProbes] c.

(** Apply an in-place update to every container of a list. *)
Fixpoint ensure_all (f : Container -> Container * bool) (cs : list Container) : list Container * bool :=
  match cs with
  | [] => ([], false)
  | c :: cs' =>
      let '(c', u) := f c in
      let '(cs'', u') := ensure_all f cs' in
      (c' :: cs'', u || u')
  end.

Definition ensureDeploymentModel (deploy : Deployment) (model : modelSelection) (extraArgs : list string)
    : Deployment * bool :=
  let spec := pt_Spec (d_Template deploy) in
  let '(inits, u1) := ensure_all (ensure_init model) (ps_InitContainers spec) in
  let '(servers, u2) := ensure_all (ensure_server model extraArgs) (ps_Containers spec) in
  (deploy <| d_Template -> pt_Spec -> ps_InitContainers := inits |>
          <| d_Template -> pt_Spec -> ps_Containers := servers |>, u1 || u2).

Definition desired_replicas (inst : LLMInstance) : Z :=
  if (spec_Replicas (Spec inst) <=? 0)%Z then 1%Z else spec_Replicas (Spec inst).

(** The owned Deployment with the three updates applied, and whether any changed it. *)
Definition ensureDeployment (deploy : Deployment) (inst : LLMInstance) (model : modelSelection)
    : Deployment * bool :=
  let '(deploy, replicasChanged, _) := ensureDeploymentReplicas deploy (desired_replicas inst) in
  let '(deploy, modelChanged) := ensureDeploymentModel deploy model [] in
  let '(deploy, dnsPolicyChanged) := ensureDeploymentDNSPolicy deploy (effectiveDNSPolicy inst) in
  (deploy, replicasChanged || modelChanged || dnsPolicyChanged).

Definition instance_ref (inst : LLMInstance) : OwnerReference :=
  controller_ref LLMInstanceKind (inst_Meta inst).

Definition reconcileDeployment (inst : LLMInstance) (labels : gmap string string) (model : modelSelection)
    : fio unit :=
  let! got := call (EGet Cached KDeployment (key_of (Namespace (inst_Meta inst)) (llama_name inst))) in
  match got with
  | Err err =>
      if negb (IsNotFound err) then fail err
      else
        let deploy := buildDeployment inst labels (desired_replicas inst) model in
        match SetControllerReference (instance_ref inst) (d_Meta deploy) with
        | Err err => fail err
        | Ok m => let? _ := call (ECreate Cached KDeployment (deploy <| d_Meta := m |>)) in fret tt
        end
  | Ok existing =>
      if negb (ownsLLMResource inst (d_Meta existing)) then fail errSlugBackendOwnership
      else
        let '(deploy, changed) := ensureDeployment existing inst model in
        if negb changed then fret tt
        else let? _ := call (EUpdate Cached KDeployment deploy) in fret tt
  end.

Definition newService (inst : LLMInstance) (labels : gmap string string) (svcName : string) : Service :=
  {| svc_Meta := empty_meta <| Name := svcName |> <| Namespace := Namespace (inst_Meta inst) |>
                            <| Labels := labels |>;
     svc_Type := "";
     svc_Selector := labels;
     svc_Ports := [{| sp_Name := "http"; sp_Port := 8000; sp_TargetPort := FromInt 8000;
                      sp_Protocol := "TCP"; sp_NodePort := 0;
                      sp_AppProtocol := None |}];
     svc_LoadBalancer := [] |}.

Definition reconcileService (inst : LLMInstance) (labels : gmap string string) (svcName : string) : fio unit :=
  let! got := call (EGet Cached KService (key_of (Namespace (inst_Meta inst)) svcName)) in
  match got with
  | Err err =>
      if negb (IsNotFound err) then fail err
      else
        let service := newService inst labels svcName in
        match SetControllerReference (instance_ref inst) (svc_Meta service) with
        | Err err => fail err
        | Ok m => let? _ := call (ECreate Cached KService (service <| svc_Meta := m |>)) in fret tt
        end
  | Ok svc => if negb (ownsLLMResource inst (svc_Meta svc)) then fail errSlugBackendOwnership else fret tt
  end.

End Workload.

(** ** Readiness *)

Definition deploymentReadiness (deploy : Deployment) (deployName : string) : bool * string * string :=
  let desiredReplicas :=
    match d_Replicas deploy with Some n => if (0 <? n)%Z then n else 1%Z | None => 1%Z end in
  let st := d_Status deploy in
  let name := "Deployment " +:+ Quote deployName +:+ " " in
  let count what n := name +:+ what +:+ " replicas " +:+ Itoa n +:+ "/" +:+ Itoa desiredReplicas in
  if (ds_ObservedGeneration st <? Generation (d_Meta deploy))%Z
  then (false, "DeploymentProgressing", name +:+ "has not observed latest generation")
  else if (ds_UpdatedReplicas st <? desiredReplicas)%Z
  then (false, "DeploymentProgressing", count "updated" (ds_UpdatedReplicas st))
  else if (ds_ReadyReplicas st <? desiredReplicas)%Z
  then (false, "DeploymentNotReady", count "ready" (ds_ReadyReplicas st))
  else if (ds_AvailableReplicas st <? desiredReplicas)%Z
  then (false, "DeploymentNotAvailable", count "available" (ds_AvailableReplicas st))
  else (true, "", "").

(** A subset with an address and the expected port. *)
Definition subset_ready (expectedPort : Z) (subset : EndpointSubset) : bool :=
  negb (bool_decide (es_Addresses subset = [])) && existsb (Z.eqb expectedPort) (es_Ports subset).

Definition serviceHasReadyEndpoints (namespace serviceName : string) (expectedPort : Z) : fio (bool * string) :=
  let! got := call (EGet Cached KEndpoints (key_of namespace serviceName)) in
  match got with
  | Err err =>
      if IsNotFound err
      then fret (false, "Endpoints for Service " +:+ Quote serviceName +:+ " not found")
      else fail err
  | Ok endpoints =>
      if existsb (subset_ready expectedPort) (ep_Subsets endpoints) then fret (true, "")
      else fret (false, "Service " +:+ Quote serviceName +:+ " has no ready endpoints on port " +:+ Itoa expectedPort)
  end.

Definition serviceProbeURL (namespace serviceName : string) (port : Z) (path : string) : string :=
  "http://" +:+ serviceName +:+ "." +:+ namespace +:+ ".svc.cluster.local:" +:+ Itoa port +:+ path.

Definition status_health (statusCode : Z) : option error :=
  if (statusCode <? 200)%Z || (300 <=? statusCode)%Z
  then Some (ErrText ("unexpected status code " +:+ Itoa statusCode))
  else None.

Definition defaultServiceHealthChecker (targetURL : string) : io (option error) :=
  let! got := call (EProbe targetURL) in
  mret (match got with Err err => Some err | Ok statusCode => status_health statusCode end).

(** The operator leaves the reconciler's [ServiceHealthChecker] unset. *)
Definition runServiceHealthCheck (targetURL : string) : io (option error) :=
  defaultServiceHealthChecker targetURL.

Definition evaluateInstanceReadiness (inst : LLMInstance) (svcName : string) : fio (bool * string * string) :=
  let deployName := llama_name inst in
  let ns := Namespace (inst_Meta inst) in
  let! got := call (EGet Cached KDeployment (key_of ns deployName)) in
  match got with
  | Err err =>
      if IsNotFound err
      then fret (false, "DeploymentNotFound", "Deployment " +:+ Quote deployName +:+ " not found")
      else fail err
  | Ok deploy =>
      let '(ready, reason, message) := deploymentReadiness deploy deployName in
      if negb ready then fret (false, reason, message)
      else
        let? (endpointsReady, message) := serviceHasReadyEndpoints ns svcName 8000 in
        if negb (endpointsReady : bool) then fret (false, "ServiceEndpointsMissing", message)
        else
          let probeURL := serviceProbeURL ns svcName 8000 "/health" in
          let! probed := runServiceHealthCheck probeURL in
          match probed with
          | Some err => fret (false, "HealthCheckFailed",
              "Service probe failed for " +:+ probeURL +:+ ": " +:+ error_text err)
          | None => fret (true, "Provisioned", "LLM instance is ready")
          end
  end.
