(* ===== verification/WorkloadFacts.v ===== *)
(** * The hosted workload: convergence and readiness

    Bringing a Deployment to the desired state reaches it in one step, changes only
    what differs and recognises it afterwards; Ready needs evidence of every kind. *)

From Stdlib Require Import Ascii.
From S2P Require Import Prelude GoStd GoError Kube KubeRef Api Io Names SlugPolicy Model SlugRoute Workload.

Lemma ensure_all_converges (ok : Container -> Prop) (f : Container -> Container * bool) :
  converges ok f -> converges (Forall ok) (ensure_all f).
Proof.
  intros Hf cs. induction cs as [|c cs (H1 & H2 & H3)]; [by split_and!; [constructor | |] |].
  cbn. destruct (Hf c) as (F1 & F2 & F3). destruct (f c) as [c' u], (ensure_all f cs) as [cs' u'].
  cbn in *. split_and!.
  - by constructor.
  - intros [Hc Hcs]%Forall_cons. specialize (F2 Hc). specialize (H2 Hcs). simplify_eq. done.
  - intros [-> ->]%orb_false_iff. by rewrite F3, H3.
Qed.

Section Converge.
  Context `{KubeLaws}.

Definition init_ok (model : modelSelection) (c : Container) : Prop :=
  c_Name c = "download-model" ->
  c_Args c = [modelDownloadCommand model] /\ c_Resources c = c_Resources (llamaInitContainer model).

(** Every MODEL_PATH variable has the value, and one exists. *)
Definition env_values (p : string) (env : list EnvVar) : Prop :=
  Forall (fun e => env_Name e = "MODEL_PATH" -> env_Value e = p) env.
Definition env_names (env : list EnvVar) : Prop :=
  Exists (fun e => env_Name e = "MODEL_PATH") env.

(** The server container runs the desired image, arguments and resources, has the
    model path in its environment and both health probes. *)
Record server_state (model : modelSelection) (extraArgs : list string) (c : Container) : Prop := {
  ss_image : c_Image c = llamaServerImage;
  ss_args : c_Args c = serverContainerArgs model extraArgs;
  ss_resources : c_Resources c = c_Resources (llamaServerContainer model extraArgs);
  ss_env : env_values (path model) (c_Env c) /\ env_names (c_Env c);
  ss_ready : probe_ok (c_ReadinessProbe c) = true;
  ss_live : probe_ok (c_LivenessProbe c) = true;
}.

Definition server_ok (model : modelSelection) (extraArgs : list string) (c : Container) : Prop :=
  c_Name c = "llama-cpp-server" -> server_state model extraArgs c.

Lemma ensure_env_spec (p : string) (env : list EnvVar) :
  let '(env', u, has) := ensure_env p env in
  env_values p env' /\ (has = true <-> env_names env') /\
  (env_values p env -> env' = env /\ u = false) /\ (u = false -> env' = env).
Proof.
  unfold env_values, env_names. induction env as [|e env IH]; cbn.
  { rewrite Forall_nil, Exists_nil. naive_solver. }
  destruct (ensure_env p env) as [[env' u] has]. destruct IH as (I1 & I2 & I3 & I4).
  case_bool_decide as E1; [case_bool_decide as E2 |]; cbn;
    rewrite ?Forall_cons, ?Exists_cons; cbn; split_and!; try done; try tauto.
  all: naive_solver.
Qed.

(** Fields a sequence of updates leaves alone. *)
Ltac keeps := repeat constructor; unfold preserves, set_when; intros; repeat case_match; cbn; auto.

Lemma ensure_init_converges (model : modelSelection) : converges (init_ok model) (ensure_init model).
Proof.
  intros c. unfold init_ok, ensure_init.
  destruct (bool_decide (c_Name c = "download-model")) eqn:E; bool_props; cbn [negb]; [| by split_and!].
  set (fs := [_; _]).
  assert (Hc : converges (fun c => c_Args c = [modelDownloadCommand model] /\
                c_Resources c = c_Resources (llamaInitContainer model) /\ True) (in_order fs)).
  { repeat apply converges_cons; try apply converges_nil; try apply converges_set_when;
      intros; rewrite ?negb_false_iff, ?bool_decide_eq_true; try done; keeps. }
  destruct (Hc c) as (Q1 & Q2 & Q3). destruct Q1 as (? & ? & _).
  split_and!; [done | intros Hok | done]. destruct (Hok E). by apply Q2.
Qed.

Lemma ensure_model_env_converges (p : string) :
  converges (fun c => env_values p (c_Env c) /\ env_names (c_Env c)) (ensure_model_env p).
Proof.
  intros c. unfold ensure_model_env. pose proof (ensure_env_spec p (c_Env c)) as Henv.
  destruct (ensure_env p (c_Env c)) as [[env u] has]. destruct Henv as (V1 & V2 & V3 & V4).
  destruct has; cbn.
  - split_and!; [done | tauto | |].
    + intros [Hv _]. destruct (V3 Hv) as [-> ->]. by destruct c.
    + intros ->. rewrite V4 by done. by destruct c.
  - split_and!; [| | | done].
    + apply Forall_app; split; [done | by repeat constructor].
    + apply Exists_app. right. by constructor.
    + intros [Hv Hn]. destruct (V3 Hv) as [-> ->]. by apply V2 in Hn.
Qed.

Lemma probe_ok_health (d p : Z) : probe_ok (Some (health_probe d p)) = true.
Proof. cbn. by rewrite IntValue_int. Qed.

Lemma ensure_probes_converges :
  converges (fun c => probe_ok (c_ReadinessProbe c) = true /\ probe_ok (c_LivenessProbe c) = true /\ True)
    ensureLLMContainerProbes.
Proof.
  unfold ensureLLMContainerProbes. repeat apply converges_cons; try apply converges_nil;
    try (apply converges_set_when; intros c; [by rewrite negb_false_iff | apply probe_ok_health]); keeps.
Qed.

(** The steps after one leave the fields it set. *)
Lemma env_step_keeps {B} (field : Container -> B) (p : string) (b : B) :
  (forall c env, field (c <| c_Env := env |>) = field c) ->
  preserves (fun c => field c = b) (ensure_model_env p).
Proof.
  intros Hf c Hc. unfold ensure_model_env. destruct (ensure_env p (c_Env c)) as [[env u] [|]];
    cbn [negb fst]; by rewrite Hf.
Qed.

Lemma probes_keep (P : Container -> Prop) :
  (forall c r, P c -> P (c <| c_ReadinessProbe := r |>)) ->
  (forall c l, P c -> P (c <| c_LivenessProbe := l |>)) ->
  preserves P ensureLLMContainerProbes.
Proof.
  intros Hr Hl. unfold ensureLLMContainerProbes. apply preserves_in_order.
  repeat constructor; apply preserves_set_when; auto.
Qed.

Lemma ensure_server_converges (model : modelSelection) (extraArgs : list string) :
  converges (server_ok model extraArgs) (ensure_server model extraArgs).
Proof.
  intros c. unfold server_ok, ensure_server.
  destruct (bool_decide (c_Name c = "llama-cpp-server")) eqn:E; bool_props; cbn [negb]; [| by split_and!].
  set (fs := [_; _; _; _; _]).
  assert (Hc : converges (fun c => c_Image c = llamaServerImage /\
      (env_values (path model) (c_Env c) /\ env_names (c_Env c)) /\
      c_Args c = serverContainerArgs model extraArgs /\
      c_Resources c = c_Resources (llamaServerContainer model extraArgs) /\
      (probe_ok (c_ReadinessProbe c) = true /\ probe_ok (c_LivenessProbe c) = true /\ True) /\ True)
    (in_order fs)).
  { apply converges_cons; [| apply converges_cons; [apply ensure_model_env_converges |
      apply converges_cons; [| apply converges_cons; [| apply converges_cons;
        [apply ensure_probes_converges | apply converges_nil |] |] |] |] |];
      try (apply converges_set_when; intros; rewrite ?negb_false_iff, ?bool_decide_eq_true; done);
      repeat apply Forall_cons_2; try apply Forall_nil_2;
      first [ apply preserves_set_when; by intros
            | by apply env_step_keeps
            | by apply probes_keep; intros ]. }
  destruct (Hc c) as (Q1 & Q2 & Q3). split_and!; [| | done].
  - intros _. destruct Q1 as (? & ? & ? & ? & (? & ? & _) & _). by split.
  - intros Hok. destruct (Hok E). apply Q2. split_and!; tauto.
Qed.

(** ** The whole Deployment *)

(** The Deployment is what the instance and its model ask for. *)
Record converged (inst : LLMInstance) (model : modelSelection) (d : Deployment) : Prop := {
  cv_replicas : d_Replicas d = Some (desired_replicas inst);
  cv_dns : ps_DNSPolicy (pt_Spec (d_Template d)) = effectiveDNSPolicy inst;
  cv_inits : Forall (init_ok model) (ps_InitContainers (pt_Spec (d_Template d)));
  cv_servers : Forall (server_ok model []) (ps_Containers (pt_Spec (d_Template d)));
}.

Lemma ensureDeploymentModel_converges (model : modelSelection) (extraArgs : list string) :
  converges (fun d => Forall (init_ok model) (ps_InitContainers (pt_Spec (d_Template d))) /\
                      Forall (server_ok model extraArgs) (ps_Containers (pt_Spec (d_Template d))))
    (fun d => ensureDeploymentModel d model extraArgs).
Proof.
  intros d. unfold ensureDeploymentModel.
  pose proof (ensure_all_converges _ _ (ensure_init_converges model)
                (ps_InitContainers (pt_Spec (d_Template d)))) as (I1 & I2 & I3).
  pose proof (ensure_all_converges _ _ (ensure_server_converges model extraArgs)
                (ps_Containers (pt_Spec (d_Template d)))) as (S1 & S2 & S3).
  destruct (ensure_all (ensure_init model) _) as [inits u1].
  destruct (ensure_all (ensure_server model extraArgs) _) as [servers u2]. cbn in *.
  destruct d as [? ? ? ? [? ? []] ?]; cbn in *. split_and!; [done | done | |].
  - intros [HI HS]. specialize (I2 HI). specialize (S2 HS). by simplify_eq.
  - intros [-> ->]%orb_false_iff. by rewrite I3, S3.
Qed.

Lemma ensureDeploymentReplicas_spec (d : Deployment) (n : Z) :
  let d1 := ensureDeploymentReplicas d n in
  d_Replicas d1.1.1 = Some n /\ d_Template d1.1.1 = d_Template d /\
  (d1.1.2 = false <-> d_Replicas d = Some n) /\ (d1.1.2 = false -> d1.1.1 = d).
Proof.
  cbv zeta. unfold ensureDeploymentReplicas. destruct d as [? reps ? ? ? ?]. cbn [d_Replicas].
  destruct reps as [m|]; cbn [bool_decide]; cbn.
  - destruct (Z.eqb_spec m n) as [-> | Hn]; cbn; [by split_and! |].
    split_and!; try done. split; [done | by intros [= ->]].
  - by split_and!.
Qed.

Lemma ensure_converges (inst : LLMInstance) (model : modelSelection) :
  converges (converged inst model) (fun d => ensureDeployment d inst model).
Proof.
  intros d. unfold ensureDeployment, ensureDeploymentDNSPolicy.
  destruct (ensureDeploymentReplicas_spec d (desired_replicas inst)) as (R1 & R2 & R3 & R4).
  destruct (ensureDeploymentReplicas d (desired_replicas inst)) as [[e u1] n]. cbn [fst snd] in *.
  pose proof (ensureDeploymentModel_converges model [] e) as (M1 & M2 & M3).
  assert (MR : d_Replicas (ensureDeploymentModel e model []).1 = d_Replicas e).
  { unfold ensureDeploymentModel. by destruct (ensure_all _ _), (ensure_all _ _). }
  assert (MD : ps_DNSPolicy (pt_Spec (d_Template (ensureDeploymentModel e model []).1)) =
               ps_DNSPolicy (pt_Spec (d_Template e))).
  { unfold ensureDeploymentModel. by destruct (ensure_all _ _), (ensure_all _ _). }
  destruct (ensureDeploymentModel e model []) as [f u2]. cbn [fst snd] in *.
  case_bool_decide as Edns; cbn [fst snd].
  - split_and!.
    + split; [congruence | done | apply M1 | apply M1].
    + intros [C1 C2 C3 C4]. rewrite <-R2 in C3, C4. specialize (M2 (conj C3 C4)). simplify_eq.
      rewrite (proj2 R3 C1). by rewrite R4 by by apply R3.
    + rewrite orb_false_r. intros [Hu1 Hu2]%orb_false_iff. rewrite M3, R4; done.
  - split_and!.
    + destruct f as [? ? ? ? [? ? []] ?]; cbn in *. split; cbn; [congruence | done | apply M1 | apply M1].
    + intros [C1 C2 C3 C4]. rewrite MD, R2 in Edns. done.
    + by rewrite orb_true_r.
Qed.

Lemma ensure_result (d : Deployment) (inst : LLMInstance) (model : modelSelection) :
  let '(d', changed) := ensureDeployment d inst model in
  converged inst model d' /\ ensureDeployment d' inst model = (d', false) /\
  (changed = false <-> converged inst model d) /\ (changed = false -> d' = d).
Proof.
  pose proof (ensure_converges inst model) as C.
  pose proof (converges_idempotent _ _ d C) as [H1 H2]. destruct (C d) as (H3 & _ & H4).
  destruct (ensureDeployment d inst model) as [d' changed]. by split_and!.
Qed.

Lemma build_converged (inst : LLMInstance) (labels : gmap string string) (model : modelSelection) :
  converged inst model (buildDeployment inst labels (desired_replicas inst) model).
Proof. split; [done | done | |]; repeat constructor; try done; try apply probe_ok_health. Qed.

(** C36: bringing a Deployment to the desired state reaches it in one step, whatever its
    state: replicas, DNS policy, download command and resources, and the image,
    arguments, environment, resources and probes of the server.  A second step changes
    nothing, and an update is reported exactly when the Deployment was not converged. *)
Theorem ensureDeployment_converges (d : Deployment) (inst : LLMInstance) (model : modelSelection) :
  let '(d', changed) := ensureDeployment d inst model in
  converged inst model d' /\ ensureDeployment d' inst model = (d', false) /\
  (changed = false <-> converged inst model d) /\ (changed = false -> d' = d).
Proof. apply ensure_result. Qed.

(** The Deployment the operator creates is already converged, so the reconcile that
    follows its creation does not update it. *)
Theorem buildDeployment_converged (inst : LLMInstance) (labels : gmap string string) (model : modelSelection) :
  let d := buildDeployment inst labels (desired_replicas inst) model in
  converged inst model d /\ ensureDeployment d inst model = (d, false).
Proof.
  cbv zeta. split; [apply build_converged |].
  pose proof (ensure_result (buildDeployment inst labels (desired_replicas inst) model) inst model) as H1.
  destruct (ensureDeployment _ inst model) as [d' changed]. destruct H1 as (_ & _ & H2 & H3).
  assert (changed = false) as -> by apply H2, build_converged. by rewrite H3.
Qed.

End Converge.

(** A Deployment that was scaled by hand. *)
Definition scaled : Deployment :=
  buildDeployment (H := ref_lib) ModelExample.inst (llamaLabels "example") 3 (resolveModel "phi-2").

Lemma ensureDeployment_converges_witness :
  converged ModelExample.inst (resolveModel "phi-2") (ensureDeployment (H := ref_lib) scaled ModelExample.inst (resolveModel "phi-2")).1.
Proof.
  pose proof (ensureDeployment_converges (H := ref_lib) (H0 := ref_laws) scaled ModelExample.inst (resolveModel "phi-2")) as C.
  destruct (ensureDeployment scaled ModelExample.inst (resolveModel "phi-2")) as [d changed]. exact (proj1 C).
Defined.

Lemma buildDeployment_converged_witness :
  converged (H := ref_lib) ModelExample.inst (resolveModel "")
    (buildDeployment ModelExample.inst (llamaLabels "example") (desired_replicas ModelExample.inst) (resolveModel "")).
Proof.
  exact (proj1 (buildDeployment_converged (H := ref_lib) (H0 := ref_laws) ModelExample.inst (llamaLabels "example") (resolveModel ""))).
Defined.

(** ** Readiness *)

(** Enough replicas of the current generation are updated, ready and available. *)
Definition deployment_available (d : Deployment) : Prop :=
  let n := Z.max 1 (default 1%Z (d_Replicas d)) in
  (Generation (d_Meta d) <= ds_ObservedGeneration (d_Status d) /\
   n <= ds_UpdatedReplicas (d_Status d) /\ n <= ds_ReadyReplicas (d_Status d) /\
   n <= ds_AvailableReplicas (d_Status d))%Z.

Lemma deploymentReadiness_spec (d : Deployment) (name : string) :
  (deploymentReadiness d name).1.1 = true <-> deployment_available d.
Proof.
  unfold deploymentReadiness, deployment_available.
  assert (En : match d_Replicas d with Some n => if (0 <? n)%Z then n else 1%Z | None => 1%Z end =
               Z.max 1 (default 1%Z (d_Replicas d))).
  { destruct (d_Replicas d) as [n|]; cbn; [destruct (Z.ltb_spec 0 n) |]; lia. }
  rewrite En. set (n := Z.max 1 _).
  destruct (Z.ltb_spec (ds_ObservedGeneration (d_Status d)) (Generation (d_Meta d)));
    [cbn; split; [done | lia] |].
  destruct (Z.ltb_spec (ds_UpdatedReplicas (d_Status d)) n); [cbn; split; [done | lia] |].
  destruct (Z.ltb_spec (ds_ReadyReplicas (d_Status d)) n); [cbn; split; [done | lia] |].
  destruct (Z.ltb_spec (ds_AvailableReplicas (d_Status d)) n); cbn; split; try done; lia.
Qed.

Lemma status_health_none (status : Z) : status_health status = None <-> (200 <= status < 300)%Z.
Proof. unfold status_health. destruct (_ || _) eqn:E; split; try done; bool_props; lia. Qed.

(** What was observed when an instance is reported ready. *)
Definition ready_evidence (h : history) (inst : LLMInstance) (svcName : string) : Prop :=
  let ns := Namespace (inst_Meta inst) in
  exists deploy endpoints subset,
    saw h (EGet Cached KDeployment (key_of ns (llama_name inst))) (Ok deploy) /\
    deployment_available deploy /\
    saw h (EGet Cached KEndpoints (key_of ns svcName)) (Ok endpoints) /\
    subset ∈ ep_Subsets endpoints /\ es_Addresses subset <> [] /\ (8000%Z ∈ es_Ports subset) /\
    exists status, saw h (EProbe (serviceProbeURL ns svcName 8000 "/health")) (Ok status) /\ (200 <= status < 300)%Z.

Lemma readiness_safe (P : history -> event -> Prop) (h : history) (inst : LLMInstance) (svcName : string) :
  (forall h e, read_only e -> P h e) ->
  safe (recording P) h (evaluateInstanceReadiness inst svcName)
    (fun h r => match r with
                | Ok (true, _, _) => ready_evidence h inst svcName
                | _ => True
                end).
Proof.
  intros HP.
  unfold evaluateInstanceReadiness. on_call got; [by apply HP |].
  destruct got as [deploy | err]; [| by destruct (IsNotFound err)].
  destruct (deploymentReadiness deploy (llama_name inst)) as [[ready reason] message] eqn:Er.
  destruct ready; cbn [negb]; [| done].
  assert (Hd : deployment_available deploy) by (apply (deploymentReadiness_spec _ (llama_name inst)); by rewrite Er).
  unfold serviceHasReadyEndpoints. apply safe_fbind. on_call got; [by apply HP |].
  destruct got as [endpoints | err]; cbn [safe fret fail]; [| by destruct (IsNotFound err)].
  destruct (existsb (subset_ready 8000) (ep_Subsets endpoints)) eqn:Es; cbn [safe fret negb]; [| done].
  on_call probed; [by apply HP |]. destruct probed as [status | err]; cbn [mret io_ret mbind io_bind]; [| done].
  destruct (status_health status) eqn:Ep; [done |]. apply status_health_none in Ep.
  apply existsb_exists in Es as (subset & Hin & Hs). unfold subset_ready in Hs.
  apply andb_true_iff in Hs as [Ha Hp]. bool_props. apply existsb_exists in Hp as (p & Hp & <-%Z.eqb_eq).
  exists deploy, endpoints, subset. split_and!; try done; try (by apply list_elem_of_In); eauto with go.
Qed.

(** An instance is evaluated as ready only after its Deployment was seen with enough
    updated, ready and available replicas of the current generation, its Service with an
    address on the server's port, and the health probe of that Service answered a 2xx status; the
    evaluation writes nothing. *)
Theorem readiness_sound (inst : LLMInstance) (svcName : string) :
  safe (recording (fun _ e => read_only e)) [] (evaluateInstanceReadiness inst svcName)
    (fun h r => match r with
                | Ok (true, _, _) => ready_evidence h inst svcName
                | _ => True
                end).
Proof.
  by apply (readiness_safe (fun _ e => read_only e)).
Qed.
