(* ===== verification/Routing.v ===== *)
(** * The hosted route: middlewares and Ingress
      (internal/controller/llminstance_controller.go)

    The strip and forwardAuth middlewares, the Ingress that joins them, and the part
    of a reconcile that runs for a hosted instance once its slug is established. *)

From Stdlib Require Import Ascii.
From S2P Require Import Prelude GoStd GoError Kube KubeRef Api Io Names SlugPolicy Model SlugRoute Workload.

Definition provisioningRequeueAfter : Z := 5.

Definition stripMiddlewareName (svcName : string) : string := svcName +:+ "-strip".
Definition authMiddlewareName (svcName : string) : string := svcName +:+ "-auth".

Definition desiredMiddlewareAnnotation (namespace svcName : string) : string :=
  namespace +:+ "-" +:+ authMiddlewareName svcName +:+ "@kubernetescrd," +:+ namespace +:+ "-"
  +:+ stripMiddlewareName svcName +:+ "@kubernetescrd".

(** The Traefik resource is not installed in the cluster. *)
Definition no_middleware_kind (err : error) : bool :=
  IsNoMatchError err
  || Contains (error_text err) ("no matches for kind " +:+ dquote +:+ "Middleware" +:+ dquote).

Definition foreign_shape (what : string) : error :=
  ErrWrapf (sentinel_text errSlugRejection +:+ ": invalid " +:+ what +:+ " middleware")
    [ErrSentinel errSlugRejection].

(** [unstructured.SetNested*] at a path: refused below a value of another shape. *)
Definition set_nested {A} (current : nested A) (new : A) : option (nested A) :=
  match current with
  | NotSet | Present _ => Some (Present new)
  | NullParent | Malformed => None
  end.

(** The binding of one instance, as the query of the verification URL. *)
Definition binding_query (inst : LLMInstance) (slug : string) : list (string * string) :=
  [("instance", Name (inst_Meta inst)); ("namespace", Namespace (inst_Meta inst)); ("slug", slug);
   ("uid", UID (inst_Meta inst))].

Definition authAddress (r : LLMInstanceReconciler) (inst : LLMInstance) (slug : string) : string :=
  TrimRightByte (AuthServiceURL r) "/" +:+ "/auth/verify?" +:+ encode_query (binding_query inst slug).

(** Unrelated options stay, the binding is enforced. *)
Definition desired_forwardAuth (authAddr : string) (current : gmap string jvalue) : gmap string jvalue :=
  <["authResponseHeaders" := JEmptyList]>
    (<["trustForwardHeader" := JBool false]> (<["address" := JString authAddr]> current)).

Definition entrypoints_key : string := "traefik.ingress.kubernetes.io/router.entrypoints".
Definition middlewares_key : string := "traefik.ingress.kubernetes.io/router.middlewares".
Definition tls_key : string := "traefik.ingress.kubernetes.io/router.tls".
Definition pathmatcher_key : string := "traefik.ingress.kubernetes.io/router.pathmatcher".

(** Set an annotation, or drop it, reporting a change. *)
Definition ensure_annotation (key value : string) : Ingress -> Ingress * bool :=
  set_when (fun ing => negb (bool_decide (mget (Annotations (ing_Meta ing)) key = value)))
           (fun ing => ing <| ing_Meta -> Annotations ::= fun m => <[key := value]> m |>).

Definition drop_annotation (key : string) : Ingress -> Ingress * bool :=
  set_when (fun ing => negb (bool_decide (Annotations (ing_Meta ing) !! key = None)))
           (fun ing => ing <| ing_Meta -> Annotations ::= fun m => delete key m |>).

Definition ensureIngressAnnotations (desiredMiddleware desiredEntry : string) (isHTTPS : bool)
    : Ingress -> Ingress * bool :=
  in_order
    [ensure_annotation middlewares_key desiredMiddleware;
     ensure_annotation entrypoints_key desiredEntry;
     if isHTTPS then ensure_annotation tls_key byocBootstrapTrue else drop_annotation tls_key].

Definition desiredIngressEntryPoints (isHTTPS : bool) : string :=
  if isHTTPS then "websecure,web" else "web".

Definition ensureIngressClass : Ingress -> Ingress * bool :=
  set_when (fun ing => negb (bool_decide (ing_ClassName ing = Some "traefik")))
           (fun ing => ing <| ing_ClassName := Some "traefik" |>).

Section Routing.
  Context `{KubeLib}.
  Variable rc : LLMInstanceReconciler.

Definition isHTTPS : bool := EqualFold (PublicScheme rc) "https".

(** The order of the map's keys does not matter: each key is written once. *)
Definition applyExtraIngressAnnotations (override : bool) (ing : Ingress) : Ingress * bool :=
  let extra := ExtraIngressAnnotations rc in
  let changes kv := override || negb (bool_decide (Annotations (ing_Meta ing) !! (kv : string * string).1 = Some kv.2)) in
  (ing <| ing_Meta -> Annotations ::= fun m => extra ∪ m |>, existsb changes (map_to_list extra)).

Definition ensureIngressHTTPRule (pathPrefix svcName : string) (ing : Ingress) : Ingress * bool :=
  let desired := slugIngressRules rc pathPrefix svcName in
  let changed := negb (bool_decide (ing_Rules ing = desired))
                 || negb (bool_decide (ing_DefaultBackend ing = None)) in
  let ing := ing <| ing_Rules := desired |> <| ing_DefaultBackend := None |> in
  let '(ing, dropped) := drop_annotation pathmatcher_key ing in
  (ing, changed || dropped).

Definition ensureIngressTLS (https : bool) (ing : Ingress) : Ingress * bool :=
  let desiredTLS := TrimSpace (TLSSecretName rc) in
  if negb https || bool_decide (desiredTLS = "") then (ing, false)
  else
    let ok := match ing_TLS ing with
              | t :: _ => bool_decide (tls_SecretName t = desiredTLS)
                          && bool_decide (head (tls_Hosts t) = Some (PublicHost rc))
              | [] => false
              end in
    if ok then (ing, false)
    else (ing <| ing_TLS := [{| tls_Hosts := [PublicHost rc]; tls_SecretName := desiredTLS |}] |>, true).

Definition buildDesiredIngress (inst : LLMInstance) (labels : gmap string string) (svcName pathPrefix : string)
    : Ingress :=
  let backend := {| be_Service := Some {| sb_Name := svcName; sb_Port := 8000 |} |} in
  let desiredTLS := TrimSpace (TLSSecretName rc) in
  let ingress :=
    {| ing_Meta := empty_meta <| Name := svcName |> <| Namespace := Namespace (inst_Meta inst) |>
         <| Labels := labels |>
         <| Annotations := <[entrypoints_key := desiredIngressEntryPoints isHTTPS]>
              {[ middlewares_key := desiredMiddlewareAnnotation (Namespace (inst_Meta inst)) svcName ]} |>;
       ing_ClassName := Some "traefik";
       ing_DefaultBackend := None;
       ing_Rules := [{| rule_Host := PublicHost rc;
                        rule_HTTP := Some [{| hp_Path := pathPrefix; hp_PathType := Some "Prefix";
                                              hp_Backend := backend |}] |}];
       ing_TLS := if negb isHTTPS || bool_decide (desiredTLS = "") then []
                  else [{| tls_Hosts := [PublicHost rc]; tls_SecretName := desiredTLS |}] |} in
  let '(ingress, _) := applyExtraIngressAnnotations false ingress in
  let '(ingress, _) := ensureIngressHTTPRule pathPrefix svcName ingress in
  ingress.

(** The updates of an existing Ingress, in the order of the code. *)
Definition ensureIngress (inst : LLMInstance) (svcName pathPrefix : string) : Ingress -> Ingress * bool :=
  in_order
    [ensureIngressAnnotations (desiredMiddlewareAnnotation (Namespace (inst_Meta inst)) svcName)
       (desiredIngressEntryPoints isHTTPS) isHTTPS;
     applyExtraIngressAnnotations true;
     ensureIngressClass;
     ensureIngressHTTPRule pathPrefix svcName;
     ensureIngressTLS isHTTPS].

Definition reconcileIngress (inst : LLMInstance) (labels : gmap string string) (svcName pathPrefix : string)
    : fio unit :=
  let? _ := checkSlugRoute rc inst (TrimPrefix pathPrefix "/llm/") in
  let! got := call (EGet Cached KIngress (key_of (Namespace (inst_Meta inst)) svcName)) in
  match got with
  | Err err =>
      if negb (IsNotFound err) then fail err
      else
        let newIngress := buildDesiredIngress inst labels svcName pathPrefix in
        match SetControllerReference (instance_ref inst) (ing_Meta newIngress) with
        | Err err => fail err
        | Ok m => let? _ := call (ECreate Cached KIngress (newIngress <| ing_Meta := m |>)) in fret tt
        end
  | Ok ing =>
      if negb (ownsSlugIngress inst ing) then fail errSlugRouteOwnership
      else
        let '(ing, updated) := ensureIngress inst svcName pathPrefix ing in
        if negb updated then fret tt
        else let? _ := call (EUpdate Cached KIngress ing) in fret tt
  end.

Definition reconcileStripMiddleware (inst : LLMInstance) (labels : gmap string string)
    (svcName pathPrefix : string) : fio unit :=
  let mwName := stripMiddlewareName svcName in
  let! got := call (EGet Cached KMiddleware (key_of (Namespace (inst_Meta inst)) mwName)) in
  match got with
  | Err err =>
      if no_middleware_kind err then fret tt
      else if negb (IsNotFound err) then fail err
      else
        let newMW := {| mw_Meta := empty_meta <| Name := mwName |> <| Namespace := Namespace (inst_Meta inst) |>
                                              <| Labels := labels |>;
                        mw_Prefixes := Present [pathPrefix]; mw_ForwardAuth := NotSet |} in
        match SetControllerReference (instance_ref inst) (mw_Meta newMW) with
        | Err err => fail err
        | Ok m => let? _ := call (ECreate Cached KMiddleware (newMW <| mw_Meta := m |>)) in fret tt
        end
  | Ok mw =>
      if negb (ownsLLMResource inst (mw_Meta mw))
      then fail (slug_rejection "refusing to update foreign strip middleware")
      else
        match mw_Prefixes mw with
        | Malformed => fail (foreign_shape "strip")
        | current =>
            if match current with Present p => bool_decide (p = [pathPrefix]) | _ => false end then fret tt
            else
              match set_nested current [pathPrefix] with
              | None => fail (foreign_shape "strip")
              | Some p => let? _ := call (EUpdate Cached KMiddleware (mw <| mw_Prefixes := p |>)) in fret tt
              end
        end
  end.

Definition reconcileAuthMiddleware (inst : LLMInstance) (labels : gmap string string)
    (svcName slug : string) (createIfMissing : bool) : fio unit :=
  if bool_decide (UID (inst_Meta inst) = "")
  then fail (slug_rejection "cannot bind forwardAuth to an instance without a UID")
  else
    let authAddr := authAddress rc inst slug in
    let key := key_of (Namespace (inst_Meta inst)) (authMiddlewareName svcName) in
    let! got := call (EGet Cached KMiddleware key) in
    match got with
    | Err err =>
        if no_middleware_kind err then fret tt
        else if negb (IsNotFound err) then fail err
        else if negb createIfMissing then fret tt
        else
          let mw := empty_middleware <| mw_Meta := empty_meta <| Name := key_Name key |>
                      <| Namespace := key_Namespace key |> <| Labels := labels |> |> in
          match SetControllerReference (instance_ref inst) (mw_Meta mw) with
          | Err err => fail err
          | Ok m =>
              let? _ := call (ECreate Cached KMiddleware
                (mw <| mw_Meta := m |> <| mw_ForwardAuth := Present (desired_forwardAuth authAddr ∅) |>)) in
              fret tt
          end
    | Ok mw =>
        if negb (ownsLLMResource inst (mw_Meta mw))
        then fail (slug_rejection ("refusing to update forwardAuth middleware " +:+ key_Namespace key +:+ "/"
                     +:+ key_Name key +:+ ": not owned by this LLMInstance"))
        else
          match mw_ForwardAuth mw with
          | Malformed => fail (foreign_shape "forwardAuth")
          | found =>
              let current := match found with Present m => m | _ => ∅ end in
              let desired := desired_forwardAuth authAddr current in
              if bool_decide (current = desired) then fret tt
              else
                match set_nested found desired with
                | None => fail (foreign_shape "forwardAuth")
                | Some f => let? _ := call (EUpdate Cached KMiddleware (mw <| mw_ForwardAuth := f |>)) in fret tt
                end
          end
    end.

Definition reconcileForwardAuthMiddleware (inst : LLMInstance) (labels : gmap string string)
    (svcName slug : string) : fio unit :=
  reconcileAuthMiddleware inst labels svcName slug true.

Definition upgradeExistingAuthMiddleware (inst : LLMInstance) : fio unit :=
  if IsBYOC inst then fret tt
  else
    match selectSlug rc inst with
    | Err err => fail err
    | Ok selection =>
        reconcileAuthMiddleware inst (llamaLabels (Name (inst_Meta inst))) (llama_name inst)
          (sel_Slug selection) false
    end.

Definition instanceEndpoint (slug : string) : string :=
  let scheme := if bool_decide (PublicScheme rc = "") then "http" else PublicScheme rc in
  if bool_decide (TrimSpace (PublicHost rc) = "") || bool_decide (TrimSpace slug = "") then ""
  else scheme +:+ "://" +:+ PublicHost rc +:+ "/llm/" +:+ slug.

(** Run a step; reject the slug when it fails. *)
Definition or_reject (inst : LLMInstance) (step : fio unit) (k : io (Result * option error))
    : io (Result * option error) :=
  let! done := step in
  match done with
  | Err err => let! rejected := rejectSlug rc inst err in mret (no_result, rejected)
  | Ok _ => k
  end.

(** The hosted part of [Reconcile], from the settled slug to the status. *)
Definition reconcileHosted (inst : LLMInstance) (slug : string) (model : modelSelection)
    : io (Result * option error) :=
  let inst := inst <| Status -> ActiveBYOCKubeconfigSecretName := "" |> in
  let labels := llamaLabels (Name (inst_Meta inst)) in
  or_reject inst (reconcileDeployment inst labels model) (
  let svcName := llama_name inst in
  or_reject inst (reconcileService inst labels svcName) (
  let pathPrefix := "/llm/" +:+ slug in
  or_reject inst (reconcileStripMiddleware inst labels svcName pathPrefix) (
  or_reject inst (reconcileForwardAuthMiddleware inst labels svcName slug) (
  or_reject inst (reconcileIngress inst labels svcName pathPrefix) (
  let! evaluated := evaluateInstanceReadiness inst svcName in
  match evaluated with
  | Err err => mret (no_result, Some err)
  | Ok (ready, reason, message) =>
      if negb (ready : bool) then
        let! stored := updateProvisioningStatus inst (instanceEndpoint slug) reason message in
        match stored with
        | Err err => mret (no_result, Some err)
        | Ok _ => mret (requeue_after provisioningRequeueAfter, None)
        end
      else
        let! stored := updateReadyStatus inst (instanceEndpoint slug) in
        match stored with
        | Err err => mret (no_result, Some err)
        | Ok _ => mret (requeue_after 30, None)
        end
  end))))).

End Routing.
