(* ===== verification/Cluster.v ===== *)
(** * A working API server

    What the theorems about progress rely on: an API server that stores what it accepts
    and answers with what it stores.  It may give identities, versions and further labels
    to objects and fill in fields nobody set; an update must come with the version that is stored, a
    status is written apart from the rest, and an object under deletion goes with its last
    finalizer.  [Listed] is an executable one. *)

From S2P Require Import Prelude GoStd GoError Kube KubeRef Api Io Names SlugPolicy Model SlugRoute Workload WorkloadFacts Routing.

(** ** What a server keeps of an object *)

(** Everything of the metadata but what the server sets, and the labels. *)
Definition meta_content (m : ObjectMeta) : ObjectMeta :=
  m <| UID := "" |> <| ResourceVersion := "" |> <| Generation := 0%Z |> <| CreationTimestamp := 0%Z |> <| Labels := ∅ |>.

(** Labels may be added on the way, none is lost. *)
Definition meta_kept (m m' : ObjectMeta) : Prop := meta_content m' = meta_content m /\ Labels m ⊆ Labels m'.

(** The fields of a container the operator sets; a probe keeps what it asks for. *)
Definition container_content (c : Container) :=
  (c_Name c, c_Image c, c_Args c, c_Env c, c_Resources c,
   pr_HTTPGet <$> c_ReadinessProbe c, pr_HTTPGet <$> c_LivenessProbe c).

Definition deployment_content (d : Deployment) :=
  (d_Replicas d, ps_DNSPolicy (pt_Spec (d_Template d)),
   container_content <$> ps_InitContainers (pt_Spec (d_Template d)),
   container_content <$> ps_Containers (pt_Spec (d_Template d))).

(** The object [o'] is stored for the created or updated object [o]. *)
Definition stored_as (K : kind) : obj K -> obj K -> Prop :=
  match K with
  | KInstance => fun o o' => exists rv ls, Labels (inst_Meta o) ⊆ ls /\
      o' = o <| inst_Meta -> ResourceVersion := rv |> <| inst_Meta -> Labels := ls |>
  | KTokenRequest => fun o o' => exists rv ls, Labels (tr_Meta o) ⊆ ls /\
      o' = o <| tr_Meta -> ResourceVersion := rv |> <| tr_Meta -> Labels := ls |>
  | KSecret => fun o o' =>
      meta_kept (sec_Meta o) (sec_Meta o') /\ sec_Type o' = sec_Type o /\
      sec_Data o' = sec_StringData o ∪ sec_Data o /\ sec_StringData o' = ∅
  | KIngress => fun o o' =>
      meta_kept (ing_Meta o) (ing_Meta o') /\ o' = o <| ing_Meta := ing_Meta o' |>
  | KMiddleware => fun o o' =>
      meta_kept (mw_Meta o) (mw_Meta o') /\ o' = o <| mw_Meta := mw_Meta o' |>
  | KDeployment => fun o o' =>
      meta_kept (d_Meta o) (d_Meta o') /\ deployment_content o' = deployment_content o
  | K => fun o o' => meta_kept (meta_of K o) (meta_of K o')
  end.

(** The labels and the namespace a list asks for. *)
Definition listed (namespace : option string) (labels : list (string * string)) (m : ObjectMeta) : bool :=
  match namespace with Some ns => bool_decide (Namespace m = ns) | None => true end
  && forallb (fun kv => bool_decide (Labels m !! kv.1 = Some kv.2)) labels.

(** What may be written apart from the status: its own part of the object. *)
Definition same_status (K : kind) : obj K -> obj K -> Prop :=
  match K with
  | KInstance => fun o o' => Status o = Status o'
  | KTokenRequest => fun o o' => tr_Status o = tr_Status o'
  | _ => fun _ _ => True
  end.

Definition same_but_status (K : kind) : obj K -> obj K -> Prop :=
  match K with
  | KInstance => fun o o' => inst_Meta o = inst_Meta o' /\ Spec o = Spec o'
  | KTokenRequest => fun o o' => tr_Meta o = tr_Meta o' /\ tr_Spec o = tr_Spec o'
  | _ => fun _ _ => False
  end.

(** The update does not take the last finalizer of an object under deletion. *)
Definition stays (K : kind) (o old : obj K) : Prop :=
  time_IsZero (DeletionTimestamp (meta_of K o)) = true \/
  Finalizers (meta_of K o) = Finalizers (meta_of K old) \/ Finalizers (meta_of K o) <> [].

(** The object is the one the caller saw. *)
Definition as_seen (pre : Preconditions) (m : ObjectMeta) : Prop :=
  from_option (fun uid => uid = UID m) True (pre_UID pre) /\
  from_option (fun rv => rv = ResourceVersion m) True (pre_ResourceVersion pre).

Definition key_of_obj (K : kind) (o : obj K) : ObjectKey := ObjectKeyFromObject (meta_of K o).

(** The operator's own API server, cached or not. *)
Definition in_cluster (c : client) : bool := match c with Remote _ => false | _ => true end.

Section Server.
  Context {S : Type}.
  Variable find : S -> forall K : kind, ObjectKey -> option (obj K).

(** Nothing but the object under one key differs. *)
Definition only_at (K : kind) (key : ObjectKey) (s s' : S) : Prop :=
  forall K' key', (K', key') <> (K, key) -> find s' K' key' = find s K' key'.

(** There is nothing under the key any more. *)
Definition gone (K : kind) (key : ObjectKey) (s s' : S) : Prop := find s' K key = None /\ only_at K key s s'.

(** The server answered with what it stored for [o]. *)
Definition accepted (K : kind) (o : obj K) (s s' : S) (r : res (obj K)) : Prop :=
  exists o', r = Ok o' /\ stored_as K o o' /\ find s' K (key_of_obj K o) = Some o' /\
             only_at K (key_of_obj K o) s s'.
End Server.

(** The server [E] with the objects [find] finds in its states. *)
Class ApiServer `{KubeLib} {S : Type} (E : env S) (find : S -> forall K : kind, ObjectKey -> option (obj K)) : Prop := {
  find_key s K key o : find s K key = Some o -> key_of_obj K o = key;
  read_keeps e s : read_only e -> (E e s).1 = s;
  get_found s c K key o : in_cluster c = true -> find s K key = Some o -> answers E s (EGet c K key) = Ok o;
  get_missing s c K key : in_cluster c = true -> find s K key = None ->
    exists err, answers E s (EGet c K key) = Err err /\ IsNotFound err = true /\ no_middleware_kind err = false;
  list_found s c K namespace labels : in_cluster c = true ->
    exists l, answers E s (EList c K namespace labels) = Ok l /\
      forall o, o ∈ l <-> find s K (key_of_obj K o) = Some o /\ listed namespace labels (meta_of K o) = true;
  create_accepted s K o : find s K (key_of_obj K o) = None ->
    accepted find K o s (E (ECreate Cached K o) s).1 (E (ECreate Cached K o) s).2;
  update_accepted s K o old : find s K (key_of_obj K o) = Some old ->
    ResourceVersion (meta_of K o) = ResourceVersion (meta_of K old) -> same_status K o old -> stays K o old ->
    accepted find K o s (E (EUpdate Cached K o) s).1 (E (EUpdate Cached K o) s).2;
  update_releases s K o old : find s K (key_of_obj K o) = Some old ->
    ResourceVersion (meta_of K o) = ResourceVersion (meta_of K old) -> same_status K o old ->
    time_IsZero (DeletionTimestamp (meta_of K o)) = false -> Finalizers (meta_of K o) = [] -> Finalizers (meta_of K old) <> [] ->
    is_ok (E (EUpdate Cached K o) s).2 = true /\ gone find K (key_of_obj K o) s (E (EUpdate Cached K o) s).1;
  update_status_accepted s K o old : find s K (key_of_obj K o) = Some old -> same_but_status K o old ->
    accepted find K o s (E (EUpdateStatus Cached K o) s).1 (E (EUpdateStatus Cached K o) s).2;
  patch_status_accepted s K o old : find s K (key_of_obj K o) = Some old -> same_but_status K o old ->
    accepted find K o s (E (EPatchStatus Cached K old o) s).1 (E (EPatchStatus Cached K old o) s).2;
  delete_done s K o pre :
    (forall old, find s K (key_of_obj K o) = Some old -> as_seen pre (meta_of K old) /\ Finalizers (meta_of K old) = []) ->
    gone find K (key_of_obj K o) s (E (EDelete Cached K o pre) s).1;
}.

(** ** What storing an object leaves as it is *)

Lemma meta_kept_fields (m m' : ObjectMeta) :
  meta_kept m m' ->
  Name m' = Name m /\ Namespace m' = Namespace m /\ Labels m ⊆ Labels m' /\ Annotations m' = Annotations m /\
  OwnerReferences m' = OwnerReferences m /\ DeletionTimestamp m' = DeletionTimestamp m.
Proof. destruct m, m'. cbn. intros [[= -> -> -> -> -> ->] Hl]. done. Qed.

(** What a label says stays, if it is there. *)
Lemma mget_kept (m m' : gmap string string) k : m ⊆ m' -> is_Some (m !! k) -> mget m' k = mget m k /\ is_Some (m' !! k).
Proof. intros Hs [v Hv]. pose proof (lookup_weaken _ _ _ _ Hv Hs) as Hv'. unfold mget. rewrite Hv, Hv'. split; [done | by exists v]. Qed.

Lemma stored_meta (K : kind) (o o' : obj K) :
  stored_as K o o' -> meta_kept (meta_of K o) (meta_of K o').
Proof.
  destruct K; cbn; try tauto; intros (rv & ls & Hl & ->); (split; [by destruct o as [[] ? ?] | exact Hl]).
Qed.

Lemma key_content (K : kind) (o o' : obj K) : stored_as K o o' -> key_of_obj K o' = key_of_obj K o.
Proof.
  intros (E1 & E2 & _)%stored_meta%meta_kept_fields. unfold key_of_obj, ObjectKeyFromObject. by rewrite E1, E2.
Qed.

Lemma owns_content `{KubeLib} (inst : LLMInstance) (m m' : ObjectMeta) :
  meta_kept m m' -> ownsLLMResource inst m' = ownsLLMResource inst m.
Proof. intros (_ & E2 & _ & _ & E5 & _)%meta_kept_fields. unfold ownsLLMResource. by rewrite E2, E5. Qed.

Lemma Forall_content {A B} (f : A -> B) (P : A -> Prop) (l l' : list A) :
  (forall a b, f a = f b -> P a -> P b) -> f <$> l = f <$> l' -> Forall P l -> Forall P l'.
Proof.
  intros HP. revert l'. induction l as [|a l IH]; intros [|b l']; cbn; try done.
  intros [= E1 E2] [Ha Hl]%Forall_cons. constructor; [by eapply HP | by apply IH].
Qed.

Lemma probe_content `{KubeLib} (p q : option Probe) : pr_HTTPGet <$> p = pr_HTTPGet <$> q -> probe_ok p = probe_ok q.
Proof. destruct p as [p|], q as [q|]; cbn; try done. by intros [= ->]. Qed.

Lemma init_content `{KubeLib} model (c c' : Container) :
  container_content c = container_content c' -> init_ok model c -> init_ok model c'.
Proof. intros [= E1 E2 E3 E4 E5 E6 E7]. unfold init_ok. by rewrite E1, E3, E5. Qed.

Lemma server_content `{KubeLib} model extra (c c' : Container) :
  container_content c = container_content c' -> server_ok model extra c -> server_ok model extra c'.
Proof.
  intros [= E1 E2 E3 E4 E5 E6%probe_content E7%probe_content] Hs Hn. rewrite <- E1 in Hn.
  destruct (Hs Hn) as [S1 S2 S3 S4 S5 S6]. split; congruence.
Qed.

Lemma converged_content `{KubeLib} inst model (d d' : Deployment) :
  deployment_content d' = deployment_content d -> converged inst model d -> converged inst model d'.
Proof.
  intros [= E1 E2 E3 E4] [C1 C2 C3 C4]. split; [congruence | congruence | |].
  - eapply Forall_content; [apply init_content | symmetry; exact E3 | exact C3].
  - eapply Forall_content; [apply server_content | symmetry; exact E4 | exact C4].
Qed.

(** ** Calls to a working server *)

Section Rules.
  Context {HK : KubeLib} {S : Type} {E : env S} {find : S -> forall K : kind, ObjectKey -> option (obj K)}.
  Context {HS : ApiServer E find}.

Lemma total_read {A} s (e : event) (r : answer e) (k : answer e -> io A) (Q : S -> A -> Prop) :
  read_only e -> answers E s e = r -> total E s (k r) Q -> total E s (call e ≫= k) Q.
Proof.
  intros He <- Hk. apply total_vis. by rewrite read_keeps.
Qed.

Lemma only_at_other K key s s' K' key' : only_at find K key s s' -> (K', key') <> (K, key) -> find s' K' key' = find s K' key'.
Proof. intros Ho. apply Ho. Qed.

(** Creating what is absent, and updating what was read. *)
Lemma total_create {A} s K (o : obj K) (k : obj K -> fio A) (Q : S -> res A -> Prop) :
  find s K (key_of_obj K o) = None ->
  (forall o' s', stored_as K o o' -> find s' K (key_of_obj K o) = Some o' -> only_at find K (key_of_obj K o) s s' ->
     total E s' (k o') Q) ->
  total E s (fbind (call (ECreate Cached K o)) k) Q.
Proof.
  intros Hf Hk. refine (total_vis _ _ _ _ _ _). destruct (create_accepted s K o Hf) as (o' & -> & Hs & Hfind & Ho). by apply Hk.
Qed.

Lemma total_update {A} s K (o old : obj K) (k : obj K -> fio A) (Q : S -> res A -> Prop) :
  find s K (key_of_obj K o) = Some old ->
  ResourceVersion (meta_of K o) = ResourceVersion (meta_of K old) -> same_status K o old -> stays K o old ->
  (forall o' s', stored_as K o o' -> find s' K (key_of_obj K o) = Some o' -> only_at find K (key_of_obj K o) s s' ->
     total E s' (k o') Q) ->
  total E s (fbind (call (EUpdate Cached K o)) k) Q.
Proof.
  intros Hf Hv Hst Hl Hk. refine (total_vis _ _ _ _ _ _).
  destruct (update_accepted s K o old Hf Hv Hst Hl) as (o' & -> & Hs & Hfind & Ho). by apply Hk.
Qed.

(** The same as the last call. *)
Lemma total_updated s K (o old : obj K) (Q : S -> res (obj K) -> Prop) :
  find s K (key_of_obj K o) = Some old ->
  ResourceVersion (meta_of K o) = ResourceVersion (meta_of K old) -> same_status K o old -> stays K o old ->
  (forall o' s', stored_as K o o' -> find s' K (key_of_obj K o) = Some o' -> only_at find K (key_of_obj K o) s s' -> Q s' (Ok o')) ->
  total E s (call (EUpdate Cached K o)) Q.
Proof.
  intros Hf Hv Hst Hl HQ. apply total_call.
  destruct (update_accepted s K o old Hf Hv Hst Hl) as (o' & -> & Hs & Hfind & Ho). by apply HQ.
Qed.

Lemma total_status_updated s K (o old : obj K) (Q : S -> res (obj K) -> Prop) :
  find s K (key_of_obj K o) = Some old -> same_but_status K o old ->
  (forall o' s', stored_as K o o' -> find s' K (key_of_obj K o) = Some o' -> only_at find K (key_of_obj K o) s s' -> Q s' (Ok o')) ->
  total E s (call (EUpdateStatus Cached K o)) Q.
Proof.
  intros Hf Hst HQ. apply total_call.
  destruct (update_status_accepted s K o old Hf Hst) as (o' & -> & Hs & Hfind & Ho). by apply HQ.
Qed.

(** The last finalizer of an object under deletion. *)
Lemma total_released s K (o old : obj K) (Q : S -> res (obj K) -> Prop) :
  find s K (key_of_obj K o) = Some old ->
  ResourceVersion (meta_of K o) = ResourceVersion (meta_of K old) -> same_status K o old ->
  time_IsZero (DeletionTimestamp (meta_of K o)) = false -> Finalizers (meta_of K o) = [] -> Finalizers (meta_of K old) <> [] ->
  (forall o' s', gone find K (key_of_obj K o) s s' -> Q s' (Ok o')) ->
  total E s (call (EUpdate Cached K o)) Q.
Proof.
  intros Hf Hv Hst Hd Hn Ho HQ. apply total_call.
  destruct (update_releases s K o old Hf Hv Hst Hd Hn Ho) as [Hok Hg].
  destruct (E (EUpdate Cached K o) s).2 as [o' | err]; [by apply HQ | done].
Qed.

End Rules.
