(* ===== verification/ClusterRef.v ===== *)
(** * An API server that works

    Its state is the list of the objects it stores.  It shows that the laws of
    [ApiServer] can hold, and runs the operator in the examples. *)

From S2P Require Import Prelude GoStd GoError Kube KubeRef Api Io Names SlugPolicy Model SlugRoute Workload WorkloadFacts Routing Cluster.

Module Listed.

Definition store : Type := list {K : kind & obj K}.

Definition as_kind (K : kind) (x : {K : kind & obj K}) : option (obj K) :=
  match decide (projT1 x = K) with
  | left e => Some (eq_rect (projT1 x) obj (projT2 x) K e)
  | right _ => None
  end.

(** The object in the slot, if the entry is one. *)
Definition in_slot (K : kind) (key : ObjectKey) (x : {K : kind & obj K}) : option (obj K) :=
  o ← as_kind K x; if bool_decide (key_of_obj K o = key) then Some o else None.

Fixpoint find (s : store) (K : kind) (key : ObjectKey) : option (obj K) :=
  match s with
  | [] => None
  | x :: s' => match in_slot K key x with Some o => Some o | None => find s' K key end
  end.

Definition objects (K : kind) (s : store) : list (obj K) := omap (find s K) (key_of_obj K <$> omap (as_kind K) s).

(** A stored object has a version of its own, a stored Secret its string data in its data. *)
Definition admit_obj (K : kind) : obj K -> obj K :=
  let stamp m := m <| ResourceVersion ::= fun rv => "v" +:+ rv |> in
  match K with
  | KInstance => fun o => o <| inst_Meta ::= stamp |>
  | KTokenRequest => fun o => o <| tr_Meta ::= stamp |>
  | KSecret => fun o => o <| sec_Meta ::= stamp |> <| sec_Data := sec_StringData o ∪ sec_Data o |> <| sec_StringData := ∅ |>
  | KIngress => fun o => o <| ing_Meta ::= stamp |>
  | KDeployment => fun o => o <| d_Meta ::= stamp |>
  | KMiddleware => fun o => o <| mw_Meta ::= stamp |>
  | _ => fun o => o
  end.

(** The object with the status of another one, and the other way round. *)
Definition keep_status (K : kind) (old : obj K) : obj K -> obj K :=
  match K return obj K -> obj K -> obj K with
  | KInstance => fun old o => o <| Status := Status old |>
  | KTokenRequest => fun old o => o <| tr_Status := tr_Status old |>
  | _ => fun _ o => o
  end old.

Definition take_status (K : kind) (old : obj K) : obj K -> obj K :=
  match K return obj K -> obj K -> obj K with
  | KInstance => fun old o => old <| Status := Status o |>
  | KTokenRequest => fun old o => old <| tr_Status := tr_Status o |>
  | _ => fun old _ => old
  end old.

Definition not_found : error := ErrAPI ReasonNotFound "not found".

Definition put (K : kind) (o : obj K) (s : store) : store * res (obj K) :=
  let o' := admit_obj K o in (existT K o' :: s, Ok o').

Definition drop (K : kind) (key : ObjectKey) (s : store) : store :=
  List.filter (fun x => match in_slot K key x with Some _ => false | None => true end) s.

(** The last finalizer of an object under deletion is taken. *)
Definition releases (m old : ObjectMeta) : bool :=
  negb (time_IsZero (DeletionTimestamp m)) && bool_decide (Finalizers m = []) && negb (bool_decide (Finalizers old = [])).

Definition as_seen_b (pre : Preconditions) (m : ObjectMeta) : bool :=
  from_option (fun uid => bool_decide (uid = UID m)) true (pre_UID pre) &&
  from_option (fun rv => bool_decide (rv = ResourceVersion m)) true (pre_ResourceVersion pre).

Definition write_status (K : kind) (o : obj K) (s : store) : store * res (obj K) :=
  match find s K (key_of_obj K o) with
  | Some old => put K (take_status K old o) s
  | None => (s, Err not_found)
  end.

Definition server : env store := fun e s =>
  match e with
  | EGet _ K key => (s, match find s K key with Some o => Ok o | None => Err not_found end)
  | EList _ K namespace labels => (s, Ok (List.filter (fun o => listed namespace labels (meta_of K o)) (objects K s)))
  | ECreate _ K o =>
      match find s K (key_of_obj K o) with
      | Some _ => (s, Err (ErrAPI ReasonAlreadyExists "already exists"))
      | None => put K o s
      end
  | EUpdate _ K o =>
      match find s K (key_of_obj K o) with
      | Some old => if bool_decide (ResourceVersion (meta_of K o) = ResourceVersion (meta_of K old))
                    then if releases (meta_of K o) (meta_of K old) then (drop K (key_of_obj K o) s, Ok o) else put K (keep_status K old o) s
                    else (s, Err (ErrAPI ReasonConflict "conflict"))
      | None => (s, Err not_found)
      end
  | EUpdateStatus _ K o | EPatchStatus _ K _ o => write_status K o s
  | EDelete _ K o pre =>
      match find s K (key_of_obj K o) with
      | Some old => if as_seen_b pre (meta_of K old) && bool_decide (Finalizers (meta_of K old) = [])
                    then (drop K (key_of_obj K o) s, None) else (s, Some (ErrAPI ReasonConflict "conflict"))
      | None => (s, Some not_found)
      end
  | ENow => (s, 63928785700000000000%Z)
  | ERandom n => (s, Ok (repeat 7%Z n))
  | EProbe _ => (s, Ok 200%Z)
  | EHTTPS _ => (s, Err (ErrText "no network"))
  end.

Lemma as_kind_same (K : kind) (o : obj K) : as_kind K (existT K o) = Some o.
Proof.
  unfold as_kind. cbn. destruct (decide (K = K)) as [e | []]; [| done]. by rewrite (Eqdep_dec.UIP_dec (A := kind) (fun x y => decide (x = y)) e eq_refl).
Qed.

Lemma as_kind_other (K K' : kind) (o : obj K) : K <> K' -> as_kind K' (existT K o) = None.
Proof. intros Hne. unfold as_kind. cbn. by destruct (decide (K = K')). Qed.

Lemma find_slot s K key o : find s K key = Some o -> key_of_obj K o = key.
Proof.
  induction s as [|x s IH]; cbn; [done |]. unfold in_slot. destruct (as_kind K x) as [o'|]; cbn; [| done].
  case_bool_decide; [| done]. by intros [= <-].
Qed.

Lemma find_put (K : kind) (o : obj K) s : find (existT K o :: s) K (key_of_obj K o) = Some o.
Proof. cbn. unfold in_slot. rewrite as_kind_same. cbn. by rewrite bool_decide_true. Qed.

Lemma find_put_other (K : kind) (o : obj K) s K' key' :
  (K', key') <> (K, key_of_obj K o) -> find (existT K o :: s) K' key' = find s K' key'.
Proof.
  intros Hne. cbn. unfold in_slot. destruct (decide (K = K')) as [-> | HK]; [| by rewrite as_kind_other].
  rewrite as_kind_same. cbn. rewrite bool_decide_false; [done | congruence].
Qed.

Lemma find_listed s K key o : find s K key = Some o -> o ∈ omap (as_kind K) s.
Proof.
  induction s as [|x s IH]; cbn; [done |]. unfold in_slot. destruct (as_kind K x) as [o'|] eqn:Ex; cbn; [| done].
  case_bool_decide; [intros [= ->]; by left | intros Ho; right; by apply IH].
Qed.

Lemma objects_found s K o : o ∈ objects K s <-> find s K (key_of_obj K o) = Some o.
Proof.
  unfold objects. rewrite list_elem_of_omap. split.
  - intros (key & _ & Hf). by rewrite (find_slot _ _ _ _ Hf).
  - intros Hf. exists (key_of_obj K o). split; [| done]. apply list_elem_of_fmap. exists o. split; [done | by eapply find_listed].
Qed.

Lemma admit_stored (K : kind) (o : obj K) : stored_as K o (admit_obj K o) /\ key_of_obj K (admit_obj K o) = key_of_obj K o.
Proof. destruct K, o as [[]]; cbn; split; try done; by eexists _, _. Qed.

Lemma put_accepted (K : kind) (o o0 : obj K) s : o0 = o -> accepted find K o s (put K o0 s).1 (put K o0 s).2.
Proof.
  intros ->. destruct (admit_stored K o) as [Hs Hk]. exists (admit_obj K o). split_and!; [done | done | |].
  - rewrite <- Hk. apply find_put.
  - intros K' key' Hne. apply find_put_other. by rewrite Hk.
Qed.

Lemma drop_gone (K : kind) key s : gone find K key s (drop K key s).
Proof.
  induction s as [|x s [IH1 IH2]]; [done |]. unfold drop. cbn [List.filter]. fold (drop K key s).
  destruct (in_slot K key x) as [o|] eqn:Ex.
  - split; [exact IH1 |]. intros K' key' Hne. rewrite IH2 by done. cbn [find].
    destruct (in_slot K' key' x) as [o'|] eqn:Ex'; [| done]. destruct Hne. unfold in_slot, as_kind in Ex, Ex'.
    destruct (decide (projT1 x = K)) as [e |]; [| done]. destruct (decide (projT1 x = K')) as [e' |]; [| done].
    destruct x as [K0 o0]. cbn in e, e'. subst K' K. cbn in Ex, Ex'. case_bool_decide; [| done]. case_bool_decide; [| done]. by subst.
  - split; cbn [find]; [by rewrite Ex |]. intros K' key' Hne. cbn [find]. by rewrite IH2.
Qed.

Lemma drop_absent (K : kind) key s : find s K key = None -> gone find K key s s.
Proof. by intros Hf. Qed.

Lemma as_seen_ok pre m : as_seen_b pre m = true <-> as_seen pre m.
Proof.
  unfold as_seen_b, as_seen. rewrite andb_true_iff. destruct (pre_UID pre), (pre_ResourceVersion pre); cbn; rewrite ?bool_decide_eq_true; tauto.
Qed.

#[global] Instance works : ApiServer server find.
Proof.
  split.
  - intros s K key o. apply find_slot.
  - by intros [].
  - intros s c K key o _ Hf. unfold answers. cbn. by rewrite Hf.
  - intros s c K key _ Hf. unfold answers. cbn. rewrite Hf. by eexists.
  - intros s c K namespace labels _. unfold answers. cbn. eexists. split; [done |]. intros o.
    rewrite list_elem_of_In, filter_In, <- list_elem_of_In. by rewrite objects_found.
  - intros s K o Hf. cbn. rewrite Hf. by apply put_accepted.
  - intros s K o old Hf Hv Hst Hl. cbn. rewrite Hf, bool_decide_true by done.
    assert (releases (meta_of K o) (meta_of K old) = false) as ->.
    { unfold releases. destruct (time_IsZero _) eqn:Ed; [done |]. cbn [negb andb].
      case_bool_decide as En; [| done]. case_bool_decide as Eo; [done |].
      destruct Hl as [Hl | [Hl | Hl]]; congruence. }
    apply put_accepted. destruct K; cbn in *; try done; destruct o, old; cbn in *; by subst.
  - intros s K o old Hf Hv Hst Hd Hn Ho. cbn. rewrite Hf, bool_decide_true by done. unfold releases.
    rewrite Hd, (bool_decide_true (Finalizers (meta_of K o) = [])), bool_decide_false by done. cbn. split; [done | apply drop_gone].
  - intros s K o old Hf Hst. cbn. unfold write_status. rewrite Hf. apply put_accepted.
    destruct K; cbn in *; try done; destruct o, old, Hst; cbn in *; by subst.
  - intros s K o old Hf Hst. cbn. unfold write_status. rewrite Hf. apply put_accepted.
    destruct K; cbn in *; try done; destruct o, old, Hst; cbn in *; by subst.
  - intros s K o pre Hold. cbn. destruct (find s K (key_of_obj K o)) as [old|] eqn:Hf; [| by apply drop_absent].
    destruct (Hold old eq_refl) as [Hs Hn]. apply as_seen_ok in Hs. rewrite Hs, bool_decide_true by done. apply drop_gone.
Qed.

End Listed.
