(* ===== verification/RoutingSafety.v ===== *)
(** * The hosted reconcile: which writes it may make, and in which order

    [hosted_write] lists the writes of the hosted part of a reconcile with the
    evidence each needs: ownership, the converged state, a free route and an
    established forwardAuth before an Ingress, readiness before the Ready status. *)

From Stdlib Require Import Ascii.
From S2P Require Import Prelude GoStd GoError Kube KubeRef Api Io Names SlugPolicy Model SlugRoute Workload WorkloadFacts Routing.

Section Routes.
  Context `{KubeLaws}.
  Variable rc : LLMInstanceReconciler.

(** ** Free routes *)

(** No rule of the Ingress claims the public host with an overlapping path, and it has
    no default backend. *)
Definition leaves_route_free (slug : string) (ing : Ingress) : Prop :=
  ing_DefaultBackend ing = None /\
  forall rule paths p, rule ∈ ing_Rules ing -> rule_HTTP rule = Some paths -> p ∈ paths ->
    hostClaimsSlugHost (rule_Host rule) (PublicHost rc) = true ->
    HasPrefix (TrimRightByte (hp_Path p) "/") ("/llm/" +:+ slug) = false /\
    HasPrefix ("/llm/" +:+ slug) (TrimRightByte (hp_Path p) "/") = false.

Definition named_event (inst : LLMInstance) : event :=
  EGet (routeReader rc) KIngress (key_of (Namespace (inst_Meta inst)) (llama_name inst)).

Definition named_clear (h : history) (inst : LLMInstance) : Prop :=
  (exists err, saw h (named_event inst) (Err err) /\ IsNotFound err = true) \/
  (exists ing, saw h (named_event inst) (Ok ing) /\ ownsSlugIngress inst ing = true).

(** The named Ingress is absent or the instance's own, and every other one leaves the
    route free. *)
Definition route_free (h : history) (inst : LLMInstance) (slug : string) : Prop :=
  named_clear h inst /\
  exists ingresses, saw h (EList (routeReader rc) KIngress None []) (Ok ingresses) /\
    forall ing, ing ∈ ingresses ->
      (ObjectKeyFromObject (ing_Meta ing) = key_of (Namespace (inst_Meta inst)) (llama_name inst) /\
       ownsSlugIngress inst ing = true) \/
      leaves_route_free slug ing.

Lemma existsb_false {A} (p : A -> bool) (l : list A) :
  existsb p l = false <-> forall x, x ∈ l -> p x = false.
Proof.
  induction l as [|a l IH]; cbn; [split; [intros _ x Hx; by apply not_elem_of_nil in Hx | done] |].
  rewrite orb_false_iff, IH. setoid_rewrite elem_of_cons. naive_solver.
Qed.

Lemma ingress_conflicts_false (inst : LLMInstance) (slug : string) (ing : Ingress) :
  ingress_conflicts rc inst slug ing = false ->
  (ObjectKeyFromObject (ing_Meta ing) = key_of (Namespace (inst_Meta inst)) (llama_name inst) /\
   ownsSlugIngress inst ing = true) \/ leaves_route_free slug ing.
Proof.
  unfold ingress_conflicts. case_match eqn:E; [intros _; left; by bool_props |].
  destruct (ing_DefaultBackend ing) eqn:Ed; [done |]. rewrite existsb_false. intros Hr. right.
  split; [done |]. intros rule paths p Hrule Hp Hin Hh. specialize (Hr rule Hrule).
  unfold rule_conflicts in Hr. rewrite Hp, Hh in Hr. cbn in Hr. rewrite existsb_false in Hr.
  specialize (Hr p Hin). unfold path_conflicts in Hr. by apply orb_false_iff in Hr.
Qed.

Lemma checkSlugRoute_safe (P : history -> event -> Prop) (h : history) (inst : LLMInstance) (slug : string) :
  (forall h e, read_only e -> P h e) ->
  safe (recording P) h (checkSlugRoute rc inst slug) (fun h' r =>
    grows h h' /\ (is_ok r = true -> route_free h' inst slug)).
Proof.
  intros HP. eapply safe_mono; [apply safe_grows |]; [| intros h' r [Hg Hr]; exact (conj Hg Hr)].
  unfold checkSlugRoute. fold (named_event inst). apply safe_bind. split; [by apply HP |].
  intros got. cbn [safe advance recording].
  assert (Hlist : named_clear (existT (named_event inst) got :: h) inst ->
    safe (recording P) (existT (named_event inst) got :: h)
      (let? ingresses := call (EList (routeReader rc) KIngress None []) in
       if existsb (ingress_conflicts rc inst slug) ingresses then fail errSlugRouteConflict else fret tt)
      (fun h' r => is_ok r = true -> route_free h' inst slug)).
  { intros Hnamed. apply safe_fbind. split; [by apply HP |].
    intros [ingresses | err]; cbn [safe advance recording]; [| done].
    destruct (existsb (ingress_conflicts rc inst slug) ingresses) eqn:Ec; cbn [safe fret fail]; [done |].
    intros _. rewrite existsb_false in Ec. split.
    - destruct Hnamed as [(err & ? & ?) | (ing & ? & ?)]; [left; exists err | right; exists ing];
        auto with go.
    - exists ingresses. split; [apply saw_here |]. intros ing Hin. by apply ingress_conflicts_false, Ec. }
  destruct got as [named | err].
  - destruct (ownsSlugIngress inst named) eqn:Ho; cbn [negb]; [| done].
    apply Hlist. right. exists named. split; [apply saw_here | done].
  - destruct (IsNotFound err) eqn:En; cbn [negb]; [| done].
    apply Hlist. left. exists err. split; [apply saw_here | done].
Qed.

(** C33: a route check that passes has seen the named Ingress absent or owned, and every
    other Ingress of the cluster without a default backend and without a rule that
    claims the public host with a path related by prefix to the selected one; it writes
    nothing. *)
Theorem checkSlugRoute_sound (inst : LLMInstance) (slug : string) :
  safe (recording (fun _ e => read_only e)) [] (checkSlugRoute rc inst slug)
    (fun h r => is_ok r = true -> route_free h inst slug).
Proof.
  eapply safe_mono; [by apply (checkSlugRoute_safe (fun _ e => read_only e)) |]. by intros h r [_ ?].
Qed.

(** ** A secured Ingress *)

(** The Ingress routes exactly the selected path to the instance's Service, through the
    auth middleware unless the operator's own annotations replace it. *)
Record secured (inst : LLMInstance) (slug : string) (ing : Ingress) : Prop := {
  sc_rules : ing_Rules ing = slugIngressRules rc ("/llm/" +:+ slug) (llama_name inst);
  sc_default : ing_DefaultBackend ing = None;
  sc_matcher : Annotations (ing_Meta ing) !! pathmatcher_key = None;
  sc_class : ing_ClassName ing = Some "traefik";
  sc_auth : ExtraIngressAnnotations rc !! middlewares_key = None ->
            mget (Annotations (ing_Meta ing)) middlewares_key =
            desiredMiddlewareAnnotation (Namespace (inst_Meta inst)) (llama_name inst);
}.

Definition only_annotations (a b : Ingress) : Prop :=
  ing_Meta b = (ing_Meta a) <| Annotations := Annotations (ing_Meta b) |>.

Lemma only_annotations_owner (inst : LLMInstance) (a b : Ingress) :
  only_annotations a b -> ownsSlugIngress inst b = ownsSlugIngress inst a.
Proof. unfold only_annotations, ownsSlugIngress, ownsLLMResource. by intros ->. Qed.

Lemma mget_union_none (extra m : gmap string string) (k : string) :
  extra !! k = None -> mget (extra ∪ m) k = mget m k.
Proof. intros E. unfold mget. by rewrite lookup_union_r. Qed.

Lemma ensureIngressHTTPRule_spec (pathPrefix svcName : string) (ing : Ingress) :
  let ing' := (ensureIngressHTTPRule rc pathPrefix svcName ing).1 in
  ing_Rules ing' = slugIngressRules rc pathPrefix svcName /\ ing_DefaultBackend ing' = None /\
  Annotations (ing_Meta ing') !! pathmatcher_key = None /\
  (forall k, k <> pathmatcher_key -> mget (Annotations (ing_Meta ing')) k = mget (Annotations (ing_Meta ing)) k) /\
  ing_ClassName ing' = ing_ClassName ing /\ only_annotations ing ing'.
Proof.
  cbv zeta. unfold ensureIngressHTTPRule, drop_annotation, set_when, only_annotations.
  destruct ing as [[] ? ? ? ?]. case_bool_decide as E; cbn in *; split_and!; try done.
  - by rewrite lookup_delete_eq.
  - intros k Hk. unfold mget. by rewrite lookup_delete_ne.
Qed.

Lemma keeps_only_annotations (f : Ingress -> Ingress * bool) (ing : Ingress) :
  (forall x, only_annotations x (f x).1) -> preserves (only_annotations ing) f.
Proof.
  intros Hf x Hx. specialize (Hf x). unfold only_annotations in *. rewrite Hf, Hx. reflexivity.
Qed.

Lemma ensureIngress_only_annotations (inst : LLMInstance) (svcName pathPrefix : string) (ing : Ingress) :
  only_annotations ing (ensureIngress rc inst svcName pathPrefix ing).1.
Proof.
  unfold ensureIngress. apply (preserves_in_order (only_annotations ing)).
  2: { unfold only_annotations. by destruct ing as [[] ? ? ? ?]. }
  assert (Hset : forall d u, (forall x, only_annotations x (u x)) -> preserves (only_annotations ing) (set_when d u)).
  { intros d u Hu. apply keeps_only_annotations. intros x. unfold set_when. destruct (d x); cbn; [apply Hu |].
    unfold only_annotations. by destruct x as [[] ? ? ? ?]. }
  repeat apply Forall_cons_2; try apply Forall_nil_2.
  - unfold ensureIngressAnnotations. apply preserves_in_order. repeat constructor;
      try destruct (isHTTPS rc); apply Hset; intros [[] ? ? ? ?]; done.
  - apply keeps_only_annotations. intros [[] ? ? ? ?]. done.
  - apply Hset. intros [[] ? ? ? ?]. done.
  - apply keeps_only_annotations. intros x. apply ensureIngressHTTPRule_spec.
  - apply keeps_only_annotations. intros x. unfold ensureIngressTLS.
    repeat case_match; cbn; unfold only_annotations; by destruct x as [[] ? ? ? ?].
Qed.

Lemma ingress_routes_secured (inst : LLMInstance) (labels : gmap string string) (slug : string) (ing : Ingress) :
  secured inst slug (ensureIngress rc inst (llama_name inst) ("/llm/" +:+ slug) ing).1 /\
  secured inst slug (buildDesiredIngress rc inst labels (llama_name inst) ("/llm/" +:+ slug)).
Proof.
  split.
  - set (rule := ensureIngressHTTPRule rc ("/llm/" +:+ slug) (llama_name inst)).
    set (tls := ensureIngressTLS rc (isHTTPS rc)).
    set (mid := ensureIngressAnnotations (desiredMiddlewareAnnotation (Namespace (inst_Meta inst)) (llama_name inst))
                  (desiredIngressEntryPoints (isHTTPS rc)) (isHTTPS rc)).
    assert (Htls : forall P : Ingress -> Prop, (forall x t, P x -> P (x <| ing_TLS := t |>)) -> preserves P tls).
    { intros P HP x Hx. subst tls. unfold ensureIngressTLS. repeat case_match; cbn [fst]; auto. }
    unfold ensureIngress. fold mid tls rule. split.
    + apply (in_order_establishes (fun x => ing_Rules x = _) [_; _; _] rule [_]); [intros x; apply ensureIngressHTTPRule_spec |].
      constructor; [by apply Htls | constructor].
    + apply (in_order_establishes (fun x => ing_DefaultBackend x = _) [_; _; _] rule [_]); [intros x; apply ensureIngressHTTPRule_spec |].
      constructor; [by apply Htls | constructor].
    + apply (in_order_establishes (fun x => Annotations (ing_Meta x) !! _ = None) [_; _; _] rule [_]);
        [intros x; apply ensureIngressHTTPRule_spec |].
      constructor; [by apply Htls | constructor].
    + apply (in_order_establishes (fun x => ing_ClassName x = _) [_; _] ensureIngressClass [_; _]).
      * intros x. unfold ensureIngressClass, set_when. case_bool_decide; done.
      * repeat constructor; [| by apply Htls]. intros x Hx. by rewrite <-Hx; apply ensureIngressHTTPRule_spec.
    + intros Hex. apply (in_order_establishes (fun x => mget (Annotations (ing_Meta x)) middlewares_key = _) [] mid [_; _; _; _]).
      * intros x. subst mid. unfold ensureIngressAnnotations.
        apply (in_order_establishes (fun x => mget (Annotations (ing_Meta x)) middlewares_key = _) []
                 (ensure_annotation _ _) [_; _]).
        -- intros y. unfold ensure_annotation, set_when. case_bool_decide; cbn; [done |]. unfold mget. by rewrite lookup_insert_eq.
        -- repeat constructor; try destruct (isHTTPS rc); apply preserves_set_when; intros y <-; cbn; unfold mget;
             by rewrite ?lookup_insert_ne, ?lookup_delete_ne.
      * repeat constructor; [| | | by apply Htls].
        -- intros x Hx. unfold applyExtraIngressAnnotations. cbn. by rewrite mget_union_none.
        -- by apply preserves_set_when.
        -- intros x Hx. rewrite <-Hx. by apply ensureIngressHTTPRule_spec.
  - unfold buildDesiredIngress. destruct (applyExtraIngressAnnotations rc false _) as [i1 u1] eqn:E1.
    unfold applyExtraIngressAnnotations in E1. injection E1 as E1 _.
    pose proof (ensureIngressHTTPRule_spec ("/llm/" +:+ slug) (llama_name inst) i1) as (S1 & S2 & S3 & S4 & S5 & _).
    destruct (ensureIngressHTTPRule rc _ _ i1) as [i2 u2]. cbn [fst] in *. subst i1.
    split; [done | done | done | by rewrite S5 |].
    intros Hex. rewrite S4 by done. cbn. rewrite mget_union_none by done. unfold mget.
    rewrite lookup_insert_ne by done. by simplify_map_eq.
Qed.

(** Whatever the existing Ingress contains, bringing it to the desired state leaves it
    routing exactly the selected path to the instance's Service, without default
    backend or path matcher override, through the auth middleware; and the Ingress
    built for a new instance is so too. *)
Theorem ingress_secured (inst : LLMInstance) (labels : gmap string string) (slug : string) (ing : Ingress) :
  secured inst slug (ensureIngress rc inst (llama_name inst) ("/llm/" +:+ slug) ing).1 /\
  secured inst slug (buildDesiredIngress rc inst labels (llama_name inst) ("/llm/" +:+ slug)).
Proof. apply ingress_routes_secured. Qed.

End Routes.
