(* ===== verification/HostedSafety.v ===== *)
(** * The hosted reconcile: evidence behind every write

    [hosted_write] is the discipline of [reconcileHosted]; the theorem holds for
    every cache, API server and health endpoint. *)

From Stdlib Require Import Ascii.
From S2P Require Import Prelude GoStd GoError Kube KubeRef Api Io Names SlugPolicy Model SlugRoute Workload WorkloadFacts Routing RoutingSafety.

Section Hosted.
  Context `{KubeLaws}.
  Variable rc : LLMInstanceReconciler.
  Variable inst : LLMInstance.
  Variable slug : string.
  Variable model : modelSelection.

Local Abbreviation ns := (Namespace (inst_Meta inst)).
Local Abbreviation svc := (llama_name inst).

Definition controlled (m : ObjectMeta) : Prop :=
  Namespace m = ns /\ GetControllerOf (OwnerReferences m) = Some (instance_ref inst).

Definition auth_event : event := EGet Cached KMiddleware (key_of ns (authMiddlewareName svc)).

(** The middleware sends every request to the verify URL of this instance and trusts
    no forwarded header. *)
Definition enforces_auth (mw : Middleware) : Prop :=
  exists m, mw_ForwardAuth mw = Present (desired_forwardAuth (authAddress rc inst slug) m).

(** The forwardAuth middleware is stored, was found so, or its kind is not installed. *)
Definition auth_established (h : history) : Prop :=
  (exists mw, saw h auth_event (Ok mw) /\ ownsLLMResource inst (mw_Meta mw) = true /\ enforces_auth mw) \/
  (exists mw stored, saw h (ECreate Cached KMiddleware mw) (Ok stored) /\ enforces_auth mw) \/
  (exists mw stored, saw h (EUpdate Cached KMiddleware mw) (Ok stored) /\ enforces_auth mw) \/
  (exists err, saw h auth_event (Err err) /\ no_middleware_kind err = true).

Inductive hosted_write (h : history) : event -> Prop :=
| hw_read e : read_only e -> hosted_write h e
| hw_create_deployment d :
    controlled (d_Meta d) -> Name (d_Meta d) = svc -> converged inst model d ->
    hosted_write h (ECreate Cached KDeployment d)
| hw_update_deployment d0 d :
    saw h (EGet Cached KDeployment (key_of ns svc)) (Ok d0) -> ownsLLMResource inst (d_Meta d0) = true ->
    d_Meta d = d_Meta d0 -> converged inst model d -> ~ converged inst model d0 ->
    hosted_write h (EUpdate Cached KDeployment d)
| hw_create_service s :
    controlled (svc_Meta s) -> Name (svc_Meta s) = svc -> hosted_write h (ECreate Cached KService s)
| hw_create_strip mw :
    controlled (mw_Meta mw) -> Name (mw_Meta mw) = stripMiddlewareName svc ->
    mw_Prefixes mw = Present ["/llm/" +:+ slug] ->
    hosted_write h (ECreate Cached KMiddleware mw)
| hw_update_strip mw0 mw :
    saw h (EGet Cached KMiddleware (key_of ns (stripMiddlewareName svc))) (Ok mw0) ->
    ownsLLMResource inst (mw_Meta mw0) = true ->
    mw = mw0 <| mw_Prefixes := Present ["/llm/" +:+ slug] |> ->
    hosted_write h (EUpdate Cached KMiddleware mw)
| hw_create_auth mw :
    controlled (mw_Meta mw) -> Name (mw_Meta mw) = authMiddlewareName svc -> enforces_auth mw ->
    hosted_write h (ECreate Cached KMiddleware mw)
| hw_update_auth mw0 mw :
    saw h auth_event (Ok mw0) -> ownsLLMResource inst (mw_Meta mw0) = true ->
    mw = mw0 <| mw_ForwardAuth := mw_ForwardAuth mw |> -> enforces_auth mw ->
    hosted_write h (EUpdate Cached KMiddleware mw)
| hw_create_ingress ing :
    auth_established h -> route_free rc h inst slug ->
    controlled (ing_Meta ing) -> Name (ing_Meta ing) = svc -> secured rc inst slug ing ->
    hosted_write h (ECreate Cached KIngress ing)
| hw_update_ingress ing0 ing :
    auth_established h -> route_free rc h inst slug ->
    saw h (EGet Cached KIngress (key_of ns svc)) (Ok ing0) -> ownsSlugIngress inst ing0 = true ->
    only_annotations ing0 ing -> secured rc inst slug ing ->
    hosted_write h (EUpdate Cached KIngress ing)
| hw_withdraw_route ing :
    saw h (named_event rc inst) (Ok ing) -> ownsSlugIngress inst ing = true ->
    hosted_write h (EDelete Cached KIngress ing
      {| pre_UID := Some (UID (ing_Meta ing)); pre_ResourceVersion := Some (ResourceVersion (ing_Meta ing)) |})
| hw_status now phase endpoint reason message :
    phase <> "Ready" ->
    hosted_write h (EUpdateStatus Cached KInstance
      (with_status (inst <| Status -> ActiveBYOCKubeconfigSecretName := "" |>) now ConditionFalse phase endpoint reason message))
| hw_ready now :
    ready_evidence h inst svc -> auth_established h -> route_free rc h inst slug ->
    hosted_write h (EUpdateStatus Cached KInstance
      (with_status (inst <| Status -> ActiveBYOCKubeconfigSecretName := "" |>) now ConditionTrue "Ready"
         (instanceEndpoint rc slug) "Provisioned" "LLM instance is ready")).

Local Abbreviation allowed_here := (recording hosted_write).

Lemma set_owner (m m' : ObjectMeta) :
  SetControllerReference (instance_ref inst) m = Ok m' -> Namespace m = ns ->
  controlled m' /\ Name m' = Name m /\ m' = m <| OwnerReferences := OwnerReferences m' |>.
Proof.
  intros E Hns. apply SetControllerReference_ok in E as [Ho Em]; [| done].
  split_and!; [split; [by rewrite Em | done] | by rewrite Em | done].
Qed.

Lemma reconcileDeployment_safe (h : history) (labels : gmap string string) :
  safe allowed_here h (reconcileDeployment inst labels model) (fun _ _ => True).
Proof.
  unfold reconcileDeployment. on_call got; [by apply hw_read |]. destruct got as [d0 | err].
  - destruct (ownsLLMResource inst (d_Meta d0)) eqn:Ho; cbn [negb]; [| done].
    pose proof (ensure_result d0 inst model) as C.
    assert (Em : d_Meta (ensureDeployment d0 inst model).1 = d_Meta d0).
    { unfold ensureDeployment, ensureDeploymentReplicas, ensureDeploymentModel, ensureDeploymentDNSPolicy.
      destruct (bool_decide (d_Replicas d0 = None) || _), (ensure_all _ _), (ensure_all _ _); cbn;
        case_bool_decide; done. }
    destruct (ensureDeployment d0 inst model) as [d changed]. destruct C as (C1 & _ & C3 & _).
    destruct changed; cbn [negb]; [| done]. on_call stored; [| by destruct stored].
    eapply hw_update_deployment; [apply saw_here | done | done | done |]. intros ?%C3. done.
  - destruct (IsNotFound err); cbn [negb]; [| done].
    destruct (SetControllerReference _ _) as [m | e] eqn:E; [| done].
    apply set_owner in E as (Hc & Hn & Em); [| done].
    on_call stored; [| by destruct stored].
    apply hw_create_deployment; [done | exact Hn |].
    destruct (build_converged inst labels model) as [C1 C2 C3 C4]. by split.
Qed.

Lemma reconcileService_safe (h : history) (labels : gmap string string) :
  safe allowed_here h (reconcileService inst labels svc) (fun _ _ => True).
Proof.
  unfold reconcileService. on_call got; [by apply hw_read |]. destruct got as [s | err].
  - by destruct (ownsLLMResource inst (svc_Meta s)).
  - destruct (IsNotFound err); cbn [negb]; [| done].
    destruct (SetControllerReference _ _) as [m | e] eqn:E; [| done].
    apply set_owner in E as (Hc & Hn & Em); [| done].
    on_call stored; [| by destruct stored]. by apply hw_create_service; [| exact Hn].
Qed.

Lemma reconcileStripMiddleware_safe (h : history) (labels : gmap string string) :
  safe allowed_here h (reconcileStripMiddleware inst labels svc ("/llm/" +:+ slug)) (fun _ _ => True).
Proof.
  unfold reconcileStripMiddleware. on_call got; [by apply hw_read |]. destruct got as [mw | err].
  - destruct (ownsLLMResource inst (mw_Meta mw)) eqn:Ho; cbn [negb]; [| done].
    destruct (mw_Prefixes mw) as [| | | p] eqn:Ep; cbn [set_nested]; try done.
    + on_call stored; [| by destruct stored]. eapply hw_update_strip; [apply saw_here | done | done].
    + case_bool_decide; [done |]. on_call stored; [| by destruct stored].
      eapply hw_update_strip; [apply saw_here | done | done].
  - destruct (no_middleware_kind err); [done |]. destruct (IsNotFound err); cbn [negb]; [| done].
    destruct (SetControllerReference _ _) as [m | e] eqn:E; [| done].
    apply set_owner in E as (Hc & Hn & Em); [| done].
    on_call stored; [| by destruct stored]. by apply hw_create_strip; [| exact Hn |].
Qed.

(** Writes of [reconcileAuthMiddleware]: an own middleware is brought to the verify URL,
    and one is created when it may be. *)
Inductive auth_write (create : bool) (h : history) : event -> Prop :=
| aw_read e : read_only e -> auth_write create h e
| aw_create mw :
    create = true -> controlled (mw_Meta mw) -> Name (mw_Meta mw) = authMiddlewareName svc -> enforces_auth mw ->
    auth_write create h (ECreate Cached KMiddleware mw)
| aw_update mw0 mw :
    saw h auth_event (Ok mw0) -> ownsLLMResource inst (mw_Meta mw0) = true ->
    mw = mw0 <| mw_ForwardAuth := mw_ForwardAuth mw |> -> enforces_auth mw ->
    auth_write create h (EUpdate Cached KMiddleware mw).

Lemma auth_hosted (create : bool) (h : history) (e : event) : auth_write create h e -> hosted_write h e.
Proof. intros []; [by apply hw_read | by apply hw_create_auth | by eapply hw_update_auth]. Qed.

Lemma reconcileAuthMiddleware_safe (h : history) (labels : gmap string string) (create : bool) :
  safe (recording (auth_write create)) h (reconcileAuthMiddleware rc inst labels svc slug create)
    (fun h' r => is_ok r = true -> create = true -> auth_established h').
Proof.
  unfold reconcileAuthMiddleware. case_bool_decide; [done |].
  on_call got; [by apply aw_read |]. fold auth_event. destruct got as [mw | err].
  - destruct (ownsLLMResource inst (mw_Meta mw)) eqn:Ho; cbn [negb]; [| done].
    assert (Hup : forall m (found : nested (gmap string jvalue)),
      set_nested found (desired_forwardAuth (authAddress rc inst slug) m) =
        Some (Present (desired_forwardAuth (authAddress rc inst slug) m)) ->
      safe (recording (auth_write create)) (existT auth_event (Ok mw) :: h)
        (let? _ := call (EUpdate Cached KMiddleware
           (mw <| mw_ForwardAuth := Present (desired_forwardAuth (authAddress rc inst slug) m) |>)) in fret tt)
        (fun h' r => is_ok r = true -> create = true -> auth_established h')).
    { intros m found _. on_call stored.
      - eapply aw_update; [apply saw_here | done | done | by exists m].
      - destruct stored as [s | e]; cbn [safe fret]; [intros _ _ | done].
        right; right; left. eexists _, s. split; [apply saw_here | by exists m]. }
    destruct (mw_ForwardAuth mw) as [| | | m] eqn:Em; try done; case_bool_decide as Eq; cbn [safe fret set_nested];
      try by eapply (Hup _ NotSet). all: try done.
    intros _ _. left. exists mw. split_and!; [apply saw_here | done |]. exists m. congruence.
  - destruct (no_middleware_kind err) eqn:En; [intros _ _; right; right; right; eauto with go |].
    destruct (IsNotFound err); cbn [negb]; [| done]. destruct create; cbn [negb]; [| done].
    destruct (SetControllerReference _ _) as [m | e] eqn:E; [| done].
    apply set_owner in E as (Hc & Hn & Em); [| done].
    on_call stored; [apply aw_create; [done | done | exact Hn | by eexists] |].
    destruct stored as [s | e]; cbn [safe fret]; [intros _ _ | done].
    right; left. eexists _, s. split; [apply saw_here | by eexists].
Qed.

Lemma buildDesiredIngress_meta (labels : gmap string string) :
  Name (ing_Meta (buildDesiredIngress rc inst labels svc ("/llm/" +:+ slug))) = svc /\
  Namespace (ing_Meta (buildDesiredIngress rc inst labels svc ("/llm/" +:+ slug))) = ns /\
  OwnerReferences (ing_Meta (buildDesiredIngress rc inst labels svc ("/llm/" +:+ slug))) = [].
Proof.
  unfold buildDesiredIngress. destruct (applyExtraIngressAnnotations rc false _) as [i1 u1] eqn:E1.
  injection E1 as E1 _. pose proof (ensureIngressHTTPRule_spec rc ("/llm/" +:+ slug) svc i1) as (_ & _ & _ & _ & _ & E2).
  destruct (ensureIngressHTTPRule rc _ _ i1) as [i2 u2]. cbn [fst] in *. rewrite E2. by subst i1.
Qed.

Lemma auth_established_grows (h h' : history) : grows h h' -> auth_established h -> auth_established h'.
Proof.
  intros Hg [(mw & ? & ? & ?) | [(mw & s & ? & ?) | [(mw & s & ? & ?) | (err & ? & ?)]]];
    [left | right; left | right; right; left | right; right; right]; eauto 6 using saw_grows.
Qed.

Lemma route_free_grows (h h' : history) : grows h h' -> route_free rc h inst slug -> route_free rc h' inst slug.
Proof.
  intros Hg [Hn (l & ? & ?)]. split; [| by eauto using saw_grows].
  destruct Hn as [(err & ? & ?) | (ing & ? & ?)]; [left | right]; eauto using saw_grows.
Qed.

Lemma reconcileIngress_safe (h : history) (labels : gmap string string) :
  auth_established h ->
  safe allowed_here h (reconcileIngress rc inst labels svc ("/llm/" +:+ slug))
    (fun h' r => is_ok r = true -> route_free rc h' inst slug).
Proof.
  intros Ha. unfold reconcileIngress. rewrite TrimPrefix_app.
  apply safe_fbind. eapply safe_mono; [apply (checkSlugRoute_safe rc hosted_write); apply hw_read |].
  intros h1 [[]|err] [Hg Hr]; [| done]. specialize (Hr eq_refl).
  pose proof (auth_established_grows _ _ Hg Ha) as Ha1.
  on_call got; [by apply hw_read |].
  set (h2 := _ :: h1). assert (Hg2 : grows h1 h2) by (unfold grows; set_solver).
  pose proof (auth_established_grows _ _ Hg2 Ha1) as Ha2. pose proof (route_free_grows _ _ Hg2 Hr) as Hr2.
  destruct got as [ing | err].
  - destruct (ownsSlugIngress inst ing) eqn:Ho; cbn [negb]; [| done].
    destruct (ingress_routes_secured rc inst labels slug ing) as [Hs _].
    pose proof (ensureIngress_only_annotations rc inst svc ("/llm/" +:+ slug) ing) as Hm.
    destruct (ensureIngress rc inst svc _ ing) as [ing' updated]. cbn [fst] in *.
    destruct updated; cbn [negb]; [| by intros _].
    on_call stored; [eapply hw_update_ingress; eauto; apply saw_here |].
    destruct stored as [s | e]; cbn [safe fret]; [intros _ | done].
    eapply route_free_grows; [| done]. unfold grows. set_solver.
  - destruct (IsNotFound err); cbn [negb]; [| done].
    destruct (SetControllerReference _ _) as [m | e] eqn:E; [| done].
    pose proof (buildDesiredIngress_meta labels) as (Bn & Bns & _).
    apply set_owner in E as (Hc & Hn & Em); [| done].
    on_call stored.
    + apply hw_create_ingress; [done | done | done | exact (eq_trans Hn Bn) |].
      destruct (ingress_routes_secured rc inst labels slug (buildDesiredIngress rc inst labels svc ("/llm/" +:+ slug))) as [_ [S1 S2 S3 S4 S5]].
      split; [done | done | | done |].
      * cbn. rewrite Em. exact S3.
      * intros Hex. cbn. rewrite Em. exact (S5 Hex).
    + destruct stored as [s | e]; cbn [safe fret]; [intros _ | done].
      eapply route_free_grows; [| done]. unfold grows. set_solver.
Qed.

(** A rejection withdraws only the instance's own route and never reports Ready. *)
Lemma rejectSlug_safe (h : history) (cause : error) :
  safe allowed_here h (rejectSlug rc (inst <| Status -> ActiveBYOCKubeconfigSecretName := "" |>) cause) (fun _ _ => True).
Proof.
  unfold rejectSlug, updateProvisioningStatus. case_match; [done |].
  apply safe_bind. split; [by apply hw_read |]. intros got. cbn [safe advance recording].
  assert (Hstatus : forall h' routeErr, safe allowed_here h'
    (let! stored := (let! now := call ENow in
       call (EUpdateStatus Cached KInstance
         (with_status (inst <| Status -> ActiveBYOCKubeconfigSecretName := "" |>) now ConditionFalse "Provisioning" ""
           "SlugOwnershipError" "Inference identity requires a valid operator policy and an exclusively owned route"))) in
     mret (errors_Join [Some cause; routeErr; err_of stored])) (fun _ _ => True)).
  { intros h' routeErr. apply safe_bind. on_call now; [by apply hw_read |]. split; [by apply hw_status | done]. }
  apply safe_bind. destruct got as [ing | err]; [| exact (Hstatus _ (IgnoreNotFound (Some err)))].
  destruct (ownsSlugIngress _ ing) eqn:Ho; cbn [negb]; [| exact (Hstatus _ (Some errSlugRouteOwnership))].
  on_call deleted; [by apply hw_withdraw_route; [apply saw_here |] |].
  exact (Hstatus _ (IgnoreNotFound deleted)).
Qed.

Lemma or_reject_safe (h : history) (step : fio unit) (k : io (Result * option error)) (Q : history -> Prop) :
  safe allowed_here h step (fun h' r => is_ok r = true -> Q h') ->
  (forall h', grows h h' -> Q h' -> safe allowed_here h' k (fun _ _ => True)) ->
  safe allowed_here h (or_reject rc (inst <| Status -> ActiveBYOCKubeconfigSecretName := "" |>) step k) (fun _ _ => True).
Proof.
  intros Hs Hk. unfold or_reject. apply safe_bind. eapply safe_mono; [apply safe_grows, Hs |].
  intros h' [[]|err] [Hg Hq]; [by apply Hk; [| apply Hq] |].
  apply safe_bind. eapply safe_mono; [apply rejectSlug_safe |]. done.
Qed.

Lemma hosted_safe (h : history) :
  safe (recording hosted_write) h (reconcileHosted rc inst slug model) (fun _ _ => True).
Proof.
  unfold reconcileHosted. cbv zeta.
  set (inst' := inst <| Status -> ActiveBYOCKubeconfigSecretName := "" |>).
  set (labels := llamaLabels _).
  eapply (or_reject_safe _ _ _ (fun _ => True)); [eapply safe_mono; [apply (reconcileDeployment_safe _ labels) |]; done |].
  intros h1 _ _.
  eapply (or_reject_safe _ _ _ (fun _ => True)); [eapply safe_mono; [apply (reconcileService_safe _ labels) |]; done |].
  intros h2 _ _.
  eapply (or_reject_safe _ _ _ (fun _ => True)); [eapply safe_mono; [apply (reconcileStripMiddleware_safe _ labels) |]; done |].
  intros h3 _ _.
  eapply (or_reject_safe _ _ _ auth_established); 
    [eapply safe_mono; [eapply safe_within; [apply (reconcileAuthMiddleware_safe _ labels true) |] |] |].
  { intros h' e _. apply auth_hosted. }
  { cbv beta. intros h' r [_ Hr] Hok. by apply Hr. }
  intros h4 _ Ha.
  eapply (or_reject_safe _ _ _ (fun h => auth_established h /\ route_free rc h inst slug)).
  { eapply safe_mono; [apply safe_grows, (reconcileIngress_safe _ labels Ha) |].
    intros h' r [Hg Hr] Hok. split; [by eapply auth_established_grows | auto]. }
  intros h5 _ [Ha5 Hr5]. apply safe_bind.
  eapply safe_mono; [apply safe_grows, (readiness_safe hosted_write h5 inst svc), hw_read |].
  intros h6 [[[ready reason] message] | err] [Hg He]; [| done].
  destruct ready; cbn [negb].
  - apply safe_bind. unfold updateReadyStatus. on_call now; [by apply hw_read |].
    split; [| by intros []]. apply hw_ready.
    + destruct He as (d & e & sub & He). exists d, e, sub. naive_solver eauto with go.
    + eapply auth_established_grows; [| exact Ha5]. unfold grows in *. set_solver.
    + eapply route_free_grows; [| exact Hr5]. unfold grows in *. set_solver.
  - apply safe_bind. unfold updateProvisioningStatus. on_call now; [by apply hw_read |].
    split; [| by intros []]. by apply hw_status.
Qed.

(** C4: whatever the cache, the API server and the probe answer, the hosted part of a
    reconcile only writes objects it controls or creates them under the instance's
    controller reference; a Deployment is written converged and only when it was not;
    an Ingress is written only after the forwardAuth middleware of this very instance
    is established and the route was found free, and always secured; a rejection
    withdraws only the instance's own route; and Ready is reported only with evidence
    of readiness, after both. *)
Theorem hosted_writes :
  safe (recording hosted_write) [] (reconcileHosted rc inst slug model) (fun _ _ => True).
Proof. apply hosted_safe. Qed.

End Hosted.
