(* ===== verification/SlugRouteFacts.v ===== *)
(** * Slug selection and route ownership: laws

    When an existing route claims the public host, when a slug may be used, how it is
    persisted before use, and what a rejection may touch. *)

From Stdlib Require Import Ascii.
From S2P Require Import Prelude GoStd GoError Kube KubeRef Api Io Names SlugPolicy Model SlugRoute.

(** An Ingress rule claims the public host exactly when, up to case, it has no host,
    the same host, or a wildcard host that covers the public host with one label. *)
Theorem hostClaims_spec (rule host : string) :
  hostClaimsSlugHost rule host = true <->
  ToLower rule = "" \/ ToLower rule = ToLower host \/
  exists label rest, ToLower rule = "*." +:+ rest /\ ToLower host = label +:+ "." +:+ rest /\
    CountByte label "." = 0.
Proof.
  unfold hostClaimsSlugHost. set (r := ToLower rule). set (h := ToLower host).
  destruct (bool_decide (r = "") || bool_decide (r = h)) eqn:E.
  - apply orb_true_iff in E. rewrite !bool_decide_eq_true in E. tauto.
  - apply orb_false_iff in E as [E1 E2]. rewrite bool_decide_eq_false in E1, E2.
    rewrite !andb_true_iff, Nat.eqb_eq. split.
    + intros [[[rest Er]%HasPrefix_spec Hs] Hc]. rewrite Er in Hs, Hc.
      change (str_drop 1 ("*." +:+ rest)) with ("." +:+ rest) in Hs.
      apply HasSuffix_spec in Hs as [label Eh]. right; right. exists label, rest. split_and!; [done | done |].
      rewrite Eh, !CountByte_app in Hc. cbn in Hc. lia.
    + intros [? | [? | (label & rest & Er & Eh & Hc)]]; [done | done |]. rewrite Er, Eh.
      split; [split; [apply HasPrefix_app |] |].
      * change (str_drop 1 ("*." +:+ rest)) with ("." +:+ rest). apply HasSuffix_app.
      * rewrite !CountByte_app, Hc. done.
Qed.

(** A slug is usable exactly when the policy selects it, no other slug was ever
    recorded for the instance or its remote workload, and an instance that was already
    provisioned without a recorded slug has a reviewed one. *)
Theorem selectSlug_spec (r : LLMInstanceReconciler) (inst : LLMInstance) (sel : Selection) :
  let st := Status inst in
  selectSlug r inst = Ok sel <->
  Select (rec_SlugPolicy r) (inst_Meta inst) = Ok sel /\
  (Slug st = "" \/ Slug st = sel_Slug sel) /\
  (ActiveBYOCSlug st = "" \/ ActiveBYOCSlug st = sel_Slug sel) /\
  (sel_Source sel = Derived -> Slug st = "" ->
   Endpoint st = "" /\ ActiveBYOCSlug st = "" /\ ActiveBYOCKubeconfigSecretName st = "").
Proof.
  cbv zeta. unfold selectSlug. destruct (Select _ _) as [s | err]; [| by split; [| intros []]].
  destruct (bool_decide (sel_Source s = Derived) && _ && _) eqn:E1.
  - split; [done |]. intros ([= <-] & _ & _ & Hd). exfalso.
    apply andb_true_iff in E1 as [[?%bool_decide_eq_true ?%bool_decide_eq_true]%andb_true_iff E1].
    destruct Hd as (H1 & H2 & H3); [done | done |]. by rewrite H1, H2, H3 in E1.
  - destruct ((negb _ && _) || _) eqn:E2.
    + split; [done |]. intros ([= <-] & H1 & H2 & _). exfalso.
      apply orb_true_iff in E2 as [E2 | E2]; bool_props; tauto.
    + split.
      * intros [= <-]. apply orb_false_iff in E2 as [E2 E3].
        split_and!; [done | | |].
        -- apply andb_false_iff in E3 as [E3 | E3]; bool_props; tauto.
        -- apply andb_false_iff in E2 as [E2 | E2]; bool_props; tauto.
        -- intros Hs Hd. rewrite !bool_decide_true in E1 by done. cbn in E1.
           apply orb_false_iff in E1 as [[E4 E5]%orb_false_iff E6]. by bool_props.
      * by intros [[= <-] _].
Qed.

Section Persist.
  Variable rc : LLMInstanceReconciler.
  Variable inst : LLMInstance.

(** Only the two slug fields of the status are patched, from the object read. *)
Definition slug_patch (_ : history) (e : event) : Prop :=
  read_only e \/
  exists sel, selectSlug rc inst = Ok sel /\
    e = EPatchStatus Cached KInstance inst
          (inst <| Status -> Slug := sel_Slug sel |> <| Status -> SlugSource := sel_Source sel |>).

(** What [ensureSlug] hands on. *)
Definition slug_settled (h h' : history) (inst' : LLMInstance) (r : res (string * bool)) : Prop :=
  match r with
  | Ok (slug, false) =>
      h' = h /\ inst' = inst /\ Slug (Status inst) = slug /\
      selectSlug rc inst = Ok {| sel_Slug := slug; sel_Source := SlugSource (Status inst) |}
  | Ok (slug, true) =>
      exists persisted, saw h' (EGet (routeReader rc) KInstance (instance_key inst)) (Ok persisted) /\
        UID (inst_Meta persisted) = UID (inst_Meta inst) /\ instance_key persisted = instance_key inst /\
        selectSlug rc inst = Ok {| sel_Slug := slug; sel_Source := SlugSource (Status persisted) |} /\
        Slug (Status persisted) = slug
  | Err _ => True
  end.

Lemma ensureSlug_safe (h : history) :
  safe (recording slug_patch) h (ensureSlug rc inst) (fun h' '(inst', r) => slug_settled h h' inst' r).
Proof.
  unfold ensureSlug. destruct (selectSlug rc inst) as [[slug source] | err] eqn:Es; [| done].
  cbn [sel_Slug sel_Source]. case_match eqn:E.
  - bool_props. subst. cbn. split_and!; congruence.
  - on_call patched; [right; by eexists |]. destruct patched as [inst' | err]; [| done].
    on_call got; [by left |]. destruct got as [persisted | err]; [| done].
    case_match eqn:E1; [done |]. case_match eqn:E2; [done |]. bool_props. subst.
    exists persisted. split_and!; try done. apply saw_here.
Qed.

(** A slug is handed on only when the status already records it, without any call,
    or after it was patched and a live read of the same instance showed it persisted,
    in which case the caller requeues; the patch touches nothing but the slug. *)
Theorem ensureSlug_persisted :
  safe (recording slug_patch) [] (ensureSlug rc inst) (fun h '(inst', r) => slug_settled [] h inst' r).
Proof. apply ensureSlug_safe. Qed.

End Persist.

Section Reject.
  Context `{KubeLib}.
  Variable rc : LLMInstanceReconciler.
  Variable inst : LLMInstance.

(** The instance's own named Ingress at the revision read, and a status that is not
    Ready and publishes no endpoint. *)
Inductive withdrawal (h : history) : event -> Prop :=
| wd_read e : read_only e -> withdrawal h e
| wd_route ing :
    saw h (EGet (routeReader rc) KIngress (key_of (Namespace (inst_Meta inst)) (llama_name inst))) (Ok ing) ->
    ownsSlugIngress inst ing = true ->
    withdrawal h (EDelete Cached KIngress ing
      {| pre_UID := Some (UID (ing_Meta ing)); pre_ResourceVersion := Some (ResourceVersion (ing_Meta ing)) |})
| wd_status now reason message :
    withdrawal h (EUpdateStatus Cached KInstance
      (with_status inst now ConditionFalse "Provisioning" "" reason message)).

Lemma withdraw_safe (h0 : history) (cause : error) :
  safe (recording withdrawal) h0 (rejectSlug rc inst cause) (fun _ out =>
    errors_Is cause errSlugRejection = true -> exists e, out = Some e /\ errors_Is e errSlugRejection = true).
Proof.
  unfold rejectSlug, updateProvisioningStatus. 
  destruct (negb (errors_Is cause errSlugRejection)) eqn:Hn; [apply negb_true_iff in Hn; cbn; by rewrite Hn |].
  assert (Hend : forall h routeErr, safe (recording withdrawal) h
    (let! stored := (let! now := call ENow in
       call (EUpdateStatus Cached KInstance
         (with_status inst now ConditionFalse "Provisioning" ""
           "SlugOwnershipError" "Inference identity requires a valid operator policy and an exclusively owned route"))) in
     mret (errors_Join [Some cause; routeErr; err_of stored]))
    (fun _ out => errors_Is cause errSlugRejection = true ->
       exists e, out = Some e /\ errors_Is e errSlugRejection = true)).
  { intros h routeErr. apply safe_bind. on_call now; [by apply wd_read |]. split; [apply wd_status |].
    intros stored Hc. unfold errors_Join. cbn [omap list_omap id]. eexists. split; [reflexivity |].
    by rewrite errors_Is_join_cons, Hc. }
  apply safe_bind. split; [by apply wd_read |]. intros got. cbn [safe advance recording]. apply safe_bind.
  destruct got as [ing | err]; [| exact (Hend _ (IgnoreNotFound (Some err)))].
  destruct (ownsSlugIngress inst ing) eqn:Ho; cbn [negb]; [| exact (Hend _ (Some errSlugRouteOwnership))].
  on_call deleted; [by apply wd_route; [apply saw_here |] |]. exact (Hend _ (IgnoreNotFound deleted)).
Qed.

(** A failure that does not establish an unsafe identity is returned untouched,
    without any call; an unsafe identity is reported as such after withdrawing at most
    the instance's own route, pinned to the revision read, and its endpoint. *)
Theorem rejectSlug_spec (cause : error) :
  (errors_Is cause errSlugRejection = false -> rejectSlug rc inst cause = mret (Some cause)) /\
  (errors_Is cause errSlugRejection = true ->
   safe (recording withdrawal) [] (rejectSlug rc inst cause) (fun _ out =>
     exists e, out = Some e /\ errors_Is e errSlugRejection = true)).
Proof.
  split; [unfold rejectSlug; by intros -> |]. intros Hc.
  eapply safe_mono; [apply withdraw_safe |]. cbv beta. auto.
Qed.

End Reject.
