(* ===== verification/Runtime.v ===== *)
(** * The operator process

    [cmd/main.go]: the client that labels every object the operator writes, and
    [runOperator], which runs the manager and the authentication server under one
    context.  The two services are part of the environment of [runOperator]: they may
    return any error at any time; its own steps interleave with theirs. *)

From S2P Require Import Prelude GoStd GoError Kube Api Io.

(** ** The labelling client *)

Definition defaultAppName : string := "private-llm".
Definition defaultPartOf : string := "private-llm".
Definition defaultManagedBy : string := "private-llm-operator".

Definition baseLabels (version : string) : gmap string string :=
  let base := <["app.kubernetes.io/name" := defaultAppName]>
             (<["app.kubernetes.io/part-of" := defaultPartOf]>
              {[ "app.kubernetes.io/managed-by" := defaultManagedBy ]}) in
  if bool_decide (version = "") then base else <["app.kubernetes.io/version" := version]> base.

(** Labels the object has win over the base labels; empty base labels are skipped. *)
Definition ensureLabels (base : gmap string string) (m : ObjectMeta) : ObjectMeta :=
  if bool_decide (base = ∅) then m
  else m <| Labels ::= fun labels => labels ∪ filter (fun kv => kv.2 <> "") base |>.

Definition label_object (base : gmap string string) (K : kind) : obj K -> obj K :=
  match K return obj K -> obj K with
  | KInstance => fun o => o <| inst_Meta ::= ensureLabels base |>
  | KTokenRequest => fun o => o <| tr_Meta ::= ensureLabels base |>
  | KSecret => fun o => o <| sec_Meta ::= ensureLabels base |>
  | KIngress => fun o => o <| ing_Meta ::= ensureLabels base |>
  | KDeployment => fun o => o <| d_Meta ::= ensureLabels base |>
  | KService => fun o => o <| svc_Meta ::= ensureLabels base |>
  | KEndpoints => fun o => o <| ep_Meta ::= ensureLabels base |>
  | KMiddleware => fun o => o <| mw_Meta ::= ensureLabels base |>
  | KNamespace => fun o => o <| ns_Meta ::= ensureLabels base |>
  | KConfigMap => fun o => o <| cm_Meta ::= ensureLabels base |>
  | KCertificate => fun o => o <| crt_Meta ::= ensureLabels base |>
  | KDNSEntry => fun o => o <| dns_Meta ::= ensureLabels base |>
  end.

(** [labelingClient]: creations and updates through the manager's client carry the
    labels; its status client, the API reader and remote clients are not wrapped. *)
Definition label_call {A} (base : gmap string string) (e : event) : (answer e -> io A) -> io A :=
  match e as e return (answer e -> io A) -> io A with
  | ECreate Cached K o => fun k => Vis (ECreate Cached K (label_object base K o)) k
  | EUpdate Cached K o => fun k => Vis (EUpdate Cached K (label_object base K o)) k
  | e => fun k => Vis e k
  end.

Fixpoint labelled {A} (base : gmap string string) (m : io A) : io A :=
  match m with
  | Ret a => Ret a
  | Vis e k => label_call base e (fun r => labelled base (k r))
  end.

(** ** Running both services *)

(** What the goroutine makes of the result of [startAuth]; [cancelled] is
    [runtimeCtx.Err() != nil] when it looks. *)
Definition classify (cancelled : bool) (err : option error) : option error :=
  let err := match err with
             | Some e => if errors_Is e ErrServerClosed then None else Some e
             | None => None
             end in
  let err := match err with
             | None => if cancelled then None
                       else Some (ErrText "listener stopped without runtime cancellation")
             | Some e => Some e
             end in
  match err with
  | Some e => Some (ErrWrapf ("authentication server: " +:+ error_text e) [e])
  | None => None
  end.

(** The goroutine: serving, back from [startAuth] with its error, having classified it
    (with what it saw of the context), having sent it, having cancelled. *)
Inductive auth_pc :=
| Serving
| AuthReturned (raw : option error)
| Classified (raw : option error) (cancelled : bool)
| Sent (raw : option error) (cancelled : bool)
| AuthDone (raw : option error) (cancelled : bool).

(** The caller: in [startManager], back from it, waiting for the channel, returned. *)
Inductive main_pc :=
| Managing
| ManagerReturned (err : option error)
| Receiving (err : option error)
| Returned (err : option error) (result : option error).

Record runtime := {
  signalled : bool;                          (* the parent context is cancelled *)
  cancelled : bool;                          (* runtimeCtx.Err() != nil *)
  auth : auth_pc;
  authStopped : option (option error);       (* the channel, of capacity one *)
  main : main_pc;
}.

Definition started : runtime :=
  {| signalled := false; cancelled := false; auth := Serving; authStopped := None; main := Managing |}.

(** A step of [runOperator] itself. *)
Inductive internal : runtime -> runtime -> Prop :=
| do_classify s raw :
    auth s = AuthReturned raw -> internal s (s <| auth := Classified raw (cancelled s) |>)
| do_send s raw c :
    auth s = Classified raw c -> authStopped s = None ->
    internal s (s <| auth := Sent raw c |> <| authStopped := Some (classify c raw) |>)
| do_auth_cancel s raw c :
    auth s = Sent raw c -> internal s (s <| auth := AuthDone raw c |> <| cancelled := true |>)
| do_main_cancel s err :
    main s = ManagerReturned err -> internal s (s <| main := Receiving err |> <| cancelled := true |>)
| do_receive s err e :
    main s = Receiving err -> authStopped s = Some e ->
    internal s (s <| main := Returned err (errors_Join [err; e]) |> <| authStopped := None |>).

(** A step of the process signal or of a service. *)
Inductive external : runtime -> runtime -> Prop :=
| signal s : signalled s = false -> external s (s <| signalled := true |> <| cancelled := true |>)
| auth_returns s raw : auth s = Serving -> external s (s <| auth := AuthReturned raw |>)
| manager_returns s err : main s = Managing -> external s (s <| main := ManagerReturned err |>).

Definition step (s s' : runtime) : Prop := internal s s' \/ external s s'.

(** Runs of a given number of steps. *)
Inductive runs : nat -> runtime -> Prop :=
| runs_start : runs 0 started
| runs_step n s s' : runs n s -> step s s' -> runs (S n) s'.
