(* ===== verification/RuntimeFacts.v ===== *)
(** * The operator process: labels never get in the way, and shutdown is joined

    The labelling client changes nothing but missing labels of what is written;
    [runOperator] loses no error, cancels the other service when one stops, and cannot
    get stuck. *)

From S2P Require Import Prelude GoStd GoError Kube Api Io Runtime.

(** ** Labels *)

Lemma ensureLabels_lookup (base : gmap string string) (m : ObjectMeta) (k : string) :
  Labels (ensureLabels base m) !! k =
  match Labels m !! k with
  | Some v => Some v
  | None => match base !! k with Some v => if bool_decide (v = "") then None else Some v | None => None end
  end.
Proof.
  unfold ensureLabels. case_bool_decide as E.
  - subst base. rewrite lookup_empty. by destruct (Labels m !! k).
  - destruct m; cbn. rewrite lookup_union, map_lookup_filter.
    destruct (_ !! k); destruct (base !! k) as [v|]; cbn; try done; try (by destruct (_ !! k));
      destruct (decide (v = "")) as [-> | Hv]; rewrite ?option_guard_True, ?option_guard_False by naive_solver;
      rewrite ?bool_decide_true, ?bool_decide_false by done; done.
Qed.

Lemma ensureLabels_rest (base : gmap string string) (m : ObjectMeta) :
  ensureLabels base m = m <| Labels := Labels (ensureLabels base m) |>.
Proof. unfold ensureLabels. case_bool_decide; by destruct m. Qed.

(** The environment as an unlabelled handler meets it behind the labelling client. *)
Definition behind (base : gmap string string) (O : oracle) : oracle := fun e =>
  match e as e return answer e with
  | ECreate Cached K o => O (ECreate Cached K (label_object base K o))
  | EUpdate Cached K o => O (EUpdate Cached K (label_object base K o))
  | e => O e
  end.

Definition label_event (base : gmap string string) (e : event) : event :=
  match e with
  | ECreate Cached K o => ECreate Cached K (label_object base K o)
  | EUpdate Cached K o => EUpdate Cached K (label_object base K o)
  | e => e
  end.

Lemma label_call_run {A} (base : gmap string string) (O : oracle) (e : event) (k : answer e -> io A) :
  run_oracle O (label_call base e k) = run_oracle O (k (behind base O e)) /\
  calls O (label_call base e k) = label_event base e :: calls O (k (behind base O e)).
Proof. by destruct e as [| |[]|[]| | | | | | |]. Qed.

(** Running a handler with the labelling client is running it as modelled: same
    result, same calls, save that created and updated objects carry the base labels;
    what the theorems show of every environment so holds of the labelled operator. *)
Theorem labelled_simulates {A} (base : gmap string string) (O : oracle) (m : io A) :
  run_oracle O (labelled base m) = run_oracle (behind base O) m /\
  calls O (labelled base m) = label_event base <$> calls (behind base O) m.
Proof.
  induction m as [a | e k IH]; [done |]. cbn [labelled].
  destruct (label_call_run base O e (fun r => labelled base (k r))) as [-> ->].
  destruct (IH (behind base O e)) as [-> ->]. done.
Qed.

(** Labelling keeps every label an object has and every other field, adds exactly
    the non-empty base labels it misses, and a second labelling changes nothing. *)
Theorem ensureLabels_spec (base : gmap string string) (m : ObjectMeta) :
  (forall k, Labels (ensureLabels base m) !! k =
     match Labels m !! k, base !! k with
     | Some v, _ => Some v
     | None, Some v => if bool_decide (v = "") then None else Some v
     | None, None => None
     end) /\
  ensureLabels base m = m <| Labels := Labels (ensureLabels base m) |> /\
  ensureLabels base (ensureLabels base m) = ensureLabels base m.
Proof.
  split_and!.
  - intros k. rewrite ensureLabels_lookup. by destruct (Labels m !! k), (base !! k).
  - apply ensureLabels_rest.
  - assert (E : Labels (ensureLabels base (ensureLabels base m)) = Labels (ensureLabels base m)).
    { apply map_eq. intros k. rewrite !ensureLabels_lookup. by repeat (case_match || case_bool_decide). }
    rewrite (ensureLabels_rest base (ensureLabels base m)), E. by destruct (ensureLabels base m).
Qed.

(** ** One shutdown for both services *)

Definition clean (raw : option error) : Prop :=
  match raw with Some e => errors_Is e ErrServerClosed = true | None => True end.

Lemma classify_None (c : bool) (raw : option error) :
  classify c raw = None <-> clean raw /\ c = true.
Proof.
  unfold classify, clean. destruct raw as [e|]; [destruct (errors_Is e ErrServerClosed) eqn:E |];
    destruct c; cbn; naive_solver.
Qed.

Lemma classify_Is (c : bool) (e : error) (t : sentinel) :
  errors_Is e ErrServerClosed = false -> errors_Is e t = true ->
  exists w, classify c (Some e) = Some w /\ errors_Is w t = true.
Proof. unfold classify. intros -> Ht. eexists; split; [reflexivity |]. cbn. by rewrite Ht. Qed.

(** What [startManager] and [startAuth] came back with, and what was seen of the
    context then. *)
Definition manager_result (s : runtime) : option (option error) :=
  match main s with
  | Managing => None
  | ManagerReturned err | Receiving err | Returned err _ => Some err
  end.

Definition auth_result (s : runtime) : option (option error) :=
  match auth s with
  | Serving => None
  | AuthReturned raw | Classified raw _ | Sent raw _ | AuthDone raw _ => Some raw
  end.

Definition auth_saw (s : runtime) : bool :=
  match auth s with
  | Serving | AuthReturned _ => false
  | Classified _ c | Sent _ c | AuthDone _ c => c
  end.

Definition sent (s : runtime) : option (option error) :=
  match auth s with
  | Sent raw c | AuthDone raw c => Some (classify c raw)
  | _ => None
  end.

(** The channel holds the sent error until the caller has it; the context is cancelled
    once a service was seen to stop, and by nothing else than that or the signal. *)
Record consistent_runtime (s : runtime) : Prop := {
  ri_channel : match main s with
               | Returned err r => authStopped s = None /\ exists e, sent s = Some e /\ r = errors_Join [err; e]
               | _ => authStopped s = sent s
               end;
  ri_signal : signalled s = true -> cancelled s = true;
  ri_auth : match auth s with AuthDone _ _ => cancelled s = true | _ => True end;
  ri_main : match main s with Receiving _ | Returned _ _ => cancelled s = true | _ => True end;
  ri_cause : cancelled s = true -> signalled s = true \/ is_Some (manager_result s) \/
                                   match auth s with AuthDone _ _ => True | _ => False end;
  ri_saw : auth_saw s = true -> signalled s = true \/ is_Some (manager_result s);
}.

Lemma runtime_step (s s' : runtime) : consistent_runtime s -> step s s' -> consistent_runtime s'.
Proof.
  destruct s as [sg cc au ch mn]. intros [I1 I2 I3 I4 I5 I6] Hs.
  unfold manager_result, sent, auth_saw in *.
  destruct Hs as [Hs | Hs]; inversion Hs; subst; clear Hs; cbn in *; subst; (split; unfold manager_result, sent, auth_saw; cbn).
  all: try by destruct au.
  all: first [by destruct mn; naive_solver | naive_solver].
Qed.

Lemma runtime_invariant (n : nat) (s : runtime) : runs n s -> consistent_runtime s.
Proof. induction 1 as [| n s s' _ IH Hs]; [by split | by eapply runtime_step]. Qed.

Lemma joined_Is (a b : option error) (e : error) (t : sentinel) :
  errors_Join [a; b] = Some e ->
  (exists x, a = Some x /\ errors_Is x t = true) \/ (exists x, b = Some x /\ errors_Is x t = true) ->
  errors_Is e t = true.
Proof.
  intros Hj Hx. assert (e = ErrJoin (omap id [a; b])) as -> by (destruct a, b; cbn in *; congruence).
  apply errors_Is_join. destruct Hx as [(x & -> & Hx) | (x & -> & Hx)]; exists x; split; try done;
    destruct a || destruct b; set_solver.
Qed.

Lemma returned_result (n : nat) (s : runtime) (err r : option error)
  (Hr : runs n s) (Hm : main s = Returned err r) :
  cancelled s = true /\
  exists raw, auth_result s = Some raw /\
    (r = None <-> err = None /\ clean raw /\ auth_saw s = true) /\
    (forall e t, r = Some e ->
       (exists x, err = Some x /\ errors_Is x t = true) \/
       (exists x, raw = Some x /\ errors_Is x ErrServerClosed = false /\ errors_Is x t = true) ->
       errors_Is e t = true).
Proof.
  destruct (runtime_invariant n s Hr) as [I1 I2 I3 I4 I5 I6]. rewrite Hm in *.
  split; [done |]. destruct I1 as (_ & e & He & ->).
  unfold sent, auth_result, auth_saw in *. destruct (auth s) as [| | | raw c | raw c]; try done.
  all: injection He as <-; exists raw; split; [done |].
  all: rewrite errors_Join_None, !Forall_cons, Forall_nil, classify_None.
  all: split; [tauto |]; intros e t Hj Hx; apply (joined_Is _ _ _ _ Hj).
  all: destruct Hx as [(x & -> & Hx) | (x & -> & Hx & Hy)]; [by left; exists x | right].
  all: by destruct (classify_Is c x t Hx Hy) as (w & -> & Hw); exists w.
Qed.

(** What [runOperator] returns: the error of the manager joined with that of the
    authentication server.  It is nil only when the manager returned nil and the server
    was stopped cleanly by a shutdown the signal or the manager asked for; and no error
    of either is lost. *)
Theorem runOperator_result (n : nat) (s : runtime) (err r : option error)
  (Hr : runs n s) (Hm : main s = Returned err r) :
  cancelled s = true /\
  exists raw, auth_result s = Some raw /\
    (r = None <-> err = None /\ clean raw /\ auth_saw s = true) /\
    (forall e t, r = Some e ->
       (exists x, err = Some x /\ errors_Is x t = true) \/
       (exists x, raw = Some x /\ errors_Is x ErrServerClosed = false /\ errors_Is x t = true) ->
       errors_Is e t = true).
Proof. by apply (returned_result n). Qed.

(** Nothing is left for [runOperator] itself to do. *)
Definition waiting (s : runtime) : Prop := forall s', ~ internal s s'.

(** Both services run and nothing asked them to stop; or the context is cancelled and
    [runOperator] waits for exactly the services still running; or it has returned. *)
Definition settled (s : runtime) : Prop :=
  match main s, auth s with
  | Managing, Serving => True
  | Managing, AuthDone _ _ => cancelled s = true
  | Receiving _, Serving => cancelled s = true
  | Returned _ _, AuthDone _ _ => cancelled s = true
  | _, _ => False
  end.

(** The steps left to a run. *)
Definition steps_left (s : runtime) : nat :=
  (if signalled s then 0 else 1) +
  match auth s with Serving => 4 | AuthReturned _ => 3 | Classified _ _ => 2 | Sent _ _ => 1 | AuthDone _ _ => 0 end +
  match main s with Managing => 3 | ManagerReturned _ => 2 | Receiving _ => 1 | Returned _ _ => 0 end.

Lemma step_progresses (s s' : runtime) : step s s' -> steps_left s = S (steps_left s').
Proof.
  destruct s as [[] cc au ch mn]; intros [Hs | Hs]; inversion Hs; subst; clear Hs; cbn in *;
    subst; done || (unfold steps_left; cbn; lia).
Qed.

Lemma runs_bound (n : nat) (s : runtime) : runs n s -> n + steps_left s = 8.
Proof. induction 1 as [| n s s' _ IH Hs]; [done |]. apply step_progresses in Hs. lia. Qed.

(** [runOperator] never gets stuck on its own: whenever it has no step of its own
    left, it has returned with the goroutine finished, or both services run, or it
    waits for a service that runs under a cancelled context; so one service stopping
    stops the other, and every run takes at most eight steps. *)
Theorem runOperator_shutdown (n : nat) (s : runtime) (Hr : runs n s) :
  n <= 8 /\ (waiting s -> settled s).
Proof.
  split.
  - apply runs_bound in Hr. clear -Hr. lia.
  - intros Hw. destruct (runtime_invariant n s Hr) as [I1 I2 I3 I4 I5 I6]. unfold settled, sent in *.
    destruct (auth s) as [| raw | raw c | raw c | raw c] eqn:Ea.
    2: by destruct (Hw _ (do_classify s raw Ea)).
    3: by destruct (Hw _ (do_auth_cancel s raw c Ea)).
    all: destruct (main s) as [| err | err | err r] eqn:Em; try done.
    all: try (by destruct (Hw _ (do_main_cancel s err Em))).
    all: try (by destruct (Hw _ (do_send s raw c Ea I1))).
    all: try (by destruct (Hw _ (do_receive s err _ Em I1))).
    all: destruct I1 as (_ & e & [=] & _).
Qed.

(** ** A run: the listener fails to bind while the manager runs *)

Definition bind_failure : error := ErrText "listen tcp :8090: bind: address already in use".

Definition failed_run : runtime :=
  {| signalled := false; cancelled := true; auth := AuthDone (Some bind_failure) false; authStopped := None;
     main := Returned None (errors_Join [None; classify false (Some bind_failure)]) |}.

Lemma failed_run_ok : runs 7 failed_run.
Proof.
  eapply runs_step; [| left; by eapply (do_receive {| authStopped := Some (classify false (Some bind_failure)) |})].
  eapply runs_step; [| left; by eapply (do_main_cancel {| main := ManagerReturned None |})].
  eapply runs_step; [| right; by eapply (manager_returns {| main := Managing |})].
  eapply runs_step; [| left; by eapply (do_auth_cancel {| auth := Sent (Some bind_failure) false |})].
  eapply runs_step; [| left; by eapply (do_send {| auth := Classified (Some bind_failure) false |})].
  eapply runs_step; [| left; by eapply (do_classify {| auth := AuthReturned (Some bind_failure); cancelled := false |})].
  eapply runs_step; [| right; by eapply (auth_returns started)].
  apply runs_start.
Qed.

Lemma runOperator_result_witness :
  exists e, errors_Join [None; classify false (Some bind_failure)] = Some e.
Proof.
  destruct (runOperator_result 7 failed_run None (errors_Join [None; classify false (Some bind_failure)])
              failed_run_ok eq_refl) as (_ & raw & Hraw & _).
  injection Hraw as <-. eexists. reflexivity.
Defined.

Lemma runOperator_shutdown_witness : settled failed_run.
Proof.
  apply (runOperator_shutdown 7 failed_run failed_run_ok).
  intros s' H. inversion H; simplify_eq/=.
Defined.
