(* ===== verification/ClusterLabels.v ===== *)
(** * The labelling client in front of a working API server

    What the operator writes passes through the labelling client ([Runtime]).  Behind it
    the operator still meets a working API server, so what [HostedProgress],
    [TokenProgress] and [Revocation] show of every such server holds of the operator as
    [main] sets it up. *)

From S2P Require Import Prelude GoStd GoError Kube KubeRef Api Io Names SlugPolicy Model SlugRoute Workload WorkloadFacts Routing Cluster ClusterRef Runtime RuntimeFacts.

(** The server as the handlers meet it behind the client. *)
Definition labelling {S : Type} (base : gmap string string) (E : env S) : env S := fun e =>
  match e as e return S -> S * answer e with
  | ECreate Cached K o => E (ECreate Cached K (label_object base K o))
  | EUpdate Cached K o => E (EUpdate Cached K (label_object base K o))
  | e => E e
  end.

Lemma label_call_env {S A : Type} (base : gmap string string) (E : env S) s (e : event) (k : answer e -> io A) :
  run E s (label_call base e k) = run E (labelling base E e s).1 (k (labelling base E e s).2).
Proof. destruct e as [| |[]|[]| | | | | | |]; cbn; by destruct (E _ s). Qed.

Lemma labelled_run {S A : Type} (base : gmap string string) (E : env S) s (m : io A) :
  run E s (labelled base m) = run (labelling base E) s m.
Proof.
  revert s. induction m as [a | e k IH]; intros s; [done |]. cbn [labelled run]. rewrite label_call_env, IH.
  by destruct (labelling base E e s).
Qed.

Lemma label_meta (base : gmap string string) (K : kind) (o : obj K) :
  meta_of K (label_object base K o) = ensureLabels base (meta_of K o).
Proof. by destruct K, o. Qed.

Lemma labels_kept (base : gmap string string) (m : ObjectMeta) : meta_kept m (ensureLabels base m).
Proof.
  split; [rewrite ensureLabels_rest; by destruct m |]. apply map_subseteq_spec. intros k v Hv. by rewrite ensureLabels_lookup, Hv.
Qed.

Lemma meta_kept_trans m m' m'' : meta_kept m m' -> meta_kept m' m'' -> meta_kept m m''.
Proof. intros [E1 L1] [E2 L2]. split; [congruence | by etransitivity]. Qed.

Lemma labels_replaced (base : gmap string string) (m : ObjectMeta) rv ls :
  (ensureLabels base m) <| ResourceVersion := rv |> <| Labels := ls |> = m <| ResourceVersion := rv |> <| Labels := ls |>.
Proof. rewrite (ensureLabels_rest base m). by destruct m. Qed.

(** What is stored for the labelled object is stored for the object. *)
Lemma stored_labelled (base : gmap string string) (K : kind) (o o' : obj K) :
  stored_as K (label_object base K o) o' -> stored_as K o o'.
Proof.
  pose proof (fun m' => meta_kept_trans (meta_of K o) _ m' (labels_kept base (meta_of K o))) as Ht.
  pose proof (labels_replaced base (meta_of K o)) as Hr. pose proof (proj2 (labels_kept base (meta_of K o))) as Hl.
  destruct K, o; cbn -[ensureLabels meta_kept] in *; try apply Ht.
  - intros (rv & ls & Hs & ->). exists rv, ls. split; [by etransitivity |]. f_equal. apply Hr.
  - intros (rv & ls & Hs & ->). exists rv, ls. split; [by etransitivity |]. f_equal. apply Hr.
  - intros (Hm & Hs). split; [by apply Ht | exact Hs].
  - intros (Hm & ->). split; [by apply Ht | done].
  - intros (Hm & Hs). split; [by apply Ht | exact Hs].
  - intros (Hm & ->). split; [by apply Ht | done].
Qed.

(** Labels aside the object is as it was. *)
Lemma labels_only (base : gmap string string) (K : kind) (o : obj K) :
  key_of_obj K (label_object base K o) = key_of_obj K o /\
  ResourceVersion (meta_of K (label_object base K o)) = ResourceVersion (meta_of K o) /\
  DeletionTimestamp (meta_of K (label_object base K o)) = DeletionTimestamp (meta_of K o) /\
  Finalizers (meta_of K (label_object base K o)) = Finalizers (meta_of K o).
Proof. unfold key_of_obj. rewrite label_meta, ensureLabels_rest. by destruct (meta_of K o). Qed.

Lemma labels_status (base : gmap string string) (K : kind) (o old : obj K) :
  same_status K o old -> same_status K (label_object base K o) old.
Proof. by destruct K, o. Qed.

Section Labelled.
  Context {HK : KubeLib} {S : Type} {E : env S} {find : S -> forall K : kind, ObjectKey -> option (obj K)}.
  Variable base : gmap string string.

Lemma accepted_labelled K (o : obj K) s s' r : accepted find K (label_object base K o) s s' r -> accepted find K o s s' r.
Proof.
  destruct (labels_only base K o) as [Hk _]. intros (o' & -> & Hs & Hf & Ho). rewrite Hk in Hf, Ho.
  exists o'. split_and!; [done | by eapply stored_labelled | done | done].
Qed.

Lemma labelling_works : ApiServer E find -> ApiServer (labelling base E) find.
Proof.
  intros HS. split.
  - apply (find_key (E := E)).
  - intros e s He. destruct e; try discriminate He; exact (read_keeps (E := E) (find := find) _ s He).
  - intros s c. apply (get_found (E := E) (find := find)).
  - intros s c. apply (get_missing (E := E) (find := find)).
  - intros s c. apply (list_found (E := E) (find := find)).
  - intros s K o Hf. cbn [labelling]. apply accepted_labelled, (create_accepted (E := E) (find := find) s K (label_object base K o)). by rewrite (proj1 (labels_only base K o)).
  - intros s K o old Hf Hv Hst Hl. destruct (labels_only base K o) as (Ek & Ev & Ed & Ef).
    cbn [labelling]. apply accepted_labelled, (update_accepted (E := E) (find := find) s K (label_object base K o) old); [by rewrite Ek | congruence | by apply labels_status |].
    unfold stays. by rewrite Ed, Ef.
  - intros s K o old Hf Hv Hst Hd Hn Ho. destruct (labels_only base K o) as (Ek & Ev & Ed & Ef).
    cbn [labelling]. rewrite <- Ek. apply (update_releases (E := E) (find := find) s K (label_object base K o) old); [by rewrite Ek | congruence | by apply labels_status | congruence | congruence | done].
  - intros s K o old. apply (update_status_accepted (E := E) (find := find)).
  - intros s K o old. apply (patch_status_accepted (E := E) (find := find)).
  - intros s K o pre. apply (delete_done (E := E) (find := find)).
Qed.

(** C40: the labelling client does not get in the way.  Running a handler with the client
    is running it as modelled behind the client; and behind it an API server that stores
    what it accepts is one still.  What the theorems show of every environment and of
    every such server therefore holds of the operator with its labels. *)
Theorem labelled_operator {A} (s : S) (m : io A) :
  run E s (labelled base m) = run (labelling base E) s m /\
  (ApiServer E find -> ApiServer (labelling base E) find).
Proof. split; [apply labelled_run | apply labelling_works]. Qed.

End Labelled.

(** ** A label that is there wins, one that is missing is added *)

Module LabelExample.

Definition base : gmap string string := baseLabels "v1".

Definition sec : Secret := {|
  sec_Meta := empty_meta <| Name := "req-token" |> <| Namespace := "tenant-a" |> <| Labels := {[ "app.kubernetes.io/name" := "llm-token" ]} |>;
  sec_Type := "Opaque"; sec_Data := ∅; sec_StringData := {[ "OPENAI_API_KEY" := "k" ]} |}.

Definition create : io (res Secret) := call (ECreate Cached KSecret sec).

Definition stored : Listed.store := (run Listed.server [] (labelled base create)).1.

Example labels_stored :
  (fun s => (sec_Data s !! "OPENAI_API_KEY", mget (Labels (sec_Meta s)) "app.kubernetes.io/name",
             mget (Labels (sec_Meta s)) "app.kubernetes.io/managed-by")) <$> Listed.find stored KSecret (key_of "tenant-a" "req-token") =
  Some (Some "k", "llm-token", "private-llm-operator").
Proof. vm_compute. reflexivity. Qed.

End LabelExample.

Lemma labelled_operator_witness :
  run Listed.server [] (labelled LabelExample.base LabelExample.create) =
    run (labelling LabelExample.base Listed.server) [] LabelExample.create /\
  ApiServer (labelling LabelExample.base Listed.server) Listed.find.
Proof.
  destruct (labelled_operator (E := Listed.server) (find := Listed.find) LabelExample.base [] LabelExample.create) as [H1 H2].
  exact (conj H1 (H2 Listed.works)).
Defined.
