(* ===== verification/Listener.v ===== *)
(** * The life of the authentication server (internal/auth/server.go, [Start])

    [Start] runs the listener and, once its context is cancelled, a callback that shuts
    it down; it returns only when the callback has finished or will never run.  The
    server of net/http is modelled as far as [Start] uses it: [ListenAndServe] listens
    unless it is shut down and returns [ErrServerClosed] exactly when it was; [Shutdown]
    closes the listener, waits for connections until its deadline, and [Close] drops
    them.  The second half joins it to [runOperator]. *)

From S2P Require Import Prelude GoStd GoError Kube Api Io Runtime.

(** Where [Start] is: binding the address, accepting connections, back from
    [ListenAndServe], waiting for the callback, returned. *)
Inductive start_pc :=
| Binding
| Accepting
| Back (err : option error)
| Waiting (err : option error)
| Returning (err : option error).

(** The function given to [context.AfterFunc]: not started, kept from starting,
    started, inside [Shutdown], past its deadline, finished ([shutdownDone] closed). *)
Inductive callback :=
| Armed
| Disarmed
| Fired
| ShuttingDown
| TimedOut
| CallbackDone.

Record server := {
  ctx_done : bool;
  pc : start_pc;
  cb : callback;
  inShutdown : bool;
  listening : bool;
  conns : nat;
}.

Definition new_server (ctx_done : bool) : server :=
  {| ctx_done := ctx_done; pc := Binding; cb := if ctx_done then Fired else Armed; inShutdown := false;
     listening := false; conns := 0 |}.

(** Cancelling the context starts the callback, unless it was kept from starting. *)
Definition cancel (s : server) : server :=
  s <| ctx_done := true |> <| cb ::= fun c => match c with Armed => Fired | c => c end |>.

(** Steps of [Start], its callback and the library. *)
Inductive server_internal : server -> server -> Prop :=
| bind_shut s :
    pc s = Binding -> inShutdown s = true ->
    server_internal s (s <| pc := Back (Some (ErrSentinel ErrServerClosed)) |>)
| accept_shut s :
    pc s = Accepting -> inShutdown s = true ->
    server_internal s (s <| pc := Back (Some (ErrSentinel ErrServerClosed)) |> <| listening := false |>)
| begin_shutdown s :
    cb s = Fired ->
    server_internal s (s <| cb := ShuttingDown |> <| inShutdown := true |> <| listening := false |>)
| all_idle s :
    cb s = ShuttingDown -> conns s = 0 -> server_internal s (s <| cb := CallbackDone |>)
| close s :
    cb s = TimedOut -> server_internal s (s <| cb := CallbackDone |> <| conns := 0 |>)
| stop_in_time s err :
    pc s = Back err -> cb s = Armed -> server_internal s (s <| pc := Returning err |> <| cb := Disarmed |>)
| stop_too_late s err :
    pc s = Back err -> cb s <> Armed -> server_internal s (s <| pc := Waiting err |>)
| callback_finished s err :
    pc s = Waiting err -> cb s = CallbackDone -> server_internal s (s <| pc := Returning err |>).

(** Steps of the network and the clock: the address is bound or not, accepting fails, a
    connection comes or goes, the deadline of [Shutdown] passes. *)
Inductive server_external : server -> server -> Prop :=
| bound s :
    pc s = Binding -> inShutdown s = false -> server_external s (s <| pc := Accepting |> <| listening := true |>)
| bind_fails s e :
    pc s = Binding -> errors_Is e ErrServerClosed = false -> server_external s (s <| pc := Back (Some e) |>)
| accept_fails s e :
    pc s = Accepting -> inShutdown s = false -> errors_Is e ErrServerClosed = false ->
    server_external s (s <| pc := Back (Some e) |> <| listening := false |>)
| connects s :
    pc s = Accepting -> listening s = true -> server_external s (s <| conns := S (conns s) |>)
| disconnects s n :
    conns s = S n -> server_external s (s <| conns := n |>)
| deadline s :
    cb s = ShuttingDown -> server_external s (s <| cb := TimedOut |>).

Definition server_step (s s' : server) : Prop := server_internal s s' \/ server_external s s'.

(** ** The server under [runOperator] *)

(** The goroutine of [runOperator] is inside [Start] while [auth] is [Serving]; both
    see one context. *)
Record operator_process := { op : runtime; srv : server }.

Definition process_started : operator_process := {| op := started; srv := new_server false |}.

(** The context of the server after a step of [runOperator]. *)
Definition follow (r : runtime) (s : server) : server := if cancelled r then cancel s else s.

Inductive process_step : operator_process -> operator_process -> Prop :=
| server_moves p s' :
    server_step (srv p) s' -> process_step p (p <| srv := s' |>)
| server_returns p err :
    auth (op p) = Serving -> pc (srv p) = Returning err ->
    process_step p (p <| op := (op p) <| auth := AuthReturned err |> |>)
| operator_moves p r' :
    internal (op p) r' -> process_step p {| op := r'; srv := follow r' (srv p) |}
| process_signalled p :
    signalled (op p) = false ->
    process_step p {| op := (op p) <| signalled := true |> <| cancelled := true |>; srv := cancel (srv p) |}
| manager_stops p err :
    main (op p) = Managing -> process_step p (p <| op := (op p) <| main := ManagerReturned err |> |>).

Inductive process_runs : operator_process -> Prop :=
| process_runs_start : process_runs process_started
| process_runs_step p p' : process_runs p -> process_step p p' -> process_runs p'.
