(* ===== verification/ListenerFacts.v ===== *)
(** * Stopping the authentication server

    [Start] returns with its listener closed and its callback finished or never started;
    when it returns [ErrServerClosed] the context was cancelled and no connection is
    left.  After a failure to accept connections are left: [accept_failure_abandons].
    Under [runOperator] this makes the process a refinement of the runtime. *)

From S2P Require Import Prelude GoStd GoError Kube Api Io Runtime RuntimeFacts Listener.

(** ** The server alone *)

(** The callback has begun to shut the server down. *)
Definition shut (c : callback) : bool :=
  match c with ShuttingDown | TimedOut | CallbackDone => true | _ => false end.

(** What [ListenAndServe] came back with. *)
Definition served (p : start_pc) : option (option error) :=
  match p with Back err | Waiting err | Returning err => Some err | _ => None end.

(** Where the callback can be when [Start] is at [p]. *)
Definition callback_at (p : start_pc) (c : callback) : Prop :=
  match p, c with
  | Waiting _, (Armed | Disarmed) => False
  | Returning _, (Disarmed | CallbackDone) => True
  | Returning _, _ => False
  | _, Disarmed => False
  | _, _ => True
  end.

Record server_ok (s : server) : Prop := {
  so_shut : inShutdown s = shut (cb s);
  so_ctx : match cb s with Armed => ctx_done s = false | Disarmed => True | _ => ctx_done s = true end;
  so_listening : listening s = match pc s with Accepting => negb (inShutdown s) | _ => false end;
  so_idle : match cb s with CallbackDone => conns s = 0 | _ => True end;
  so_callback : callback_at (pc s) (cb s);
  so_served : forall err, served (pc s) = Some err ->
    exists e, err = Some e /\ (errors_Is e ErrServerClosed = true -> inShutdown s = true);
}.

Lemma server_ok_new (c : bool) : server_ok (new_server c).
Proof. by destruct c; split. Qed.

Lemma served_error (e : error) (b : bool) :
  errors_Is e ErrServerClosed = false \/ b = true ->
  forall err, Some (Some e) = Some err -> exists e, err = Some e /\ (errors_Is e ErrServerClosed = true -> b = true).
Proof. intros He err [= <-]. exists e. split; [done |]. destruct He as [-> | ->]; done. Qed.

Lemma server_ok_step (s s' : server) : server_ok s -> server_step s s' -> server_ok s'.
Proof.
  destruct s as [cd p c sh li n]. intros [I1 I2 I3 I4 I5 I6] Hs. cbn in *.
  destruct Hs as [Hs | Hs]; inversion Hs; subst; clear Hs; cbn in *; subst; split; cbn; try done.
  all: try (apply served_error; by auto).
  all: try (by destruct p).
  all: try (by destruct c).
  intros err (e & -> & _)%I6. by exists e.
Qed.

Lemma server_ok_cancel (s : server) : server_ok s -> server_ok (cancel s).
Proof.
  destruct s as [cd p c sh li n]. intros [I1 I2 I3 I4 I5 I6]. cbn in *.
  destruct c; split; cbn; try done. by destruct p.
Qed.

#[export] Hint Resolve server_ok_new server_ok_step server_ok_cancel : go.

Inductive server_runs : server -> Prop :=
| server_runs_start c : server_runs (new_server c)
| server_runs_step s s' : server_runs s -> server_step s s' -> server_runs s'
| server_runs_cancel s : server_runs s -> server_runs (cancel s).

Lemma server_invariant (s : server) : server_runs s -> server_ok s.
Proof. induction 1; eauto with go. Qed.

(** What the state is when [Start] has returned. *)
Lemma returned_ok (s : server) (err : option error) : server_ok s -> pc s = Returning err ->
  listening s = false /\ (cb s = Disarmed \/ cb s = CallbackDone /\ conns s = 0) /\
  exists e, err = Some e /\
    (errors_Is e ErrServerClosed = true -> ctx_done s = true /\ cb s = CallbackDone /\ conns s = 0).
Proof.
  intros [I1 I2 I3 I4 I5 I6] Hp. rewrite Hp in *. cbn in *. split; [done |].
  destruct (I6 err eq_refl) as (e & -> & He). split; [destruct (cb s); naive_solver |].
  exists e. split; [done |]. intros Hc. specialize (He Hc). rewrite He in I1. destruct (cb s); done.
Qed.

(** What becomes due without the network: the steps of [Start], its callback and the
    library, and the deadline of a shutdown that has begun. *)
Definition due (s s' : server) : Prop :=
  server_internal s s' \/ cb s = ShuttingDown /\ s' = s <| cb := TimedOut |>.

(** Each step but the coming and going of connections brings the end nearer. *)
Definition rank (s : server) : nat :=
  match pc s with Binding => 4 | Accepting => 3 | Back _ => 2 | Waiting _ => 1 | Returning _ => 0 end +
  match cb s with Armed => 4 | Fired => 3 | ShuttingDown => 2 | TimedOut => 1 | Disarmed | CallbackDone => 0 end.

Lemma server_step_rank (s s' : server) :
  server_step s s' -> (exists n, s' = s <| conns := n |>) \/ rank s' < rank s.
Proof.
  destruct s as [cd p c sh li n]. intros [Hs | Hs]; inversion Hs; subst; clear Hs; cbn in *; subst.
  all: try (left; by eexists).
  all: right; unfold rank; cbn; try lia.
Qed.

Lemma due_step (s s' : server) : due s s' -> server_step s s'.
Proof. intros [? | [? ->]]; [by left | right; by apply deadline]. Qed.

Lemma due_rank (s s' : server) : due s s' -> rank s' < rank s.
Proof.
  destruct s as [cd p c sh li n]. intros [Hs | [Hc ->]]; [inversion Hs; subst; clear Hs |]; cbn in *; subst;
    unfold rank; cbn; lia.
Qed.

Lemma cancel_rank (s : server) : rank (cancel s) <= rank s.
Proof. destruct s as [cd p [] sh li n]; unfold rank; cbn; lia. Qed.

(** Under a cancelled context there is always a step due, until [Start] has returned. *)
Lemma cancelled_progress (s : server) : server_ok s -> ctx_done s = true ->
  (exists err, pc s = Returning err) \/ (exists s', due s s').
Proof.
  intros [I1 I2 I3 I4 I5 I6] Hd.
  destruct (cb s) eqn:Ec; cbn in I1, I2; rewrite ?Hd in *; try done.
  - destruct (pc s) eqn:Ep; cbn in I5; try done. left. by eexists.
  - right. eexists. left. by apply begin_shutdown.
  - right. eexists. right. by split.
  - right. eexists. left. by apply close.
  - destruct (pc s) eqn:Ep; cbn in I5; try done; [| | | | left; by eexists]; right; eexists; left.
    + by apply bind_shut.
    + by apply accept_shut.
    + eapply stop_too_late; [exact Ep | by rewrite Ec].
    + by eapply callback_finished.
Qed.

(** How [Start] returned: after a shutdown, or after binding or accepting failed without one. *)
Lemma returned_cases (s : server) (err : option error) : server_ok s -> pc s = Returning err ->
  listening s = false /\ (forall s', ~ due s s') /\ exists e, err = Some e /\
    (cb s = CallbackDone /\ ctx_done s = true /\ conns s = 0 \/
     cb s = Disarmed /\ errors_Is e ErrServerClosed = false).
Proof.
  intros Hs Hp. destruct (returned_ok s err Hs Hp) as (Hl & Hcb & e & -> & He). destruct Hs as [_ Hctx _ _ _ _].
  split_and!; [done | |].
  - intros s' Hdue. destruct Hcb as [Hcb | [Hcb _]], Hdue as [Hdue | [Hdue _]]; try congruence; inversion Hdue; congruence.
  - exists e. split; [done |]. destruct Hcb as [Hcb | [Hcb Hn]]; rewrite Hcb in Hctx.
    + right. split; [done |]. destruct (errors_Is e ErrServerClosed); [| done]. destruct (He eq_refl) as (_ & E & _). congruence.
    + left. by split_and!.
Qed.

(** C39: [Start] honours its context, and returns in one of two ways.  Once it is cancelled,
    a step of [Start], its callback, the library or the deadline of the shutdown is due
    until [Start] has returned; each of these steps lowers a rank of at most eight, which
    no other step and no cancellation raises, so [Start] returns after at most eight of
    them whatever connections come and go.  When it has returned its listener is closed
    and nothing is due any more, and either its callback has finished under a cancelled
    context and no connection is left, as always when the result is [ErrServerClosed]; or
    listening ended with another error and the callback will never run: then connections
    that were open are left to themselves ([accept_failure_abandons]). *)
Theorem Start_honours_context (s : server) (Hs : server_runs s) :
  rank s <= 8 /\ rank (cancel s) <= rank s /\
  (forall s', server_step s s' -> (exists n, s' = s <| conns := n |>) /\ rank s' = rank s \/ rank s' < rank s) /\
  (forall s', due s s' -> server_step s s' /\ rank s' < rank s) /\
  (ctx_done s = true -> (exists err, pc s = Returning err) \/ (exists s', due s s')) /\
  (forall err, pc s = Returning err ->
     listening s = false /\ (forall s', ~ due s s') /\ exists e, err = Some e /\
       (cb s = CallbackDone /\ ctx_done s = true /\ conns s = 0 \/
        cb s = Disarmed /\ errors_Is e ErrServerClosed = false)).
Proof.
  pose proof (server_invariant s Hs) as Hi. split_and!.
  - unfold rank. destruct (pc s), (cb s); lia.
  - apply cancel_rank.
  - intros s' [[n ->] | ?]%server_step_rank; [left | by right]. split; [by exists n | by destruct s].
  - intros s' Hd. split; [by apply due_step | by apply due_rank].
  - by apply cancelled_progress.
  - intros err Hp. by apply returned_cases.
Qed.

(** A server that is cancelled while it serves a connection. *)
Definition interrupted : server := cancel {|
  ctx_done := false; pc := Accepting; cb := Armed; inShutdown := false; listening := true; conns := 1 |}.

Lemma interrupted_runs : server_runs interrupted.
Proof.
  apply server_runs_cancel. eapply server_runs_step; [| right; by eapply connects with (s := {| conns := 0 |})].
  eapply server_runs_step; [| right; by eapply bound with (s := new_server false)]. apply server_runs_start.
Qed.

Definition stopped : server := {|
  ctx_done := true; pc := Returning (Some (ErrSentinel ErrServerClosed)); cb := CallbackDone; inShutdown := true;
  listening := false; conns := 0 |}.

Lemma stopped_runs : server_runs stopped.
Proof.
  eapply server_runs_step; [| left; by eapply callback_finished with (s := {| cb := CallbackDone |})].
  eapply server_runs_step; [| left; by eapply close with (s := {| conns := 1; cb := TimedOut |})].
  eapply server_runs_step; [| left; by eapply stop_too_late with (s := {| pc := Back _; cb := TimedOut |})].
  eapply server_runs_step; [| left; by eapply accept_shut with (s := {| pc := Accepting; listening := false |})].
  eapply server_runs_step; [| right; by eapply deadline with (s := {| cb := ShuttingDown |})].
  eapply server_runs_step; [| left; by eapply begin_shutdown with (s := interrupted)].
  apply interrupted_runs.
Qed.

Lemma Start_honours_context_witness : listening stopped = false /\ conns stopped = 0.
Proof.
  destruct (Start_honours_context stopped stopped_runs) as (_ & _ & _ & _ & _ & H).
  destruct (H _ eq_refl) as (Hl & _ & e & _ & [(_ & _ & Hn) | [Hc _]]); [by split | discriminate Hc].
Defined.

(** Accepting fails while a connection is open: [Start] keeps its callback from running
    and returns, and the connection stays, also when the context is cancelled later. *)
Definition accept_error : error := ErrText "accept tcp: too many open files".

Definition abandoned : server := {|
  ctx_done := false; pc := Returning (Some accept_error); cb := Disarmed; inShutdown := false;
  listening := false; conns := 1 |}.

Example accept_failure_abandons :
  server_runs abandoned /\ forall s, s = abandoned \/ s = cancel abandoned -> conns s = 1 /\ forall s', ~ due s s'.
Proof.
  assert (R : server_runs abandoned).
  { eapply server_runs_step; [| left; by eapply stop_in_time with (s := {| pc := Back _; cb := Armed |})].
    eapply server_runs_step; [| right; by eapply accept_fails with (s := {| pc := Accepting; listening := true |})].
    eapply server_runs_step; [| right; by eapply connects with (s := {| conns := 0 |})].
    eapply server_runs_step; [| right; by eapply bound with (s := new_server false)]. apply server_runs_start. }
  split; [exact R |]. intros s [-> | ->]; (split; [done |]);
    (intros s' [Hd | [Hd _]]; [inversion Hd; discriminate | discriminate]).
Qed.

(** ** The server under [runOperator] *)

Lemma server_step_ctx (s s' : server) : server_step s s' -> ctx_done s' = ctx_done s.
Proof. destruct s. intros [Hs | Hs]; by inversion Hs. Qed.

Lemma server_step_returned (s s' : server) (err : option error) :
  server_step s s' -> pc s = Returning err -> pc s' = Returning err.
Proof. destruct s. intros [Hs | Hs] Hp; inversion Hs; subst; cbn in *; congruence. Qed.

Lemma internal_cancelled (r r' : runtime) : internal r r' -> cancelled r = true -> cancelled r' = true.
Proof. destruct r. intros Hs Hc. by inversion Hs; subst. Qed.

(** The shutdown the goroutine reports as clean was one it could see. *)
Definition saw_shutdown (a : auth_pc) : Prop :=
  match a with
  | Classified raw c | Sent raw c | AuthDone raw c => clean raw -> c = true
  | _ => True
  end.

Record process_ok (p : operator_process) : Prop := {
  po_server : server_ok (srv p);
  po_ctx : ctx_done (srv p) = cancelled (op p);
  po_runs : exists n, runs n (op p);
  po_result : forall raw, auth_result (op p) = Some raw -> pc (srv p) = Returning raw;
  po_saw : saw_shutdown (auth (op p));
}.

Lemma follow_ok (r : runtime) (s : server) : server_ok s -> server_ok (follow r s).
Proof. unfold follow. destruct (cancelled r); auto with go. Qed.

Lemma follow_pc (r : runtime) (s : server) : pc (follow r s) = pc s.
Proof. unfold follow. destruct (cancelled r); [| done]. by destruct s. Qed.

Lemma follow_ctx (r r' : runtime) (s : server) :
  internal r r' -> ctx_done s = cancelled r -> ctx_done (follow r' s) = cancelled r'.
Proof.
  intros Hi Hc. unfold follow. destruct (cancelled r') eqn:E; [by destruct s |].
  destruct (cancelled r) eqn:E'; [| done]. by rewrite (internal_cancelled _ _ Hi E') in E.
Qed.

Lemma internal_auth_result (r r' : runtime) (raw : option error) :
  internal r r' -> auth_result r' = Some raw -> auth_result r = Some raw.
Proof. destruct r. unfold auth_result. intros Hs. by inversion Hs; subst; cbn in *; subst. Qed.

(** A clean result of [Start] is a shutdown under a cancelled context. *)
Lemma clean_cancelled (p : operator_process) (raw : option error) :
  process_ok p -> auth_result (op p) = Some raw -> clean raw -> cancelled (op p) = true.
Proof.
  intros [Hs Hc _ Hr _] Ha Hcl.
  destruct (returned_ok _ raw Hs (Hr raw Ha)) as (_ & _ & e & -> & He). rewrite <- Hc. by apply He.
Qed.

Lemma internal_saw (p : operator_process) (r' : runtime) :
  process_ok p -> internal (op p) r' -> saw_shutdown (auth r').
Proof.
  intros Hp Hi. pose proof (po_saw p Hp) as Hw.
  inversion Hi; subst; cbn; rewrite ?H in Hw; try done.
  intros Hcl. apply (clean_cancelled p raw Hp); [| done]. unfold auth_result. by rewrite H.
Qed.

Lemma process_ok_step (p p' : operator_process) : process_ok p -> process_step p p' -> process_ok p'.
Proof.
  intros Hp Hs. pose proof Hp as [Ho Hc [n Hr] Ha Hw].
  destruct Hs as [p s' Hs | p err Hau Hpc | p r' Hi | p Hsig | p err Hm].
  all: destruct p as [ro so]; cbn [op srv] in *.
  - split; [exact (server_ok_step so s' Ho Hs) | exact (eq_trans (server_step_ctx so s' Hs) Hc) | by exists n | | done].
    intros raw Hraw. exact (server_step_returned so s' raw Hs (Ha raw Hraw)).
  - split; cbn [op srv]; [done | by destruct ro | | | by destruct ro].
    + exists (S n). eapply runs_step; [done | right; by apply auth_returns].
    + intros raw. destruct ro. cbn. by intros [= <-].
  - split; cbn [op srv]; [by apply follow_ok | by eapply follow_ctx | | | by eapply (internal_saw _ _ Hp)].
    + exists (S n). eapply runs_step; [done | by left].
    + intros raw Hraw. rewrite follow_pc. by eapply Ha, internal_auth_result.
  - split; cbn [op srv]; [by apply server_ok_cancel | by destruct ro, so | | | by destruct ro].
    + exists (S n). eapply runs_step; [done | right; by apply signal].
    + intros raw Hraw. transitivity (pc so); [by destruct so | apply Ha]. by destruct ro.
  - split; cbn [op srv]; [done | by destruct ro | | | by destruct ro].
    + exists (S n). eapply runs_step; [done | right; by apply manager_returns].
    + intros raw Hraw. apply Ha. by destruct ro.
Qed.

Lemma process_invariant (p : operator_process) : process_runs p -> process_ok p.
Proof.
  induction 1 as [| p p' _ IH Hs]; [| by eapply process_ok_step].
  split; cbn; [apply server_ok_new | done | | done | done]. exists 0. apply runs_start.
Qed.

(** C38: the operator process refines [runOperator]: with [Start] as the service, every
    run of the process is a run of the runtime, and when [runOperator] returns, [Start]
    has returned, the listener is closed and its callback is finished or will never run.
    A nil result means that the manager returned nil, and that the server was shut down
    with no connection left; the server is never reported as stopped without reason. *)
Theorem process_refines_runtime (p : operator_process) (err r : option error)
  (Hp : process_runs p) (Hm : main (op p) = Returned err r) :
  (exists n, runs n (op p)) /\
  exists raw, auth_result (op p) = Some raw /\ pc (srv p) = Returning raw /\
    listening (srv p) = false /\ (cb (srv p) = Disarmed \/ cb (srv p) = CallbackDone /\ conns (srv p) = 0) /\
    (r = None <-> err = None /\ clean raw) /\
    (r = None -> conns (srv p) = 0).
Proof.
  destruct (process_invariant p Hp) as [Ho Hc [n Hr] Ha Hw]. split; [by exists n |].
  destruct (returned_result n (op p) err r Hr Hm) as (_ & raw & Hraw & Hn & _).
  exists raw. split; [done |]. specialize (Ha raw Hraw). split; [done |].
  destruct (returned_ok _ raw Ho Ha) as (Hl & Hcb & e & -> & He). do 2 (split; [done |]).
  assert (Hsaw : clean (Some e) -> auth_saw (op p) = true).
  { destruct (runtime_invariant n _ Hr) as [Hch _ _ _ _ _]. rewrite Hm in Hch. destruct Hch as (_ & x & Hx & _).
    unfold sent, auth_result, auth_saw in *. destruct (auth (op p)); cbn in Hw; simplify_eq; auto. }
  split; [rewrite Hn; naive_solver |].
  intros ->. destruct (proj1 Hn eq_refl) as (_ & Hcl & _). by apply He.
Qed.

(** A signal stops the operator: the manager returns, the idle server shuts down. *)
Definition quiet_server : server := {|
  ctx_done := true; pc := Returning (Some (ErrSentinel ErrServerClosed)); cb := CallbackDone; inShutdown := true;
  listening := false; conns := 0 |}.

Definition quiet_process : operator_process := {|
  op := {| signalled := true; cancelled := true; auth := AuthDone (Some (ErrSentinel ErrServerClosed)) true;
           authStopped := None; main := Returned None None |};
  srv := quiet_server |}.

(** Extend a run by a step of each part. *)
Ltac by_server H c := eapply process_runs_step in H; [| apply server_moves; c; reflexivity]; cbn in H.
Ltac by_operator H c := eapply process_runs_step in H; [| apply operator_moves; c; reflexivity]; cbn in H.

Lemma quiet_runs : process_runs quiet_process.
Proof.
  pose proof process_runs_start as R.
  by_server R ltac:(right; apply bound).
  eapply process_runs_step in R; [| by apply process_signalled]. cbn in R.
  by_server R ltac:(left; apply begin_shutdown).
  by_server R ltac:(left; apply accept_shut).
  by_server R ltac:(left; apply all_idle).
  eapply process_runs_step in R; [| apply server_moves; left; by eapply stop_too_late]. cbn in R.
  by_server R ltac:(left; eapply callback_finished).
  eapply process_runs_step in R; [| by eapply server_returns]. cbn in R.
  by_operator R ltac:(eapply do_classify).
  by_operator R ltac:(eapply do_send).
  by_operator R ltac:(eapply do_auth_cancel).
  eapply process_runs_step in R; [| by apply manager_stops with (err := None)]. cbn in R.
  by_operator R ltac:(eapply do_main_cancel).
  by_operator R ltac:(eapply do_receive).
  exact R.
Qed.

Lemma process_refines_runtime_witness : conns (srv quiet_process) = 0 /\ listening (srv quiet_process) = false.
Proof.
  destruct (process_refines_runtime quiet_process None None quiet_runs eq_refl) as (_ & raw & _ & _ & Hl & _ & _ & Hc).
  by split; [apply Hc |].
Defined.
