(* ===== verification/Config.v ===== *)
(** * Configuration and start-up of the operator (cmd/main.go)

    What [main] makes of the command line, the environment and the policy file: the two
    reconcilers, the authentication server, the manager's options and the labels, or an
    exit status.  Flags other packages register (zap's, kubeconfig) are a parameter: they
    are accepted or refused without touching these settings. *)

From Stdlib Require Import Ascii.
From S2P Require Import Prelude GoStd GoFlag GoJson GoError Kube Api Io Names SlugPolicy Model SlugRoute Runtime.

(** ** Settings *)

Record settings := {
  modelCeilings : ModelServerCeilings;
  metricsAddr : string;
  probeAddr : string;
  enableLeaderElection : bool;
  secureMetrics : bool;
  enableHTTP2 : bool;
  slugPolicyFile : string;
  byocTLS : BYOCTLSConfig;
  authBind : string;
  authExternalURL : string;
  publicSchemeEnv : string;
  ingressExtraAnnotationsJSON : string;
  tlsSecretName : string;
}.

(** The defaults of the flags, some of them taken from the environment. *)
Definition default_settings (Getenv : string -> string) : settings := {|
  modelCeilings := {| CPUMilli := 0; MemoryMiB := 0; ContextSize := 0; ParallelSlots := 0 |};
  metricsAddr := ":8080";
  probeAddr := ":8081";
  enableLeaderElection := false;
  secureMetrics := false;
  enableHTTP2 := false;
  slugPolicyFile := "";
  byocTLS := {| Domain := Getenv "BYOC_TLS_DOMAIN"; tls_Namespace := Getenv "BYOC_TLS_NAMESPACE";
                IssuerName := Getenv "BYOC_TLS_ISSUER"; IssuerNamespace := Getenv "BYOC_TLS_ISSUER_NAMESPACE";
                DNSClass := Getenv "BYOC_DNS_CLASS" |};
  authBind := ":8090";
  authExternalURL := "";
  publicSchemeEnv := "";
  ingressExtraAnnotationsJSON := "";
  tlsSecretName := "";
|}.

Definition own_flags : list (string * flag settings) := [
  ("max-model-cpu-milli", IntVar (fun n s => s <| modelCeilings ::= fun c => c <| CPUMilli := n |> |>));
  ("max-model-memory-mib", IntVar (fun n s => s <| modelCeilings ::= fun c => c <| MemoryMiB := n |> |>));
  ("max-context-size", IntVar (fun n s => s <| modelCeilings ::= fun c => c <| ContextSize := n |> |>));
  ("max-parallel-slots", IntVar (fun n s => s <| modelCeilings ::= fun c => c <| ParallelSlots := n |> |>));
  ("metrics-bind-address", StringVar (fun v s => s <| metricsAddr := v |>));
  ("health-probe-bind-address", StringVar (fun v s => s <| probeAddr := v |>));
  ("leader-elect", BoolVar (fun b s => s <| enableLeaderElection := b |>));
  ("metrics-secure", BoolVar (fun b s => s <| secureMetrics := b |>));
  ("enable-http2", BoolVar (fun b s => s <| enableHTTP2 := b |>));
  ("slug-policy-file", StringVar (fun v s => s <| slugPolicyFile := v |>));
  ("byoc-tls-domain", StringVar (fun v s => s <| byocTLS ::= fun c => c <| Domain := v |> |>));
  ("byoc-tls-namespace", StringVar (fun v s => s <| byocTLS ::= fun c => c <| tls_Namespace := v |> |>));
  ("byoc-tls-issuer", StringVar (fun v s => s <| byocTLS ::= fun c => c <| IssuerName := v |> |>));
  ("byoc-tls-issuer-namespace", StringVar (fun v s => s <| byocTLS ::= fun c => c <| IssuerNamespace := v |> |>));
  ("byoc-dns-class", StringVar (fun v s => s <| byocTLS ::= fun c => c <| DNSClass := v |> |>));
  ("auth-bind-address", StringVar (fun v s => s <| authBind := v |>));
  ("auth-external-url", StringVar (fun v s => s <| authExternalURL := v |>));
  ("public-scheme", StringVar (fun v s => s <| publicSchemeEnv := v |>));
  ("ingress-extra-annotations", StringVar (fun v s => s <| ingressExtraAnnotationsJSON := v |>));
  ("tls-secret-name", StringVar (fun v s => s <| tlsSecretName := v |>))
].

(** Flags of other packages: whether they are boolean, and the texts they accept. *)
Class ForeignFlags := { foreign_flag : string -> option (bool * (string -> bool)) }.

Definition find_flag {A} (name : string) (l : list (string * A)) : option A :=
  snd <$> List.find (fun kv => bool_decide (kv.1 = name)) l.

Definition main_flags `{ForeignFlags} : FlagSet settings := fun name =>
  match find_flag name own_flags with
  | Some f => Some f
  | None =>
      '(isBool, accepts) ← foreign_flag name;
      Some {| IsBoolFlag := isBool; Set_ v s := if accepts v : bool then Some s else None |}
  end.

(** ** Reading the configuration *)

(** The text a field of the decoded object contributes: strings as they are, anything
    else as JSON; [None] when decoding the document fails on a number. *)
Definition annotation_text (v : json) : option string :=
  match v with JsString t => Some t | _ => json_Marshal v end.

Fixpoint annotation_map (out : gmap string string) (fs : list (string * json)) : option (gmap string string) :=
  match fs with
  | [] => Some out
  | (k, v) :: fs' => t ← annotation_text v; annotation_map (<[k := t]> out) fs'
  end.

(** [parseJSONMap]; [None] is the nil map. *)
Definition parseJSONMap (s : string) : option (gmap string string) :=
  match json_Unmarshal s with
  | Some (JsObject fs) => annotation_map ∅ fs
  | Some JsNull => Some ∅
  | _ => None
  end.

(** The first of the texts that parses to a map with an entry. *)
Fixpoint first_annotations (texts : list string) : gmap string string :=
  match texts with
  | [] => ∅
  | s :: texts' =>
      if bool_decide (s = "") then first_annotations texts'
      else match parseJSONMap s with
           | Some m => if bool_decide (m = ∅) then first_annotations texts' else m
           | None => first_annotations texts'
           end
  end.

Definition default_to (fallback v : string) : string := if bool_decide (v = "") then fallback else v.

Section Config.
  Context `{KubeLib}.

(** [loadSlugPolicy]: opening the file may fail, and so may reading it. *)
Definition loadSlugPolicy (Open : string -> res (res string)) (path : string) : res Policy :=
  if bool_decide (path = "") then Err (ErrText "--slug-policy-file is required")
  else match Open path with
       | Err err => Err (ErrWrapf ("open slug policy: " +:+ error_text err) [err])
       | Ok file => Parse file
       end.

Definition instance_reconciler (Getenv : string -> string) (s : settings) (policy : Policy) : LLMInstanceReconciler := {|
  RouteReader := Some Live;
  rec_SlugPolicy := Some policy;
  rec_Ceilings := modelCeilings s;
  PublicHost := default_to "localhost" (Getenv "PUBLIC_HOST");
  AuthServiceURL :=
    if negb (bool_decide (authExternalURL s = "")) then authExternalURL s
    else "http://private-llm-controller-manager-metrics-service."
         +:+ default_to "default" (Getenv "POD_NAMESPACE") +:+ ".svc.cluster.local:8090";
  PublicScheme :=
    if negb (bool_decide (publicSchemeEnv s = "")) then publicSchemeEnv s
    else default_to "http" (Getenv "PUBLIC_SCHEME");
  ExtraIngressAnnotations := first_annotations [ingressExtraAnnotationsJSON s; Getenv "INGRESS_EXTRA_ANNOTATIONS"];
  TLSSecretName := default_to (Getenv "TLS_SECRET_NAME") (tlsSecretName s);
  BYOCTLS := byocTLS s;
|}.

(** ** The manager *)

Record manager_options := {
  mo_MetricsAddr : string;
  mo_MetricsSecure : bool;
  mo_MetricsAuthorized : bool;             (* WithAuthenticationAndAuthorization *)
  mo_NextProtos : option (list string);    (* of the TLS servers; [None] keeps Go's *)
  mo_ProbeAddr : string;
  mo_LeaderElection : option string;       (* the ID of the lease *)
}.

Definition options (s : settings) : manager_options := {|
  mo_MetricsAddr := metricsAddr s;
  mo_MetricsSecure := secureMetrics s;
  mo_MetricsAuthorized := secureMetrics s;
  mo_NextProtos := if enableHTTP2 s then None else Some ["http/1.1"];
  mo_ProbeAddr := probeAddr s;
  mo_LeaderElection := if enableLeaderElection s then Some "953016b8.example.com" else None;
|}.

(** What [main] finds outside: arguments, variables, files, and whether the manager can
    be created, each reconciler registered and each check added. *)
Record process := {
  Args : list string;
  Getenv : string -> string;
  Open : string -> res (res string);
  NewManager : manager_options -> option error;
  SetupInstances : LLMInstanceReconciler -> option error;
  SetupTokens : Policy -> option error;
  AddHealthzCheck : option error;
  AddReadyzCheck : option error;
}.

(** What runs: the configuration of each part. *)
Record operator := {
  op_Options : manager_options;
  op_Labels : gmap string string;
  op_Instances : LLMInstanceReconciler;
  op_TokenPolicy : Policy;
  op_AuthPolicy : Policy;
  op_AuthBind : string;
}.

Inductive startup :=
| Exits (status : Z)
| Starts (o : operator).

(** Leave with status one on an error, go on otherwise. *)
Definition or_exit (err : option error) (k : startup) : startup :=
  match err with Some _ => Exits 1 | None => k end.

(** [main] up to [runOperator]. *)
Definition main `{ForeignFlags} (version : string) (p : process) : startup :=
  match flag_Parse main_flags (default_settings (Getenv p)) (Args p) with
  | HelpRequested => Exits 0
  | FlagError _ => Exits 2
  | Parsed s _ =>
      match loadSlugPolicy (Open p) (slugPolicyFile s) with
      | Err _ => Exits 1
      | Ok slugPolicy =>
          or_exit (Validate (modelCeilings s)) (
          or_exit (NewManager p (options s)) (
          let reconciler := instance_reconciler (Getenv p) s slugPolicy in
          or_exit (SetupInstances p reconciler) (
          or_exit (SetupTokens p slugPolicy) (
          or_exit (AddHealthzCheck p) (
          or_exit (AddReadyzCheck p) (
          Starts {|
            op_Options := options s;
            op_Labels := baseLabels version;
            op_Instances := reconciler;
            op_TokenPolicy := slugPolicy;
            op_AuthPolicy := slugPolicy;
            op_AuthBind := authBind s |}))))))
      end
  end.

(** The status [main] leaves with when [runOperator] returns. *)
Definition exit_status (result : option error) : Z := match result with None => 0 | Some _ => 1 end.

End Config.
