(* ===== verification/ConfigFacts.v ===== *)
(** * What a started operator runs with

    The annotations it merges are the ones it was given, its three parts follow the one
    policy of the file it was pointed at, and its limits are within the provider's. *)

From S2P Require Import Prelude GoStd GoFlag GoTime GoJson GoJsonFacts GoError Kube KubeRef Api Io Names Sha256 SlugPolicy PolicyFile Model SlugRoute Runtime Config.

(** ** Annotations *)

Lemma annotation_map_strings (l : list (string * string)) (out : gmap string string) :
  annotation_map out (string_fields l) = Some (fold_left (fun m kv => <[kv.1 := kv.2]> m) l out).
Proof. revert out. induction l as [|[k v] l IH]; intros out; [done |]. cbn. apply IH. Qed.

Lemma inserted_all (l : list (string * string)) (out : gmap string string) :
  NoDup l.*1 -> fold_left (fun m kv => <[kv.1 := kv.2]> m) l out = list_to_map l ∪ out.
Proof.
  revert out. induction l as [|[k v] l IH]; intros out Hn; cbn; [by rewrite map_empty_union |].
  inversion Hn as [|? ? Hk Hl]; subst. rewrite IH by done.
  rewrite <- insert_union_l. rewrite insert_union_r by (by apply not_elem_of_list_to_map). done.
Qed.

Lemma sorted_fields_map (m : gmap string string) :
  NoDup (sorted_fields (map_to_list m)).*1 /\ list_to_map (sorted_fields (map_to_list m)) = m.
Proof.
  pose proof (NoDup_fst_map_to_list m) as Hn.
  assert (Hp : sorted_fields (map_to_list m) ≡ₚ map_to_list m) by by apply sorted_fields_perm.
  split; [by rewrite Hp |].
  rewrite <- (list_to_map_to_list m) at 2. apply list_to_map_proper; [by rewrite Hp | done].
Qed.

Lemma parse_marshalled (m : gmap string string) (text : string) :
  forallb valid_pair (map_to_list m) = true ->
  json_Marshal (JsObject (string_fields (map_to_list m))) = Some text -> parseJSONMap text = Some m.
Proof.
  intros Hv. rewrite Marshal_strings. intros [= <-].
  destruct (sorted_fields_map m) as [Hn Hm]. unfold parseJSONMap. rewrite Unmarshal_strings.
  - rewrite annotation_map_strings, inserted_all, Hm by done. by rewrite map_union_empty.
  - apply forallb_forall. intros kv Hx%list_elem_of_In. apply (proj1 (forallb_forall _ _) Hv), list_elem_of_In.
    by rewrite sorted_fields_perm in Hx by apply NoDup_fst_map_to_list.
Qed.

Section Facts.
  Context `{KubeLib}.

(** Ingress annotations given as JSON are merged as given: whatever non-empty map
    of valid UTF-8 is encoded into the flag, its characters escaped as they may be, the
    reconciler runs with exactly that map, and the environment variable is ignored. *)
Theorem annotations_configured (Getenv : string -> string) (s : settings) (policy : Policy)
    (m : gmap string string) (text : string)
  (Hm : m <> ∅) (Hv : forallb valid_pair (map_to_list m) = true)
  (Ht : json_Marshal (JsObject (string_fields (map_to_list m))) = Some text) :
  ExtraIngressAnnotations (instance_reconciler Getenv (s <| ingressExtraAnnotationsJSON := text |>) policy) = m.
Proof.
  pose proof (parse_marshalled m text Hv Ht) as Hp.
  transitivity (first_annotations [text; Getenv "INGRESS_EXTRA_ANNOTATIONS"]); [by destruct s |].
  cbn [first_annotations]. rewrite bool_decide_false by (by intros ->). rewrite Hp. by rewrite bool_decide_false.
Qed.

(** ** The configuration as a whole *)

Lemma validate_limits_None (l : list (string * Z * Z)) :
  validate_limits l = None -> Forall (fun '(_, v, maximum) => 0 <= v <= maximum)%Z l.
Proof.
  induction l as [|[[n v] mx] l IH]; [by constructor |]. cbn [validate_limits].
  destruct ((v <? 0)%Z || (mx <? v)%Z) eqn:E; [done |]. bool_props. constructor; [lia | by apply IH].
Qed.

Lemma Validate_bounds (c : ModelServerCeilings) :
  Validate c = None ->
  (0 <= CPUMilli c <= 16000 /\ 0 <= MemoryMiB c <= 65536 /\ 0 <= ContextSize c <= 131072 /\ 0 <= ParallelSlots c <= 16)%Z.
Proof.
  unfold Validate. intros Hl%validate_limits_None.
  rewrite !Forall_cons in Hl. tauto.
Qed.

Lemma loadSlugPolicy_Ok (Open : string -> res (res string)) (path : string) (policy : Policy) :
  loadSlugPolicy Open path = Ok policy -> path <> "" /\ exists file, Open path = Ok file /\ Parse file = Ok policy.
Proof.
  unfold loadSlugPolicy. case_bool_decide; [done |]. destruct (Open path) as [file|]; [| done].
  intros Hp. split; [done | by exists file].
Qed.

Lemma or_exit_Starts (err : option error) (k : startup) (o : operator) :
  or_exit err k = Starts o -> err = None /\ k = Starts o.
Proof. by destruct err. Qed.

Lemma default_to_nonempty (fallback v : string) : fallback <> "" -> default_to fallback v <> "".
Proof. unfold default_to. by case_bool_decide. Qed.

Lemma main_Starts `{ForeignFlags} (version : string) (p : process) (o : operator) :
  main version p = Starts o ->
  exists s rest policy, flag_Parse main_flags (default_settings (Getenv p)) (Args p) = Parsed s rest /\
    loadSlugPolicy (Open p) (slugPolicyFile s) = Ok policy /\ Validate (modelCeilings s) = None /\
    o = {| op_Options := options s; op_Labels := baseLabels version;
           op_Instances := instance_reconciler (Getenv p) s policy; op_TokenPolicy := policy;
           op_AuthPolicy := policy; op_AuthBind := authBind s |}.
Proof.
  unfold main. destruct (flag_Parse _ _ _) as [s rest | |]; [| done ..].
  destruct (loadSlugPolicy _ _) as [policy|] eqn:Hl; [| done].
  intros (Hv & (_ & (_ & (_ & (_ & (_ & [= <-])%or_exit_Starts)%or_exit_Starts)%or_exit_Starts)%or_exit_Starts)%or_exit_Starts)%or_exit_Starts.
  by exists s, rest, policy.
Qed.

(** C35: an operator that starts was given a policy file, and its instance controller,
    its token controller and its authentication server follow the one policy that file
    parses to: no slug one of them selects covers a slug another selects, but for the
    same instance or a hash collision.  Its limits are the provider's, and host, scheme
    and verification URL are never empty. *)
Theorem started_operator `{ForeignFlags} (version : string) (p : process) (o : operator)
  (Hs : main version p = Starts o) :
  (exists path file, path <> "" /\ Open p path = Ok file /\ Parse file = Ok (op_AuthPolicy o)) /\
  rec_SlugPolicy (op_Instances o) = Some (op_AuthPolicy o) /\ op_TokenPolicy o = op_AuthPolicy o /\
  (forall a b s t, Select (rec_SlugPolicy (op_Instances o)) a = Ok s -> Select (Some (op_AuthPolicy o)) b = Ok t ->
     HasPrefix (sel_Slug s) (sel_Slug t) = true -> UID a = UID b \/ slug_collision (UID a) (UID b)) /\
  (let c := rec_Ceilings (op_Instances o) in
   0 <= CPUMilli c <= 16000 /\ 0 <= MemoryMiB c <= 65536 /\ 0 <= ContextSize c <= 131072 /\ 0 <= ParallelSlots c <= 16)%Z /\
  PublicHost (op_Instances o) <> "" /\ PublicScheme (op_Instances o) <> "" /\ AuthServiceURL (op_Instances o) <> "".
Proof.
  destruct (main_Starts version p o Hs) as (s & rest & policy & _ & Hl & Hv & ->).
  destruct (loadSlugPolicy_Ok _ _ _ Hl) as (Hpath & file & Hopen & Hparse).
  cbn [op_AuthPolicy op_TokenPolicy op_Instances instance_reconciler rec_SlugPolicy rec_Ceilings PublicHost PublicScheme
       AuthServiceURL].
  split; [by exists (slugPolicyFile s), file |]. do 2 (split; [done |]).
  split; [| split; [by apply Validate_bounds | split_and!]].
  - intros a b x y Ha Hb Hover. by eapply select_no_overlap_pure.
  - by apply default_to_nonempty.
  - case_bool_decide; cbn [negb]; [by apply default_to_nonempty | done].
  - case_bool_decide; cbn [negb]; [| done]. by rewrite string_app_cons.
Qed.

End Facts.

(** ** A start *)

Module StartExample.

#[local] Instance no_foreign : ForeignFlags := {| foreign_flag _ := None |}.

(** The text of the example policy, in the file the arguments name. *)
Definition process : Config.process := {|
  Args := ["--slug-policy-file=/etc/slugs/policy.json"; "-leader-elect"; "--max-context-size"; "0x1000"];
  Getenv name := if bool_decide (name = "PUBLIC_SCHEME") then "https" else "";
  Open path := if bool_decide (path = "/etc/slugs/policy.json") then Ok (Ok (policy_text example_config))
               else Err (ErrText "no such file or directory");
  NewManager _ := None; SetupInstances _ := None; SetupTokens _ := None;
  AddHealthzCheck := None; AddReadyzCheck := None |}.

Definition started : operator :=
  match main (H := ref_lib) "1.2.3" process with
  | Starts o => o
  | Exits _ => {| op_Options := options (default_settings (fun _ => "")); op_Labels := ∅;
                  op_Instances := instance_reconciler (fun _ => "") (default_settings (fun _ => "")) PolicyExample.policy;
                  op_TokenPolicy := PolicyExample.policy; op_AuthPolicy := PolicyExample.policy; op_AuthBind := "" |}
  end.

Lemma starts : main (H := ref_lib) "1.2.3" process = Starts started.
Proof. vm_compute. reflexivity. Qed.

(** Without the policy file, with a stray limit, or with an unknown flag there is no start. *)
Example refused :
  main (H := ref_lib) "" (process <| Args := [] |>) = Exits 1 /\
  main (H := ref_lib) "" (process <| Args ::= cons "--max-parallel-slots=17" |>) = Exits 1 /\
  main (H := ref_lib) "" (process <| Args := ["--help"] |>) = Exits 0 /\
  main (H := ref_lib) "" (process <| Args := ["--slug-policy"] |>) = Exits 2.
Proof. vm_compute. done. Qed.

Definition annotations : gmap string string :=
  {[ "example.com/team" := "a<b" ; "example.com/note" := chr 10 +:+ chr 195 +:+ chr 169 ]}.

Definition annotations_text : string :=
  match json_Marshal (JsObject (string_fields (map_to_list annotations))) with Some t => t | None => "" end.

End StartExample.

Lemma started_operator_witness :
  rec_SlugPolicy (op_Instances StartExample.started) = Some (op_AuthPolicy StartExample.started) /\
  PublicHost (op_Instances StartExample.started) = "localhost" /\
  ContextSize (rec_Ceilings (op_Instances StartExample.started)) = 4096%Z.
Proof.
  destruct (started_operator (H := ref_lib) (H0 := StartExample.no_foreign) "1.2.3" StartExample.process
              StartExample.started StartExample.starts) as (_ & Hp & _).
  split; [exact Hp |]. split.
  - vm_compute. reflexivity.
  - vm_compute. reflexivity.
Defined.

Lemma annotations_configured_witness :
  ExtraIngressAnnotations
    (instance_reconciler (fun _ => "") ((default_settings (fun _ => ""))
       <| ingressExtraAnnotationsJSON := StartExample.annotations_text |>) PolicyExample.policy) = StartExample.annotations.
Proof.
  refine (annotations_configured (fun _ => "") (default_settings (fun _ => "")) PolicyExample.policy
            StartExample.annotations StartExample.annotations_text _ _ _).
  - apply (bool_decide_eq_false_1 (StartExample.annotations = ∅)). vm_compute. reflexivity.
  - vm_compute. reflexivity.
  - vm_compute. reflexivity.
Defined.
