(* ===== verification/ByocTransport.v ===== *)
(** * Reaching a bring-your-own cluster (internal/controller/llminstance_byoc_transport.go)

    Which kubeconfigs are accepted, the identity of a target, ownership of remote
    objects, the TLS front of the remote Deployment and the pinned health check. *)

From Stdlib Require Import Ascii.
From S2P Require Import Prelude GoStd GoNet GoError Sha256 Kube Api Io Names SlugPolicy Model SlugRoute Workload.

Definition byocDefaultServiceAccount : string := "default".
Definition byocOwnerUIDAnnotation : string := "llm.privatellms.msp/owner-uid".
Definition byocTLSRevisionAnnotation : string := "llm.privatellms.msp/tls-revision".
Definition byocProxyImage : string :=
  "docker.io/library/traefik:v3.7.16@sha256:1336e85aaed293bd63d005086e0dd013b04078b26aaeb1c18b26a2f928af7e65".

Definition byocNamespace : string := "private-llm".

(** [sha256.Sum256] and [hex.EncodeToString] of a string. *)
Definition sha256_hex (s : string) : string := hex_encode (Sum256 (bytes_of s)).

(** RFC-1123-safe names derived from the slug (llminstance_byoc.go). *)
Definition byocBaseName (slug : string) : string := "llm-" +:+ str_take 12 (sha256_hex slug).
Definition byocKeySecretName (slug : string) : string := byocBaseName slug +:+ "-keys".
Definition byocCredentialsName (slug : string) : string := byocBaseName slug +:+ "-credentials".

(** ** Kubeconfigs (k8s.io/client-go) *)

Record KubeContext := { ctx_Cluster : string; ctx_AuthInfo : string }.
Record KubeCluster := {
  Server : string;
  InsecureSkipTLSVerify : bool;
  CertificateAuthority : string;
  ProxyURL : string;
}.
(** Whether an auth plugin is configured, and the files referred to. *)
Record KubeAuthInfo := {
  ai_Exec : bool;
  ai_AuthProvider : bool;
  TokenFile : string;
  ClientCertificate : string;
  ClientKey : string;
}.
Record KubeConfig := {
  CurrentContext : string;
  Contexts : gmap string KubeContext;
  Clusters : gmap string KubeCluster;
  AuthInfos : gmap string KubeAuthInfo;
}.

Record RESTConfig := {
  rest_Host : string;
  ServerName : string;
  CAData : string;
  Timeout : Z;                (* seconds *)
  DirectOnly : bool;          (* Proxy always answers that there is none *)
}.

(** An HTTP client of net/http: the transport with the other settings, which stay the
    library's, and the function that is asked, with a request and those before it, before
    a redirect is followed; without one ten are. *)
Record HTTPClient (RoundTripper : Type) := {
  Transport : RoundTripper;
  CheckRedirect : option (string -> list string -> option error);
}.
Arguments Transport {RoundTripper} h.
Arguments CheckRedirect {RoundTripper} h.

(** client-go and controller-runtime, outside the repository: parsing a kubeconfig
    document, the connection settings it describes, an HTTP client with these settings,
    building a client that sends its requests with it. *)
Class ClientLib := {
  clientcmd_Load : string -> option KubeConfig;
  RESTConfigFromKubeConfig : string -> option RESTConfig;
  RoundTripper : Type;
  HTTPClientFor : RESTConfig -> res (HTTPClient RoundTripper);
  client_New : RESTConfig -> HTTPClient RoundTripper -> option error;
}.

(** The API is reached over verified HTTPS with inline trust and without proxy. *)
Definition server_ok (cluster : KubeCluster) : bool :=
  match url_Parse (Server cluster) with
  | None => false
  | Some u =>
      negb (negb (bool_decide (Scheme u = byocServicePortName)) || bool_decide (Hostname u = "")
            || HasUser u || negb (bool_decide (URLQuery u = "")) || negb (bool_decide (Fragment u = ""))
            || InsecureSkipTLSVerify cluster || negb (bool_decide (CertificateAuthority cluster = ""))
            || negb (bool_decide (ProxyURL cluster = "")))
  end.

(** Credentials are inline: no plugin runs and no local file is read. *)
Definition auth_inline (auth : KubeAuthInfo) : bool :=
  negb (ai_Exec auth || ai_AuthProvider auth || negb (bool_decide (TokenFile auth = ""))
        || negb (bool_decide (ClientCertificate auth = "")) || negb (bool_decide (ClientKey auth = ""))).

Section Transport.
  Context `{KubeLib} `{ClientLib}.

Definition verifiedBYOCRESTConfig (data : string) : res RESTConfig :=
  match clientcmd_Load data with
  | None => Err (ErrText "invalid BYOC kubeconfig")
  | Some raw =>
      match Contexts raw !! CurrentContext raw with
      | None => Err (ErrText "BYOC kubeconfig has no current context")
      | Some current =>
          match Clusters raw !! ctx_Cluster current with
          | None => Err (ErrText "BYOC kubeconfig has no selected cluster")
          | Some cluster =>
              if negb (server_ok cluster)
              then Err (ErrText "BYOC API requires verified HTTPS and inline CA data without a proxy")
              else if negb (default true (auth_inline <$> AuthInfos raw !! ctx_AuthInfo current))
              then Err (ErrText "BYOC kubeconfig requires inline credentials; local files and auth plugins are forbidden")
              else match RESTConfigFromKubeConfig data with
                   | None => Err (ErrText "invalid BYOC kubeconfig credentials")
                   | Some cfg => Ok (cfg <| Timeout := 30%Z |> <| DirectOnly := true |>)
                   end
          end
      end
  end.

(** Redirects are not followed: the first response is the answer. *)
Definition byocAPIHTTPClient (cfg : RESTConfig) : res (HTTPClient RoundTripper) :=
  match HTTPClientFor cfg with
  | Err err => Err err
  | Ok httpClient =>
      Ok {| Transport := Transport httpClient;
            CheckRedirect := Some (fun _ _ => Some (ErrSentinel ErrUseLastResponse)) |}
  end.

(** The client used in production; the override is for tests. *)
Definition defaultRemoteClient (kubeconfig : string) : res client :=
  match verifiedBYOCRESTConfig kubeconfig with
  | Err err => Err err
  | Ok cfg =>
      match byocAPIHTTPClient cfg with
      | Err err => Err err
      | Ok httpClient =>
          match client_New cfg httpClient with Some err => Err err | None => Ok (Remote kubeconfig) end
      end
  end.

Definition remoteClientForKubeconfig (kubeconfig : string) : res client := defaultRemoteClient kubeconfig.

Definition byocTargetIdentity (data : string) : res string :=
  match verifiedBYOCRESTConfig data with
  | Err err => Err err
  | Ok cfg => Ok (sha256_hex (rest_Host cfg +:+ chr 0 +:+ ServerName cfg +:+ chr 0 +:+ CAData cfg))
  end.

(** Pin the API trust identity and the UID of the cluster's kube-system namespace. *)
Definition byocClusterIdentity (remote : client) (apiID : string) : fio string :=
  let! got := call (EGet remote KNamespace (key_of "" "kube-system")) in
  match got with
  | Err err => fail (ErrWrapf ("cannot establish BYOC cluster identity: " +:+ error_text err) [err])
  | Ok ns =>
      if bool_decide (UID (ns_Meta ns) = "") then fail (ErrText "BYOC cluster namespace has no UID")
      else fret (sha256_hex (apiID +:+ chr 0 +:+ UID (ns_Meta ns)))
  end.

(** ** Ownership of remote objects *)

Definition byocOwnedAnnotations (inst : LLMInstance) : gmap string string :=
  {[ byocOwnerUIDAnnotation := UID (inst_Meta inst) ]}.

(** [checkBYOCObjectOwner(obj, inst) == nil], and the error otherwise. *)
Definition owned_remotely (inst : LLMInstance) (m : ObjectMeta) : bool :=
  negb (bool_decide (UID (inst_Meta inst) = "")
        || negb (bool_decide (mget (Annotations m) byocOwnerUIDAnnotation = UID (inst_Meta inst)))
        || negb (bool_decide (OwnerReferences m = []))).

Definition checkBYOCObjectOwner (m : ObjectMeta) (inst : LLMInstance) : option error :=
  if owned_remotely inst m then None
  else Some (ErrText ("refusing unowned BYOC object " +:+ Namespace m +:+ "/" +:+ Name m
                      +:+ "; legacy objects require verified migration")).

Definition safeBYOCSlug (inst : LLMInstance) (slug : string) : string :=
  if bool_decide (ActiveBYOCSlug (Status inst) = "") then TrimSpace slug else ActiveBYOCSlug (Status inst).

(** ** The proxy in front of the model server *)

Definition byocProxyConfig (hostname : string) : string :=
  Join ["http:"; "  routers:"; "    model:"; "      entryPoints: [websecure]";
        "      rule: " +:+ dquote +:+ "Host(" +:+ chr 96 +:+ hostname +:+ chr 96 +:+ ")" +:+ dquote;
        "      service: model"; "      tls: {}"; "  services:"; "    model:"; "      loadBalancer:";
        "        servers:"; "          - url: http://127.0.0.1:8000"; "        responseForwarding:";
        "          flushInterval: -1ms"; "tls:"; "  certificates:"; "    - certFile: /tls/tls.crt";
        "      keyFile: /tls/tls.key"; "  options:"; "    default:"; "      minVersion: VersionTLS12";
        "      sniStrict: true"; ""] (chr 10).

Definition proxy_config_map (inst : LLMInstance) (slug hostname : string) : ConfigMap :=
  {| cm_Meta := empty_meta <| Name := byocBaseName slug +:+ "-proxy" |> <| Namespace := byocNamespace |>
                           <| Annotations := byocOwnedAnnotations inst |>;
     cm_Data := {[ "dynamic.yaml" := byocProxyConfig hostname ]} |}.

Definition reconcileBYOCProxyConfig (remote : client) (inst : LLMInstance) (slug hostname : string) : fio unit :=
  let desired := proxy_config_map inst slug hostname in
  let! got := call (EGet remote KConfigMap (ObjectKeyFromObject (cm_Meta desired))) in
  match got with
  | Err err => if IsNotFound err then let? _ := call (ECreate remote KConfigMap desired) in fret tt
               else fail err
  | Ok existing =>
      match checkBYOCObjectOwner (cm_Meta existing) inst with
      | Some err => fail err
      | None =>
          if bool_decide (cm_Data existing = cm_Data desired) then fret tt
          else let? _ := call (EUpdate remote KConfigMap (existing <| cm_Data := cm_Data desired |>)) in fret tt
      end
  end.

(** Every argument after [--host] becomes the loopback address. *)
Fixpoint set_host (after_host : bool) (args : list string) : list string :=
  match args with
  | [] => []
  | a :: args' =>
      let a' := if after_host then "127.0.0.1" else a in
      a' :: set_host (bool_decide (a' = "--host")) args'
  end.

Definition exec_probe (initialDelay period : Z) : Probe :=
  {| pr_HTTPGet := None;
     pr_Exec := Some ["curl"; "--fail"; "--silent"; "--max-time"; "2"; "http://127.0.0.1:8000/health"];
     pr_TCPSocket := None; pr_InitialDelaySeconds := initialDelay; pr_PeriodSeconds := period;
     pr_TimeoutSeconds := 3; pr_SuccessThreshold := 0; pr_FailureThreshold := 6 |}.

Definition tls_proxy : Container :=
  no_container <| c_Name := "tls-proxy" |> <| c_Image := byocProxyImage |>
    <| c_Args := ["--entryPoints.websecure.address=:8443"; "--providers.file.filename=/config/dynamic.yaml";
                  "--providers.file.watch=true"; "--global.checkNewVersion=false";
                  "--global.sendAnonymousUsage=false"] |>
    <| c_Ports := [{| cp_Name := "https"; cp_ContainerPort := 8443; cp_Protocol := "" |}] |>
    <| c_ReadinessProbe := Some {| pr_HTTPGet := None; pr_Exec := None; pr_TCPSocket := Some (FromInt 8443);
         pr_InitialDelaySeconds := 0; pr_PeriodSeconds := 5; pr_TimeoutSeconds := 0;
         pr_SuccessThreshold := 0; pr_FailureThreshold := 0 |} |>
    <| c_Resources := {| Requests := resource_list [("cpu", "10m"); ("memory", "32Mi")];
                         Limits := resource_list [("cpu", "500m"); ("memory", "128Mi")] |} |>
    <| c_SecurityContext := Some {| sc_RunAsNonRoot := Some true; sc_RunAsUser := Some 65532%Z;
         sc_AllowPrivilegeEscalation := Some false; sc_ReadOnlyRootFilesystem := Some true;
         sc_CapabilitiesDrop := ["ALL"] |} |>
    <| c_VolumeMounts := [{| vm_Name := "tls"; vm_MountPath := "/tls"; vm_ReadOnly := true |};
                          {| vm_Name := "proxy-config"; vm_MountPath := "/config"; vm_ReadOnly := true |}] |>.

(** The model server behind the proxy: bound to loopback, no port, probed from inside. *)
Definition loopback_model (c : Container) : Container :=
  c <| c_Args := set_host false (c_Args c) |> <| c_Ports := [] |>
    <| c_ReadinessProbe := Some (exec_probe 0 5) |> <| c_LivenessProbe := Some (exec_probe 20 10) |>.

(** The source indexes the first container, which the Deployment it builds has. *)
Definition configureBYOCTLSDeployment (deploy : Deployment) (inst : LLMInstance)
    (slug tlsSecret tlsRevision : string) : Deployment :=
  let spec := pt_Spec (d_Template deploy) in
  let containers := match ps_Containers spec with c :: cs => loopback_model c :: cs | [] => [] end in
  deploy <| d_Meta -> Annotations := byocOwnedAnnotations inst |> <| d_Strategy := "Recreate" |>
         <| d_Template -> pt_Spec -> ps_AutomountServiceAccountToken := Some false |>
         <| d_Template -> pt_Spec -> ps_Containers := containers ++ [tls_proxy] |>
         <| d_Template -> pt_Spec -> ps_Volumes := ps_Volumes spec ++
              [{| v_Name := "tls"; v_EmptyDir := false;
                  v_Secret := Some {| sv_SecretName := tlsSecret; sv_DefaultMode := None |}; v_ConfigMap := None |};
               {| v_Name := "proxy-config"; v_EmptyDir := false; v_Secret := None;
                  v_ConfigMap := Some {| cv_Name := byocBaseName slug +:+ "-proxy"; cv_DefaultMode := None |} |}] |>
         <| d_Template -> pt_Annotations ::= fun m =>
              <["llm.privatellms.msp/proxy-revision" := sha256_hex (tlsSecret +:+ chr 0 +:+ byocProxyImage)]>
                (<[byocTLSRevisionAnnotation := tlsRevision]> m) |>.

(** ** API defaults *)

Definition or_default (d n : Z) : Z := if (n =? 0)%Z then d else n.

Definition default_probe (p : Probe) : Probe :=
  p <| pr_SuccessThreshold ::= or_default 1 |> <| pr_FailureThreshold ::= or_default 3 |>
    <| pr_TimeoutSeconds ::= or_default 1 |>.

Definition defaultContainer (c : Container) : Container :=
  c <| c_ImagePullPolicy := "IfNotPresent" |> <| c_TerminationMessagePath := "/dev/termination-log" |>
    <| c_TerminationMessagePolicy := "File" |>
    <| c_Ports ::= fmap (fun p => p <| cp_Protocol := "TCP" |>) |>
    <| c_ReadinessProbe ::= fmap default_probe |> <| c_LivenessProbe ::= fmap default_probe |>.

Definition default_volume (v : Volume) : Volume :=
  v <| v_Secret ::= fmap (fun s => s <| sv_DefaultMode := Some 288%Z |>) |>
    <| v_ConfigMap ::= fmap (fun s => s <| cv_DefaultMode := Some 292%Z |>) |>.

Definition corev1defaults (deploy : Deployment) : Deployment :=
  deploy <| d_Template -> pt_Spec ::= fun p =>
    p <| ps_RestartPolicy := "Always" |> <| ps_TerminationGracePeriodSeconds := Some 30%Z |>
      <| ps_SchedulerName := "default-scheduler" |> <| ps_ServiceAccountName := byocDefaultServiceAccount |>
      <| ps_DeprecatedServiceAccount := byocDefaultServiceAccount |> <| ps_FSGroup := Some 65532%Z |>
      <| ps_Containers ::= fmap defaultContainer |> <| ps_InitContainers ::= fmap defaultContainer |>
      <| ps_Volumes ::= fmap default_volume |> |>.

(** ** The pinned health check *)

Definition byoc_health (fingerprint : string) (resp : HTTPSResponse) : option error :=
  match hr_Verified resp, hr_Peers resp with
  | true, leaf :: _ =>
      if negb (bool_decide (sha256_hex leaf = fingerprint))
      then Some (ErrText "BYOC endpoint is not serving the delivered instance certificate")
      else if (hr_StatusCode resp <? 200)%Z || (300 <=? hr_StatusCode resp)%Z
      then Some (ErrText ("BYOC health returned status " +:+ Itoa (hr_StatusCode resp)))
      else None
  | _, _ => Some (ErrText "BYOC TLS certificate was not verified")
  end.

Definition runBYOCHealthCheck (targetURL fingerprint : string) : io (option error) :=
  let bad := ErrText "BYOC health requires HTTPS and a delivered certificate fingerprint" in
  match url_Parse targetURL with
  | None => mret (Some bad)
  | Some u =>
      if negb (bool_decide (Scheme u = byocServicePortName)) || bool_decide (fingerprint = "")
      then mret (Some bad)
      else
        let! got := call (EHTTPS targetURL) in
        mret (match got with Err err => Some err | Ok resp => byoc_health fingerprint resp end)
  end.

End Transport.
