(* ===== verification/ByocTLS.v ===== *)
(** * Certificates and DNS of a bring-your-own cluster
      (internal/controller/llminstance_byoc_tls.go)

    The per-instance host name, the Gardener Certificate and DNSEntry, validation of
    issued TLS material, its delivery with a last-valid cache, and the cleanup of all
    of it. *)

From Stdlib Require Import Ascii.
From S2P Require Import Prelude GoStd GoNet GoTime GoIP GoError Sha256 Kube Api Io Names SlugPolicy Model SlugRoute ByocTransport.

Definition byocTLSOwnerLabel : string := "llm.privatellms.msp/tls-owner-uid".
Definition byocTLSCertificateLabel : string := "llm.privatellms.msp/tls-certificate-uid".
Definition byocTLSTargetLabel : string := "llm.privatellms.msp/tls-target".
Definition byocTLSRenewalMargin : Z := 120 * 1000000000.
Definition byocCertificateReadyState : string := "Ready".
Definition byocTLSRevokedAnnotation : string := "cert.gardener.cloud/revoked".
Definition byocTLSRevokedValue : string := "true".
Definition certificate_APIVersion : string := "cert.gardener.cloud/v1alpha1".
Definition certificate_Kind : string := "Certificate".
Definition TLSCertKey : string := "tls.crt".
Definition TLSPrivateKeyKey : string := "tls.key".

(** [fmt.Errorf("%w: text", ErrBYOCTLSNotReady)]. *)
Definition tls_not_ready (text : string) : error := Wrap (ErrSentinel ErrBYOCTLSNotReady) text.

(** ** crypto/tls and crypto/x509 *)

Inductive PublicKey := RSAKey (bits : Z) | ECDSAKey (bits : Z) | OtherKey.
Inductive ExtKeyUsage := ServerAuth | OtherUsage.

Record X509Certificate := {
  Raw : string;
  IsCA : bool;
  DNSNames : list string;
  IPAddresses : list string;
  EmailAddresses : list string;
  URIs : list string;
  NotBefore : Z;
  NotAfter : Z;
  ExtKeyUsages : list ExtKeyUsage;
  x_PublicKey : PublicKey;
}.

#[global] Instance extkeyusage_eq_dec : EqDecision ExtKeyUsage.
Proof. solve_decision. Defined.

(** Decoding and verifying certificates: a matching pair gives the leaf and the rest of
    the chain; [x509_Verify leaf host intermediates now] builds a chain to the operating
    system's roots for serverAuth. *)
Class X509Lib := {
  X509KeyPair : string -> string -> option (string * list string);
  ParseCertificate : string -> option X509Certificate;
  x509_Verify : X509Certificate -> string -> list X509Certificate -> Z -> bool;
}.

(** ** Identity *)

Section Identity.
  Context `{KubeLib}.

Definition byocTLSIdentity (inst : LLMInstance) (cfg : BYOCTLSConfig) (targetID : string) : res (string * string) :=
  if bool_decide (UID (inst_Meta inst) = "") then Err (ErrText "BYOC TLS requires an instance UID")
  else if negb (IsDNS1123Subdomain (Domain cfg)) || negb (Contains (Domain cfg) ".")
  then Err (ErrText "BYOC TLS requires an operator configured DNS domain")
  else if negb (IsDNS1123Label (tls_Namespace cfg)) || bool_decide (tls_Namespace cfg = Namespace (inst_Meta inst))
  then Err (ErrText "BYOC TLS requires a separate operator credential namespace")
  else if bool_decide (targetID = "") then Err (ErrText "BYOC TLS requires a verified target identity")
  else
    let name := "byoc-" +:+ str_take 32 (sha256_hex (UID (inst_Meta inst) +:+ chr 0 +:+ targetID)) in
    let hostname := name +:+ "." +:+ Domain cfg in
    if negb (IsDNS1123Subdomain hostname) then Err (ErrText "BYOC TLS hostname is invalid")
    else Ok (name, hostname).

Definition validateBYOCTLSIssuer (cfg : BYOCTLSConfig) : option error :=
  if bool_decide (IssuerName cfg = "") || negb (IsDNS1123Subdomain (IssuerName cfg))
  then Some (ErrText "BYOC TLS requires a valid issuer name")
  else if negb (bool_decide (IssuerNamespace cfg = "")) && negb (IsDNS1123Label (IssuerNamespace cfg))
  then Some (ErrText "BYOC TLS issuer namespace is invalid")
  else None.

End Identity.

(** A managed issuer is referenced by name only. *)
Definition byocIssuerRef (cfg : BYOCTLSConfig) : gmap string uleaf :=
  let ref := {[ "name" := LString (IssuerName cfg) ]} in
  if bool_decide (IssuerNamespace cfg = "") then ref else <["namespace" := LString (IssuerNamespace cfg)]> ref.

Definition requireBYOCTLSOwner (m : ObjectMeta) (inst : LLMInstance) : option error :=
  if negb (bool_decide (mget (Labels m) byocTLSOwnerLabel = UID (inst_Meta inst)))
     || bool_decide (UID (inst_Meta inst) = "")
  then Some (ErrText ("refusing foreign BYOC TLS object " +:+ Namespace m +:+ "/" +:+ Name m))
  else if negb (bool_decide (OwnerReferences m = []))
  then Some (ErrText ("unexpected ownerReference on BYOC TLS object " +:+ Namespace m +:+ "/" +:+ Name m))
  else None.

Definition byocTLSTarget (targetID : string) : res string :=
  if bool_decide (targetID = "") then Err (ErrText "BYOC TLS requires a verified target identity")
  else Ok (str_take 32 (sha256_hex targetID)).

(** ** The Certificate *)

Definition byocCertificateSpec (name hostname certificateUID : string) (cfg : BYOCTLSConfig) (inst : LLMInstance)
    : gmap string uvalue :=
  let labels := {[ byocTLSOwnerLabel := LString (UID (inst_Meta inst)) ]} in
  let labels := if bool_decide (certificateUID = "") then labels
                else <[byocTLSCertificateLabel := LString certificateUID]> labels in
  <["dnsNames" := UStrings [hostname]]>
    (<["secretRef" := UMap (<["name" := LString name]> {[ "namespace" := LString (tls_Namespace cfg) ]})]>
      (<["issuerRef" := UMap (byocIssuerRef cfg)]> {[ "secretLabels" := UMap labels ]})).

(** [unstructured.NestedFieldNoCopy(cert.Object, "spec", field)]: an error, or the value
    when one is found. *)
Definition spec_field (spec : nested (gmap string uvalue)) (field : string) : option (option uvalue) :=
  match spec with
  | NotSet | NullParent => Some None
  | Malformed => None
  | Present m => Some (m !! field)
  end.

(** A renewal control the source keeps: [renew] a boolean, [ensureRenewedAfter] a time. *)
Definition keep_renewal (spec : nested (gmap string uvalue)) (field : string) (desired : gmap string uvalue)
    : res (gmap string uvalue) :=
  match spec_field spec field with
  | None => Err (ErrText "invalid BYOC Certificate renewal specification")
  | Some None | Some (Some UNull) => Ok desired
  | Some (Some value) =>
      if bool_decide (field = "renew") then
        match value with
        | UBool _ => Ok (<[field := value]> desired)
        | _ => Err (ErrText "BYOC Certificate renew must be a boolean")
        end
      else
        let bad := ErrText "BYOC Certificate ensureRenewedAfter must be an RFC3339 timestamp" in
        match value with
        | UString timestamp => match time_ParseRFC3339 timestamp with
                               | Some _ => Ok (<[field := value]> desired)
                               | None => Err bad
                               end
        | _ => Err bad
        end
  end.

Definition preserveBYOCCertificateRenewal (cert : GardenerCertificate) (desired : gmap string uvalue)
    : res (gmap string uvalue) :=
  match keep_renewal (crt_Spec cert) "renew" desired with
  | Err err => Err err
  | Ok desired => keep_renewal (crt_Spec cert) "ensureRenewedAfter" desired
  end.

(** An owner reference of the Certificate with this name and UID. *)
Definition certificate_owner (name uid : string) (owner : OwnerReference) : bool :=
  bool_decide (or_APIVersion owner = certificate_APIVersion) && bool_decide (or_Kind owner = certificate_Kind)
  && bool_decide (or_Name owner = name) && bool_decide (or_UID owner = uid).

Definition requireBYOCSourceSecret (secret : Secret) (cert : GardenerCertificate) (inst : LLMInstance) : option error :=
  let m := sec_Meta secret in
  if bool_decide (UID (crt_Meta cert) = "")
     || negb (bool_decide (mget (Labels m) byocTLSOwnerLabel = UID (inst_Meta inst)))
     || negb (bool_decide (mget (Labels m) byocTLSCertificateLabel = UID (crt_Meta cert)))
  then Some (ErrText "source TLS Secret is not bound to the instance Certificate")
  else if negb (forallb (certificate_owner (Name (crt_Meta cert)) (UID (crt_Meta cert))) (OwnerReferences m))
  then Some (ErrText "source TLS Secret has a foreign ownerReference")
  else if negb (bool_decide (sec_Type secret = SecretTypeTLS))
  then Some (ErrText "source TLS Secret has an unexpected type")
  else None.

(** [unstructured.NestedString(cert.Object, "spec", "secretLabels", certificate label)]. *)
Definition requested_uid (cert : GardenerCertificate) : string :=
  match crt_Spec cert with
  | Present spec =>
      match spec !! "secretLabels" with
      | Some (UMap labels) => match labels !! byocTLSCertificateLabel with Some (LString s) => s | _ => "" end
      | _ => ""
      end
  | _ => ""
  end.

(** The first issuance racing the addition of the Certificate's UID to its own spec. *)
Definition first_issuance (source : Secret) (cert : GardenerCertificate) (name : string) (inst : LLMInstance) : bool :=
  let m := sec_Meta source in
  bool_decide (requested_uid cert = "") && bool_decide (mget (Labels m) byocTLSCertificateLabel = "")
  && bool_decide (mget (Labels m) byocTLSOwnerLabel = UID (inst_Meta inst))
  && bool_decide (sec_Type source = SecretTypeTLS)
  && forallb (certificate_owner name (UID (crt_Meta cert))) (OwnerReferences m).

Definition last_valid (name : string) : string := name +:+ "-last-valid".

Definition new_certificate (inst : LLMInstance) (cfg : BYOCTLSConfig) (name hostname : string) : GardenerCertificate :=
  {| crt_Meta := empty_meta <| Namespace := tls_Namespace cfg |> <| Name := name |>
                            <| Labels := {[ byocTLSOwnerLabel := UID (inst_Meta inst) ]} |>;
     crt_Spec := Present (byocCertificateSpec name hostname "" cfg inst);
     crt_State := NotSet; crt_ObservedGeneration := NotSet |}.

(** Refuse to request issuance into a name that is occupied. *)
Fixpoint refuse_existing (ns : string) (names : list string) : fio unit :=
  match names with
  | [] => fret tt
  | secretName :: names' =>
      let! got := call (EGet Cached KSecret (key_of ns secretName)) in
      match got with
      | Ok _ => fail (ErrText ("refusing pre-existing BYOC TLS Secret " +:+ ns +:+ "/" +:+ secretName))
      | Err err => if IsNotFound err then refuse_existing ns names' else fail err
      end
  end.

Definition or_fail (e : option error) : fio unit := match e with Some err => fail err | None => fret tt end.
Definition of_res {A} (x : res A) : fio A := Ret x.

Section Certificate.
  Context `{KubeLib} `{X509Lib}.

(** The Certificate as found, or as created when its name and its outputs are free. *)
Definition get_or_create_certificate (inst : LLMInstance) (cfg : BYOCTLSConfig) (name hostname : string)
    : fio GardenerCertificate :=
  let! got := call (EGet Cached KCertificate (key_of (tls_Namespace cfg) name)) in
  match got with
  | Ok cert => fret cert
  | Err err =>
      if IsNotFound err then
        let? _ := refuse_existing (tls_Namespace cfg) [name; last_valid name] in
        call (ECreate Cached KCertificate (new_certificate inst cfg name hostname))
      else fail err
  end.

(** Guard the named output Secret before the Certificate is changed. *)
Definition guard_output (inst : LLMInstance) (cfg : BYOCTLSConfig) (name : string) (cert : GardenerCertificate) : fio unit :=
  let! got := call (EGet Cached KSecret (key_of (tls_Namespace cfg) name)) in
  match got with
  | Ok source =>
      match requireBYOCSourceSecret source cert inst with
      | Some err => if first_issuance source cert name inst then fret tt else fail err
      | None => fret tt
      end
  | Err err => if IsNotFound err then fret tt else fail err
  end.

Definition reconcileBYOCManagedCertificate (inst : LLMInstance) (cfg : BYOCTLSConfig) (targetID : string) : fio unit :=
  let? _ := or_fail (validateBYOCTLSIssuer cfg) in
  let? (name, hostname) := of_res (byocTLSIdentity inst cfg targetID) in
  let? cert := get_or_create_certificate inst cfg name hostname in
  let? _ := or_fail (requireBYOCTLSOwner (crt_Meta cert) inst) in
  if negb (bool_decide (DeletionTimestamp (crt_Meta cert) = None)) then fail (tls_not_ready "Certificate is deleting")
  else if bool_decide (UID (crt_Meta cert) = "") then fail (tls_not_ready "Certificate has no UID")
  else
    let? _ := guard_output inst cfg name cert in
    let? desired := of_res (preserveBYOCCertificateRenewal cert
                              (byocCertificateSpec name hostname (UID (crt_Meta cert)) cfg inst)) in
    if bool_decide (crt_Spec cert = Present desired) then fret tt
    else let? _ := call (EUpdate Cached KCertificate (cert <| crt_Spec := Present desired |>)) in fret tt.

(** ** DNS *)

Definition special_use : list string :=
  ["0.0.0.0/8"; "100.64.0.0/10"; "192.0.0.0/24"; "192.0.2.0/24"; "198.18.0.0/15"; "198.51.100.0/24";
   "203.0.113.0/24"; "240.0.0.0/4"; "2001:db8::/32"; "2001::/32"; "2002::/16"; "64:ff9b::/96"; "64:ff9b:1::/48"].

(** [net.ParseIP] and [netip.ParseAddr] read the same texts ([net_ParseIP_ParseAddr]). *)
Definition validBYOCDNSTarget (address : string) : bool :=
  match netip_ParseAddr address with
  | None => false
  | Some ip =>
      if negb (IsGlobalUnicast ip) || IsPrivate ip || IsLoopback ip || IsLinkLocalUnicast ip || IsUnspecified ip
      then false
      else negb (existsb (fun cidr => prefix_contains cidr (Unmap ip)) special_use)
  end.

Definition dns_class_key : string := "dns.gardener.cloud/class".

Definition dns_spec (hostname address : string) : gmap string uvalue :=
  <["dnsName" := UString hostname]> (<["targets" := UStrings [address]]> {[ "ttl" := UInt 60 ]}).

Definition new_dns_entry (inst : LLMInstance) (cfg : BYOCTLSConfig) (name hostname address : string) : DNSEntry :=
  {| dns_Meta := empty_meta <| Namespace := tls_Namespace cfg |> <| Name := name |>
                            <| Labels := {[ byocTLSOwnerLabel := UID (inst_Meta inst) ]} |>
                            <| Annotations := {[ dns_class_key := DNSClass cfg ]} |>;
     dns_Spec := Present (dns_spec hostname address) |}.

Definition reconcileBYOCDNS (inst : LLMInstance) (cfg : BYOCTLSConfig) (address targetID : string) : fio unit :=
  if bool_decide (DNSClass cfg = "") then fail (ErrText "BYOC TLS DNS class is required")
  else
    let? (name, hostname) := of_res (byocTLSIdentity inst cfg targetID) in
    if negb (validBYOCDNSTarget address)
    then fail (ErrText "BYOC TLS requires a public unicast LoadBalancer IP address")
    else
      let! got := call (EGet Cached KDNSEntry (key_of (tls_Namespace cfg) name)) in
      match got with
      | Err err =>
          if IsNotFound err
          then let? _ := call (ECreate Cached KDNSEntry (new_dns_entry inst cfg name hostname address)) in fret tt
          else fail err
      | Ok obj =>
          let? _ := or_fail (requireBYOCTLSOwner (dns_Meta obj) inst) in
          if negb (bool_decide (DeletionTimestamp (dns_Meta obj) = None))
          then fail (tls_not_ready "DNSEntry is deleting")
          else if bool_decide (dns_Spec obj = Present (dns_spec hostname address))
                  && bool_decide (mget (Annotations (dns_Meta obj)) dns_class_key = DNSClass cfg)
          then fret tt
          else
            let? _ := call (EUpdate Cached KDNSEntry
              (obj <| dns_Meta -> Annotations ::= fun m => <[dns_class_key := DNSClass cfg]> m |>
                   <| dns_Spec := Present (dns_spec hostname address) |>)) in fret tt
      end.

(** ** TLS material *)

Fixpoint parse_all (ders : list string) : option (list X509Certificate) :=
  match ders with
  | [] => Some []
  | der :: ders' =>
      match ParseCertificate der with
      | None => None
      | Some c => match parse_all ders' with Some cs => Some (c :: cs) | None => None end
      end
  end.

Definition leaf_names_ok (leaf : X509Certificate) (hostname : string) : bool :=
  negb (IsCA leaf || negb (bool_decide (DNSNames leaf = [hostname])) || negb (bool_decide (IPAddresses leaf = []))
        || negb (bool_decide (EmailAddresses leaf = [])) || negb (bool_decide (URIs leaf = []))).

Definition leaf_key_error (leaf : X509Certificate) : option error :=
  match x_PublicKey leaf with
  | RSAKey bits => if (bits <? 2048)%Z then Some (ErrText "TLS RSA key is too small") else None
  | ECDSAKey bits => if (bits <? 256)%Z then Some (ErrText "TLS ECDSA key is too small") else None
  | OtherKey => Some (ErrText "TLS certificate has an unsupported public key type")
  end.

(** The fingerprint of the leaf when the pair is fit to serve the host name at [now]. *)
Definition validateBYOCTLSMaterial (data : gmap string string) (hostname : string) (now : Z) : res string :=
  match X509KeyPair (mget data TLSCertKey) (mget data TLSPrivateKeyKey) with
  | None => Err (ErrText "TLS certificate and key are invalid or do not match")
  | Some (leaf_der, chain) =>
      match ParseCertificate leaf_der with
      | None => Err (ErrText "TLS leaf certificate is invalid")
      | Some leaf =>
          if negb (leaf_names_ok leaf hostname)
          then Err (ErrText "TLS certificate must contain only the instance DNS SAN")
          else if negb (now <? NotAfter leaf - byocTLSRenewalMargin)%Z || (now <? NotBefore leaf)%Z
          then Err (ErrText "TLS certificate is outside its usable validity period")
          else if negb (existsb (fun u => bool_decide (u = ServerAuth)) (ExtKeyUsages leaf))
          then Err (ErrText "TLS certificate lacks serverAuth usage")
          else match leaf_key_error leaf with
               | Some err => Err err
               | None =>
                   match parse_all chain with
                   | None => Err (ErrText "TLS certificate chain is invalid")
                   | Some intermediates =>
                       if x509_Verify leaf hostname intermediates now then Ok (sha256_hex (Raw leaf))
                       else Err (ErrText "TLS certificate chain or hostname verification failed")
                   end
               end
      end
  end.

Definition requireBYOCTargetSecret (secret : Secret) (inst : LLMInstance) (target : string) : option error :=
  match requireBYOCTLSOwner (sec_Meta secret) inst with
  | Some err => Some err
  | None =>
      if negb (bool_decide (mget (Labels (sec_Meta secret)) byocTLSTargetLabel = target))
         || negb (bool_decide (sec_Type secret = SecretTypeTLS))
      then Some (ErrText "TLS Secret is not bound to the verified target")
      else None
  end.

Definition copyBYOCTLSData (data : gmap string string) : gmap string string :=
  <[TLSCertKey := mget data TLSCertKey]> {[ TLSPrivateKeyKey := mget data TLSPrivateKeyKey ]}.

Definition writeBYOCTLSSecret (c : client) (ns name : string) (inst : LLMInstance) (target : string)
    (data : gmap string string) : fio unit :=
  let! got := call (EGet c KSecret (key_of ns name)) in
  match got with
  | Err err =>
      if IsNotFound err then
        let secret := {|
          sec_Meta := empty_meta <| Namespace := ns |> <| Name := name |>
            <| Labels := <[byocTLSOwnerLabel := UID (inst_Meta inst)]> {[ byocTLSTargetLabel := target ]} |>;
          sec_Type := SecretTypeTLS; sec_Data := copyBYOCTLSData data; sec_StringData := ∅ |} in
        let? _ := call (ECreate c KSecret secret) in fret tt
      else fail err
  | Ok secret =>
      let? _ := or_fail (requireBYOCTargetSecret secret inst target) in
      if negb (bool_decide (DeletionTimestamp (sec_Meta secret) = None)) then fail (tls_not_ready "TLS Secret is deleting")
      else if bool_decide (sec_Data secret = copyBYOCTLSData data) then fret tt
      else let? _ := call (EUpdate c KSecret (secret <| sec_Data := copyBYOCTLSData data |>)) in fret tt
  end.

(** The source Secret of an issued Certificate: its material when it is bound, not
    revoked, of the current generation and valid; nothing when it is not there yet. *)
Definition issued_material (inst : LLMInstance) (cfg : BYOCTLSConfig) (name hostname : string)
    (cert : GardenerCertificate) (now : Z) : fio (option (gmap string string * string)) :=
  let! got := call (EGet Cached KSecret (key_of (tls_Namespace cfg) name)) in
  match got with
  | Ok source =>
      let? _ := or_fail (requireBYOCSourceSecret source cert inst) in
      if bool_decide (mget (Annotations (sec_Meta source)) byocTLSRevokedAnnotation = byocTLSRevokedValue)
      then fail (tls_not_ready "certificate has been revoked")
      else if bool_decide (nested_or "" (crt_State cert) = byocCertificateReadyState)
              && bool_decide (nested_or 0%Z (crt_ObservedGeneration cert) = Generation (crt_Meta cert))
      then fret (match validateBYOCTLSMaterial (sec_Data source) hostname now with
                 | Ok revision => Some (sec_Data source, revision)
                 | Err _ => None
                 end)
      else fret None
  | Err err => if IsNotFound err then fret None else fail err
  end.

(** The material to serve: the issued one, put into the protected cache first, or the
    cached one while it is still valid. *)
Definition serving_material (inst : LLMInstance) (cfg : BYOCTLSConfig) (name hostname target : string)
    (issued : option (gmap string string * string)) (now : Z) : fio (gmap string string * string) :=
  match issued with
  | Some (data, revision) =>
      let? _ := writeBYOCTLSSecret Cached (tls_Namespace cfg) (last_valid name) inst target data in
      fret (data, revision)
  | None =>
      let! got := call (EGet Cached KSecret (key_of (tls_Namespace cfg) (last_valid name))) in
      match got with
      | Err err => if IsNotFound err then fail (tls_not_ready "no valid issued certificate") else fail err
      | Ok cache =>
          let? _ := or_fail (requireBYOCTargetSecret cache inst target) in
          match validateBYOCTLSMaterial (sec_Data cache) hostname now with
          | Err _ => fail (tls_not_ready "last serving certificate is no longer valid")
          | Ok revision => fret (sec_Data cache, revision)
          end
      end
  end.

Definition reconcileBYOCTLSSecret (remote : client) (inst : LLMInstance) (cfg : BYOCTLSConfig) (targetID : string)
    : fio string :=
  let? _ := or_fail (validateBYOCTLSIssuer cfg) in
  let? (name, hostname) := of_res (byocTLSIdentity inst cfg targetID) in
  let? target := of_res (byocTLSTarget targetID) in
  let? cert := call (EGet Cached KCertificate (key_of (tls_Namespace cfg) name)) in
  let? _ := or_fail (requireBYOCTLSOwner (crt_Meta cert) inst) in
  if negb (bool_decide (DeletionTimestamp (crt_Meta cert) = None)) then fail (tls_not_ready "Certificate is deleting")
  else
    let? desired := of_res (preserveBYOCCertificateRenewal cert
                              (byocCertificateSpec name hostname (UID (crt_Meta cert)) cfg inst)) in
    if negb (bool_decide (crt_Spec cert = Present desired))
    then fail (tls_not_ready "Certificate specification has not converged")
    else if bool_decide (nested_or "" (crt_State cert) = "Revoked")
            || bool_decide (mget (Annotations (crt_Meta cert)) byocTLSRevokedAnnotation = byocTLSRevokedValue)
    then fail (tls_not_ready "certificate has been revoked")
    else
      let! now := call ENow in
      let? issued := issued_material inst cfg name hostname cert now in
      let? (data, revision) := serving_material inst cfg name hostname target issued now in
      let? _ := writeBYOCTLSSecret remote byocNamespace name inst target data in
      fret revision.

(** ** Cleanup *)

(** [client.IgnoreNotFound] of a deletion conditioned on the object as it was read. *)
Definition delete_as_read (c : client) (K : kind) (o : obj K) : fio unit :=
  let! deleted := call (EDelete c K o {| pre_UID := Some (UID (meta_of K o));
                                         pre_ResourceVersion := Some (ResourceVersion (meta_of K o)) |}) in
  or_fail (IgnoreNotFound deleted).

Definition delete_once (c : client) (K : kind) (o : obj K) : fio unit :=
  if bool_decide (DeletionTimestamp (meta_of K o) = None) then delete_as_read c K o else fret tt.

Definition cleanupBYOCDNS (inst : LLMInstance) (cfg : BYOCTLSConfig) (targetID : string) : fio unit :=
  let? (name, _) := of_res (byocTLSIdentity inst cfg targetID) in
  let! got := call (EGet Cached KDNSEntry (key_of (tls_Namespace cfg) name)) in
  match got with
  | Err err => if IsNotFound err then fret tt else fail err
  | Ok obj =>
      let? _ := or_fail (requireBYOCTLSOwner (dns_Meta obj) inst) in
      let? _ := delete_once Cached KDNSEntry obj in
      fail (tls_not_ready "waiting for DNSEntry removal")
  end.

Definition cleanupBYOCRemoteTLS (remote : client) (inst : LLMInstance) (cfg : BYOCTLSConfig) (targetID : string)
    : fio unit :=
  let? (name, _) := of_res (byocTLSIdentity inst cfg targetID) in
  let? target := of_res (byocTLSTarget targetID) in
  let! got := call (EGet remote KSecret (key_of byocNamespace name)) in
  match got with
  | Err err => if IsNotFound err then fret tt else fail err
  | Ok secret =>
      let? _ := or_fail (requireBYOCTargetSecret secret inst target) in
      let? _ := delete_once remote KSecret secret in
      fail (tls_not_ready "waiting for remote TLS Secret removal")
  end.

(** The Certificate is deleted only once its output is bound to it, so that a retry can
    recognise the Secret it leaves behind. *)
Definition delete_certificate (inst : LLMInstance) (cfg : BYOCTLSConfig) (targetID name : string)
    (cert : GardenerCertificate) : fio unit :=
  let? _ := or_fail (requireBYOCTLSOwner (crt_Meta cert) inst) in
  let? _ :=
    if negb (bool_decide (DeletionTimestamp (crt_Meta cert) = None)) then fret tt
    else
      let! got := call (EGet Cached KSecret (key_of (tls_Namespace cfg) name)) in
      let? _ :=
        match got with
        | Ok source =>
            match requireBYOCSourceSecret source cert inst with
            | Some _ =>
                let? _ := reconcileBYOCManagedCertificate inst cfg targetID in
                fail (tls_not_ready "waiting for source Certificate ownership")
            | None => fret tt
            end
        | Err err => if IsNotFound err then fret tt else fail err
        end in
      delete_as_read Cached KCertificate cert in
  fail (tls_not_ready "waiting for Certificate removal").

(** What remains of a source Secret whose Certificate is gone. *)
Definition orphaned_source_error (secret : Secret) (name : string) (inst : LLMInstance) : option error :=
  let m := sec_Meta secret in
  let certificateUID := mget (Labels m) byocTLSCertificateLabel in
  if negb (bool_decide (mget (Labels m) byocTLSOwnerLabel = UID (inst_Meta inst))) || bool_decide (certificateUID = "")
     || negb (bool_decide (sec_Type secret = SecretTypeTLS))
  then Some (ErrText "cannot verify orphaned source TLS Secret ownership")
  else if negb (forallb (certificate_owner name certificateUID) (OwnerReferences m))
  then Some (ErrText "orphaned source TLS Secret has a foreign ownerReference")
  else None.

(** Delete the managed Secrets found; whether any was. *)
Fixpoint delete_outputs (inst : LLMInstance) (cfg : BYOCTLSConfig) (name target : string) (names : list string)
    : fio bool :=
  match names with
  | [] => fret false
  | secretName :: names' =>
      let! got := call (EGet Cached KSecret (key_of (tls_Namespace cfg) secretName)) in
      match got with
      | Err err => if IsNotFound err then delete_outputs inst cfg name target names' else fail err
      | Ok secret =>
          let? _ := or_fail (if bool_decide (secretName = name) then orphaned_source_error secret name inst
                             else requireBYOCTargetSecret secret inst target) in
          let? _ := delete_once Cached KSecret secret in
          let? _ := delete_outputs inst cfg name target names' in
          fret true
      end
  end.

Definition cleanupBYOCManagedTLS (inst : LLMInstance) (cfg : BYOCTLSConfig) (targetID : string) : fio unit :=
  let? _ := cleanupBYOCDNS inst cfg targetID in
  let? (name, _) := of_res (byocTLSIdentity inst cfg targetID) in
  let? target := of_res (byocTLSTarget targetID) in
  let! got := call (EGet Cached KCertificate (key_of (tls_Namespace cfg) name)) in
  match got with
  | Ok cert => delete_certificate inst cfg targetID name cert
  | Err err =>
      if negb (IsNotFound err) then fail err
      else
        let? pending := delete_outputs inst cfg name target [name; last_valid name] in
        if pending : bool then fail (tls_not_ready "waiting for managed TLS Secret removal") else fret tt
  end.

End Certificate.
