(* ===== verification/Byoc.v ===== *)
(** * The workload on a bring-your-own cluster (internal/controller/llminstance_byoc.go)

    Credentials, the remote objects, readiness, the whole reconcile of such an
    instance, and the cleanup of a previous or final target.  Functions that write the
    status thread the instance, which the status client overwrites with the answer. *)

From Stdlib Require Import Ascii.
From stdpp Require Import sorting.
From S2P Require Import Prelude GoStd GoNet GoError Sha256 Kube Api Io Names SlugPolicy Model TokenRequest SlugRoute Workload Routing ByocTransport ByocTLS.

Definition byocKubeconfigKey : string := "kubeconfig".
Definition byocAPIKeyFileKey : string := "api-keys".
Definition byocAPIKeyMountPath : string := "/keys".
Definition byocServicePort : Z := 443.
Definition byocTargetPort : Z := 8443.
Definition byocAPIKeysRevAnnotation : string := "llm.privatellms.msp/api-keys-revision".
Definition byocBootstrapAnnotation : string := "llm.privatellms.msp/bootstrap-key".
Definition byocReasonMissingSecret : string := "KubeconfigSecretMissing".
Definition byocReasonTargetChanging : string := "BYOCTargetChanging".

Definition byocAPIKeyFilePath : string := byocAPIKeyMountPath +:+ "/" +:+ byocAPIKeyFileKey.

Definition byocLabels (instanceName slug : string) : gmap string string :=
  <["app.kubernetes.io/name" := "llama-cpp-server"]>
    (<[instanceLabelKey := instanceName]> {[ slugAnnotationKey := slug ]}).

(** ** Handlers that update the instance *)

(** The instance as it is in memory is threaded through; a step may fail. *)
Definition sio (A : Type) : Type := LLMInstance -> io (LLMInstance * res A).

Definition sret {A} (a : A) : sio A := fun inst => mret (inst, Ok a).
Definition sfail {A} (e : error) : sio A := fun inst => mret (inst, Err e).
Definition sbind {A B} (m : sio A) (k : A -> sio B) : sio B := fun inst =>
  let! (inst, x) := m inst in
  match x with Ok a => k a inst | Err e => sfail e inst end.
Definition sget : sio LLMInstance := fun inst => mret (inst, Ok inst).
Definition smodify (f : LLMInstance -> LLMInstance) : sio unit := fun inst => mret (f inst, Ok tt).
Definition lift {A} (m : fio A) : sio A := fun inst => let! x := m in mret (inst, x).

Notation "'let*' x ':=' m 'in' k" := (sbind m (fun x => k))
  (at level 10, x pattern, m at level 100, k at level 200,
   format "'let*'  x  ':='  m  'in' '//' k").

(** [updateProvisioningStatus] and [updateReadyStatus]: the instance in memory becomes
    the stored one, or keeps the status that could not be written. *)
Section Status.
  Context `{KubeLib}.

Definition store_status (status phase endpoint reason message : string) : sio unit := fun inst =>
  let! now := call ENow in
  let inst := with_status inst now status phase endpoint reason message in
  let! stored := call (EUpdateStatus Cached KInstance inst) in
  mret (match stored with Ok inst => (inst, Ok tt) | Err err => (inst, Err err) end).

Definition provisioning (endpoint reason message : string) : sio unit :=
  store_status ConditionFalse "Provisioning" endpoint reason message.

Definition publish (endpoint : string) : sio unit :=
  store_status ConditionTrue "Ready" endpoint "Provisioned" "LLM instance is ready".

End Status.

(** ** Credentials *)

Definition kubeconfig_secret (inst : LLMInstance) : string :=
  match spec_ClusterRef (Spec inst) with Some ref => KubeconfigSecretName ref | None => "" end.

(** The kubeconfig of the user's Secret, or a reason and a message. *)
Definition byocKubeconfig (inst : LLMInstance) : fio (string + string * string) :=
  let secretName := kubeconfig_secret inst in
  let! got := call (EGet Cached KSecret (key_of (Namespace (inst_Meta inst)) secretName)) in
  match got with
  | Ok sec =>
      let kubeconfig := mget (sec_Data sec) byocKubeconfigKey in
      if negb (bool_decide (kubeconfig = "")) then fret (inl kubeconfig)
      else fret (inr ("KubeconfigInvalid", "kubeconfig Secret " +:+ Quote secretName +:+ " has no "
                                           +:+ Quote byocKubeconfigKey +:+ " key"))
  | Err err =>
      if negb (IsNotFound err) then fail err
      else fret (inr (byocReasonMissingSecret, "kubeconfig Secret " +:+ Quote secretName +:+ " not found"))
  end.

Section Byoc.
  Context `{KubeLib} `{X509Lib} `{ClientLib}.
  Variable rc : LLMInstanceReconciler.

(** A client with the credentials it was built from. *)
Definition byocClient (inst : LLMInstance) : fio (client * string + string * string) :=
  let? got := byocKubeconfig inst in
  match got with
  | inr reason => fret (inr reason)
  | inl kubeconfig =>
      fret (match remoteClientForKubeconfig kubeconfig with
            | Ok remote => inl (remote, kubeconfig)
            | Err err => inr ("KubeconfigInvalid", "cannot build client for BYOC cluster: " +:+ error_text err)
            end)
  end.

Definition credentials_key (inst : LLMInstance) (slug : string) : ObjectKey :=
  key_of (Namespace (inst_Meta inst)) (byocCredentialsName slug).

Definition controls (inst : LLMInstance) (m : ObjectMeta) : bool :=
  IsControlledBy (OwnerReferences m) (UID (inst_Meta inst)).

Definition cachedBYOCKubeconfig (inst : LLMInstance) (slug : string) : fio (option string) :=
  if bool_decide (slug = "") then fret None
  else
    let! got := call (EGet Cached KSecret (credentials_key inst slug)) in
    match got with
    | Err err => if IsNotFound err then fret None else fail err
    | Ok cached =>
        if negb (controls inst (sec_Meta cached)) then fail (ErrText "refusing foreign cached BYOC credentials")
        else
          let kubeconfig := mget (sec_Data cached) byocKubeconfigKey in
          if bool_decide (kubeconfig = "")
          then fail (ErrText ("cached BYOC credentials Secret " +:+ Quote (byocCredentialsName slug)
                              +:+ " has no " +:+ Quote byocKubeconfigKey +:+ " key"))
          else fret (Some kubeconfig)
    end.

Definition credentials_secret (inst : LLMInstance) (slug kubeconfig : string) : Secret := {|
  sec_Meta := empty_meta <| Name := byocCredentialsName slug |> <| Namespace := Namespace (inst_Meta inst) |>
                         <| Labels := byocLabels (Name (inst_Meta inst)) slug |>;
  sec_Type := SecretTypeOpaque;
  sec_Data := {[ byocKubeconfigKey := kubeconfig ]};
  sec_StringData := ∅ |}.

Definition ensureCachedCredentials (inst : LLMInstance) (slug kubeconfig : string) : fio unit :=
  let! got := call (EGet Cached KSecret (credentials_key inst slug)) in
  match got with
  | Err err =>
      if negb (IsNotFound err) then fail err
      else
        let secret := credentials_secret inst slug kubeconfig in
        match SetControllerReference (instance_ref inst) (sec_Meta secret) with
        | Err err => fail err
        | Ok m => let? _ := call (ECreate Cached KSecret (secret <| sec_Meta := m |>)) in fret tt
        end
  | Ok existing =>
      if negb (controls inst (sec_Meta existing)) then fail (ErrText "refusing foreign cached BYOC credentials")
      else if bool_decide (mget (sec_Data existing) byocKubeconfigKey = kubeconfig) then fret tt
      else let? _ := call (EUpdate Cached KSecret
             (existing <| sec_Data ::= fun m => <[byocKubeconfigKey := kubeconfig]> m |>)) in fret tt
  end.

Definition deleteCachedBYOCCredentials (inst : LLMInstance) (slug : string) : fio unit :=
  let! got := call (EGet Cached KSecret (credentials_key inst slug)) in
  match got with
  | Err err => or_fail (IgnoreNotFound (Some err))
  | Ok cached =>
      if negb (controls inst (sec_Meta cached)) then fail (ErrText "refusing to delete foreign cached credentials")
      else
        let! deleted := call (EDelete Cached KSecret cached
          {| pre_UID := Some (UID (sec_Meta cached)); pre_ResourceVersion := None |}) in
        or_fail (IgnoreNotFound deleted)
  end.

(** ** Remote objects *)

Definition ensureBYOCNamespace (remote : client) : fio unit :=
  let! got := call (EGet remote KNamespace (key_of "" byocNamespace)) in
  match got with
  | Ok _ => fret tt
  | Err err =>
      if negb (IsNotFound err) then fail err
      else
        let! created := call (ECreate remote KNamespace
          {| ns_Meta := empty_meta <| Name := byocNamespace |>
                          <| Labels := {[ "app.kubernetes.io/managed-by" := "private-llm-operator" ]} |> |}) in
        match created with
        | Ok _ => fret tt
        | Err err => if IsAlreadyExists err then fret tt else fail err
        end
  end.

Definition key_file_ok (key : string) : bool :=
  negb (bool_decide (key = "")) && negb (str_exists (fun c => Ascii.eqb c "010" || Ascii.eqb c "013") key).

(** A live Secret an APITokenRequest of the API group controls. *)
Definition token_owner (s : Secret) : option OwnerReference :=
  match GetControllerOf (OwnerReferences (sec_Meta s)) with
  | None => None
  | Some owner =>
      if negb (bool_decide (or_Kind owner = "APITokenRequest")) || negb (bool_decide (or_APIVersion owner = GroupVersion))
         || negb (bool_decide (sec_Type s = SecretTypeOpaque)) || negb (time_IsZero (DeletionTimestamp (sec_Meta s)))
      then None else Some owner
  end.

Definition request_matches (inst : LLMInstance) (s : Secret) (owner : OwnerReference) (request : APITokenRequest) : bool :=
  negb (negb (bool_decide (UID (tr_Meta request) = or_UID owner))
        || negb (bool_decide (InstanceName (tr_Spec request) = Name (inst_Meta inst)))
        || negb (time_IsZero (DeletionTimestamp (tr_Meta request)))
        || negb (bool_decide (SecretName (tr_Status request) = Name (sec_Meta s)))).

Definition key_bound (inst : LLMInstance) (s : Secret) : bool :=
  negb (bool_decide (ActiveBYOCTargetID (Status inst) = "")
        || negb (bool_decide (mget (Annotations (sec_Meta s)) credentialTargetAnnotation = ActiveBYOCTargetID (Status inst)))
        || negb (bool_decide (mget (Annotations (sec_Meta s)) credentialInstanceAnnotation = UID (inst_Meta inst)))).

(** The keys of the Secrets whose request is live and bound to this instance and target. *)
Fixpoint collect_keys (inst : LLMInstance) (secrets : list Secret) : fio (list string) :=
  match secrets with
  | [] => fret []
  | s :: secrets' =>
      match token_owner s with
      | None => collect_keys inst secrets'
      | Some owner =>
          let! got := call (EGet Cached KTokenRequest (key_of (Namespace (inst_Meta inst)) (or_Name owner))) in
          match got with
          | Err err => if IsNotFound err then collect_keys inst secrets' else fail err
          | Ok request =>
              let key := mget (sec_Data s) openAIAPIKeyKey in
              if request_matches inst s owner request && key_bound inst s && key_file_ok key
              then let? keys := collect_keys inst secrets' in fret (key :: keys)
              else collect_keys inst secrets'
          end
      end
  end.

(** [sort.Strings]: byte-wise order. *)
Definition string_le (a b : string) : Prop := String.leb a b = true.
#[global] Instance string_le_dec : RelDecision string_le.
Proof. intros a b. unfold Decision, string_le. apply bool_eq_dec. Defined.
Definition sort_Strings (l : list string) : list string := merge_sort string_le l.

(** The key file and whether it holds only the bootstrap key. *)
Definition desiredAPIKeyFile (remote : client) (inst : LLMInstance) (slug : string) : fio (string * bool) :=
  let? secrets := call (EList Cached KSecret (Some (Namespace (inst_Meta inst)))
                          [(instanceLabelKey, Name (inst_Meta inst))]) in
  let? keys := collect_keys inst secrets in
  if negb (bool_decide (keys = [])) then fret (Join (sort_Strings keys) (chr 10) +:+ chr 10, false)
  else
    let! got := call (EGet remote KSecret (key_of byocNamespace (byocKeySecretName slug))) in
    let fresh := let? token := generateToken 32 in fret (token +:+ chr 10, true) in
    match got with
    | Ok existing =>
        let? _ := or_fail (checkBYOCObjectOwner (sec_Meta existing) inst) in
        if bool_decide (mget (Annotations (sec_Meta existing)) byocBootstrapAnnotation = byocBootstrapTrue)
           && negb (bool_decide (mget (sec_Data existing) byocAPIKeyFileKey = ""))
        then fret (mget (sec_Data existing) byocAPIKeyFileKey, true)
        else fresh
    | Err err => if negb (IsNotFound err) then fail err else fresh
    end.

Definition key_annotations (inst : LLMInstance) (bootstrap : bool) : gmap string string :=
  if bootstrap then <[byocBootstrapAnnotation := byocBootstrapTrue]> (byocOwnedAnnotations inst)
  else byocOwnedAnnotations inst.

Definition ensure_key_secret (keyFile : string) (bootstrap : bool) : Secret -> Secret * bool :=
  in_order
    [set_when (fun s => negb (bool_decide (mget (sec_Data s) byocAPIKeyFileKey = keyFile)))
              (fun s => s <| sec_Data ::= fun m => <[byocAPIKeyFileKey := keyFile]> m |>);
     set_when (fun s => negb (bool_decide (mget (Annotations (sec_Meta s)) byocBootstrapAnnotation
                                           = if bootstrap then byocBootstrapTrue else "")))
              (fun s => s <| sec_Meta -> Annotations ::= fun m =>
                 if bootstrap then <[byocBootstrapAnnotation := byocBootstrapTrue]> m
                 else delete byocBootstrapAnnotation m |>)].

Definition reconcileBYOCKeySecret (remote : client) (inst : LLMInstance) (slug keyFile : string) (bootstrap : bool)
    : fio string :=
  let name := byocKeySecretName slug in
  let! got := call (EGet remote KSecret (key_of byocNamespace name)) in
  match got with
  | Err err =>
      if negb (IsNotFound err) then fail err
      else
        let? secret := call (ECreate remote KSecret {|
          sec_Meta := empty_meta <| Name := name |> <| Namespace := byocNamespace |>
                        <| Labels := byocLabels (Name (inst_Meta inst)) slug |>
                        <| Annotations := key_annotations inst bootstrap |>;
          sec_Type := SecretTypeOpaque; sec_Data := ∅;
          sec_StringData := {[ byocAPIKeyFileKey := keyFile ]} |}) in
        fret (ResourceVersion (sec_Meta secret))
  | Ok existing =>
      let? _ := or_fail (checkBYOCObjectOwner (sec_Meta existing) inst) in
      let '(existing, updated) := ensure_key_secret keyFile bootstrap existing in
      if negb updated then fret (ResourceVersion (sec_Meta existing))
      else let? stored := call (EUpdate remote KSecret existing) in fret (ResourceVersion (sec_Meta stored))
  end.

Definition keys_mount : VolumeMount :=
  {| vm_Name := "api-keys"; vm_MountPath := byocAPIKeyMountPath; vm_ReadOnly := true |}.

Definition buildBYOCDeployment (inst : LLMInstance) (slug : string) (replicas : Z) (model : modelSelection)
    (keysRevision tlsSecret tlsRevision : string) : Deployment :=
  let labels := byocLabels (Name (inst_Meta inst)) slug in
  let container := (llamaServerContainer model ["--api-key-file"; byocAPIKeyFilePath])
                     <| c_VolumeMounts ::= fun l => l ++ [keys_mount] |> in
  let deploy := {|
    d_Meta := empty_meta <| Name := byocBaseName slug |> <| Namespace := byocNamespace |> <| Labels := labels |>;
    d_Replicas := Some replicas;
    d_Selector := labels;
    d_Strategy := "";
    d_Template := {|
      pt_Labels := labels;
      pt_Annotations := {[ byocAPIKeysRevAnnotation := keysRevision ]};
      pt_Spec := no_podspec <| ps_DNSPolicy := effectiveDNSPolicy inst |>
        <| ps_InitContainers := [llamaInitContainer model] |>
        <| ps_Containers := [container] |>
        <| ps_Volumes := [llamaModelVolume;
             {| v_Name := "api-keys"; v_EmptyDir := false;
                v_Secret := Some {| sv_SecretName := byocKeySecretName slug; sv_DefaultMode := None |};
                v_ConfigMap := None |}] |> |};
    d_Status := {| ds_ObservedGeneration := 0; ds_UpdatedReplicas := 0; ds_ReadyReplicas := 0;
                   ds_AvailableReplicas := 0 |} |} in
  corev1defaults (configureBYOCTLSDeployment deploy inst slug tlsSecret tlsRevision).

(** The existing Deployment with template, replicas and strategy replaced; whether any
    differed. *)
Definition converge_remote_deployment (desired existing : Deployment) : Deployment * bool :=
  if TemplateDeepEqual (d_Template existing) (d_Template desired)
     && bool_decide (d_Replicas existing = d_Replicas desired)
     && bool_decide (d_Strategy existing = d_Strategy desired)
  then (existing, false)
  else (existing <| d_Template := d_Template desired |> <| d_Replicas := d_Replicas desired |>
                 <| d_Strategy := d_Strategy desired |>, true).

Definition reconcileBYOCDeployment (remote : client) (inst : LLMInstance) (slug : string) (model : modelSelection)
    (keysRevision tlsSecret tlsRevision : string) : fio unit :=
  let desired := buildBYOCDeployment inst slug (desired_replicas inst) model keysRevision tlsSecret tlsRevision in
  let! got := call (EGet remote KDeployment (ObjectKeyFromObject (d_Meta desired))) in
  match got with
  | Err err => if IsNotFound err then let? _ := call (ECreate remote KDeployment desired) in fret tt else fail err
  | Ok existing =>
      let? _ := or_fail (checkBYOCObjectOwner (d_Meta existing) inst) in
      let desired := corev1defaults (desired <| d_Selector := d_Selector existing |>) in
      let '(updated, changed) := converge_remote_deployment desired existing in
      if negb changed then fret tt
      else let? _ := call (EUpdate remote KDeployment updated) in fret tt
  end.

(** The TLS port alone, keeping the node port of an existing port 443. *)
Definition byoc_port (nodePort : Z) : ServicePort :=
  {| sp_Name := byocServicePortName; sp_Port := byocServicePort; sp_TargetPort := FromInt byocTargetPort;
     sp_Protocol := "TCP"; sp_NodePort := nodePort; sp_AppProtocol := None |}.

Definition kept_node_port (ports : list ServicePort) : Z :=
  match find (fun old => (sp_Port old =? byocServicePort)%Z) ports with
  | Some old => sp_NodePort old
  | None => 0
  end.

Definition ensureBYOCServicePort (svc : Service) : Service * bool :=
  let desired := [byoc_port (kept_node_port (svc_Ports svc))] in
  if bool_decide (svc_Ports svc = desired) then (svc, false) else (svc <| svc_Ports := desired |>, true).

(** As many entries, and every entry of the first is looked up in the second, where an
    absent key reads as the empty string. *)
Definition stringMapEqual (a b : gmap string string) : bool :=
  (size a =? size b)%nat && forallb (fun kv => bool_decide (mget b kv.1 = kv.2)) (map_to_list a).

Definition ensure_remote_service (labels : gmap string string) : Service -> Service * bool :=
  in_order
    [set_when (fun s => negb (bool_decide (svc_Type s = "LoadBalancer"))) (fun s => s <| svc_Type := "LoadBalancer" |>);
     set_when (fun s => negb (stringMapEqual (svc_Selector s) labels)) (fun s => s <| svc_Selector := labels |>);
     ensureBYOCServicePort].

Definition newBYOCService (inst : LLMInstance) (slug : string) : Service :=
  let labels := byocLabels (Name (inst_Meta inst)) slug in
  {| svc_Meta := empty_meta <| Name := byocBaseName slug |> <| Namespace := byocNamespace |>
                            <| Labels := labels |> <| Annotations := byocOwnedAnnotations inst |>;
     svc_Type := "LoadBalancer"; svc_Selector := labels; svc_Ports := [byoc_port 0]; svc_LoadBalancer := [] |}.

Definition reconcileBYOCService (remote : client) (inst : LLMInstance) (slug : string) : fio unit :=
  let! got := call (EGet remote KService (key_of byocNamespace (byocBaseName slug))) in
  match got with
  | Err err =>
      if negb (IsNotFound err) then fail err
      else let? _ := call (ECreate remote KService (newBYOCService inst slug)) in fret tt
  | Ok existing =>
      let? _ := or_fail (checkBYOCObjectOwner (svc_Meta existing) inst) in
      let '(existing, updated) := ensure_remote_service (byocLabels (Name (inst_Meta inst)) slug) existing in
      if negb updated then fret tt else let? _ := call (EUpdate remote KService existing) in fret tt
  end.

Fixpoint first_address (ingress : list LoadBalancerIngress) : string :=
  match ingress with
  | [] => ""
  | ing :: rest =>
      if negb (bool_decide (lb_IP ing = "")) then lb_IP ing
      else if negb (bool_decide (lb_Hostname ing = "")) then lb_Hostname ing
      else first_address rest
  end.

Definition loadBalancerAddress (svc : Service) : string := first_address (svc_LoadBalancer svc).

(** Ready, endpoint, reason and message. *)
Definition evaluateBYOCReadiness (remote : client) (slug hostname fingerprint : string)
    : fio (bool * string * string * string) :=
  let name := byocBaseName slug in
  let! got := call (EGet remote KDeployment (key_of byocNamespace name)) in
  match got with
  | Err err =>
      if IsNotFound err
      then fret (false, "", "DeploymentNotFound", "Deployment " +:+ Quote name +:+ " not found on BYOC cluster")
      else fail err
  | Ok deploy =>
      let '(ready, reason, message) := deploymentReadiness deploy name in
      if negb ready then fret (false, "", reason, message)
      else
        let! got := call (EGet remote KService (key_of byocNamespace name)) in
        match got with
        | Err err =>
            if IsNotFound err
            then fret (false, "", "ServiceNotFound", "Service " +:+ Quote name +:+ " not found on BYOC cluster")
            else fail err
        | Ok svc =>
            if bool_decide (loadBalancerAddress svc = "")
            then fret (false, "", "LoadBalancerPending", "Service " +:+ Quote name +:+ " has no LoadBalancer address yet")
            else
              let endpoint := "https://" +:+ hostname in
              let probeURL := endpoint +:+ "/health" in
              let! probed := runBYOCHealthCheck probeURL fingerprint in
              match probed with
              | Some err => fret (false, "", "HealthCheckFailed", "probe failed for " +:+ probeURL +:+ ": " +:+ error_text err)
              | None => fret (true, endpoint, "Provisioned", "LLM instance is ready")
              end
        end
  end.

(** The remote part of a reconcile; the revision of the TLS material delivered. *)
Definition reconcileBYOCWorkload (remote : client) (inst : LLMInstance) (slug : string) (model : modelSelection)
    (targetID tlsName hostname : string) : fio string :=
  let? _ := reconcileBYOCService remote inst slug in
  let? _ := reconcileBYOCManagedCertificate inst (BYOCTLS rc) targetID in
  let? svc := call (EGet remote KService (key_of byocNamespace (byocBaseName slug))) in
  let addr := loadBalancerAddress svc in
  if bool_decide (addr = "") then fail (tls_not_ready "waiting for BYOC LoadBalancer address")
  else
    let? _ := reconcileBYOCDNS inst (BYOCTLS rc) addr targetID in
    let? tlsRevision := reconcileBYOCTLSSecret remote inst (BYOCTLS rc) targetID in
    let? _ := reconcileBYOCProxyConfig remote inst slug hostname in
    let? (keyFile, bootstrap) := desiredAPIKeyFile remote inst slug in
    let? keysRevision := reconcileBYOCKeySecret remote inst slug keyFile bootstrap in
    let? _ := reconcileBYOCDeployment remote inst slug model keysRevision tlsName tlsRevision in
    fret tlsRevision.

(** ** Cleanup *)

Definition byocCleanupTLSConfig (inst : LLMInstance) : BYOCTLSConfig :=
  let cfg := BYOCTLS rc in
  let cfg := if bool_decide (ActiveBYOCTLSDomain (Status inst) = "") then cfg
             else cfg <| Domain := ActiveBYOCTLSDomain (Status inst) |> in
  if bool_decide (ActiveBYOCTLSNamespace (Status inst) = "") then cfg
  else cfg <| tls_Namespace := ActiveBYOCTLSNamespace (Status inst) |>.

(** The remote objects of an instance. *)
Definition remote_objects (slug : string) : list (kind * string) :=
  [(KDeployment, byocBaseName slug); (KService, byocBaseName slug); (KSecret, byocKeySecretName slug);
   (KConfigMap, byocBaseName slug +:+ "-proxy")].

(** One turn of the loop: the error met, and whether an owned object is still there. *)
Definition cleanup_object (remote : client) (inst : LLMInstance) (K : kind) (name : string)
    : io (option error * bool) :=
  let! got := call (EGet remote K (key_of byocNamespace name)) in
  match got with
  | Err err => mret (IgnoreNotFound (Some err), false)
  | Ok o =>
      match checkBYOCObjectOwner (meta_of K o) inst with
      | Some err => mret (Some err, false)
      | None =>
          let! deleted := call (EDelete remote K o
            {| pre_UID := Some (UID (meta_of K o)); pre_ResourceVersion := None |}) in
          mret (match IgnoreNotFound deleted with
                | Some err => Some (ErrWrapf ("delete " +:+ Namespace (meta_of K o) +:+ "/" +:+ Name (meta_of K o)
                                              +:+ ": " +:+ error_text err) [err])
                | None => None
                end, true)
      end
  end.

Fixpoint cleanup_objects (remote : client) (inst : LLMInstance) (objects : list (kind * string))
    : io (list (option error) * bool) :=
  match objects with
  | [] => mret ([], false)
  | (K, name) :: objects' =>
      let! (err, found) := cleanup_object remote inst K name in
      let! (errs, pending) := cleanup_objects remote inst objects' in
      mret (err :: errs, found || pending)
  end.

Definition cleanupBYOCObjects (remote : client) (inst : LLMInstance) (slug : string) : fio unit :=
  let! (errs, pending) := cleanup_objects remote inst (remote_objects slug) in
  let waiting := if pending : bool then Some (tls_not_ready "waiting for owned BYOC objects to disappear") else None in
  or_fail (errors_Join (errs ++ [waiting])).

(** The API and cluster a kubeconfig leads to now. *)
Definition connect (data : string) : fio (client * string) :=
  let? remote := of_res (remoteClientForKubeconfig data) in
  let? apiID := of_res (byocTargetIdentity data) in
  let? actualID := byocClusterIdentity remote apiID in
  fret (remote, actualID).

(** Remove the remote objects and TLS of a target, unless its cluster was replaced. *)
Definition clean_target (inst : LLMInstance) (slug data targetID refusal : string) : fio unit :=
  let? (remote, actualID) := connect data in
  if negb (bool_decide (targetID = "")) && negb (bool_decide (actualID = targetID)) then fail (ErrText refusal)
  else
    let? _ := cleanupBYOCObjects remote inst slug in
    if bool_decide (targetID = "") then fret tt
    else cleanupBYOCRemoteTLS remote inst (byocCleanupTLSConfig inst) targetID.

Definition cleanup_managed_tls (inst : LLMInstance) (targetID : string) : fio unit :=
  if bool_decide (targetID = "") then fret tt
  else cleanupBYOCManagedTLS inst (byocCleanupTLSConfig inst) targetID.

Definition cleanupBYOC (inst : LLMInstance) : fio unit :=
  let st := Status inst in
  let hosted := bool_decide (ActiveBYOCKubeconfigSecretName st = "") in
  let? slug :=
    if bool_decide (ActiveBYOCSlug st = "") && negb hosted then
      match Select (rec_SlugPolicy rc) (inst_Meta inst) with
      | Err err => fail (ErrWrapf ("legacy BYOC cleanup requires its reviewed slug mapping: " +:+ error_text err) [err])
      | Ok selection => fret (sel_Slug selection)
      end
    else fret (ActiveBYOCSlug st) in
  let targetID := ActiveBYOCTargetID st in
  let? _ := cleanup_managed_tls inst targetID in
  if hosted then fret tt
  else
    let? data := cachedBYOCKubeconfig inst slug in
    match data with
    | None => fail (ErrText "cannot clean BYOC without protected cached credentials")
    | Some data =>
        let? _ := clean_target inst slug data targetID "refusing cleanup on replacement BYOC cluster" in
        deleteCachedBYOCCredentials inst slug
    end.

(** Whether the previous target is still the one to use: its credentials are missing for
    now, or they lead to the same API and cluster. *)
Definition same_target (inst : LLMInstance) (oldData : string) : fio bool :=
  let previous := ActiveBYOCKubeconfigSecretName (Status inst) in
  let oldID := ActiveBYOCTargetID (Status inst) in
  if negb (IsBYOC inst) then fret false
  else
    let same_name := bool_decide (previous = kubeconfig_secret inst) in
    let? got := byocKubeconfig inst in
    match got with
    | inr _ => fret same_name
    | inl data =>
        let? oldAPI := of_res (byocTargetIdentity oldData) in
        let? newAPI := of_res (byocTargetIdentity data) in
        if same_name && bool_decide (oldAPI = newAPI) then
          let? remote := of_res (remoteClientForKubeconfig data) in
          let? currentID := byocClusterIdentity remote newAPI in
          fret (bool_decide (oldID = "") || bool_decide (currentID = oldID))
        else fret false
    end.

Definition forget_target (inst : LLMInstance) : LLMInstance :=
  inst <| Status -> ActiveBYOCKubeconfigSecretName := "" |> <| Status -> ActiveBYOCTargetID := "" |>
       <| Status -> ActiveBYOCTLSDomain := "" |> <| Status -> ActiveBYOCTLSNamespace := "" |>.

Definition cleanupChangedBYOCTarget (slug : string) : sio unit :=
  let* inst := sget in
  let previous := ActiveBYOCKubeconfigSecretName (Status inst) in
  if bool_decide (previous = "") then sret tt
  else
    let slug := safeBYOCSlug inst slug in
    let* oldData := lift (cachedBYOCKubeconfig inst slug) in
    match oldData with
    | None => sfail (ErrText "cached BYOC credentials missing for previous target")
    | Some oldData =>
        let oldID := ActiveBYOCTargetID (Status inst) in
        let* same := lift (same_target inst oldData) in
        if same : bool then sret tt
        else
          let* _ := provisioning "" byocReasonTargetChanging "Removing the previous BYOC endpoint" in
          let* inst := sget in
          let* _ := lift (cleanup_managed_tls inst oldID) in
          let* _ := lift (clean_target inst slug oldData oldID
            "previous BYOC cluster identity changed; refusing cleanup on replacement cluster") in
          let* _ := smodify forget_target in
          let* _ := provisioning "" byocReasonTargetChanging "Previous BYOC target removed" in
          let* inst := sget in
          lift (deleteCachedBYOCCredentials inst slug)
    end.

(** ** Reconcile *)

(** What a reconcile returns, with the instance as it is in memory. *)
Definition sresult : Type := LLMInstance -> io (LLMInstance * (Result * option error)).

Definition or_return_err {A} (m : sio A) (k : A -> sresult) : sresult := fun inst =>
  let! (inst, x) := m inst in
  match x with Ok a => k a inst | Err e => mret (inst, (no_result, Some e)) end.

(** [return result, m()]. *)
Definition return_with (result : Result) (m : sio unit) : sresult := fun inst =>
  let! (inst, x) := m inst in mret (inst, (result, err_of x)).

Definition attempt_fio {A} (m : fio A) : sio (res A) := fun inst => let! x := m in mret (inst, Ok x).

Definition record_target (rc : LLMInstanceReconciler) (slug targetID : string) (inst : LLMInstance) : LLMInstance :=
  inst <| Status -> ActiveBYOCKubeconfigSecretName := kubeconfig_secret inst |>
       <| Status -> ActiveBYOCSlug := slug |> <| Status -> ActiveBYOCTargetID := targetID |>
       <| Status -> ActiveBYOCTLSDomain := Domain (BYOCTLS rc) |>
       <| Status -> ActiveBYOCTLSNamespace := tls_Namespace (BYOCTLS rc) |>.

Definition target_recorded (inst : LLMInstance) : bool :=
  negb (negb (bool_decide (ActiveBYOCKubeconfigSecretName (Status inst) = kubeconfig_secret inst))
        || bool_decide (ActiveBYOCSlug (Status inst) = "") || bool_decide (ActiveBYOCTargetID (Status inst) = "")).

Definition tls_migrated (inst : LLMInstance) : bool :=
  let st := Status inst in
  (negb (bool_decide (ActiveBYOCTLSDomain st = "")) && negb (bool_decide (ActiveBYOCTLSDomain st = Domain (BYOCTLS rc))))
  || (negb (bool_decide (ActiveBYOCTLSNamespace st = ""))
      && negb (bool_decide (ActiveBYOCTLSNamespace st = tls_Namespace (BYOCTLS rc)))).

(** From the recorded target to the status. *)
Definition serve_target (remote : client) (slug : string) (model : modelSelection)
    (targetID tlsName hostname : string) : sresult :=
  or_return_err (lift (ensureBYOCNamespace remote)) (fun _ =>
  or_return_err sget (fun inst =>
  or_return_err (attempt_fio (reconcileBYOCWorkload remote inst slug model targetID tlsName hostname)) (fun delivered =>
  match delivered with
  | Err err =>
      if errors_Is err ErrBYOCTLSNotReady
      then return_with (requeue_after provisioningRequeueAfter)
             (provisioning "" "BYOCTLSProvisioning" "Waiting for a valid managed BYOC certificate and endpoint")
      else fun inst => mret (inst, (no_result, Some err))
  | Ok tlsRevision =>
      or_return_err (lift (evaluateBYOCReadiness remote slug hostname tlsRevision))
        (fun '(ready, endpoint, reason, message) =>
      if negb (ready : bool)
      then return_with (requeue_after provisioningRequeueAfter) (provisioning "" reason message)
      else or_return_err (publish endpoint) (fun _ inst => mret (inst, (requeue_after 30, None))))
  end))).

Definition reconcileBYOC_body (slug : string) (model : modelSelection) : sresult :=
  or_return_err sget (fun inst =>
  let failed err : sresult := fun inst => mret (inst, (no_result, Some (ErrText err))) in
  if tls_migrated inst
  then failed "BYOC TLS domain or credential namespace changed; explicit migration is required"
  else if negb (bool_decide (ActiveBYOCSlug (Status inst) = "")) && negb (bool_decide (ActiveBYOCSlug (Status inst) = slug))
  then failed "BYOC workload slug is immutable after provisioning"
  else
    or_return_err (lift (byocClient inst)) (fun got =>
    match got with
    | inr (reason, message) =>
        return_with (requeue_after provisioningRequeueAfter) (provisioning "" reason message)
    | inl (remote, data) =>
        or_return_err (lift (of_res (byocTargetIdentity data))) (fun apiID =>
        or_return_err (lift (byocClusterIdentity remote apiID)) (fun targetID =>
        or_return_err (lift (of_res (byocTLSIdentity inst (BYOCTLS rc) targetID))) (fun '(tlsName, hostname) =>
        if negb (bool_decide (ActiveBYOCTargetID (Status inst) = ""))
           && negb (bool_decide (ActiveBYOCTargetID (Status inst) = targetID))
        then failed "BYOC cluster identity changed"
        else
          or_return_err (lift (ensureCachedCredentials inst slug data)) (fun _ =>
          or_return_err (if target_recorded inst then sret tt
                         else let* _ := smodify (record_target rc slug targetID) in
                              provisioning "" byocReasonTargetChanging "BYOC HTTPS is being provisioned") (fun _ =>
          serve_target remote slug model targetID tlsName hostname)))))
    end)).

(** The deferred status: any error withdraws the endpoint. *)
Definition reconcileBYOC (slug : string) (model : modelSelection) : sresult := fun inst =>
  let! (inst, (result, err)) := reconcileBYOC_body slug model inst in
  match err with
  | None => mret (inst, (result, None))
  | Some e =>
      let! (inst, stored) := provisioning "" "BYOCReconcileFailed"
        "BYOC endpoint is unavailable; operator reconciliation must succeed before publishing HTTPS" inst in
      mret (inst, (result, match stored with Ok _ => Some e | Err e' => errors_Join [Some e; Some e'] end))
  end.

(** ** Watched Secrets *)

Definition secret_concerns (secret : Secret) (inst : LLMInstance) : bool :=
  bool_decide (mget (Labels (sec_Meta secret)) instanceLabelKey = Name (inst_Meta inst))
  || IsBYOC inst && bool_decide (kubeconfig_secret inst = Name (sec_Meta secret)).

(** The instances to reconcile when a Secret changes. *)
Definition findInstancesForSecret (secret : Secret) : io (list ObjectKey) :=
  let ns := tls_Namespace (BYOCTLS rc) in
  let '(scope, concerns) :=
    if negb (bool_decide (ns = "")) && bool_decide (Namespace (sec_Meta secret) = ns)
    then (None, IsBYOC) else (Some (Namespace (sec_Meta secret)), secret_concerns secret) in
  let! listed := call (EList Cached KInstance scope []) in
  mret (match listed with
        | Err _ => []
        | Ok instances => (fun i => ObjectKeyFromObject (inst_Meta i)) <$> List.filter concerns instances
        end).

End Byoc.
