(* ===== verification/Assured.v ===== *)
(** * Handlers that thread an instance, relying on the answers

    The rules of [assured] for the steps of [Byoc] that carry the instance along: an
    invariant of the instance that every step keeps. *)

From S2P Require Import Prelude GoStd GoError Kube Api Io Names Routing ByocTLS Byoc.

Section Threaded.
  Context {R : forall e, answer e -> Prop} {P : event -> Prop} {Inv : LLMInstance -> Prop}.

Local Abbreviation threaded m Q := (assured R P m Q).

(** The instance a step leaves in memory satisfies the invariant. *)
Definition keeps {A} (x : LLMInstance * A) : Prop := Inv x.1.

Lemma assured_lift {A} (m : fio A) (i : LLMInstance) (Q : res A -> Prop) :
  threaded m Q -> threaded (lift m i) (fun '(i', r) => i' = i /\ Q r).
Proof. intros Hm. unfold lift. assured_step. eapply assured_mono; [exact Hm |]. by intros r Hr. Qed.

Lemma assured_or_return {A} (m : sio A) (k : A -> sresult) (i : LLMInstance) (Q : LLMInstance -> res A -> Prop) :
  threaded (m i) (fun '(i', r) => Inv i' /\ Q i' r) ->
  (forall i' a, Inv i' -> Q i' (Ok a) -> threaded (k a i') keeps) ->
  threaded (or_return_err m k i) keeps.
Proof.
  intros Hm Hk. unfold or_return_err. assured_step. eapply assured_mono; [exact Hm |].
  intros [i' [a|e]] [Hi HQ]; [by apply Hk | exact Hi].
Qed.

(** A step that does not touch the instance. *)
Lemma assured_or_return_lift {A} (m : fio A) (k : A -> sresult) (i : LLMInstance) (Q : res A -> Prop) :
  Inv i -> threaded m Q -> (forall a, Q (Ok a) -> threaded (k a i) keeps) ->
  threaded (or_return_err (lift m) k i) keeps.
Proof.
  intros Hi Hm Hk. apply assured_or_return with (fun i' r => i' = i /\ Q r).
  - eapply assured_mono; [by apply assured_lift |]. by intros [i' r] [-> ?].
  - intros i' a _ [-> Ha]. by apply Hk.
Qed.

Lemma assured_attempt {A} (m : fio A) (i : LLMInstance) :
  Inv i -> threaded m (fun _ => True) -> threaded (attempt_fio m i) (fun '(i', _) => Inv i' /\ True).
Proof. intros Hi Hm. unfold attempt_fio. assured_step. eapply assured_mono; [exact Hm | done]. Qed.

Lemma assured_return_with (result : Result) (m : sio unit) (i : LLMInstance) :
  threaded (m i) keeps -> threaded (return_with result m i) keeps.
Proof. intros Hm. unfold return_with. assured_step. eapply assured_mono; [exact Hm |]. by intros [i' r]. Qed.

Lemma assured_sbind {A B} (m : sio A) (k : A -> sio B) (i : LLMInstance) (Q : LLMInstance -> res A -> Prop) :
  threaded (m i) (fun '(i', r) => Inv i' /\ Q i' r) ->
  (forall i' a, Inv i' -> Q i' (Ok a) -> threaded (k a i') keeps) ->
  threaded (sbind m k i) keeps.
Proof.
  intros Hm Hk. unfold sbind. assured_step. eapply assured_mono; [exact Hm |].
  intros [i' [a|e]] [Hi HQ]; [by apply Hk | exact Hi].
Qed.

Lemma assured_sbind_lift {A B} (m : fio A) (k : A -> sio B) (i : LLMInstance) :
  Inv i -> threaded m (fun _ => True) -> (forall a, threaded (k a i) keeps) ->
  threaded (sbind (lift m) k i) keeps.
Proof.
  intros Hi Hm Hk. apply assured_sbind with (fun i' _ => i' = i); [| by intros i' a _ ->].
  eapply assured_mono; [by apply assured_lift |]. by intros [i' r] [-> _].
Qed.

End Threaded.

Arguments keeps Inv {A} x.

Lemma assured_of_res {R P A} (x : res A) : assured R P (of_res x) (fun _ => True).
Proof. by destruct x. Qed.
