(* ===== verification/Instance.v ===== *)
(** * The reconcile of an LLMInstance (internal/controller/llminstance_controller.go)

    The entry of the reconciler: reading the instance, its finalizer and deletion, the
    checks before any workload, and the choice between the hosted and the remote part. *)

From S2P Require Import Prelude GoStd GoError Kube Api Io Names SlugPolicy Model TokenRequest SlugRoute Workload Routing ByocTransport ByocTLS Byoc.

Definition finalizerName : string := "llm.privatellms.msp/llminstance-finalizer".

Section Instance.
  Context `{KubeLib} `{X509Lib} `{ClientLib}.
  Variable rc : LLMInstanceReconciler.

(** The instance, or nothing when it does not exist. *)
Definition getInstance (name : ObjectKey) : fio (option LLMInstance) :=
  let! got := call (EGet (routeReader rc) KInstance name) in
  match got with
  | Ok inst => fret (Some inst)
  | Err err => if IsNotFound err then fret None else fail err
  end.

(** The loop that removes the finalizer, reading the instance again on a conflict. *)
Fixpoint releaseInstance (tries : nat) (req : ObjectKey) (inst : LLMInstance) : io (option error) :=
  match tries with
  | 0 => mret None
  | S tries' =>
      let inst := inst <| inst_Meta -> Finalizers ::= fun fs => RemoveFinalizer fs finalizerName |> in
      let! stored := call (EUpdate Cached KInstance inst) in
      match stored with
      | Ok _ => mret None
      | Err err =>
          if IsNotFound err then mret None
          else if IsConflict err then
            let! got := getInstance req in
            match got with
            | Ok (Some fresh) => releaseInstance tries' req fresh
            | _ => mret None
            end
          else mret (Some err)
      end
  end.

Definition finalizeLLMInstance (inst : LLMInstance) (req : ObjectKey) : io (option error) :=
  if ContainsFinalizer (Finalizers (inst_Meta inst)) finalizerName then
    if byoc_bound inst then
      let! cleaned := cleanupBYOC rc inst in
      match cleaned with
      | Err err => mret (Some err)
      | Ok _ => releaseInstance 3 req inst
      end
    else releaseInstance 3 req inst
  else mret None.

(** From the settled slug on: an old target is cleaned up, then the part that serves. *)
Definition reconcileTarget (inst : LLMInstance) (slug : string) : io (Result * option error) :=
  let model := modelForInstance inst in
  let! (inst, cleaned) := cleanupChangedBYOCTarget rc slug inst in
  match cleaned with
  | Err err =>
      let! (_, stored) := provisioning "" "BYOCTargetCleanupFailed" "Cannot safely clean up the previous BYOC target" inst in
      mret (no_result, match stored with Err statusErr => Some statusErr | Ok _ => Some err end)
  | Ok _ =>
      if IsBYOC inst
      then let! (_, result) := reconcileBYOC rc slug model inst in mret result
      else reconcileHosted rc inst slug model
  end.

Definition reject (inst : LLMInstance) (err : error) : io (Result * option error) :=
  let! rejected := rejectSlug rc inst err in mret (no_result, rejected).

(** The checks and preparations of an instance that is not being deleted. *)
Definition reconcileLive (inst : LLMInstance) : io (Result * option error) :=
  match selectSlug rc inst with
  | Err err => reject inst err
  | Ok _ =>
      let! upgraded := upgradeExistingAuthMiddleware rc inst in
      match upgraded with
      | Err err => reject inst err
      | Ok _ =>
          match check (rec_Ceilings rc) inst with
          | Some err => let! rejected := rejectModelSettings inst (error_text err) in mret (no_result, rejected)
          | None =>
              if negb (ContainsFinalizer (Finalizers (inst_Meta inst)) finalizerName) then
                let inst := inst <| inst_Meta -> Finalizers ::= fun fs => AddFinalizer fs finalizerName |> in
                let! stored := call (EUpdate Cached KInstance inst) in
                mret (match stored with Ok _ => requeue_now | Err _ => requeue_after 5 end, None)
              else
                let! (inst, settled) := ensureSlug rc inst in
                match settled with
                | Err err => reject inst err
                | Ok (slug, requeue) =>
                    if requeue : bool then mret (requeue_now, None)
                    else
                      let! checked := if negb (IsBYOC inst) then checkSlugRoute rc inst slug else fret tt in
                      match checked with
                      | Err err => reject inst err
                      | Ok _ => reconcileTarget inst slug
                      end
                end
          end
      end
  end.

Definition Reconcile (req : ObjectKey) : io (Result * option error) :=
  let! got := getInstance req in
  match got with
  | Err err => mret (no_result, Some err)
  | Ok None => mret (no_result, None)
  | Ok (Some inst) =>
      if negb (time_IsZero (DeletionTimestamp (inst_Meta inst)))
      then let! err := finalizeLLMInstance inst req in mret (no_result, err)
      else reconcileLive inst
  end.

End Instance.
