(* ===== verification/ByocNetFacts.v ===== *)
(** * What may be reached: addresses, host names, kubeconfigs and certificates

    The checks in front of every remote call, stated as what they guarantee: published
    DNS targets are public, host names are unique per instance and target, an accepted
    kubeconfig leads to verified HTTPS with inline credentials, TLS material fits the
    host name, and the health check is pinned to the delivered certificate. *)

From Stdlib Require Import Ascii.
From S2P Require Import Prelude GoStd GoNet GoIP GoError Sha256 Kube KubeRef Api Io Names SlugPolicy Model SlugRoute ByocTransport ByocTLS.

(** ** Published addresses *)

Definition outside (block : Z * Z) (n : Z) : Prop := ~ (block.1 * 2 ^ block.2 <= n < (block.1 + 1) * 2 ^ block.2)%Z.

(** The IPv4 blocks (leading bits, remaining bits) that are never published: this
    network, private, shared, loopback, link-local, protocol and documentation,
    benchmarking, multicast and reserved. *)
Definition reserved4 : list (Z * Z) :=
  [(0, 24); (10, 24); (100 * 4 + 1, 22); (127, 24); (169 * 256 + 254, 16); (172 * 16 + 1, 20);
   (192 * 65536, 8); (192 * 65536 + 2, 8); (192 * 256 + 168, 16); (99 * 256 + 9, 17);
   (198 * 65536 + 51 * 256 + 100, 8); (203 * 65536 + 113, 8); (14, 28); (15, 28)]%Z.

(** The IPv6 blocks: unspecified, loopback, NAT64, Teredo, documentation, 6to4, unique
    local, link-local and multicast. *)
Definition reserved6 : list (Z * Z) :=
  [(0, 0); (1, 0); (6619035 * 2 ^ 64, 32); (6619035 * 65536 + 1, 80); (536936448, 96); (536939960, 96);
   (8194, 112); (126, 121); (1018, 118); (255, 120)]%Z.

Definition published (a : Addr) : Prop :=
  match a with
  | V4 n => Forall (fun b => outside b n) reserved4
  | V6 n => Forall (fun b => outside b n) reserved6
  end.

Lemma shiftr_outside (n k p : Z) : (0 <= k)%Z -> (Z.shiftr n k =? p)%Z = false <-> outside (p, k) n.
Proof.
  intros Hk. unfold outside. cbn [fst snd]. rewrite <-(shiftr_block n k p Hk).
  by destruct (Z.shiftr n k =? p)%Z.
Qed.

(** The special-use prefixes of the source all parse. *)
Lemma special_prefixes :
  ParsePrefix <$> special_use =
  [Some (V4 0, 8); Some (V4 (401 * 2 ^ 22), 10); Some (V4 (12582912 * 2 ^ 8), 24); Some (V4 (12582914 * 2 ^ 8), 24);
   Some (V4 (25353 * 2 ^ 17), 15); Some (V4 (12989284 * 2 ^ 8), 24); Some (V4 (13303921 * 2 ^ 8), 24);
   Some (V4 (15 * 2 ^ 28), 4);
   Some (V6 (536939960 * 2 ^ 96), 32); Some (V6 (536936448 * 2 ^ 96), 32); Some (V6 (8194 * 2 ^ 112), 16);
   Some (V6 (6619035 * 2 ^ 64 * 2 ^ 32), 96); Some (V6 ((6619035 * 65536 + 1) * 2 ^ 80), 48)]%Z.
Proof. vm_compute. reflexivity. Qed.

Lemma special_use_spec (a : Addr) :
  existsb (fun cidr => prefix_contains cidr a) special_use =
  existsb (fun p => match p with Some (base, bits) => leading bits base a | None => false end)
    (ParsePrefix <$> special_use).
Proof. induction special_use as [|c l IH]; [done |]. cbn. by rewrite IH. Qed.

Lemma special_v4 (n : Z) :
  existsb (fun cidr => prefix_contains cidr (V4 n)) special_use =
  existsb (fun b => Z.shiftr n b.2 =? b.1)%Z
    [(0, 24); (401, 22); (12582912, 8); (12582914, 8); (25353, 17); (12989284, 8); (13303921, 8); (15, 28)]%Z.
Proof. rewrite special_use_spec, special_prefixes. reflexivity. Qed.

Lemma special_v6 (n : Z) :
  existsb (fun cidr => prefix_contains cidr (V6 n)) special_use =
  existsb (fun b => Z.shiftr n b.2 =? b.1)%Z
    [(536939960, 96); (536936448, 96); (8194, 112); (6619035 * 2 ^ 64, 32); (6619035 * 65536 + 1, 80)]%Z.
Proof. rewrite special_use_spec, special_prefixes. reflexivity. Qed.

Lemma blocks_outside (n : Z) (l : list (Z * Z)) : Forall (fun b => 0 <= b.2)%Z l ->
  existsb (fun b => Z.shiftr n b.2 =? b.1)%Z l = false <-> Forall (fun b => outside b n) l.
Proof.
  induction 1 as [|[p k] l Hk Hl IH]; cbn [existsb]; [by rewrite Forall_nil |].
  rewrite orb_false_iff, Forall_cons, <-IH. cbn [fst snd] in *. by rewrite shiftr_outside.
Qed.

Lemma guarded (a b : bool) : (if a then false else negb b) = true <-> a = false /\ b = false.
Proof. destruct a, b; cbn; naive_solver. Qed.

(** C26: an address is accepted as a public DNS target exactly when it is an IP address,
    a mapped one counting as IPv4, that lies outside every block of private, shared,
    loopback, link-local, documentation, transition, multicast or reserved addresses. *)
Theorem validBYOCDNSTarget_spec (address : string) :
  validBYOCDNSTarget address = true <->
  exists ip, netip_ParseAddr address = Some ip /\ published (Unmap ip).
Proof.
  unfold validBYOCDNSTarget. destruct (netip_ParseAddr address) as [ip|]; [| split; [done | by intros (? & ? & _)]].
  transitivity (published (Unmap ip)).
  2: { split; [by exists ip | by intros (? & [= <-] & ?)]. }
  unfold IsGlobalUnicast, IsPrivate, IsLoopback, IsMulticast, IsLinkLocalUnicast, IsUnspecified.
  destruct (Unmap ip) as [n|n]; cbn [published].
  - rewrite special_v4. unfold reserved4. rewrite <-blocks_outside by (repeat constructor; done).
    cbn [existsb fst snd].
    assert (H0 : (Z.shiftr n 24 =? 0)%Z = false -> bool_decide (V4 n = V4 0) = false).
    { intros Hn. apply bool_decide_eq_false. intros [= ->]. discriminate Hn. }
    assert (H1 : (Z.shiftr n 28 =? 15)%Z = false -> bool_decide (V4 n = V4 4294967295) = false).
    { intros Hn. apply bool_decide_eq_false. intros [= ->]. discriminate Hn. }
    assert (H2 : bool_decide (V4 n = V6 0) = false) by done.
    rewrite guarded, !orb_false_iff, negb_false_iff, !andb_true_iff, !negb_true_iff, !orb_false_iff. tauto.
  - rewrite special_v6. unfold reserved6. rewrite <-blocks_outside by (repeat constructor; done).
    cbn [existsb fst snd]. rewrite Z.shiftr_0_r.
    assert (H0 : bool_decide (V6 n = V6 0) = (n =? 0)%Z).
    { destruct (Z.eqb_spec n 0) as [->|]; [by rewrite bool_decide_true |]. rewrite bool_decide_false; congruence. }
    assert (H1 : bool_decide (V6 n = V4 4294967295) = false) by done.
    assert (H2 : bool_decide (V6 n = V4 0) = false) by done.
    rewrite guarded, H0, !orb_false_iff, negb_false_iff, !andb_true_iff, !negb_true_iff, !orb_false_iff. tauto.
Qed.

(** ** Identities *)

Definition no_nul (s : string) : Prop := str_exists (Ascii.eqb (Ascii.ascii_of_nat 0)) s = false.

(** Different texts with the same digest. *)
Definition sha_collision (x y : string) : Prop := x <> y /\ sha256_hex x = sha256_hex y.

(** A separator that the head does not contain splits a text in one way. *)
Lemma nul_split (a b c d : string) :
  no_nul a -> no_nul c -> a +:+ chr 0 +:+ b = c +:+ chr 0 +:+ d -> a = c /\ b = d.
Proof.
  unfold no_nul. change (chr 0) with (String (Ascii.ascii_of_nat 0) "").
  revert c. induction a as [|x a IH]; intros [|y c]; rewrite ?string_app_cons, ?string_app_nil_l; cbn [str_exists].
  - intros _ _ [= E]. done.
  - intros _ [Hy _]%orb_false_iff [= E _]. by subst y.
  - intros [Hx _]%orb_false_iff _ [= E _]. by subst x.
  - intros [_ Ha]%orb_false_iff [_ Hc]%orb_false_iff [= -> E]. destruct (IH c Ha Hc E) as [-> ->]. done.
Qed.

Lemma sha_cases (x y : string) : sha256_hex x = sha256_hex y -> x = y \/ sha_collision x y.
Proof. intros E. destruct (decide (x = y)); [by left | by right]. Qed.

Lemma sha256_hex_shape (s : string) :
  String.length (sha256_hex s) = 64 /\ str_forall is_lower_hex (sha256_hex s) = true.
Proof.
  unfold sha256_hex. rewrite hex_encode_length, Sum256_length. split; [done | apply hex_encode_charset].
Qed.

Lemma sha256_no_nul (s : string) : no_nul (sha256_hex s).
Proof. apply (charset_excludes is_lower_hex); [apply sha256_hex_shape | done]. Qed.

Lemma str_take_length (n : nat) (s : string) : n <= String.length s -> String.length (str_take n s) = n.
Proof.
  revert s. induction n as [|n IH]; intros s; [by destruct s |].
  destruct s as [|c s]; cbn; [lia | intros ?; by rewrite IH by lia].
Qed.

(** What the trust in an API server rests on. *)
Definition trust_text (c : RESTConfig) : string := rest_Host c +:+ chr 0 +:+ ServerName c +:+ chr 0 +:+ CAData c.
Definition same_trust (c c' : RESTConfig) : Prop :=
  rest_Host c = rest_Host c' /\ ServerName c = ServerName c' /\ CAData c = CAData c'.

Lemma trust_text_inj (c c' : RESTConfig) :
  no_nul (rest_Host c) -> no_nul (ServerName c) -> no_nul (rest_Host c') -> no_nul (ServerName c') ->
  trust_text c = trust_text c' -> same_trust c c'.
Proof.
  unfold trust_text. intros H1 H2 H3 H4 E. apply nul_split in E as [E1 E]; [| done ..].
  apply nul_split in E as [E2 E3]; done.
Qed.

Lemma byocClusterIdentity_run (O : oracle) (remote : client) (apiID i : string) :
  run_oracle O (byocClusterIdentity remote apiID) = Ok i ->
  exists ns, O (EGet remote KNamespace (key_of "" "kube-system")) = Ok ns /\ UID (ns_Meta ns) <> "" /\
    i = sha256_hex (apiID +:+ chr 0 +:+ UID (ns_Meta ns)).
Proof.
  unfold byocClusterIdentity. rewrite run_oracle_bind. cbn [call run_oracle].
  destruct (O _) as [ns | err]; [| done]. case_bool_decide; cbn; [done |]. intros [= <-]. by exists ns.
Qed.

Section Reach.
  Context `{KubeLib} `{X509Lib} `{ClientLib}.

(** C19: the recorded target identity pins a cluster: two kubeconfigs, used at any two
    times, give the same identity only when they trust the same API server, under the
    same name and certificate authority, and that answers with the same kube-system
    namespace, unless SHA-256 collides on exactly these texts. *)
Theorem target_identity_pins (O O' : oracle) (d d' : string) (c c' : RESTConfig) (a a' i : string) (m m' : client)
  (Hc : verifiedBYOCRESTConfig d = Ok c) (Hc' : verifiedBYOCRESTConfig d' = Ok c')
  (Hh : no_nul (rest_Host c)) (Hn : no_nul (ServerName c)) (Hh' : no_nul (rest_Host c')) (Hn' : no_nul (ServerName c'))
  (Ha : byocTargetIdentity d = Ok a) (Ha' : byocTargetIdentity d' = Ok a')
  (Hi : run_oracle O (byocClusterIdentity m a) = Ok i) (Hi' : run_oracle O' (byocClusterIdentity m' a') = Ok i) :
  exists ns ns', O (EGet m KNamespace (key_of "" "kube-system")) = Ok ns /\
    O' (EGet m' KNamespace (key_of "" "kube-system")) = Ok ns' /\
    ((same_trust c c' /\ UID (ns_Meta ns) = UID (ns_Meta ns')) \/
     sha_collision (trust_text c) (trust_text c') \/
     sha_collision (a +:+ chr 0 +:+ UID (ns_Meta ns)) (a' +:+ chr 0 +:+ UID (ns_Meta ns'))).
Proof.
  unfold byocTargetIdentity in *. rewrite Hc in Ha. rewrite Hc' in Ha'. injection Ha as Ha. injection Ha' as Ha'.
  apply byocClusterIdentity_run in Hi as (ns & Hns & _ & ->).
  apply byocClusterIdentity_run in Hi' as (ns' & Hns' & _ & E).
  exists ns, ns'. split_and!; [done | done |].
  apply sha_cases in E as [E | E]; [| by right; right].
  apply nul_split in E as [E1 E2]; [| subst; apply sha256_no_nul ..].
  rewrite <-Ha, <-Ha' in E1. apply sha_cases in E1 as [E1 | E1]; [| by right; left].
  left. split; [by apply trust_text_inj | done].
Qed.

(** Different texts whose digests agree on the part that names objects. *)
Definition name_collision (x y : string) : Prop := x <> y /\ str_take 32 (sha256_hex x) = str_take 32 (sha256_hex y).

(** C25: the managed host name is a DNS name of the operator's domain, its objects live
    outside the instance's namespace, and no other instance or target is ever given the
    same object or host name, unless the truncated digest collides on their texts. *)
Theorem byocTLSIdentity_unique (inst inst' : LLMInstance) (cfg cfg' : BYOCTLSConfig) (t t' : string)
  (name name' host host' : string)
  (Hi : byocTLSIdentity inst cfg t = Ok (name, host)) (Hi' : byocTLSIdentity inst' cfg' t' = Ok (name', host'))
  (Hu : no_nul (UID (inst_Meta inst))) (Hu' : no_nul (UID (inst_Meta inst'))) :
  host = name +:+ "." +:+ Domain cfg /\ IsDNS1123Subdomain host = true /\
  tls_Namespace cfg <> Namespace (inst_Meta inst) /\
  (name = name' \/ host = host' ->
   (UID (inst_Meta inst) = UID (inst_Meta inst') /\ t = t') \/
   name_collision (UID (inst_Meta inst) +:+ chr 0 +:+ t) (UID (inst_Meta inst') +:+ chr 0 +:+ t')).
Proof.
  assert (F : forall i c u n h, byocTLSIdentity i c u = Ok (n, h) ->
    n = "byoc-" +:+ str_take 32 (sha256_hex (UID (inst_Meta i) +:+ chr 0 +:+ u)) /\ h = n +:+ "." +:+ Domain c /\
    IsDNS1123Subdomain h = true /\ tls_Namespace c <> Namespace (inst_Meta i)).
  { clear. intros i c u n h. unfold byocTLSIdentity. repeat case_match; try done. bool_props. intros [= <- <-].
    by split_and!. }
  apply F in Hi as (N & E & D & S). apply F in Hi' as (N' & E' & _ & _).
  split_and!; try done. intros Hsame.
  assert (L : forall x, String.length (str_take 32 (sha256_hex x)) = 32).
  { intros x. apply str_take_length. rewrite (proj1 (sha256_hex_shape x)). lia. }
  assert (En : name = name').
  { destruct Hsame as [|Hh]; [done |]. rewrite E, E' in Hh. rewrite N, N' in Hh |- *.
    apply string_app_inj_length in Hh as [? _]; [done |]. by rewrite !string_length_app, !L. }
  rewrite N, N' in En. apply string_app_inj_l in En.
  destruct (decide (UID (inst_Meta inst) +:+ chr 0 +:+ t = UID (inst_Meta inst') +:+ chr 0 +:+ t')) as [Heq | Hne].
  - left. by apply nul_split.
  - right. by split.
Qed.

(** ** Clients of other clusters *)

(** Whether a client goes where a redirect sends it after the requests [via]. *)
Definition follows {T} (c : HTTPClient T) (request : string) (via : list string) : bool :=
  match CheckRedirect c with
  | None => bool_decide (length via < 10)
  | Some policy => match policy request via with None => true | Some _ => false end
  end.

(** A client can be built for these settings; it replays no request across a redirect. *)
Definition client_built (cfg : RESTConfig) : Prop :=
  exists httpClient, byocAPIHTTPClient cfg = Ok httpClient /\ client_New cfg httpClient = None /\
    forall request via, follows httpClient request via = false.

Lemma remote_client_built (data : string) (remote : client) :
  remoteClientForKubeconfig data = Ok remote ->
  remote = Remote data /\ exists cfg, verifiedBYOCRESTConfig data = Ok cfg /\ client_built cfg.
Proof.
  unfold remoteClientForKubeconfig, defaultRemoteClient. destruct (verifiedBYOCRESTConfig data) as [cfg|]; [| done].
  destruct (byocAPIHTTPClient cfg) as [c|] eqn:Ec; [| done]. destruct (client_New cfg c) eqn:En; [done |].
  intros [= <-]. split; [done |]. exists cfg. split; [done |]. exists c. split_and!; try done.
  intros request via. unfold byocAPIHTTPClient in Ec. destruct (HTTPClientFor cfg); [| done]. by injection Ec as <-.
Qed.

(** ** Accepted kubeconfigs *)

(** The selected context leads to an HTTPS server with inline trust, and its credentials
    need neither a plugin nor a file. *)
Record safe_kubeconfig (raw : KubeConfig) (current : KubeContext) (cluster : KubeCluster) (u : URL) : Prop := {
  sk_context : Contexts raw !! CurrentContext raw = Some current;
  sk_cluster : Clusters raw !! ctx_Cluster current = Some cluster;
  sk_url : url_Parse (Server cluster) = Some u;
  sk_https : Scheme u = "https" /\ Hostname u <> "" /\ HasUser u = false /\ URLQuery u = "" /\ Fragment u = "";
  sk_trust : InsecureSkipTLSVerify cluster = false /\ CertificateAuthority cluster = "" /\ ProxyURL cluster = "";
  sk_auth : forall auth, AuthInfos raw !! ctx_AuthInfo current = Some auth ->
    ai_Exec auth = false /\ ai_AuthProvider auth = false /\ TokenFile auth = "" /\
    ClientCertificate auth = "" /\ ClientKey auth = "";
}.

Lemma auth_inline_spec (auth : KubeAuthInfo) :
  auth_inline auth = true <->
  ai_Exec auth = false /\ ai_AuthProvider auth = false /\ TokenFile auth = "" /\
  ClientCertificate auth = "" /\ ClientKey auth = "".
Proof.
  unfold auth_inline. rewrite negb_true_iff, !orb_false_iff, !negb_false_iff, !bool_decide_eq_true. tauto.
Qed.

(** C18: a kubeconfig is accepted exactly when its selected context is safe; the settings
    used are those it describes, with a timeout and without any proxy. *)
Theorem verifiedBYOCRESTConfig_spec (data : string) (cfg : RESTConfig) :
  verifiedBYOCRESTConfig data = Ok cfg <->
  exists raw current cluster u base, clientcmd_Load data = Some raw /\ safe_kubeconfig raw current cluster u /\
    RESTConfigFromKubeConfig data = Some base /\ cfg = base <| Timeout := 30%Z |> <| DirectOnly := true |>.
Proof.
  unfold verifiedBYOCRESTConfig. destruct (clientcmd_Load data) as [raw|]; [| naive_solver].
  split.
  - destruct (Contexts raw !! _) as [cur|] eqn:Ec; [| done].
    destruct (Clusters raw !! _) as [cl|] eqn:El; [| done].
    destruct (server_ok cl) eqn:Es; cbn [negb]; [| done].
    destruct (negb _) eqn:Ea; [done |]. destruct (RESTConfigFromKubeConfig data) as [base|]; [| done].
    intros [= <-]. unfold server_ok in Es. destruct (url_Parse (Server cl)) as [u|] eqn:Eu; [| done].
    exists raw, cur, cl, u, base. split_and!; try done. apply negb_true_iff in Es.
    rewrite !orb_false_iff, !negb_false_iff, !bool_decide_eq_true, !bool_decide_eq_false in Es.
    split; try done; try tauto. intros auth Hauth. rewrite Hauth in Ea. cbn in Ea.
    apply negb_false_iff in Ea. by apply auth_inline_spec.
  - intros (? & cur & cl & u & base & [= <-] & [S1 S2 S3 S4 S5 S6] & Hb & ->). rewrite S1, S2.
    assert (server_ok cl = true) as ->.
    { unfold server_ok. rewrite S3. apply negb_true_iff.
      rewrite !orb_false_iff, !negb_false_iff, !bool_decide_eq_true, !bool_decide_eq_false. tauto. }
    assert (default true (auth_inline <$> AuthInfos raw !! ctx_AuthInfo cur) = true) as ->.
    { destruct (AuthInfos raw !! _) as [auth|]; [| done]. cbn. by apply auth_inline_spec, S6. }
    cbn [negb]. by rewrite Hb.
Qed.

(** ** TLS material *)

(** A leaf fit to serve exactly this host name now. *)
Record servable (leaf : X509Certificate) (hostname : string) (intermediates : list X509Certificate) (now : Z) : Prop := {
  sv_leaf : IsCA leaf = false;
  sv_names : DNSNames leaf = [hostname] /\ IPAddresses leaf = [] /\ EmailAddresses leaf = [] /\ URIs leaf = [];
  sv_valid : (NotBefore leaf <= now < NotAfter leaf - byocTLSRenewalMargin)%Z;
  sv_usage : ServerAuth ∈ ExtKeyUsages leaf;
  sv_key : match x_PublicKey leaf with RSAKey n => (2048 <= n)%Z | ECDSAKey n => (256 <= n)%Z | OtherKey => False end;
  sv_chain : x509_Verify leaf hostname intermediates now = true;
}.

Lemma parse_all_Forall2 (ders : list string) (cs : list X509Certificate) :
  parse_all ders = Some cs <-> Forall2 (fun der c => ParseCertificate der = Some c) ders cs.
Proof.
  revert cs. induction ders as [|der ders IH]; intros cs; cbn.
  - split; [intros [= <-]; constructor | by inversion 1].
  - destruct (ParseCertificate der) as [c|] eqn:E; [| split; [done |]; inversion 1; congruence].
    split.
    + destruct (parse_all ders) as [l|]; [| done]. intros [= <-]. constructor; [done | by apply IH].
    + intros (c' & l & Hc & Hl & ->)%Forall2_cons_inv_l. apply IH in Hl. rewrite Hl. congruence.
Qed.

Lemma leaf_key_ok (leaf : X509Certificate) :
  leaf_key_error leaf = None <->
  match x_PublicKey leaf with RSAKey n => (2048 <= n)%Z | ECDSAKey n => (256 <= n)%Z | OtherKey => False end.
Proof.
  unfold leaf_key_error. destruct (x_PublicKey leaf) as [n|n|]; [| | done];
    match goal with |- context [(n <? ?m)%Z] => destruct (Z.ltb_spec n m) end; split; (done || lia).
Qed.

(** C24: TLS material is accepted exactly when certificate and key match, every
    certificate of the chain parses and the leaf is fit to serve the host name now;
    the fingerprint is that of this leaf. *)
Theorem validateBYOCTLSMaterial_spec (data : gmap string string) (hostname : string) (now : Z) (fp : string) :
  validateBYOCTLSMaterial data hostname now = Ok fp <->
  exists der chain leaf intermediates,
    X509KeyPair (mget data TLSCertKey) (mget data TLSPrivateKeyKey) = Some (der, chain) /\
    ParseCertificate der = Some leaf /\
    Forall2 (fun d c => ParseCertificate d = Some c) chain intermediates /\
    servable leaf hostname intermediates now /\ fp = sha256_hex (Raw leaf).
Proof.
  unfold validateBYOCTLSMaterial.
  destruct (X509KeyPair _ _) as [[der chain]|]; [| naive_solver].
  destruct (ParseCertificate der) as [leaf|] eqn:El; [| naive_solver].
  assert (N : leaf_names_ok leaf hostname = true <-> IsCA leaf = false /\ DNSNames leaf = [hostname] /\
                IPAddresses leaf = [] /\ EmailAddresses leaf = [] /\ URIs leaf = []).
  { unfold leaf_names_ok. rewrite negb_true_iff, !orb_false_iff, !negb_false_iff, !bool_decide_eq_true. tauto. }
  assert (U : existsb (fun u => bool_decide (u = ServerAuth)) (ExtKeyUsages leaf) = true <-> ServerAuth ∈ ExtKeyUsages leaf).
  { rewrite existsb_exists. setoid_rewrite bool_decide_eq_true. setoid_rewrite <-list_elem_of_In. naive_solver. }
  split.
  - destruct (leaf_names_ok leaf hostname); cbn [negb]; [| done].
    destruct (negb (now <? _)%Z || _) eqn:Et; [done |].
    destruct (existsb _ _); cbn [negb]; [| done].
    destruct (leaf_key_error leaf) eqn:Ek; [done |].
    destruct (parse_all chain) as [ints|] eqn:Ep; [| done].
    destruct (x509_Verify _ _ _ _) eqn:Ev; [| done]. intros [= <-].
    apply orb_false_iff in Et as [Et1 Et2]. apply negb_false_iff in Et1.
    exists der, chain, leaf, ints. split_and!; try done; [by apply parse_all_Forall2 |].
    split; try tauto; [lia | by apply leaf_key_ok].
  - intros (der' & chain' & leaf' & ints & Ekp & El' & Hc & [S1 S2 S3 S4 S5 S6] & ->). simplify_eq.
    rewrite (proj2 N), (proj2 U) by tauto. cbn [negb].
    apply leaf_key_ok in S5. rewrite S5. apply parse_all_Forall2 in Hc. rewrite Hc, S6.
    assert (negb (now <? NotAfter leaf - byocTLSRenewalMargin)%Z || (now <? NotBefore leaf)%Z = false) as ->; [| done].
    apply orb_false_iff. rewrite negb_false_iff. lia.
Qed.

(** What a successful health check has seen. *)
Definition pinned (h : history) (url fingerprint : string) : Prop :=
  exists u resp leaf rest, url_Parse url = Some u /\ Scheme u = "https" /\ fingerprint <> "" /\
    saw h (EHTTPS url) (Ok resp) /\ hr_Verified resp = true /\ hr_Peers resp = leaf :: rest /\
    sha256_hex leaf = fingerprint /\ (200 <= hr_StatusCode resp < 300)%Z.

Lemma health_safe (P : history -> event -> Prop) (h : history) (url fingerprint : string) :
  (forall h, P h (EHTTPS url)) ->
  safe (recording P) h (runBYOCHealthCheck url fingerprint) (fun h err => err = None -> pinned h url fingerprint).
Proof.
  intros HP. unfold runBYOCHealthCheck. destruct (url_Parse url) as [u|] eqn:Eu; [| done].
  destruct (negb _ || _) eqn:E; [done |]. bool_props. on_call got; [apply HP |].
  destruct got as [resp | err]; [| done]. unfold byoc_health.
  destruct (hr_Verified resp) eqn:Ev; [| done]. destruct (hr_Peers resp) as [|leaf rest] eqn:Ep; [done |].
  case_bool_decide; cbn [negb]; [| done]. destruct (_ || _) eqn:Es; [done |]. intros _.
  apply orb_false_iff in Es. exists u, resp, leaf, rest. split_and!; try done; auto with go; lia.
Qed.

(** The remote health check succeeds only over HTTPS, on a verified connection whose
    server presented the certificate with exactly the delivered fingerprint, with a
    successful status; it asks nothing else. *)
Theorem health_pinned (url fingerprint : string) :
  safe (recording (fun _ e => e = EHTTPS url)) [] (runBYOCHealthCheck url fingerprint) (fun h err =>
    err = None -> pinned h url fingerprint).
Proof. by apply health_safe. Qed.

End Reach.
