(* ===== verification/ByocFacts.v ===== *)
(** * The remote objects: what they are brought to

    The Deployment built for a remote cluster serves only behind TLS and does not change
    under API defaults; the Service exposes the TLS port alone; the key Secret and the
    key file hold exactly the admitted keys, and never nothing. *)

From Stdlib Require Import Ascii.
From stdpp Require Import sorting.
From S2P Require Import Prelude GoStd GoNet GoError Sha256 Kube KubeRef Api Io Names SlugPolicy Model TokenRequest SlugRoute Workload WorkloadFacts ByocTransport ByocTLS Byoc.

(** ** API defaults *)

Lemma or_default_idem (d n : Z) : or_default d (or_default d n) = or_default d n.
Proof. unfold or_default. destruct (Z.eqb_spec n 0); case_match; by try lia. Qed.

Lemma default_probe_idem (p : Probe) : default_probe (default_probe p) = default_probe p.
Proof. destruct p. unfold default_probe. cbn. by rewrite !or_default_idem. Qed.

Lemma fmap_idem {A} (f : A -> A) (l : list A) : (forall a, f (f a) = f a) -> f <$> (f <$> l) = f <$> l.
Proof. intros Hf. rewrite <-list_fmap_compose. apply list_fmap_ext. intros ? a _. apply Hf. Qed.

Lemma option_fmap_idem {A} (f : A -> A) (o : option A) : (forall a, f (f a) = f a) -> f <$> (f <$> o) = f <$> o.
Proof. intros Hf. destruct o; cbn; [by rewrite Hf | done]. Qed.

Lemma defaultContainer_idem (c : Container) : defaultContainer (defaultContainer c) = defaultContainer c.
Proof.
  destruct c. unfold defaultContainer. cbn. rewrite fmap_idem by by intros [].
  by rewrite !option_fmap_idem by apply default_probe_idem.
Qed.

Lemma default_volume_idem (v : Volume) : default_volume (default_volume v) = default_volume v.
Proof. destruct v as [? ? [[]|] [[]|]]; done. Qed.

Lemma corev1defaults_idem (d : Deployment) : corev1defaults (corev1defaults d) = corev1defaults d.
Proof.
  destruct d as [? ? ? ? [? ? []] ?]. unfold corev1defaults. cbn.
  by rewrite !fmap_idem by (apply defaultContainer_idem || apply default_volume_idem).
Qed.

(** ** Only TLS is served *)

(** Every [--host] flag is followed by the loopback address. *)
Definition loopback_only (args : list string) : Prop :=
  forall i a, args !! i = Some "--host" -> args !! S i = Some a -> a = "127.0.0.1".

Lemma set_host_head (after : bool) (args : list string) (a : string) :
  after = true -> head (set_host after args) = Some a -> a = "127.0.0.1".
Proof. intros ->. destruct args; cbn; congruence. Qed.

Lemma set_host_loopback (after : bool) (args : list string) : loopback_only (set_host after args).
Proof.
  revert after. induction args as [|x args IH]; intros after i a; [done |]. cbn [set_host].
  destruct i as [|i]; cbn.
  - intros [= Hx]. rewrite Hx, bool_decide_true by done.
    intros Ha. destruct args as [|y args]; cbn in Ha; congruence.
  - apply IH.
Qed.

Lemma set_host_length (after : bool) (args : list string) : length (set_host after args) = length args.
Proof. revert after. induction args as [|x args IH]; intros after; cbn; [done | by rewrite IH]. Qed.

(** The pods of a remote Deployment: the model server reachable from inside only, the
    proxy on its TLS port with the delivered Secret, no cluster credential. *)
Record serves_tls_only (tlsSecret : string) (d : Deployment) : Prop := {
  st_strategy : d_Strategy d = "Recreate";
  st_token : ps_AutomountServiceAccountToken (pt_Spec (d_Template d)) = Some false;
  st_containers : exists model proxy, ps_Containers (pt_Spec (d_Template d)) = [model; proxy] /\
    c_Name model = "llama-cpp-server" /\ c_Image model = llamaServerImage /\ c_Ports model = [] /\
    loopback_only (c_Args model) /\ (exists pre post, c_Args model = pre ++ ["--host"; "127.0.0.1"] ++ post) /\
    (exists pre, c_Args model = pre ++ ["--api-key-file"; byocAPIKeyFilePath]) /\
    c_Name proxy = "tls-proxy" /\ c_Image proxy = byocProxyImage /\
    (cp_ContainerPort <$> c_Ports proxy) = [byocTargetPort];
  st_secret : exists v, v ∈ ps_Volumes (pt_Spec (d_Template d)) /\ v_Name v = "tls" /\
    (sv_SecretName <$> v_Secret v) = Some tlsSecret;
}.

Lemma set_host_clean (l args : list string) :
  Forall (fun a => a <> "--host") l -> set_host false (l ++ args) = l ++ set_host false args.
Proof.
  induction 1 as [|a l Ha Hl IH]; [done |]. cbn [app set_host]. by rewrite bool_decide_false, IH.
Qed.

(** The flags an instance sets never make up a second [--host]. *)
Lemma setServerIntFlag_no_host (args : list string) (flag : string) (n : Z) :
  flag <> "--host" -> "--host" ∉ args -> "--host" ∉ setServerIntFlag args flag n.
Proof.
  intros Hf. assert (Hn : Itoa n <> "--host") by by apply Itoa_not.
  induction args as [|x args IH]; [cbn; rewrite !not_elem_of_cons, elem_of_nil; naive_solver |].
  intros [Hx Ha]%not_elem_of_cons. cbn [setServerIntFlag]. destruct args as [|y args].
  - cbn. rewrite !not_elem_of_cons, elem_of_nil. naive_solver.
  - case_bool_decide; [| apply not_elem_of_cons; auto].
    apply not_elem_of_cons in Ha as [_ Ha]. rewrite !not_elem_of_cons. auto.
Qed.

Lemma modelForInstance_no_host (inst : LLMInstance) : "--host" ∉ serverArgs (modelForInstance inst).
Proof.
  rewrite modelForInstance_args.
  assert (B : "--host" ∉ serverArgs (resolveModel (spec_Model (Spec inst)))).
  { destruct (resolveModel_args (spec_Model (Spec inst))) as [-> | ->]; [apply not_elem_of_nil |].
    apply (bool_decide_eq_true ("--host" ∉ _)). reflexivity. }
  unfold set_opt. destruct (spec_ParallelSlots (Spec inst)), (spec_ContextSize (Spec inst));
    repeat apply setServerIntFlag_no_host; done.
Qed.

Lemma path_not_host (model : modelSelection) : path model <> "--host".
Proof. unfold path. change "/models/" with (String "/"%char "models/"). rewrite string_app_cons. intros [=]. Qed.

Section Remote.
  Context `{KubeLib}.

Lemma remote_args (model : modelSelection) : "--host" ∉ serverArgs model ->
  set_host false (serverContainerArgs model ["--api-key-file"; byocAPIKeyFilePath]) =
  ["-m"; path model; "--port"; "8000"] ++ ["--host"; "127.0.0.1"]
    ++ (serverArgs model ++ ["--api-key-file"; byocAPIKeyFilePath]).
Proof.
  intros Hm. set (post := serverArgs model ++ ["--api-key-file"; byocAPIKeyFilePath]).
  assert (F : Forall (fun a => a <> "--host") post).
  { apply Forall_app. split; [| by repeat constructor]. apply Forall_forall. intros a Ha ->. done. }
  assert (G : Forall (fun a => a <> "--host") ["-m"; path model; "--port"; "8000"])
    by (repeat constructor; try done; apply path_not_host).
  transitivity (set_host false (["-m"; path model; "--port"; "8000"] ++ ["--host"; "0.0.0.0"] ++ post)); [done |].
  rewrite set_host_clean by done. f_equal. cbn [set_host app].
  pose proof (set_host_clean post [] F) as E. rewrite !app_nil_r in E.
  change (bool_decide ("--host" = "--host")) with true. cbn [set_host].
  change (bool_decide ("127.0.0.1" = "--host")) with false. by rewrite E.
Qed.

Lemma build_serves_tls (inst : LLMInstance) (slug : string) (replicas : Z) (model : modelSelection)
  (keysRevision tlsSecret tlsRevision : string) : "--host" ∉ serverArgs model ->
  serves_tls_only tlsSecret (buildBYOCDeployment inst slug replicas model keysRevision tlsSecret tlsRevision).
Proof.
  intros Hm. split; [done | done | |].
  - eexists _, _. split; [reflexivity |]. split_and!; try done.
    + cbn [defaultContainer loopback_model]. apply set_host_loopback.
    + eexists _, _. apply (remote_args model Hm).
    + exists (["-m"; path model; "--port"; "8000"; "--host"; "127.0.0.1"] ++ serverArgs model).
      rewrite <-app_assoc. apply (remote_args model Hm).
  - eexists. split; [cbn; apply list_elem_of_further, list_elem_of_further, list_elem_of_here | by split].
Qed.

Lemma build_defaulted (inst : LLMInstance) (slug : string) (replicas : Z) (model : modelSelection)
  (keysRevision tlsSecret tlsRevision : string) :
  let d := buildBYOCDeployment inst slug replicas model keysRevision tlsSecret tlsRevision in
  corev1defaults d = d.
Proof. apply corev1defaults_idem. Qed.

(** A Deployment brought to the desired one: template, replicas and strategy are those
    desired, and the rest is as it was. *)
Lemma converge_remote_deployment_spec `{!KubeLaws} (desired existing : Deployment) :
  let '(d, changed) := converge_remote_deployment desired existing in
  d_Template d = d_Template desired /\ d_Replicas d = d_Replicas desired /\ d_Strategy d = d_Strategy desired /\
  d_Meta d = d_Meta existing /\ d_Selector d = d_Selector existing /\ (changed = false -> d = existing).
Proof.
  unfold converge_remote_deployment. destruct (_ && _ && _) eqn:E; [| by destruct existing].
  bool_props. apply TemplateDeepEqual_sound in H1. by split_and!.
Qed.

(** ** The Service *)

Definition byoc_exposed (labels : gmap string string) (s : Service) : Prop :=
  svc_Type s = "LoadBalancer" /\ stringMapEqual (svc_Selector s) labels = true /\
  (exists nodePort, svc_Ports s = [byoc_port nodePort]) /\ True.

Lemma stringMapEqual_refl (m : gmap string string) : stringMapEqual m m = true.
Proof.
  unfold stringMapEqual. rewrite Nat.eqb_refl. cbn. apply forallb_forall. intros [k v] Hin%list_elem_of_In.
  apply elem_of_map_to_list in Hin. apply bool_decide_eq_true. unfold mget. cbn. by rewrite Hin.
Qed.

Lemma stringMapEqual_eq (a b : gmap string string) :
  (forall k, a !! k <> Some "") -> stringMapEqual a b = true -> a = b.
Proof.
  unfold stringMapEqual. intros Ha [Hs Hf]%andb_true_iff. apply Nat.eqb_eq in Hs.
  apply map_subseteq_size_eq; [| lia]. apply map_subseteq_spec. intros k v Hk.
  rewrite forallb_forall in Hf. specialize (Hf (k, v)). cbn in Hf. unfold mget in Hf.
  pose proof (proj2 (elem_of_map_to_list a k v) Hk) as Hin%list_elem_of_In.
  specialize (Hf Hin). apply bool_decide_eq_true in Hf. destruct (b !! k); cbn in *; subst; [done |].
  by destruct (Ha k).
Qed.

(** It is not equality of the maps: a selector without the slug, but with some other label
    set to the empty string, counts as the desired one and is left in place. *)
Lemma stringMapEqual_drift (instanceName slug : string) :
  let existing := <["app.kubernetes.io/name" := "llama-cpp-server"]>
                    (<[instanceLabelKey := instanceName]> {[ "extra" := "" ]}) in
  stringMapEqual existing (byocLabels instanceName slug) = true /\
  existing !! slugAnnotationKey = None /\ byocLabels instanceName slug !! slugAnnotationKey = Some slug.
Proof.
  split_and!; [| reflexivity | reflexivity]. apply andb_true_iff. split; [reflexivity |].
  apply forallb_forall. intros [k v] Hin%list_elem_of_In. apply bool_decide_eq_true.
  apply elem_of_map_to_list in Hin. cbn [fst snd].
  repeat (apply lookup_insert_Some in Hin as [[<- <-] | [_ Hin]]; [reflexivity |]).
  apply lookup_singleton_Some in Hin as [<- <-]. reflexivity.
Qed.

Lemma port_converges :
  converges (fun s => exists nodePort, svc_Ports s = [byoc_port nodePort]) ensureBYOCServicePort.
Proof.
  intros s. unfold ensureBYOCServicePort. case_bool_decide as E; cbn.
  - split_and!; [rewrite E; by eexists | done | done].
  - split_and!; [by eexists | | done]. intros [n Hn]. exfalso. apply E. by rewrite Hn.
Qed.

Lemma ensure_remote_service_converges (labels : gmap string string) :
  converges (byoc_exposed labels) (ensure_remote_service labels).
Proof.
  unfold byoc_exposed, ensure_remote_service.
  apply converges_cons; [| apply converges_cons; [| apply converges_cons;
    [apply port_converges | apply converges_nil |] |] |].
  - apply converges_set_when; intros; rewrite ?negb_false_iff, ?bool_decide_eq_true; done.
  - apply converges_set_when; intros; rewrite ?negb_false_iff; [done | apply stringMapEqual_refl].
  - repeat constructor.
  - repeat constructor. intros s Hs. unfold ensureBYOCServicePort. by case_bool_decide.
  - repeat constructor; intros s Hs; unfold set_when, ensureBYOCServicePort; by repeat case_match.
Qed.

(** ** The key Secret *)

Definition holds_keys (keyFile : string) (bootstrap : bool) (s : Secret) : Prop :=
  mget (sec_Data s) byocAPIKeyFileKey = keyFile /\
  mget (Annotations (sec_Meta s)) byocBootstrapAnnotation = (if bootstrap then byocBootstrapTrue else "") /\ True.

Lemma ensure_key_secret_converges (keyFile : string) (bootstrap : bool) :
  converges (holds_keys keyFile bootstrap) (ensure_key_secret keyFile bootstrap).
Proof.
  unfold holds_keys, ensure_key_secret.
  apply converges_cons; [| apply converges_cons; [| apply converges_nil |] |].
  - apply converges_set_when; intros; rewrite ?negb_false_iff, ?bool_decide_eq_true; [done |].
    cbn. unfold mget. by rewrite lookup_insert_eq.
  - apply converges_set_when; intros s; rewrite ?negb_false_iff, ?bool_decide_eq_true; [done |].
    destruct s as [[] ? ? ?]. cbn. unfold mget. destruct bootstrap; by rewrite ?lookup_insert_eq, ?lookup_delete_eq.
  - repeat constructor.
  - repeat constructor. intros s Hs. unfold set_when. by case_match.
Qed.

(** ** The key file *)

(** A key the API server's objects admit: held by a live Secret of this instance and
    target that a live token request of the instance owns and published. *)
Definition admits (listed : list Secret) (request_of : string -> APITokenRequest -> Prop) (inst : LLMInstance)
    (key : string) : Prop :=
  exists s owner tr, s ∈ listed /\ token_owner s = Some owner /\ request_of (or_Name owner) tr /\
    request_matches inst s owner tr = true /\ key_bound inst s = true /\
    key = mget (sec_Data s) openAIAPIKeyKey /\ key_file_ok key = true.

Definition keys_event (inst : LLMInstance) : event :=
  EList Cached KSecret (Some (Namespace (inst_Meta inst))) [(instanceLabelKey, Name (inst_Meta inst))].
Definition request_of_event (inst : LLMInstance) (name : string) : event :=
  EGet Cached KTokenRequest (key_of (Namespace (inst_Meta inst)) name).

Lemma collect_keys_exact (O : oracle) (inst : LLMInstance) (secrets : list Secret) (keys : list string) :
  run_oracle O (collect_keys inst secrets) = Ok keys ->
  forall key, key ∈ keys <-> admits secrets (fun name tr => O (request_of_event inst name) = Ok tr) inst key.
Proof.
  assert (S : forall s l key P, admits (s :: l) P inst key <->
    (exists owner tr, token_owner s = Some owner /\ P (or_Name owner) tr /\ request_matches inst s owner tr = true /\
       key_bound inst s = true /\ key = mget (sec_Data s) openAIAPIKeyKey /\ key_file_ok key = true) \/
    admits l P inst key).
  { intros s l key P. unfold admits. setoid_rewrite elem_of_cons. naive_solver. }
  revert keys. induction secrets as [|s secrets IH]; intros keys.
  - intros [= <-] key. unfold admits. split; [intros H1%elem_of_nil; done | intros (? & ? & ? & H1%elem_of_nil & _); done].
  - cbn [collect_keys]. destruct (token_owner s) as [owner|] eqn:Eo.
    2: { intros Hr key. rewrite (IH keys Hr), S, Eo. split; [by right | by intros [(? & ? & ? & _) | ?]]. }
    rewrite run_oracle_bind. cbn [call run_oracle]. fold (request_of_event inst (or_Name owner)).
    destruct (O (request_of_event inst (or_Name owner))) as [tr | err] eqn:Et.
    2: { destruct (IsNotFound err); [| done]. intros Hr key. rewrite (IH keys Hr), S, Eo.
         split; [by right | intros [(o & t & [= <-] & Ht & _) | ?]; [congruence | done]]. }
    destruct (request_matches inst s owner tr && key_bound inst s && key_file_ok _) eqn:Em.
    + rewrite run_oracle_fbind. destruct (run_oracle O (collect_keys inst secrets)) as [rest|]; [| done].
      intros [= <-] key. rewrite elem_of_cons, (IH rest eq_refl), S, Eo. bool_props. split.
      * intros [-> | Ha]; [left; by exists owner, tr | by right].
      * intros [(o & t & [= <-] & Ht & _ & _ & -> & _) | Ha]; [by left | by right].
    + intros Hr key. rewrite (IH keys Hr), S, Eo. split; [by right |].
      intros [(o & t & [= <-] & Ht & H1 & H2 & -> & H3) | Ha]; [| done].
      rewrite Et in Ht. injection Ht as <-. by rewrite H1, H2, H3 in Em.
Qed.

Lemma key_no_newline (key : string) :
  key_file_ok key = true -> str_exists (Ascii.eqb (Ascii.ascii_of_nat 10)) key = false.
Proof.
  unfold key_file_ok. intros [_ Hk%negb_true_iff]%andb_true_iff. revert Hk.
  induction key as [|c key IH]; [done |]. cbn [str_exists]. intros [[Hc _]%orb_false_iff Hk]%orb_false_iff.
  rewrite (IH Hk), orb_false_r. by rewrite Ascii.eqb_sym.
Qed.

Lemma Join_end (l : list string) (sep : string) : l <> [] -> Join l sep +:+ sep = Join (l ++ [""]) sep.
Proof.
  induction l as [|x l IH]; [done |]. intros _. destruct l as [|y l].
  - cbn. by rewrite string_app_nil_r.
  - change (Join (x :: y :: l) sep) with (x +:+ sep +:+ Join (y :: l) sep).
    change (Join ((x :: y :: l) ++ [""]) sep) with (x +:+ sep +:+ Join ((y :: l) ++ [""]) sep).
    rewrite <-IH by done. by rewrite <-!string_app_assoc.
Qed.

#[local] Instance string_le_total : Total string_le.
Proof. intros a b. unfold string_le. destruct (String.leb_total a b) as [-> | ->]; [by left | by right]. Qed.

Lemma sort_permutation (l : list string) : sort_Strings l ≡ₚ l.
Proof. apply merge_sort_Permutation. Qed.

Lemma sort_sorted (l : list string) : Sorted string_le (sort_Strings l).
Proof. apply (Sorted_merge_sort string_le). Qed.

(** C17: the key file of the remote server has one line per key, in order, and its keys
    are exactly those the token requests of this instance and target admit; without any
    it holds a bootstrap key, kept from the operator's own remote Secret or drawn now:
    the server is never left open. *)
Theorem key_file_exact (O : oracle) (remote : client) (inst : LLMInstance) (slug file : string) (bootstrap : bool)
  (Hr : run_oracle O (desiredAPIKeyFile remote inst slug) = Ok (file, bootstrap)) :
  exists secrets, O (keys_event inst) = Ok secrets /\
    let admitted := admits secrets (fun name tr => O (request_of_event inst name) = Ok tr) inst in
    if bootstrap
    then (forall key, ~ admitted key) /\
         ((exists s, O (EGet remote KSecret (key_of byocNamespace (byocKeySecretName slug))) = Ok s /\
             owned_remotely inst (sec_Meta s) = true /\
             mget (Annotations (sec_Meta s)) byocBootstrapAnnotation = byocBootstrapTrue /\
             file = mget (sec_Data s) byocAPIKeyFileKey /\ file <> "") \/
          (exists b, O (ERandom 32) = Ok b /\ file = raw64 b +:+ chr 10))
    else exists lines, split_byte (Ascii.ascii_of_nat 10) file = lines ++ [""] /\ lines <> [] /\
           Sorted string_le lines /\ (forall key, key ∈ lines <-> admitted key).
Proof.
  unfold desiredAPIKeyFile in Hr. rewrite run_oracle_fbind in Hr. cbn [call run_oracle] in Hr.
  fold (keys_event inst) in Hr. destruct (O (keys_event inst)) as [secrets | err]; [| done].
  exists secrets. split; [done |]. rewrite run_oracle_fbind in Hr.
  destruct (run_oracle O (collect_keys inst secrets)) as [keys | err] eqn:Ek; [| done].
  pose proof (collect_keys_exact O inst secrets keys Ek) as Hk. cbv zeta.
  destruct (bool_decide (keys = [])) eqn:En; cbn [negb] in Hr; bool_props.
  - subst keys. cbn [negb] in Hr. rewrite run_oracle_bind in Hr. cbn [call run_oracle] in Hr.
    assert (Hnone : forall key, ~ admits secrets (fun name tr => O (request_of_event inst name) = Ok tr) inst key).
    { intros key Ha. apply Hk in Ha. by apply elem_of_nil in Ha. }
    assert (Hfresh : run_oracle O (let? token := generateToken 32 in fret (token +:+ chr 10, true)) = Ok (file, bootstrap) ->
      bootstrap = true /\ exists b, O (ERandom 32) = Ok b /\ file = raw64 b +:+ chr 10).
    { unfold generateToken. rewrite !run_oracle_fbind. cbn [call run_oracle].
      destruct (O (ERandom 32)) as [b|]; [| done]. cbn. intros [= <- <-]. split; [done | by exists b]. }
    destruct (O (EGet remote KSecret _)) as [s | err] eqn:Es.
    + unfold checkBYOCObjectOwner in Hr. destruct (owned_remotely inst (sec_Meta s)) eqn:Eow; [| done].
      cbn [or_fail] in Hr. rewrite run_oracle_fbind in Hr. cbn [run_oracle fret] in Hr.
      destruct (bool_decide _ && negb _) eqn:Eb.
      * injection Hr as <- <-. bool_props. split; [done |]. left. by exists s.
      * apply Hfresh in Hr as [-> Hb]. split; [done | by right].
    + destruct (IsNotFound err); [| done]. cbn [negb] in Hr. apply Hfresh in Hr as [-> Hb]. split; [done | by right].
  - injection Hr as <- <-. exists (sort_Strings keys).
    assert (Hne : sort_Strings keys <> []).
    { intros E0. pose proof (sort_permutation keys) as P. rewrite E0 in P. by apply Permutation_nil_l in P. }
    split_and!; [| done | apply sort_sorted | intros key; rewrite sort_permutation; apply Hk].
    rewrite Join_end by done. apply split_byte_join; [by destruct (sort_Strings keys) |].
    apply Forall_app. split; [| by repeat constructor]. rewrite sort_permutation.
    apply Forall_forall. intros key Hin. apply Hk in Hin as (? & ? & ? & ? & ? & ? & ? & ? & ? & ?).
    by apply key_no_newline.
Qed.

End Remote.
