(* ===== verification/ByocWrites.v ===== *)
(** * The writes of the parts of a bring-your-own reconcile

    Each part has the rules of its own writes: credentials, remote objects, the
    Certificate, DNS and TLS Secrets.  They hold for every cache, API server, remote
    cluster and clock, and compose into the discipline of the reconcile. *)

From Stdlib Require Import Ascii.
From S2P Require Import Prelude GoStd GoNet GoError Sha256 Kube KubeRef Api Io Names SlugPolicy Model TokenRequest SlugRoute Workload WorkloadFacts Routing ByocTransport ByocTLS Byoc ByocNetFacts ByocFacts.

(** ** Rules for the handlers that thread the instance *)

Lemma safe_or_return_err {S A} (M : monitor S) s (m : sio A) (k : A -> sresult) (inst : LLMInstance) Q :
  safe M s (m inst) (fun s' '(inst', x) =>
    match x with Ok a => safe M s' (k a inst') Q | Err e => Q s' (inst', (no_result, Some e)) end) ->
  safe M s (or_return_err m k inst) Q.
Proof.
  intros H. apply safe_bind. eapply safe_mono; [exact H |]. by intros s' [inst' [a | e]].
Qed.

Lemma safe_lift {S A} (M : monitor S) s (m : fio A) (inst : LLMInstance) Q :
  safe M s m (fun s' x => Q s' (inst, x)) -> safe M s (lift m inst) Q.
Proof. intros H. apply safe_bind. eapply safe_mono; [exact H | done]. Qed.

Lemma safe_sget {S} (M : monitor S) s (k : LLMInstance -> sresult) (inst : LLMInstance) Q :
  safe M s (k inst inst) Q -> safe M s (or_return_err sget k inst) Q.
Proof. done. Qed.

Lemma safe_smodify {S A} (M : monitor S) s (f : LLMInstance -> LLMInstance) (k : unit -> sio A) (inst : LLMInstance) Q :
  safe M s (k tt (f inst)) Q -> safe M s (sbind (smodify f) k inst) Q.
Proof. done. Qed.

Lemma safe_attempt_fio {S A} (M : monitor S) s (m : fio A) (inst : LLMInstance) Q :
  safe M s m (fun s' x => Q s' (inst, Ok x)) -> safe M s (attempt_fio m inst) Q.
Proof. intros H. apply safe_bind. eapply safe_mono; [exact H | done]. Qed.

Lemma safe_return_with {S} (M : monitor S) s (result : Result) (m : sio unit) (inst : LLMInstance) Q :
  safe M s (m inst) (fun s' '(inst', x) => Q s' (inst', (result, err_of x))) ->
  safe M s (return_with result m inst) Q.
Proof. intros H. apply safe_bind. eapply safe_mono; [exact H |]. by intros s' [inst' x]. Qed.

Lemma safe_sbind {S A B} (M : monitor S) s (m : sio A) (k : A -> sio B) (inst : LLMInstance) Q :
  safe M s (m inst) (fun s' '(inst', x) =>
    match x with Ok a => safe M s' (k a inst') Q | Err e => Q s' (inst', Err e) end) ->
  safe M s (sbind m k inst) Q.
Proof.
  intros H. apply safe_bind. eapply safe_mono; [exact H |]. by intros s' [inst' [a | e]].
Qed.

(** A guard that fails with an error, and a computed value. *)
Lemma safe_or_fail {S A} (M : monitor S) s (e : option error) (k : unit -> fio A) Q :
  (e = None -> safe M s (k tt) Q) -> (forall err, e = Some err -> Q s (Err err)) -> safe M s (fbind (or_fail e) k) Q.
Proof. intros H1 H2. apply safe_fbind. destruct e; cbn; auto. Qed.

Lemma safe_of_res {S A B} (M : monitor S) s (x : res A) (k : A -> fio B) Q :
  (forall a, x = Ok a -> safe M s (k a) Q) -> (forall err, x = Err err -> Q s (Err err)) ->
  safe M s (fbind (of_res x) k) Q.
Proof. intros H1 H2. apply safe_fbind. destruct x; cbn; auto. Qed.

Ltac on_guard pat := apply safe_or_fail; [intros pat | done].
Ltac on_res pat eq := apply safe_of_res; [intros pat eq | done].

Section Parts.
  Context `{KubeLaws} `{X509Lib} `{ClientLib}.

(** ** Credentials *)

Inductive credentials_write (inst : LLMInstance) (slug data : string) (h : history) : event -> Prop :=
| cw_read e : read_only e -> credentials_write inst slug data h e
| cw_create s :
    sec_Data s = {[ byocKubeconfigKey := data ]} ->
    GetControllerOf (OwnerReferences (sec_Meta s)) = Some (instance_ref inst) ->
    ObjectKeyFromObject (sec_Meta s) = credentials_key inst slug ->
    credentials_write inst slug data h (ECreate Cached KSecret s)
| cw_update s0 s :
    saw h (EGet Cached KSecret (credentials_key inst slug)) (Ok s0) -> controls inst (sec_Meta s0) = true ->
    sec_Meta s = sec_Meta s0 -> mget (sec_Data s) byocKubeconfigKey = data ->
    credentials_write inst slug data h (EUpdate Cached KSecret s).

(** A copy of the credentials in use is stored under the instance's control. *)
Definition credentials_stored (inst : LLMInstance) (slug data : string) (h : history) : Prop :=
  (exists s, saw h (EGet Cached KSecret (credentials_key inst slug)) (Ok s) /\ controls inst (sec_Meta s) = true /\
     mget (sec_Data s) byocKubeconfigKey = data) \/
  (exists e s stored, credentials_write inst slug data h e /\
     (e = ECreate Cached KSecret s /\ saw h (ECreate Cached KSecret s) (Ok stored) \/
      e = EUpdate Cached KSecret s /\ saw h (EUpdate Cached KSecret s) (Ok stored))).

Lemma credentials_safe (h : history) (inst : LLMInstance) (slug data : string) :
  safe (recording (credentials_write inst slug data)) h (ensureCachedCredentials inst slug data)
    (fun h' r => is_ok r = true -> credentials_stored inst slug data h').
Proof.
  unfold ensureCachedCredentials. on_call got; [by apply cw_read |]. destruct got as [s | err].
  - destruct (controls inst (sec_Meta s)) eqn:Ec; cbn [negb]; [| done].
    case_bool_decide as Ed; [intros _; left; eauto with go |].
    assert (W : forall h', saw h' (EGet Cached KSecret (credentials_key inst slug)) (Ok s) ->
      credentials_write inst slug data h' (EUpdate Cached KSecret
        (s <| sec_Data ::= fun m => <[byocKubeconfigKey := data]> m |>))).
    { intros h' Hs. eapply cw_update; [exact Hs | done | done |]. cbn. unfold mget. by rewrite lookup_insert_eq. }
    on_call stored; [apply W, saw_here |]. destruct stored as [o|]; [| done].
    intros _. right. eexists _, _, o. split; [apply W; auto with go | right; split; [done | apply saw_here]].
  - destruct (IsNotFound err); cbn [negb]; [| done].
    destruct (SetControllerReference _ _) as [m | e] eqn:E; [| done].
    apply SetControllerReference_ok in E as [Ho Em]; [| done].
    assert (W : forall h', credentials_write inst slug data h' (ECreate Cached KSecret
      ((credentials_secret inst slug data) <| sec_Meta := m |>))).
    { intros h'. apply cw_create; [done | done |]. by rewrite Em. }
    on_call stored; [apply W |]. destruct stored as [o|]; [| done].
    intros _. right. eexists _, _, o. split; [apply W | left; split; [done | apply saw_here]].
Qed.

(** ** Remote objects *)

(** Metadata of a new object that the instance owns: marked with its UID, no owner
    reference (owners do not span clusters). *)
Definition born_owned (inst : LLMInstance) (m : ObjectMeta) : Prop :=
  Namespace m = byocNamespace /\ mget (Annotations m) byocOwnerUIDAnnotation = UID (inst_Meta inst) /\
  OwnerReferences m = [].

Inductive object_write (remote : client) (inst : LLMInstance) (K : kind) (key : ObjectKey) (C : obj K -> Prop)
    (h : history) : event -> Prop :=
| ow_read e : read_only e -> object_write remote inst K key C h e
| ow_create o :
    born_owned inst (meta_of K o) -> ObjectKeyFromObject (meta_of K o) = key -> C o ->
    object_write remote inst K key C h (ECreate remote K o)
| ow_update o0 o :
    saw h (EGet remote K key) (Ok o0) -> owned_remotely inst (meta_of K o0) = true ->
    meta_of K o = (meta_of K o0) <| Annotations := Annotations (meta_of K o) |> -> C o ->
    object_write remote inst K key C h (EUpdate remote K o).

Lemma check_owner (m : ObjectMeta) (inst : LLMInstance) :
  checkBYOCObjectOwner m inst = None -> owned_remotely inst m = true.
Proof. unfold checkBYOCObjectOwner. by destruct (owned_remotely inst m). Qed.

Lemma annotated (m : ObjectMeta) : m = m <| Annotations := Annotations m |>.
Proof. by destruct m. Qed.

Lemma born_with (inst : LLMInstance) (m : ObjectMeta) :
  Namespace m = byocNamespace -> OwnerReferences m = [] -> Annotations m = byocOwnedAnnotations inst -> born_owned inst m.
Proof. intros E1 E2 E3. split_and!; [done | | done]. by rewrite E3. Qed.

Definition base_key (slug : string) : ObjectKey := key_of byocNamespace (byocBaseName slug).

Definition exposes (inst : LLMInstance) (slug : string) : Service -> Prop :=
  byoc_exposed (byocLabels (Name (inst_Meta inst)) slug).

Lemma ensure_remote_service_meta (labels : gmap string string) (s : Service) :
  svc_Meta (ensure_remote_service labels s).1 = svc_Meta s.
Proof.
  unfold ensure_remote_service. cbn [in_order]. unfold set_when, ensureBYOCServicePort.
  by repeat (case_match; simplify_eq/=).
Qed.

Lemma service_safe (h : history) (remote : client) (inst : LLMInstance) (slug : string) :
  safe (recording (object_write remote inst KService (base_key slug) (exposes inst slug))) h
    (reconcileBYOCService remote inst slug) (fun _ _ => True).
Proof.
  unfold reconcileBYOCService. on_call got; [by apply ow_read |]. destruct got as [s | err].
  - on_guard Ho. apply check_owner in Ho.
    destruct (ensure_remote_service_converges (byocLabels (Name (inst_Meta inst)) slug) s) as (C & _).
    pose proof (ensure_remote_service_meta (byocLabels (Name (inst_Meta inst)) slug) s) as Em.
    destruct (ensure_remote_service _ s) as [s' updated]. cbn [fst] in *. destruct updated; cbn [negb]; [| done].
    on_call stored; [| by destruct stored].
    eapply ow_update; [apply saw_here | done | | done]. cbn. rewrite Em. apply annotated.
  - destruct (IsNotFound err); cbn [negb]; [| done]. on_call stored; [| by destruct stored].
    apply ow_create; [by apply born_with | done |].
    split_and!; [done | apply stringMapEqual_refl | by eexists | done].
Qed.

Definition proxies (hostname : string) (c : ConfigMap) : Prop :=
  cm_Data c = {[ "dynamic.yaml" := byocProxyConfig hostname ]}.

Lemma proxy_safe (h : history) (remote : client) (inst : LLMInstance) (slug hostname : string) :
  safe (recording (object_write remote inst KConfigMap (key_of byocNamespace (byocBaseName slug +:+ "-proxy"))
                     (proxies hostname))) h
    (reconcileBYOCProxyConfig remote inst slug hostname) (fun _ _ => True).
Proof.
  unfold reconcileBYOCProxyConfig. on_call got; [by apply ow_read |]. destruct got as [c | err].
  - destruct (checkBYOCObjectOwner (cm_Meta c) inst) as [err|] eqn:Ho; [done |]. apply check_owner in Ho.
    case_bool_decide; [done |]. on_call stored; [| by destruct stored].
    eapply ow_update; [apply saw_here | done | apply annotated | done].
  - destruct (IsNotFound err); [| done]. on_call stored; [| by destruct stored].
    apply ow_create; [by apply born_with | done | done].
Qed.

(** The bytes of the key file that the API server stores for this Secret. *)
Definition serves_keys (keyFile : string) (s : Secret) : Prop :=
  sec_StringData s !! byocAPIKeyFileKey = Some keyFile \/ mget (sec_Data s) byocAPIKeyFileKey = keyFile.

Lemma ensure_key_secret_meta (keyFile : string) (bootstrap : bool) (s : Secret) :
  let s' := (ensure_key_secret keyFile bootstrap s).1 in
  sec_Meta s' = (sec_Meta s) <| Annotations := Annotations (sec_Meta s') |>.
Proof.
  destruct s as [[] ? ? ?]. unfold ensure_key_secret. cbn [in_order]. unfold set_when.
  by repeat (case_match; simplify_eq/=).
Qed.

Lemma key_secret_safe (h : history) (remote : client) (inst : LLMInstance) (slug keyFile : string) (bootstrap : bool) :
  safe (recording (object_write remote inst KSecret (key_of byocNamespace (byocKeySecretName slug))
                     (serves_keys keyFile))) h
    (reconcileBYOCKeySecret remote inst slug keyFile bootstrap) (fun _ _ => True).
Proof.
  unfold reconcileBYOCKeySecret. on_call got; [by apply ow_read |]. destruct got as [s | err].
  - on_guard Ho. apply check_owner in Ho.
    destruct (ensure_key_secret_converges keyFile bootstrap s) as ((C & _) & _).
    pose proof (ensure_key_secret_meta keyFile bootstrap s) as Em.
    destruct (ensure_key_secret keyFile bootstrap s) as [s' updated]. cbn [fst] in *.
    destruct updated; cbn [negb]; [| done]. on_call stored; [| by destruct stored].
    eapply ow_update; [apply saw_here | done | done | by right].
  - destruct (IsNotFound err); cbn [negb]; [| done]. on_call stored; [| by destruct stored].
    apply ow_create; [| done | left; apply lookup_singleton_eq].
    split_and!; [done | | done]. destruct bootstrap; [| done]. done.
Qed.

Lemma deployment_safe (h : history) (remote : client) (inst : LLMInstance) (slug : string) (model : modelSelection)
  (keysRevision tlsSecret tlsRevision : string) : "--host" ∉ serverArgs model ->
  safe (recording (object_write remote inst KDeployment (base_key slug) (serves_tls_only tlsSecret))) h
    (reconcileBYOCDeployment remote inst slug model keysRevision tlsSecret tlsRevision) (fun _ _ => True).
Proof.
  intros Hm. pose proof (build_serves_tls inst slug (desired_replicas inst) model keysRevision tlsSecret tlsRevision Hm) as B.
  unfold reconcileBYOCDeployment. cbv zeta.
  pose proof (build_defaulted inst slug (desired_replicas inst) model keysRevision tlsSecret tlsRevision) as D.
  set (desired := buildBYOCDeployment _ _ _ _ _ _ _) in *.
  on_call got; [by apply ow_read |]. destruct got as [d | err].
  - on_guard Ho. apply check_owner in Ho.
    set (desired' := corev1defaults (desired <| d_Selector := d_Selector d |>)).
    assert (E : d_Template desired' = d_Template desired /\ d_Strategy desired' = d_Strategy desired).
    { split; [| done]. cbv zeta in D. transitivity (d_Template (corev1defaults desired)); [done | by rewrite D]. }
    destruct E as [E1 E2].
    pose proof (converge_remote_deployment_spec desired' d) as C.
    destruct (converge_remote_deployment desired' d) as [d' changed]. destruct C as (C1 & _ & C2 & C3 & _).
    destruct changed; cbn [negb]; [| done]. on_call stored; [| by destruct stored].
    eapply ow_update; [apply saw_here | done | cbn; rewrite C3; apply annotated |].
    destruct B as [B1 B2 B3 B4]. split; rewrite ?C1, ?C2, ?E1, ?E2; done.
  - destruct (IsNotFound err); cbn [negb]; [| done]. on_call stored; [| by destruct stored].
    apply ow_create; [by apply born_with | done | done].
Qed.

(** ** The Certificate *)

Section Managed.
  Variable inst : LLMInstance.
  Variable cfg : BYOCTLSConfig.
  Variable targetID : string.

Definition managed_secret (h : history) (name : string) (r : res Secret) : Prop :=
  saw h (EGet Cached KSecret (key_of (tls_Namespace cfg) name)) r.

Definition absent {A} (r : res A) : Prop := exists err, r = Err err /\ IsNotFound err = true.

(** The Secret a Certificate issues into is missing, bound to it, or its first issuance. *)
Definition output_guarded (h : history) (name : string) (cert : GardenerCertificate) : Prop :=
  exists r, managed_secret h name r /\
    (absent r \/
     exists source, r = Ok source /\
       (requireBYOCSourceSecret source cert inst = None \/ first_issuance source cert name inst = true)).

Inductive certificate_write (h : history) : event -> Prop :=
| crw_read e : read_only e -> certificate_write h e
| crw_create name hostname r1 r2 :
    byocTLSIdentity inst cfg targetID = Ok (name, hostname) ->
    managed_secret h name r1 -> absent r1 -> managed_secret h (last_valid name) r2 -> absent r2 ->
    certificate_write h (ECreate Cached KCertificate (new_certificate inst cfg name hostname))
| crw_update name hostname cert desired :
    byocTLSIdentity inst cfg targetID = Ok (name, hostname) ->
    (saw h (EGet Cached KCertificate (key_of (tls_Namespace cfg) name)) (Ok cert) \/
     saw h (ECreate Cached KCertificate (new_certificate inst cfg name hostname)) (Ok cert)) ->
    requireBYOCTLSOwner (crt_Meta cert) inst = None -> DeletionTimestamp (crt_Meta cert) = None ->
    output_guarded h name cert ->
    preserveBYOCCertificateRenewal cert (byocCertificateSpec name hostname (UID (crt_Meta cert)) cfg inst) = Ok desired ->
    crt_Spec cert <> Present desired ->
    certificate_write h (EUpdate Cached KCertificate (cert <| crt_Spec := Present desired |>)).

Lemma refuse_existing_safe (P : history -> event -> Prop) (h : history) (names : list string) :
  (forall h e, read_only e -> P h e) ->
  safe (recording P) h (refuse_existing (tls_Namespace cfg) names)
    (fun h' r => grows h h' /\ (is_ok r = true -> Forall (fun n => exists r, managed_secret h' n r /\ absent r) names)).
Proof.
  intros HP. revert h. induction names as [|n names IH]; intros h; [done |]. cbn [refuse_existing].
  on_call got; [by apply HP |]. destruct got as [s | err]; [split; [by eauto with go | done] |].
  destruct (IsNotFound err) eqn:En; [| split; [by eauto with go | done]].
  eapply safe_mono; [apply IH |]. cbn. intros h' r [Hg Hr]. split; [by eauto with go |].
  intros Hok. constructor; [| auto]. exists (Err err). split; [| by exists err].
  unfold managed_secret. eapply saw_grows; [exact Hg | apply saw_here].
Qed.

Lemma get_or_create_safe (h : history) (name hostname : string) :
  byocTLSIdentity inst cfg targetID = Ok (name, hostname) ->
  safe (recording certificate_write) h (get_or_create_certificate inst cfg name hostname)
    (fun h' r => forall cert, r = Ok cert ->
       saw h' (EGet Cached KCertificate (key_of (tls_Namespace cfg) name)) (Ok cert) \/
       saw h' (ECreate Cached KCertificate (new_certificate inst cfg name hostname)) (Ok cert)).
Proof.
  intros Hi. unfold get_or_create_certificate. on_call got; [by apply crw_read |].
  destruct got as [cert | err]; [intros c [= <-]; left; apply saw_here |].
  destruct (IsNotFound err); [| done]. apply safe_fbind.
  eapply safe_mono; [apply refuse_existing_safe, crw_read |]. intros h1 [[]|e]; [| done]. intros [_ Hf].
  specialize (Hf eq_refl). rewrite !Forall_cons in Hf. destruct Hf as ((r1 & ? & ?) & (r2 & ? & ?) & _).
  split; [by eapply crw_create |]. intros [c|e]; cbn; [| done]. intros ? [= <-]. right. apply saw_here.
Qed.

Lemma certificate_safe (h : history) :
  safe (recording certificate_write) h (reconcileBYOCManagedCertificate inst cfg targetID) (fun _ _ => True).
Proof.
  unfold reconcileBYOCManagedCertificate. on_guard Hv. on_res names Hi. destruct names as [name hostname].
  on_step (get_or_create_safe h name hostname Hi). intros h1 [cert|err] [Hg Hc]; [| done].
  specialize (Hc cert eq_refl). on_guard Ho. case_bool_decide as Hd; cbn [negb]; [| done].
  case_bool_decide; [done |]. unfold guard_output. apply safe_fbind.
  on_call got; [by apply crw_read |]. set (h2 := _ :: h1).
  assert (K : output_guarded h2 name cert ->
    safe (recording certificate_write) h2
      (let? desired := of_res (preserveBYOCCertificateRenewal cert
                                 (byocCertificateSpec name hostname (UID (crt_Meta cert)) cfg inst)) in
       if bool_decide (crt_Spec cert = Present desired) then fret tt
       else let? _ := call (EUpdate Cached KCertificate (cert <| crt_Spec := Present desired |>)) in fret tt)
      (fun _ _ => True)).
  { intros Hgd. on_res desired Hp. case_bool_decide; [done |]. on_call stored; [| by destruct stored].
    eapply crw_update; try done. destruct Hc; [left | right]; eauto with go. }
  destruct got as [source | err].
  - destruct (requireBYOCSourceSecret source cert inst) as [e|] eqn:Es;
      [destruct (first_issuance source cert name inst) eqn:Ef; [| done] |]; apply K;
      exists (Ok source); (split; [apply saw_here |]); right; eauto.
  - destruct (IsNotFound err) eqn:En; [| done]. apply K. exists (Err err). split; [apply saw_here |].
    left. by exists err.
Qed.

(** ** DNS *)

Inductive dns_write (address : string) (h : history) : event -> Prop :=
| dw_read e : read_only e -> dns_write address h e
| dw_create name hostname :
    byocTLSIdentity inst cfg targetID = Ok (name, hostname) -> validBYOCDNSTarget address = true ->
    dns_write address h (ECreate Cached KDNSEntry (new_dns_entry inst cfg name hostname address))
| dw_update name hostname d0 d :
    byocTLSIdentity inst cfg targetID = Ok (name, hostname) -> validBYOCDNSTarget address = true ->
    saw h (EGet Cached KDNSEntry (key_of (tls_Namespace cfg) name)) (Ok d0) ->
    requireBYOCTLSOwner (dns_Meta d0) inst = None -> DeletionTimestamp (dns_Meta d0) = None ->
    dns_Meta d = (dns_Meta d0) <| Annotations := Annotations (dns_Meta d) |> ->
    dns_Spec d = Present (dns_spec hostname address) -> mget (Annotations (dns_Meta d)) dns_class_key = DNSClass cfg ->
    dns_write address h (EUpdate Cached KDNSEntry d).

Lemma dns_safe (h : history) (address : string) :
  safe (recording (dns_write address)) h (reconcileBYOCDNS inst cfg address targetID) (fun _ _ => True).
Proof.
  unfold reconcileBYOCDNS. case_bool_decide; [done |]. on_res names Hi. destruct names as [name hostname].
  destruct (validBYOCDNSTarget address) eqn:Hv; cbn [negb]; [| done].
  on_call got; [by apply dw_read |]. destruct got as [d | err].
  - on_guard Ho. case_bool_decide as Hd; cbn [negb]; [| done]. destruct (_ && _); [done |].
    on_call stored; [| by destruct stored].
    eapply dw_update; [done | done | apply saw_here | done | done | done | done |].
    cbn. unfold mget. by rewrite lookup_insert_eq.
  - destruct (IsNotFound err); [| done]. on_call stored; [| by destruct stored]. by eapply dw_create.
Qed.

(** ** TLS material and its delivery *)

(** Where material to serve comes from: the Secret a live, unrevoked Certificate of the
    instance issued into, or the protected copy of what was served last. *)
Definition material_source (h : history) (name : string) (data : gmap string string) : Prop :=
  (exists cert source, saw h (EGet Cached KCertificate (key_of (tls_Namespace cfg) name)) (Ok cert) /\
     requireBYOCTLSOwner (crt_Meta cert) inst = None /\
     managed_secret h name (Ok source) /\ requireBYOCSourceSecret source cert inst = None /\
     mget (Annotations (sec_Meta source)) byocTLSRevokedAnnotation <> byocTLSRevokedValue /\ data = sec_Data source) \/
  (exists cache target, managed_secret h (last_valid name) (Ok cache) /\ byocTLSTarget targetID = Ok target /\
     requireBYOCTargetSecret cache inst target = None /\ data = sec_Data cache).

(** It was checked against the host name at the time read. *)
Definition fit_material (h : history) (data : gmap string string) (revision : string) : Prop :=
  exists name hostname now, byocTLSIdentity inst cfg targetID = Ok (name, hostname) /\
    material_source h name data /\ saw h ENow now /\ validateBYOCTLSMaterial data hostname now = Ok revision.

(** The Secrets the material is written to: the protected copy and the remote one. *)
Definition tls_place (remote : client) (c : client) (key : ObjectKey) : Prop :=
  exists name hostname, byocTLSIdentity inst cfg targetID = Ok (name, hostname) /\
    (c = Cached /\ key = key_of (tls_Namespace cfg) (last_valid name) \/ c = remote /\ key = key_of byocNamespace name).

Inductive tls_write (remote : client) (h : history) : event -> Prop :=
| tw_read e : read_only e -> tls_write remote h e
| tw_create c key target data revision s :
    tls_place remote c key -> byocTLSTarget targetID = Ok target -> fit_material h data revision ->
    ObjectKeyFromObject (sec_Meta s) = key -> requireBYOCTargetSecret s inst target = None ->
    sec_Data s = copyBYOCTLSData data ->
    tls_write remote h (ECreate c KSecret s)
| tw_update c key target data revision s0 :
    tls_place remote c key -> byocTLSTarget targetID = Ok target -> fit_material h data revision ->
    saw h (EGet c KSecret key) (Ok s0) -> requireBYOCTargetSecret s0 inst target = None ->
    DeletionTimestamp (sec_Meta s0) = None ->
    tls_write remote h (EUpdate c KSecret (s0 <| sec_Data := copyBYOCTLSData data |>)).

(** A Secret with this material was found at the key, or written there. *)
Definition holds_material (h : history) (c : client) (key : ObjectKey) (data : gmap string string) : Prop :=
  exists s, sec_Data s = copyBYOCTLSData data /\
    (saw h (EGet c KSecret key) (Ok s) \/
     (exists stored, saw h (ECreate c KSecret s) (Ok stored) /\ ObjectKeyFromObject (sec_Meta s) = key) \/
     (exists stored s0, saw h (EGet c KSecret key) (Ok s0) /\ sec_Meta s = sec_Meta s0 /\
        saw h (EUpdate c KSecret s) (Ok stored))).

(** The remote Secret holds the material of this fingerprint. *)
Definition delivered (remote : client) (h : history) (revision : string) : Prop :=
  exists name hostname data, byocTLSIdentity inst cfg targetID = Ok (name, hostname) /\
    fit_material h data revision /\ holds_material h remote (key_of byocNamespace name) data.

Lemma material_source_grows (h h' : history) (name : string) (data : gmap string string) :
  grows h h' -> material_source h name data -> material_source h' name data.
Proof.
  unfold material_source, managed_secret.
  intros Hg [(cert & s & ? & ? & ? & ?) | (s & t & ? & ?)]; [left; exists cert, s | right; exists s, t];
    split_and!; eauto with go; tauto.
Qed.

Lemma fit_material_grows (h h' : history) (data : gmap string string) (revision : string) :
  grows h h' -> fit_material h data revision -> fit_material h' data revision.
Proof.
  intros Hg (name & hostname & now & ? & ? & ? & ?). exists name, hostname, now.
  split_and!; eauto using material_source_grows with go.
Qed.

Lemma write_secret_safe (remote : client) (h : history) (c : client) (ns name target revision : string)
  (data : gmap string string) :
  tls_place remote c (key_of ns name) -> byocTLSTarget targetID = Ok target -> fit_material h data revision ->
  UID (inst_Meta inst) <> "" ->
  safe (recording (tls_write remote)) h (writeBYOCTLSSecret c ns name inst target data)
    (fun h' r => is_ok r = true -> holds_material h' c (key_of ns name) data).
Proof.
  intros Hp Ht Hf Hu. unfold writeBYOCTLSSecret. on_call got; [by apply tw_read |].
  assert (Hf' : forall x, fit_material (x :: h) data revision).
  { intros x. eapply fit_material_grows; [apply grows_cons | done]. }
  destruct got as [s | err].
  - on_guard Ho. case_bool_decide as Hd; cbn [negb]; [| done].
    case_bool_decide as Ed; [intros _; exists s; split; [done | left; apply saw_here] |].
    on_call stored; [eapply tw_update; try done; apply saw_here |]. destruct stored as [o|]; [| done].
    intros _. eexists. split; [| right; right; exists o, s; split_and!; [auto with go | | apply saw_here]]; done.
  - destruct (IsNotFound err); [| done]. set (s := {| sec_Meta := _ |}). on_call stored.
    + eapply (tw_create _ _ c (key_of ns name) target data revision s); try done.
      assert (L1 : mget (Labels (sec_Meta s)) byocTLSOwnerLabel = UID (inst_Meta inst)) by done.
      assert (L2 : mget (Labels (sec_Meta s)) byocTLSTargetLabel = target) by done.
      unfold requireBYOCTargetSecret, requireBYOCTLSOwner. rewrite L1, L2.
      rewrite (bool_decide_false (UID (inst_Meta inst) = "")) by done. by rewrite !bool_decide_true by done.
    + destruct stored as [o|]; [| done]. intros _. exists s. split; [done |]. right; left. exists o.
      split; [apply saw_here | done].
Qed.

Lemma tls_uid (name hostname : string) : byocTLSIdentity inst cfg targetID = Ok (name, hostname) -> UID (inst_Meta inst) <> "".
Proof. unfold byocTLSIdentity. by case_bool_decide. Qed.

(** What [issued_material] and [serving_material] return was checked. *)
Lemma issued_safe (remote : client) (h : history) (name hostname : string) (cert : GardenerCertificate) (now : Z) :
  byocTLSIdentity inst cfg targetID = Ok (name, hostname) -> saw h ENow now ->
  saw h (EGet Cached KCertificate (key_of (tls_Namespace cfg) name)) (Ok cert) ->
  requireBYOCTLSOwner (crt_Meta cert) inst = None ->
  safe (recording (tls_write remote)) h (issued_material inst cfg name hostname cert now)
    (fun h' r => forall data revision, r = Ok (Some (data, revision)) -> fit_material h' data revision).
Proof.
  intros Hi Hn Hc Ho. unfold issued_material. on_call got; [by apply tw_read |]. destruct got as [s | err].
  - on_guard Hs. case_bool_decide as Hr; [done |]. destruct (_ && _); [| done].
    cbn [safe fret]. intros data revision [= E].
    destruct (validateBYOCTLSMaterial (sec_Data s) hostname now) as [rev|] eqn:Ev; [| done]. injection E as <- <-.
    exists name, hostname, now. split_and!; auto with go. left. exists cert, s.
    split_and!; auto with go. apply saw_here.
  - by destruct (IsNotFound err).
Qed.

Lemma serving_safe (remote : client) (h : history) (name hostname target : string)
  (issued : option (gmap string string * string)) (now : Z) :
  byocTLSIdentity inst cfg targetID = Ok (name, hostname) -> byocTLSTarget targetID = Ok target -> saw h ENow now ->
  (forall data revision, issued = Some (data, revision) -> fit_material h data revision) ->
  safe (recording (tls_write remote)) h (serving_material inst cfg name hostname target issued now)
    (fun h' r => forall data revision, r = Ok (data, revision) -> fit_material h' data revision).
Proof.
  intros Hi Ht Hn Hf. unfold serving_material. destruct issued as [[data revision]|].
  - specialize (Hf data revision eq_refl).
    on_step (write_secret_safe remote h Cached (tls_Namespace cfg) (last_valid name) target revision data
               ltac:(exists name, hostname; auto) Ht Hf (tls_uid _ _ Hi)).
    intros h1 [[]|e] [Hg _]; [| done]. intros d rev [= <- <-]. by eapply fit_material_grows.
  - on_call got; [by apply tw_read |]. destruct got as [s | err]; [| by destruct (IsNotFound err)].
    on_guard Hs. destruct (validateBYOCTLSMaterial (sec_Data s) hostname now) as [rev|] eqn:Ev; [| done].
    intros data revision [= <- <-]. exists name, hostname, now. split_and!; auto with go.
    right. exists s, target. split_and!; auto with go. apply saw_here.
Qed.

Lemma tls_safe (remote : client) (h : history) :
  safe (recording (tls_write remote)) h (reconcileBYOCTLSSecret remote inst cfg targetID)
    (fun h' r => forall revision, r = Ok revision -> delivered remote h' revision).
Proof.
  unfold reconcileBYOCTLSSecret. on_guard Hv. on_res names Hi. destruct names as [name hostname].
  on_res target Ht. on_call got; [by apply tw_read |]. destruct got as [cert | err]; [| done].
  on_guard Ho. case_bool_decide; cbn [negb]; [| done]. on_res desired Hp.
  case_bool_decide; cbn [negb]; [| done]. destruct (_ || _); [done |].
  on_call now; [by apply tw_read |].
  on_step (issued_safe remote (existT ENow now :: existT (EGet Cached KCertificate _) (Ok cert) :: h)
             name hostname cert now Hi ltac:(apply saw_here) ltac:(eauto with go) Ho).
  intros h1 [issued|e] [Hg1 H1']; [| done].
  on_step (serving_safe remote h1 name hostname target issued now Hi Ht
             ltac:(eapply saw_grows; [exact Hg1 | apply saw_here])
             ltac:(intros d rv ->; by apply H1')).
  intros h2 [[data revision]|e] [Hg2 Hf]; [| done]. specialize (Hf _ _ eq_refl).
  on_step (write_secret_safe remote h2 remote byocNamespace name target revision data
             ltac:(exists name, hostname; auto) Ht Hf (tls_uid _ _ Hi)).
  intros h3 [[]|e] [Hg3 Hw]; [| done]. intros rev [= <-]. exists name, hostname, data.
  split_and!; [done | by eapply fit_material_grows | by apply Hw].
Qed.

End Managed.

End Parts.
