(* ===== verification/ByocSafety.v ===== *)
(** * The reconcile on a bring-your-own cluster: evidence behind every write

    [byoc_write] is the discipline of [reconcileBYOC], composed of those of its parts;
    the theorems hold for every cache, API server, remote cluster, clock and network. *)

From Stdlib Require Import Ascii.
From S2P Require Import Prelude GoStd GoNet GoIP GoError Sha256 Kube KubeRef Api Io Names SlugPolicy Model TokenRequest SlugRoute Workload WorkloadFacts Routing ByocTransport ByocTLS Byoc ByocNetFacts ByocFacts ByocWrites.

(** ** The key file *)

Section Keys.
  Context `{KubeLib}.

(** The keys a server admits, as far as seen. *)
Definition admitted (h : history) (i : LLMInstance) (key : string) : Prop :=
  exists secrets, saw h (keys_event i) (Ok secrets) /\
    admits secrets (fun name tr => saw h (request_of_event i name) (Ok tr)) i key.

(** A key file: admitted keys, one per line and in order, or a bootstrap key kept from the
    remote Secret or drawn. *)
Definition key_file_of (h : history) (remote : client) (i : LLMInstance) (slug file : string) (bootstrap : bool) : Prop :=
  if bootstrap then
    (exists s, saw h (EGet remote KSecret (key_of byocNamespace (byocKeySecretName slug))) (Ok s) /\
       owned_remotely i (sec_Meta s) = true /\
       mget (Annotations (sec_Meta s)) byocBootstrapAnnotation = byocBootstrapTrue /\
       file = mget (sec_Data s) byocAPIKeyFileKey /\ file <> "") \/
    (exists b, saw h (ERandom 32) (Ok b) /\ file = raw64 b +:+ chr 10)
  else exists keys, keys <> [] /\ file = Join (sort_Strings keys) (chr 10) +:+ chr 10 /\ Forall (admitted h i) keys.

Lemma admits_mono (l l' : list Secret) (P P' : string -> APITokenRequest -> Prop) (i : LLMInstance) (key : string) :
  l ⊆ l' -> (forall n tr, P n tr -> P' n tr) -> admits l P i key -> admits l' P' i key.
Proof. intros Hl HP (s & o & tr & Hs & ? & ? & ?). exists s, o, tr. split_and!; auto; tauto. Qed.

Lemma key_file_grows (h h' : history) (remote : client) (i : LLMInstance) (slug file : string) (bootstrap : bool) :
  grows h h' -> key_file_of h remote i slug file bootstrap -> key_file_of h' remote i slug file bootstrap.
Proof.
  intros Hg. destruct bootstrap; cbn.
  - intros [(s & ? & ?) | (b & ? & ?)]; [left; exists s | right; exists b]; split; eauto with go.
  - intros (keys & ? & ? & Hk). exists keys. split_and!; [done | done |]. eapply Forall_impl; [exact Hk |].
    intros key (l & Hl & Ha). exists l. split; [by eauto with go |]. revert Ha. apply admits_mono; [done |].
    intros n tr. by apply saw_grows.
Qed.

Lemma collect_keys_safe (P : history -> event -> Prop) (h : history) (i : LLMInstance) (l : list Secret) :
  (forall h e, read_only e -> P h e) ->
  safe (recording P) h (collect_keys i l) (fun h' r => grows h h' /\
    forall keys, r = Ok keys ->
      Forall (admits l (fun name tr => saw h' (request_of_event i name) (Ok tr)) i) keys).
Proof.
  intros HP. revert h. induction l as [|s l IH]; intros h; cbn [collect_keys].
  { split; [done |]. intros keys [= <-]. constructor. }
  assert (W : forall h', grows h h' -> safe (recording P) h' (collect_keys i l) (fun h2 r => grows h h2 /\
    forall keys, r = Ok keys -> Forall (admits (s :: l) (fun name tr => saw h2 (request_of_event i name) (Ok tr)) i) keys)).
  { intros h' Hg. eapply safe_mono; [apply IH |]. intros h2 r [Hg2 Hr]. split; [by eauto with go |].
    intros keys ->. eapply Forall_impl; [by apply Hr |]. intros k. apply admits_mono; [set_solver | done]. }
  destruct (token_owner s) as [o|] eqn:Eo; [| by apply W].
  on_call got; [by apply HP |]. destruct got as [tr | err].
  - destruct (_ && _ && _) eqn:Em; [| apply W; eauto with go]. bool_props.
    apply safe_fbind. eapply safe_mono; [apply safe_grows, W; eauto with go |].
    intros h2 [keys|e] (Hg2 & Hg & Hk); [| done]. split; [done |]. intros ks [= <-].
    constructor; [| by apply Hk]. exists s, o, tr. split_and!; try done; [apply list_elem_of_here |].
    eapply saw_grows; [exact Hg2 | apply saw_here].
  - destruct (IsNotFound err); [apply W; eauto with go |]. split; [apply grows_cons | done].
Qed.

Lemma key_file_safe (P : history -> event -> Prop) (h : history) (remote : client) (i : LLMInstance) (slug : string) :
  (forall h e, read_only e -> P h e) ->
  safe (recording P) h (desiredAPIKeyFile remote i slug)
    (fun h' r => forall file bootstrap, r = Ok (file, bootstrap) -> key_file_of h' remote i slug file bootstrap).
Proof.
  intros HP. unfold desiredAPIKeyFile. on_call got; [by apply HP |]. fold (keys_event i).
  destruct got as [secrets|]; [| done].
  apply safe_fbind. eapply safe_mono; [apply (collect_keys_safe P), HP |].
  intros h1 [keys|e] [Hg Hk]; [| done]. case_bool_decide as Ek; cbn [negb].
  - assert (D : forall h', safe (recording P) h' (let? token := generateToken 32 in fret (token +:+ chr 10, true))
      (fun h2 r => forall file b, r = Ok (file, b) -> key_file_of h2 remote i slug file b)).
    { intros h'. unfold generateToken. apply safe_fbind. on_call b; [by apply HP |]. destruct b as [b|]; [| done].
      intros file bt [= <- <-]. right. exists b. split; [apply saw_here | done]. }
    on_call got; [by apply HP |]. destruct got as [s|err].
    + on_guard Ho. apply check_owner in Ho. destruct (bool_decide _ && negb _) eqn:Eb; [| apply D].
      bool_props. intros file b [= <- <-]. left. exists s. split_and!; try done. apply saw_here.
    + destruct (IsNotFound err); cbn [negb]; [apply D | done].
  - intros file b [= <- <-]. exists keys. split_and!; [done | done |].
    eapply Forall_impl; [by apply Hk |]. intros key Ha. exists secrets. split; [| done].
    eapply saw_grows; [exact Hg | apply saw_here].
Qed.

End Keys.

Section Safety.
  Context `{KubeLaws} `{X509Lib} `{ClientLib}.
  Variable rc : LLMInstanceReconciler.
  Variable inst0 : LLMInstance.
  Variable slug : string.
  Variable model : modelSelection.

(** ** Evidence *)

(** An instance with the metadata and spec of the one reconciled, or of one the API
    server answered to a status update. *)
Definition current (h : history) (i : LLMInstance) : Prop :=
  exists i0, (i0 = inst0 \/ exists o, saw h (EUpdateStatus Cached KInstance o) (Ok i0)) /\
    inst_Meta i = inst_Meta i0 /\ Spec i = Spec i0.

(** The credentials come from the Secret the instance names. *)
Definition source_read (h : history) (data : string) : Prop :=
  exists sec, saw h (EGet Cached KSecret (key_of (Namespace (inst_Meta inst0)) (kubeconfig_secret inst0))) (Ok sec) /\
    data = mget (sec_Data sec) byocKubeconfigKey /\ data <> "".

(** They are verified and lead to the cluster of this identity, which is the one the
    instance was bound to before, if any. *)
Definition verified_target (h : history) (data targetID : string) : Prop :=
  exists cfg apiID kubeSystem, verifiedBYOCRESTConfig data = Ok cfg /\ client_built cfg /\
    byocTargetIdentity data = Ok apiID /\
    saw h (EGet (Remote data) KNamespace (key_of "" "kube-system")) (Ok kubeSystem) /\
    UID (ns_Meta kubeSystem) <> "" /\ targetID = sha256_hex (apiID +:+ chr 0 +:+ UID (ns_Meta kubeSystem)) /\
    (ActiveBYOCTargetID (Status inst0) = "" \/ ActiveBYOCTargetID (Status inst0) = targetID).

(** Every remote write rests on this; the copy of the credentials keeps cleanup possible. *)
Record reachable (h : history) (data targetID tlsName hostname : string) : Prop := {
  re_source : source_read h data;
  re_target : verified_target h data targetID;
  re_stored : credentials_stored inst0 slug data h;
  re_slug : ActiveBYOCSlug (Status inst0) = "" \/ ActiveBYOCSlug (Status inst0) = slug;
  re_names : byocTLSIdentity inst0 (BYOCTLS rc) targetID = Ok (tlsName, hostname);
}.

Definition byoc_namespace : NamespaceObject :=
  {| ns_Meta := empty_meta <| Name := byocNamespace |>
                  <| Labels := {[ "app.kubernetes.io/managed-by" := "private-llm-operator" ]} |> |}.

(** The endpoint answers with the delivered certificate, in front of an available server. *)
Definition serving (h : history) (i : LLMInstance) (data targetID hostname : string) : Prop :=
  exists revision d svc, delivered i (BYOCTLS rc) targetID (Remote data) h revision /\
    saw h (EGet (Remote data) KDeployment (base_key slug)) (Ok d) /\ deployment_available d /\
    saw h (EGet (Remote data) KService (base_key slug)) (Ok svc) /\ loadBalancerAddress svc <> "" /\
    pinned h ("https://" +:+ hostname +:+ "/health") revision.

(** What [reconcileBYOCWorkload] may do once the target is reachable. *)
Inductive workload_write (i : LLMInstance) (data targetID tlsName hostname : string) (h : history) : event -> Prop :=
| ww_read e : read_only e -> workload_write i data targetID tlsName hostname h e
| ww_service e :
    object_write (Remote data) i KService (base_key slug) (exposes i slug) h e ->
    workload_write i data targetID tlsName hostname h e
| ww_certificate e :
    certificate_write i (BYOCTLS rc) targetID h e -> workload_write i data targetID tlsName hostname h e
| ww_dns svc e :
    saw h (EGet (Remote data) KService (base_key slug)) (Ok svc) ->
    dns_write i (BYOCTLS rc) targetID (loadBalancerAddress svc) h e -> workload_write i data targetID tlsName hostname h e
| ww_tls e :
    tls_write i (BYOCTLS rc) targetID (Remote data) h e -> workload_write i data targetID tlsName hostname h e
| ww_proxy e :
    object_write (Remote data) i KConfigMap (key_of byocNamespace (byocBaseName slug +:+ "-proxy")) (proxies hostname) h e ->
    workload_write i data targetID tlsName hostname h e
| ww_keys file bootstrap e :
    key_file_of h (Remote data) i slug file bootstrap ->
    object_write (Remote data) i KSecret (key_of byocNamespace (byocKeySecretName slug)) (serves_keys file) h e ->
    workload_write i data targetID tlsName hostname h e
| ww_deployment revision e :
    delivered i (BYOCTLS rc) targetID (Remote data) h revision ->
    object_write (Remote data) i KDeployment (base_key slug) (serves_tls_only tlsName) h e ->
    workload_write i data targetID tlsName hostname h e.

Inductive byoc_write (h : history) : event -> Prop :=
| bw_read e : read_only e -> byoc_write h e
| bw_credentials data targetID e :
    source_read h data -> verified_target h data targetID -> credentials_write inst0 slug data h e -> byoc_write h e
| bw_namespace data targetID tlsName hostname :
    reachable h data targetID tlsName hostname -> byoc_write h (ECreate (Remote data) KNamespace byoc_namespace)
| bw_workload i data targetID tlsName hostname e :
    current h i -> reachable h data targetID tlsName hostname -> workload_write i data targetID tlsName hostname h e ->
    byoc_write h e
| bw_status i now reason message :
    current h i ->
    byoc_write h (EUpdateStatus Cached KInstance (with_status i now ConditionFalse "Provisioning" "" reason message))
| bw_ready i now data targetID tlsName hostname :
    current h i -> reachable h data targetID tlsName hostname -> serving h i data targetID hostname ->
    byoc_write h (EUpdateStatus Cached KInstance
      (with_status i now ConditionTrue "Ready" ("https://" +:+ hostname) "Provisioned" "LLM instance is ready")).

Local Abbreviation R := (recording byoc_write).

(** ** Evidence is kept *)

Lemma current_grows (h h' : history) (i : LLMInstance) : grows h h' -> current h i -> current h' i.
Proof. intros Hg (i0 & [-> | [o Ho]] & ?); [exists inst0 | exists i0]; split; eauto with go. Qed.

Lemma source_grows (h h' : history) (data : string) : grows h h' -> source_read h data -> source_read h' data.
Proof. intros Hg (s & ? & ?). exists s. eauto with go. Qed.

Lemma target_grows (h h' : history) (data targetID : string) :
  grows h h' -> verified_target h data targetID -> verified_target h' data targetID.
Proof. intros Hg (c & a & k & ? & ? & ? & ? & ? & ? & ?). exists c, a, k. split_and!; eauto with go. Qed.

Lemma stored_grows (h h' : history) (data : string) :
  grows h h' -> credentials_stored inst0 slug data h -> credentials_stored inst0 slug data h'.
Proof.
  intros Hg [(s & ? & ?) | (e & s & o & Hw & He)]; [left; eauto with go | right; exists e, s, o; split].
  - destruct Hw; [by constructor | by constructor | eapply cw_update; eauto with go].
  - destruct He as [[? ?] | [? ?]]; [left | right]; eauto with go.
Qed.

Lemma reachable_grows (h h' : history) (data targetID tlsName hostname : string) :
  grows h h' -> reachable h data targetID tlsName hostname -> reachable h' data targetID tlsName hostname.
Proof.
  intros Hg []. split; eauto using source_grows, target_grows, stored_grows.
Qed.

Lemma delivered_grows (h h' : history) (i : LLMInstance) (targetID : string) (remote : client) (revision : string) :
  grows h h' -> delivered i (BYOCTLS rc) targetID remote h revision ->
  delivered i (BYOCTLS rc) targetID remote h' revision.
Proof.
  intros Hg (name & hostname & data & ? & ? & s & ? & Hs). exists name, hostname, data.
  split_and!; [done | by eapply fit_material_grows |]. exists s. split; [done |].
  destruct Hs as [? | [(o & ? & ?) | (o & s0 & ? & ? & ?)]]; 
    [left | right; left; exists o | right; right; exists o, s0]; split_and?; eauto with go.
Qed.

Lemma serving_grows (h h' : history) (i : LLMInstance) (data targetID hostname : string) :
  grows h h' -> serving h i data targetID hostname -> serving h' i data targetID hostname.
Proof.
  intros Hg (revision & d & svc & Hd & ? & ? & ? & ? & (u & resp & leaf & rest & Hp)).
  exists revision, d, svc. split_and!; eauto using delivered_grows with go.
  exists u, resp, leaf, rest. naive_solver eauto with go.
Qed.

(** ** The parts composed *)

Lemma workload_safe (h : history) (i : LLMInstance) (data targetID tlsName hostname : string) :
  "--host" ∉ serverArgs model ->
  safe (recording (workload_write i data targetID tlsName hostname)) h
    (reconcileBYOCWorkload rc (Remote data) i slug model targetID tlsName hostname)
    (fun h' r => forall revision, r = Ok revision -> delivered i (BYOCTLS rc) targetID (Remote data) h' revision).
Proof.
  intros Hm. unfold reconcileBYOCWorkload.
  on_part service_safe; [intros ? ? _; apply ww_service |]. intros h1 [[]|e] _; [| done].
  on_part certificate_safe; [intros ? ? _; apply ww_certificate |]. intros h2 [[]|e] _; [| done].
  on_call got; [by apply ww_read |]. destruct got as [svc|]; [| done].
  case_bool_decide; [done |].
  on_part dns_safe.
  { intros h3 e Hg He. eapply ww_dns; [eapply saw_grows; [exact Hg | apply saw_here] | exact He]. }
  intros h3 [[]|e] _; [| done].
  on_part tls_safe; [intros ? ? _; apply ww_tls |]. intros h4 [revision|e] [_ Hd]; [| done].
  specialize (Hd revision eq_refl).
  on_part proxy_safe; [intros ? ? _; apply ww_proxy |]. intros h5 [[]|e] [Hg5 _]; [| done].
  on_step (key_file_safe (workload_write i data targetID tlsName hostname) h5 (Remote data) i slug (ww_read _ _ _ _ _)).
  intros h6 [[file bootstrap]|e] [Hg6 Hk]; [| done]. specialize (Hk _ _ eq_refl).
  on_part key_secret_safe.
  { intros h7 e Hg He. eapply ww_keys; [| exact He]. eapply key_file_grows; [exact Hg | exact Hk]. }
  intros h7 [keysRevision|e] [Hg7 _]; [| done].
  on_part deployment_safe; [done | |].
  { intros h8 e Hg He. eapply ww_deployment; [| exact He].
    eapply delivered_grows; [| exact Hd]. eauto 6 with go. }
  intros h8 [[]|e] [Hg8 _]; [| done]. intros rev [= <-].
  eapply delivered_grows; [| exact Hd]. eauto 6 with go.
Qed.

Lemma byoc_readiness_safe (P : history -> event -> Prop) (h : history) (i : LLMInstance)
  (data targetID hostname revision : string) :
  (forall h e, read_only e -> P h e) -> delivered i (BYOCTLS rc) targetID (Remote data) h revision ->
  safe (recording P) h (evaluateBYOCReadiness (Remote data) slug hostname revision)
    (fun h' r => grows h h' /\ forall endpoint reason message, r = Ok (true, endpoint, reason, message) ->
       endpoint = "https://" +:+ hostname /\ serving h' i data targetID hostname).
Proof.
  intros HP Hd. apply safe_grows. unfold evaluateBYOCReadiness. on_call got; [by apply HP |].
  destruct got as [d|err]; [| by destruct (IsNotFound err)].
  destruct (deploymentReadiness d (byocBaseName slug)) as [[ready reason] message] eqn:Er.
  destruct ready; cbn [negb]; [| done].
  assert (Ha : deployment_available d) by (apply (deploymentReadiness_spec _ (byocBaseName slug)); by rewrite Er).
  on_call got; [by apply HP |]. destruct got as [svc|err]; [| by destruct (IsNotFound err)].
  case_bool_decide; [done |]. cbv zeta.
  on_step health_safe; [intros ?; by apply HP |].
  intros h1 [err|] [Hg Hp]; [done |]. intros endpoint reason' message' [= <- _ _]. split; [done |].
  exists revision, d, svc. split_and!; auto; try (eapply saw_grows; [exact Hg | auto with go]).
  - eapply delivered_grows; [| exact Hd]. eauto with go.
Qed.

(** ** The reconcile *)

Lemma with_status_current (h : history) (i : LLMInstance) (now : Z) (st phase endpoint reason message : string) :
  current h i -> current h (with_status i now st phase endpoint reason message).
Proof. by intros (i0 & ? & ? & ?); exists i0. Qed.

Lemma store_safe (h : history) (i : LLMInstance) (st phase endpoint reason message : string) :
  current h i ->
  (forall h' now, grows h h' ->
     byoc_write h' (EUpdateStatus Cached KInstance (with_status i now st phase endpoint reason message))) ->
  safe R h (store_status st phase endpoint reason message i) (fun h' '(i', _) => grows h h' /\ current h' i').
Proof.
  intros Hc HP. unfold store_status. on_call now; [by apply bw_read |].
  on_call stored; [apply HP, grows_cons |].
  destruct stored as [o|]; (split; [by eauto with go |]).
  - exists o. split; [right; eexists; apply saw_here | done].
  - eapply current_grows; [| by apply with_status_current]. eauto with go.
Qed.

Lemma provisioning_safe (h : history) (i : LLMInstance) (reason message : string) :
  current h i -> safe R h (provisioning "" reason message i) (fun h' '(i', _) => grows h h' /\ current h' i').
Proof.
  intros Hc. unfold provisioning. apply store_safe; [exact Hc |]. intros h' now Hg. apply bw_status. by eapply current_grows.
Qed.

Lemma serve_target_safe (h : history) (i : LLMInstance) (data targetID tlsName hostname : string) :
  "--host" ∉ serverArgs model -> current h i -> reachable h data targetID tlsName hostname ->
  safe R h (serve_target rc (Remote data) slug model targetID tlsName hostname i) (fun h' '(i', _) => current h' i').
Proof.
  intros Hm Hc Hr. unfold serve_target. apply safe_or_return_err, safe_lift. unfold ensureBYOCNamespace.
  on_call got; [by apply bw_read |]. set (h1 := _ :: h).
  assert (Hc1 : current h1 i) by (eapply current_grows; [apply grows_cons | done]).
  assert (Hr1 : reachable h1 data targetID tlsName hostname) by (eapply reachable_grows; [apply grows_cons | done]).
  assert (K : forall h2, grows h1 h2 -> safe R h2
    (or_return_err sget (fun inst =>
       or_return_err (attempt_fio (reconcileBYOCWorkload rc (Remote data) inst slug model targetID tlsName hostname))
         (fun delivered => match delivered with
          | Err err =>
              if errors_Is err ErrBYOCTLSNotReady
              then return_with (requeue_after provisioningRequeueAfter)
                     (provisioning "" "BYOCTLSProvisioning" "Waiting for a valid managed BYOC certificate and endpoint")
              else fun inst => mret (inst, (no_result, Some err))
          | Ok tlsRevision =>
              or_return_err (lift (evaluateBYOCReadiness (Remote data) slug hostname tlsRevision))
                (fun '(ready, endpoint, reason, message) =>
                   if negb (ready : bool)
                   then return_with (requeue_after provisioningRequeueAfter) (provisioning "" reason message)
                   else or_return_err (publish endpoint) (fun _ inst => mret (inst, (requeue_after 30, None))))
          end)) i) (fun h' '(i', _) => current h' i')).
  { intros h2 Hg2. pose proof (current_grows _ _ _ Hg2 Hc1) as Hc2. pose proof (reachable_grows _ _ _ _ _ _ Hg2 Hr1) as Hr2.
    apply safe_sget. apply safe_or_return_err, safe_attempt_fio.
    eapply safe_mono; [eapply safe_within; [by apply workload_safe |] | cbv beta].
    { intros h3 e Hg3 He. eapply bw_workload; [by eapply current_grows | by eapply reachable_grows | exact He]. }
    intros h3 x [Hg3 Hd]. pose proof (current_grows _ _ _ Hg3 Hc2) as Hc3. pose proof (reachable_grows _ _ _ _ _ _ Hg3 Hr2) as Hr3.
    destruct x as [tlsRevision | err].
    - apply safe_or_return_err, safe_lift.
      eapply safe_mono; [apply (byoc_readiness_safe byoc_write h3 i data targetID hostname tlsRevision bw_read), Hd; done |].
      intros h4 [[[[ready endpoint] reason] message] | e] [Hg4 He]; [| by eapply current_grows].
      pose proof (current_grows _ _ _ Hg4 Hc3) as Hc4.
      destruct ready; cbn [negb].
      + destruct (He _ _ _ eq_refl) as [-> Hs]. apply safe_or_return_err.
        unfold publish. eapply safe_mono; [apply store_safe; [exact Hc4 |] |].
        * intros h5 now Hg5. eapply bw_ready; [by eapply current_grows | | by eapply serving_grows].
          eapply reachable_grows; [| exact Hr3]. by eauto with go.
        * by intros h5 [i' [[]|e]] [_ ?].
      + apply safe_return_with. eapply safe_mono; [by apply provisioning_safe |]. by intros h5 [i' x] [_ ?].
    - destruct (errors_Is err ErrBYOCTLSNotReady); [| done].
      apply safe_return_with. eapply safe_mono; [by apply provisioning_safe |]. by intros h5 [i' x] [_ ?]. }
  destruct got as [n | err]; [apply K; done |].
  destruct (IsNotFound err); cbn [negb]; [| done].
  on_call created; [by eapply bw_namespace |].
  destruct created as [n | e]; [apply K; eauto with go |].
  destruct (IsAlreadyExists e); [apply K; eauto with go |].
  eapply current_grows; [apply grows_cons | done].
Qed.

Lemma client_safe (h : history) :
  safe R h (byocClient inst0) (fun h' r => grows h h' /\ forall remote data, r = Ok (inl (remote, data)) ->
    remote = Remote data /\ source_read h' data /\
    exists cfg, verifiedBYOCRESTConfig data = Ok cfg /\ client_built cfg).
Proof.
  apply safe_grows. unfold byocClient, byocKubeconfig. cbv zeta. apply safe_fbind.
  on_call got; [by apply bw_read |]. destruct got as [sec|err]; [| by destruct (IsNotFound err)].
  case_bool_decide; cbn [negb]; [done |]. cbn [safe fret].
  intros remote data. destruct (remoteClientForKubeconfig _) as [m|] eqn:Em; [| done]. intros [= <- <-].
  apply remote_client_built in Em as [-> Hc].
  split_and!; [done | eexists; split_and!; [apply saw_here | done | done] | exact Hc].
Qed.

Lemma identity_safe (h : history) (data apiID : string) :
  byocTargetIdentity data = Ok apiID ->
  safe R h (byocClusterIdentity (Remote data) apiID) (fun h' r => grows h h' /\ forall targetID, r = Ok targetID ->
    exists ns, saw h' (EGet (Remote data) KNamespace (key_of "" "kube-system")) (Ok ns) /\ UID (ns_Meta ns) <> "" /\
      targetID = sha256_hex (apiID +:+ chr 0 +:+ UID (ns_Meta ns))).
Proof.
  intros Ha. apply safe_grows. unfold byocClusterIdentity. on_call got; [by apply bw_read |].
  destruct got as [ns|err]; [| done]. case_bool_decide; [done |].
  intros t [= <-]. exists ns. split_and!; [apply saw_here | done | done].
Qed.

Lemma current_initial (h : history) : current h inst0.
Proof. exists inst0. auto. Qed.

Lemma body_safe (h0 : history) : "--host" ∉ serverArgs model ->
  safe R h0 (reconcileBYOC_body rc slug model inst0) (fun h' '(i', _) => current h' i').
Proof.
  intros Hm. unfold reconcileBYOC_body. apply safe_sget.
  destruct (tls_migrated rc inst0); [apply current_initial |].
  destruct (negb _ && negb _) eqn:Hs; [apply current_initial |].
  apply safe_or_return_err, safe_lift. eapply safe_mono; [apply client_safe | cbv beta].
  intros h1 [[[remote data]|[reason message]]|err] [_ Hcl]; [| | apply current_initial].
  2: { apply safe_return_with. eapply safe_mono; [apply provisioning_safe, current_initial |]. by intros ? [? ?] [? ?]. }
  destruct (Hcl _ _ eq_refl) as (-> & Hsrc & cfg & Hv & Hn).
  apply safe_or_return_err, safe_lift. destruct (byocTargetIdentity data) as [apiID|] eqn:Ha; [| apply current_initial].
  apply safe_or_return_err, safe_lift. eapply safe_mono; [by apply identity_safe | cbv beta].
  intros h2 [targetID|err] [Hg2 Ht]; [| apply current_initial].
  destruct (Ht _ eq_refl) as (ns & Hns & Hu & Eid).
  apply safe_or_return_err, safe_lift.
  destruct (byocTLSIdentity inst0 (BYOCTLS rc) targetID) as [[tlsName hostname]|] eqn:Hi; [| apply current_initial].
  cbn [safe of_res]. destruct (negb (bool_decide (ActiveBYOCTargetID (Status inst0) = "")) && _) eqn:Hid; [apply current_initial |].
  assert (Hsrc2 : source_read h2 data) by by eapply source_grows.
  assert (Htgt : verified_target h2 data targetID).
  { exists cfg, apiID, ns. split_and!; try done. apply andb_false_iff in Hid as [?|?]; bool_props; auto. }
  apply safe_or_return_err, safe_lift.
  eapply safe_mono; [eapply safe_within; [apply credentials_safe |] | cbv beta].
  { intros h3 e Hg3 He. apply (bw_credentials h3 data targetID e); [| | exact He]; eauto using source_grows, target_grows. }
  intros h3 [[]|err] [Hg3 Hst]; [| apply current_initial]. specialize (Hst eq_refl).
  assert (Hr : reachable h3 data targetID tlsName hostname).
  { split; eauto using source_grows, target_grows. apply andb_false_iff in Hs as [?|?]; bool_props; auto. }
  apply safe_or_return_err.
  destruct (target_recorded inst0); [by apply serve_target_safe; [| apply current_initial |] |].
  apply safe_smodify. eapply safe_mono; [apply provisioning_safe; exists inst0; auto |].
  intros h4 [i [[]|err]] [Hg4 Hc4]; [| done].
  apply serve_target_safe; [done | done |]. by eapply reachable_grows.
Qed.

Lemma byoc_safe (h0 : history) : "--host" ∉ serverArgs model ->
  safe R h0 (reconcileBYOC rc slug model inst0) (fun _ _ => True).
Proof.
  intros Hm. unfold reconcileBYOC. apply safe_bind. eapply safe_mono; [by apply body_safe |].
  intros h [i [result [e|]]] Hc; [| done]. apply safe_bind.
  eapply safe_mono; [by apply provisioning_safe |]. by intros ? [? ?] _.
Qed.

(** C6: whatever the caches, API servers, remote clusters, clock and endpoints answer, a
    reconcile of a bring-your-own instance writes nothing remote before the user's
    kubeconfig was read and verified, the cluster identified as the one recorded, if
    any, and the credentials stored for cleanup; it only creates remote objects marked
    with the instance's UID and updates those so marked; the Service exposes TLS alone,
    the Deployment serves only behind the delivered certificate, the key file holds
    only admitted or bootstrap keys; TLS Secrets receive only material valid at a time
    read; DNS only a public address of the Service; and the status never has an endpoint
    unless the certificate delivered was found served at it by an available server. *)
Theorem reconcileBYOC_writes (Hm : "--host" ∉ serverArgs model) :
  safe (recording byoc_write) [] (reconcileBYOC rc slug model inst0) (fun _ _ => True).
Proof. by apply byoc_safe. Qed.

(** C23: a reconcile that returns an error has, as its very last call, tried to withdraw
    the endpoint: whatever fails, no endpoint stays published. *)
Theorem reconcileBYOC_fails_closed :
  safe (recording (fun _ _ => True)) [] (reconcileBYOC rc slug model inst0) (fun h '(_, (_, err)) =>
    err <> None -> exists i now reason message stored earlier,
      h = existT (EUpdateStatus Cached KInstance (with_status i now ConditionFalse "Provisioning" "" reason message))
            stored :: earlier).
Proof.
  unfold reconcileBYOC. apply safe_bind. eapply safe_mono; [by apply safe_any |].
  intros h [i [result [e|]]] _; [| by intros []]. apply safe_bind. unfold provisioning, store_status.
  on_call now; [done |]. on_call stored; [done |]. destruct stored; intros _; by eexists _, _, _, _, _, _.
Qed.

End Safety.
