(* ===== verification/ByocCleanup.v ===== *)
(** * Leaving a bring-your-own cluster

    What the cleanup of a target deletes and in which order, what it has seen when it
    succeeds, and that the instance is only released, and a previous target only
    forgotten, after that. *)

From Stdlib Require Import Ascii.
From S2P Require Import Prelude GoStd GoNet GoIP GoError Sha256 Kube KubeRef Api Io Names SlugPolicy Model TokenRequest SlugRoute Workload WorkloadFacts Routing ByocTransport ByocTLS Byoc Instance ByocNetFacts ByocFacts ByocWrites ByocSafety.

Section Cleanup.
  Context `{KubeLaws} `{X509Lib} `{ClientLib}.

(** A deletion conditioned on the UID and version read, or on the UID read. *)
Definition as_read (m : ObjectMeta) : Preconditions :=
  {| pre_UID := Some (UID m); pre_ResourceVersion := Some (ResourceVersion m) |}.
Definition same_uid (m : ObjectMeta) : Preconditions := {| pre_UID := Some (UID m); pre_ResourceVersion := None |}.

Definition gone (h : history) (c : client) (K : kind) (key : ObjectKey) : Prop :=
  exists r, saw h (EGet c K key) r /\ absent r.

Lemma gone_grows (h h' : history) (c : client) (K : kind) (key : ObjectKey) :
  grows h h' -> gone h c K key -> gone h' c K key.
Proof. intros Hg (r & ? & ?). exists r. eauto with go. Qed.

Lemma gone_here (h : history) (c : client) (K : kind) (key : ObjectKey) (err : error) :
  IsNotFound err = true -> gone (existT (EGet c K key) (Err err) :: h) c K key.
Proof. intros He. exists (Err err). split; [apply saw_here | by exists err]. Qed.

Lemma delete_once_safe (P : history -> event -> Prop) (h : history) (c : client) (K : kind) (o : obj K) :
  P h (EDelete c K o (as_read (meta_of K o))) ->
  safe (recording P) h (delete_once c K o) (fun _ _ => True).
Proof.
  intros HP. unfold delete_once, delete_as_read. case_bool_decide; [| done].
  on_call d; [exact HP |]. by destruct (IgnoreNotFound d).
Qed.

(** ** The managed objects of a target *)

Section Target.
  Variable inst : LLMInstance.
  Variable cfg : BYOCTLSConfig.
  Variable targetID : string.

Local Abbreviation managed name := (key_of (tls_Namespace cfg) name).

Inductive managed_write (h : history) : event -> Prop :=
| mw_read e : read_only e -> managed_write h e
| mw_certificate e : certificate_write inst cfg targetID h e -> managed_write h e
| mw_delete_dns name hostname d :
    byocTLSIdentity inst cfg targetID = Ok (name, hostname) -> saw h (EGet Cached KDNSEntry (managed name)) (Ok d) ->
    requireBYOCTLSOwner (dns_Meta d) inst = None ->
    managed_write h (EDelete Cached KDNSEntry d (as_read (dns_Meta d)))
| mw_delete_certificate name hostname cert r :
    byocTLSIdentity inst cfg targetID = Ok (name, hostname) -> gone h Cached KDNSEntry (managed name) ->
    saw h (EGet Cached KCertificate (managed name)) (Ok cert) -> requireBYOCTLSOwner (crt_Meta cert) inst = None ->
    saw h (EGet Cached KSecret (managed name)) r ->
    (absent r \/ exists source, r = Ok source /\ requireBYOCSourceSecret source cert inst = None) ->
    managed_write h (EDelete Cached KCertificate cert (as_read (crt_Meta cert)))
| mw_delete_output name hostname target secretName s :
    byocTLSIdentity inst cfg targetID = Ok (name, hostname) -> byocTLSTarget targetID = Ok target ->
    gone h Cached KDNSEntry (managed name) -> gone h Cached KCertificate (managed name) ->
    saw h (EGet Cached KSecret (managed secretName)) (Ok s) ->
    (secretName = name /\ orphaned_source_error s name inst = None \/
     secretName = last_valid name /\ requireBYOCTargetSecret s inst target = None) ->
    managed_write h (EDelete Cached KSecret s (as_read (sec_Meta s))).

(** DNS first, then the Certificate, then the Secrets it leaves: all seen absent. *)
Definition managed_gone (h : history) : Prop :=
  exists name hostname, byocTLSIdentity inst cfg targetID = Ok (name, hostname) /\
    gone h Cached KDNSEntry (managed name) /\ gone h Cached KCertificate (managed name) /\
    gone h Cached KSecret (managed name) /\ gone h Cached KSecret (managed (last_valid name)).

Lemma cleanup_dns_safe (h : history) (name hostname : string) :
  byocTLSIdentity inst cfg targetID = Ok (name, hostname) ->
  safe (recording managed_write) h (cleanupBYOCDNS inst cfg targetID)
    (fun h' r => is_ok r = true -> gone h' Cached KDNSEntry (managed name)).
Proof.
  intros Hi. unfold cleanupBYOCDNS. rewrite Hi. apply safe_fbind. cbn [safe of_res].
  on_call got; [by apply mw_read |]. destruct got as [d|err].
  - on_guard Ho. apply safe_fbind. eapply safe_mono; [apply (delete_once_safe _ _ Cached KDNSEntry) |].
    + eapply mw_delete_dns; [done | apply saw_here | done].
    + by intros ? [[]|e] _.
  - destruct (IsNotFound err) eqn:En; [| done]. intros _. by apply gone_here.
Qed.

Lemma delete_certificate_safe (h : history) (name hostname : string) (cert : GardenerCertificate) :
  byocTLSIdentity inst cfg targetID = Ok (name, hostname) -> gone h Cached KDNSEntry (managed name) ->
  saw h (EGet Cached KCertificate (managed name)) (Ok cert) ->
  safe (recording managed_write) h (delete_certificate inst cfg targetID name cert) (fun _ r => is_ok r = false).
Proof.
  intros Hi Hd Hc. unfold delete_certificate. on_guard Ho. apply safe_fbind.
  assert (E : forall h', grows h h' -> (exists r, saw h' (EGet Cached KSecret (managed name)) r /\
      (absent r \/ exists source, r = Ok source /\ requireBYOCSourceSecret source cert inst = None)) ->
    safe (recording managed_write) h' (delete_as_read Cached KCertificate cert)
      (fun s' r => match r with Ok _ => is_ok (@Err unit (tls_not_ready "waiting for Certificate removal")) = false | Err e => is_ok (@Err unit e) = false end)).
  { intros h' Hg (r & Hr & Hb). unfold delete_as_read. on_call d.
    - eapply mw_delete_certificate; [done | by eapply gone_grows | by eapply saw_grows | done | exact Hr | done].
    - by destruct (IgnoreNotFound d). }
  destruct (negb _); [done |].
  on_call got; [by apply mw_read |]. apply safe_fbind. destruct got as [source|err].
  - destruct (requireBYOCSourceSecret source cert inst) as [e|] eqn:Es.
    + on_part certificate_safe; [intros ? ? _; apply mw_certificate |]. by intros ? [[]|e'] _.
    + apply E; [apply grows_cons |]. exists (Ok source). split; [apply saw_here | right; eauto].
  - destruct (IsNotFound err) eqn:En; [| done]. apply E; [apply grows_cons |].
    exists (Err err). split; [apply saw_here | left; by exists err].
Qed.

Lemma delete_outputs_safe (h : history) (name hostname target : string) (names : list string) :
  byocTLSIdentity inst cfg targetID = Ok (name, hostname) -> byocTLSTarget targetID = Ok target ->
  gone h Cached KDNSEntry (managed name) -> gone h Cached KCertificate (managed name) ->
  Forall (fun n => n = name \/ n = last_valid name) names ->
  safe (recording managed_write) h (delete_outputs inst cfg name target names)
    (fun h' r => grows h h' /\ (r = Ok false -> Forall (fun n => gone h' Cached KSecret (managed n)) names)).
Proof.
  intros Hi Ht Hd Hc Hn. revert h Hd Hc. induction Hn as [|n names Hn Hns IH]; intros h Hd Hc.
  { split; [done |]. constructor. }
  cbn [delete_outputs]. on_call got; [by apply mw_read |]. destruct got as [s|err].
  - apply safe_fbind. destruct (if bool_decide (n = name) then _ else _) as [e|] eqn:Eo; cbn [safe or_fail fail fret].
    { split; [apply grows_cons | done]. }
    apply safe_fbind. eapply safe_mono; [apply safe_grows, (delete_once_safe _ _ Cached KSecret) |].
    + eapply (mw_delete_output _ name hostname target n); eauto using gone_grows with go.
      case_bool_decide; naive_solver.
    + intros h1 [[]|e] [Hg _]; [| split; [by eauto with go | done]].
      apply safe_fbind. eapply safe_mono; [apply IH; (eapply gone_grows; [| eassumption]); eauto with go |].
      intros h2 [b|e] [Hg2 _]; (split; [by eauto with go | done]).
  - destruct (IsNotFound err) eqn:En; [| split; [apply grows_cons | done]].
    eapply safe_mono; [apply IH; (eapply gone_grows; [| eassumption]); eauto with go |].
    intros h1 r [Hg Hr]. split; [by eauto with go |]. intros Eb. constructor; [| auto].
    eapply gone_grows; [exact Hg |]. by apply gone_here.
Qed.

Lemma cleanup_managed_safe (h : history) :
  safe (recording managed_write) h (cleanupBYOCManagedTLS inst cfg targetID)
    (fun h' r => is_ok r = true -> managed_gone h').
Proof.
  unfold cleanupBYOCManagedTLS.
  destruct (byocTLSIdentity inst cfg targetID) as [[name hostname]|] eqn:Hi.
  2: { unfold cleanupBYOCDNS. rewrite Hi. cbn. done. }
  on_step (cleanup_dns_safe h name hostname Hi). intros h1 [[]|e] [Hg1 Hd]; [| done]. specialize (Hd eq_refl).
  apply safe_fbind. cbn [safe of_res]. on_res target Ht. on_call got; [by apply mw_read |].
  destruct got as [cert|err].
  - eapply safe_mono; [apply (delete_certificate_safe _ name hostname); [done | | apply saw_here] |].
    + eapply gone_grows; [apply grows_cons | done].
    + by intros h2 [[]|e].
  - destruct (IsNotFound err) eqn:En; cbn [negb]; [| done]. apply safe_fbind.
    eapply safe_mono; [apply (delete_outputs_safe _ name hostname target) |]; try done.
    + eapply gone_grows; [apply grows_cons | done].
    + by apply gone_here.
    + rewrite !Forall_cons. auto.
    + intros h2 [[]|e] [Hg2 Hf]; [done | | done]. intros _. specialize (Hf eq_refl).
      rewrite !Forall_cons in Hf. destruct Hf as (? & ? & _).
      exists name, hostname. split_and!; try done; (eapply gone_grows; [exact Hg2 |]).
      * eapply gone_grows; [apply grows_cons | done].
      * by apply gone_here.
Qed.

End Target.
(** ** The objects on the cluster itself *)

Section OnCluster.
  Variable inst : LLMInstance.
  Variable cfg : BYOCTLSConfig.
  Variables slug data targetID : string.

(** The credentials lead, verified, to the cluster the target was recorded for. *)
Definition leads_to (h : history) : Prop :=
  exists rest apiID kubeSystem, verifiedBYOCRESTConfig data = Ok rest /\ client_built rest /\
    byocTargetIdentity data = Ok apiID /\
    saw h (EGet (Remote data) KNamespace (key_of "" "kube-system")) (Ok kubeSystem) /\ UID (ns_Meta kubeSystem) <> "" /\
    (targetID = "" \/ targetID = sha256_hex (apiID +:+ chr 0 +:+ UID (ns_Meta kubeSystem))).

Definition object_gone (h : history) (o : kind * string) : Prop := gone h (Remote data) o.1 (key_of byocNamespace o.2).
Definition objects_gone (h : history) : Prop := Forall (object_gone h) (remote_objects slug).

Definition remote_tls_gone (h : history) : Prop :=
  exists name hostname, byocTLSIdentity inst cfg targetID = Ok (name, hostname) /\
    gone h (Remote data) KSecret (key_of byocNamespace name).

Inductive target_write (h : history) : event -> Prop :=
| xw_read e : read_only e -> target_write h e
| xw_object K name o :
    leads_to h -> (K, name) ∈ remote_objects slug ->
    saw h (EGet (Remote data) K (key_of byocNamespace name)) (Ok o) -> owned_remotely inst (meta_of K o) = true ->
    target_write h (EDelete (Remote data) K o (same_uid (meta_of K o)))
| xw_tls name hostname target s :
    leads_to h -> objects_gone h ->
    byocTLSIdentity inst cfg targetID = Ok (name, hostname) -> byocTLSTarget targetID = Ok target ->
    saw h (EGet (Remote data) KSecret (key_of byocNamespace name)) (Ok s) -> requireBYOCTargetSecret s inst target = None ->
    target_write h (EDelete (Remote data) KSecret s (as_read (sec_Meta s))).

Lemma leads_to_grows (h h' : history) : grows h h' -> leads_to h -> leads_to h'.
Proof. intros Hg (r & a & k & ? & ? & ? & ? & ?). exists r, a, k. split_and!; eauto with go; tauto. Qed.

Lemma objects_gone_grows (h h' : history) (l : list (kind * string)) :
  grows h h' -> Forall (object_gone h) l -> Forall (object_gone h') l.
Proof. intros Hg Hf. eapply Forall_impl; [exact Hf |]. intros o. by apply gone_grows. Qed.

Lemma connect_safe (P : history -> event -> Prop) (h : history) :
  (forall h e, read_only e -> P h e) ->
  safe (recording P) h (connect data) (fun h' r => forall remote actualID, r = Ok (remote, actualID) ->
    remote = Remote data /\
    (negb (bool_decide (targetID = "")) && negb (bool_decide (actualID = targetID)) = false -> leads_to h')).
Proof.
  intros HP. unfold connect. apply safe_fbind. cbn [safe of_res]. destruct (remoteClientForKubeconfig data) eqn:Em; [| done].
  apply remote_client_built in Em as (-> & rest & Ev & En). on_res apiID Ha. unfold byocClusterIdentity. apply safe_fbind. on_call got; [by apply HP |].
  destruct got as [ns|err]; [| done]. case_bool_decide; [done |]. cbn [safe fret].
  intros remote actualID [= <- <-]. split; [done |]. intros Hid.
  exists rest, apiID, ns. split_and!; try done; [apply saw_here |].
  apply andb_false_iff in Hid as [?|?]; bool_props; auto.
Qed.

Lemma cleanup_objects_safe (h : history) (l : list (kind * string)) :
  leads_to h -> l ⊆ remote_objects slug ->
  safe (recording target_write) h (cleanup_objects (Remote data) inst l) (fun h' '(errs, pending) =>
    grows h h' /\ (Forall (fun e => e = None) errs -> pending = false -> Forall (object_gone h') l)).
Proof.
  revert h. induction l as [|[K name] l IH]; intros h Hl Hs; [split; [done | constructor] |].
  cbn [cleanup_objects]. apply safe_bind. unfold cleanup_object.
  assert (S : forall h1 (err : option error) (found : bool), grows h h1 ->
    (err = None -> found = false -> object_gone h1 (K, name)) ->
    safe (recording target_write) h1
      (let! (errs, pending) := cleanup_objects (Remote data) inst l in mret (err :: errs, found || pending))
      (fun h' '(errs, pending) => grows h h' /\
         (Forall (fun e => e = None) errs -> pending = false -> Forall (object_gone h') ((K, name) :: l)))).
  { intros h1 err found Hg Hf. apply safe_bind.
    eapply safe_mono; [apply safe_grows, IH; [by eapply leads_to_grows | set_solver] |].
    intros h2 [errs pending] (Hg2 & _ & Hr). split; [by eauto with go |].
    intros [He Hes]%Forall_cons [Hf' Hp]%orb_false_iff. constructor; [| auto].
    eapply gone_grows; [exact Hg2 |]. by apply Hf. }
  on_call got; [by apply xw_read |]. destruct got as [o|err].
  - destruct (checkBYOCObjectOwner (meta_of K o) inst) as [e|] eqn:Eo; [apply S; [apply grows_cons | done] |].
    apply check_owner in Eo. on_call d.
    + apply (xw_object _ K name); [eapply leads_to_grows; [apply grows_cons | done] | apply Hs, list_elem_of_here | apply saw_here | done].
    + destruct (IgnoreNotFound d); apply S; eauto with go; done.
  - apply S; [apply grows_cons |]. unfold IgnoreNotFound. destruct (IsNotFound err) eqn:En; [| done].
    intros _ _. by apply gone_here.
Qed.

Lemma clean_target_safe (h : history) (refusal : string) :
  safe (recording target_write) h
    (let? (remote, actualID) := connect data in
     if negb (bool_decide (targetID = "")) && negb (bool_decide (actualID = targetID)) then fail (ErrText refusal)
     else
       let? _ := cleanupBYOCObjects remote inst slug in
       if bool_decide (targetID = "") then fret tt else cleanupBYOCRemoteTLS remote inst cfg targetID)
    (fun h' r => is_ok r = true -> leads_to h' /\ objects_gone h' /\ (targetID = "" \/ remote_tls_gone h')).
Proof.
  on_step (connect_safe target_write h xw_read). intros h1 [[remote actualID]|e] [_ Hc]; [| done].
  destruct (Hc _ _ eq_refl) as [-> Hl]. destruct (negb _ && negb _); [done |]. specialize (Hl eq_refl).
  unfold cleanupBYOCObjects. apply safe_fbind, safe_bind.
  eapply safe_mono; [by apply cleanup_objects_safe |]. intros h2 [errs pending] [Hg2 Ho].
  cbn [safe]. destruct (errors_Join _) as [e|] eqn:Ej; cbn [safe or_fail fret fail]; [done |].
  apply errors_Join_None in Ej. rewrite Forall_app, Forall_singleton in Ej. destruct Ej as [Ee Ep].
  assert (pending = false) as -> by by destruct pending. specialize (Ho Ee eq_refl). pose proof (leads_to_grows _ _ Hg2 Hl) as Hl2.
  case_bool_decide; [intros _; auto |].
  unfold cleanupBYOCRemoteTLS. on_res names Hi. destruct names as [name hostname]. on_res target Ht.
  on_call got; [by apply xw_read |]. set (h3 := _ :: h2). assert (Hg3 : grows h2 h3) by apply grows_cons.
  destruct got as [s|err].
  - on_guard Hs. apply safe_fbind. eapply safe_mono; [apply (delete_once_safe _ _ (Remote data) KSecret) |].
    + eapply xw_tls; [by eapply leads_to_grows | by eapply objects_gone_grows | done | done | apply saw_here | done].
    + by intros h4 [[]|e] _.
  - destruct (IsNotFound err) eqn:En; [| done]. intros _.
    split_and!; [by eapply leads_to_grows | by eapply objects_gone_grows |].
    right. exists name, hostname. split; [done |]. by apply gone_here.
Qed.

End OnCluster.

(** ** A whole cleanup *)

Section Whole.
  Variable rc : LLMInstanceReconciler.
  Variable inst : LLMInstance.
  Variables slug targetID : string.

Local Abbreviation cfg := (byocCleanupTLSConfig rc inst).

Definition managed_done (h : history) : Prop := targetID = "" \/ managed_gone inst cfg targetID h.

(** The credentials used are the protected copy. *)
Definition cached_read (h : history) (data : string) : Prop :=
  exists s, saw h (EGet Cached KSecret (credentials_key inst slug)) (Ok s) /\ controls inst (sec_Meta s) = true /\
    data = mget (sec_Data s) byocKubeconfigKey /\ data <> "".

(** The cluster of the target is verified, and nothing of the instance is left on it. *)
Definition cluster_done (h : history) : Prop :=
  exists data, cached_read h data /\ leads_to data targetID h /\ objects_gone slug data h /\
    (targetID = "" \/ remote_tls_gone inst cfg data targetID h).

Definition credentials_done (h : history) : Prop :=
  gone h Cached KSecret (credentials_key inst slug) \/
  exists s d, saw h (EDelete Cached KSecret s (same_uid (sec_Meta s))) d /\ IgnoreNotFound d = None.

Inductive credentials_removal (h : history) : event -> Prop :=
| cr_read e : read_only e -> credentials_removal h e
| cr_delete s :
    saw h (EGet Cached KSecret (credentials_key inst slug)) (Ok s) -> controls inst (sec_Meta s) = true ->
    credentials_removal h (EDelete Cached KSecret s (same_uid (sec_Meta s))).

(** The managed objects first, then the cluster, the credentials last. *)
Inductive cleanup_write (h : history) : event -> Prop :=
| cl_read e : read_only e -> cleanup_write h e
| cl_managed e : managed_write inst cfg targetID h e -> cleanup_write h e
| cl_target data e :
    managed_done h -> cached_read h data -> target_write inst cfg slug data targetID h e -> cleanup_write h e
| cl_credentials e : managed_done h -> cluster_done h -> credentials_removal h e -> cleanup_write h e.

Lemma managed_done_grows (h h' : history) : grows h h' -> managed_done h -> managed_done h'.
Proof.
  intros Hg [? | (n & host & ? & ? & ? & ? & ?)]; [by left | right]. exists n, host.
  split_and!; eauto using gone_grows.
Qed.

Lemma cached_read_grows (h h' : history) (data : string) : grows h h' -> cached_read h data -> cached_read h' data.
Proof. intros Hg (s & ? & ? & ?). exists s. eauto with go. Qed.

Lemma cluster_done_grows (h h' : history) : grows h h' -> cluster_done h -> cluster_done h'.
Proof.
  intros Hg (d & ? & ? & ? & Ht). exists d.
  split_and!; eauto using cached_read_grows, leads_to_grows, objects_gone_grows.
  - by eapply objects_gone_grows.
  - destruct Ht as [? | (n & host & ? & ?)]; [by left | right; exists n, host; eauto using gone_grows].
Qed.

Lemma credentials_done_grows (h h' : history) : grows h h' -> credentials_done h -> credentials_done h'.
Proof. intros Hg [? | (s & d & ? & ?)]; [left; by eapply gone_grows | right; exists s, d; eauto with go]. Qed.

Lemma managed_tls_safe (h : history) :
  safe (recording (managed_write inst cfg targetID)) h (cleanup_managed_tls rc inst targetID)
    (fun h' r => is_ok r = true -> managed_done h').
Proof.
  unfold cleanup_managed_tls. case_bool_decide; [by left |].
  eapply safe_mono; [apply cleanup_managed_safe |]. intros h' r Hr ?. right. auto.
Qed.

Lemma cached_safe (P : history -> event -> Prop) (h : history) :
  (forall h e, read_only e -> P h e) ->
  safe (recording P) h (cachedBYOCKubeconfig inst slug)
    (fun h' r => forall data, r = Ok (Some data) -> cached_read h' data).
Proof.
  intros HP. unfold cachedBYOCKubeconfig. case_bool_decide; [done |]. on_call got; [by apply HP |].
  destruct got as [s|err]; [| by destruct (IsNotFound err)].
  destruct (controls inst (sec_Meta s)) eqn:Ec; cbn [negb]; [| done].
  case_bool_decide; [done |]. intros d [= <-]. exists s. split_and!; try done. apply saw_here.
Qed.

Lemma delete_credentials_safe (h : history) :
  safe (recording credentials_removal) h (deleteCachedBYOCCredentials inst slug)
    (fun h' r => is_ok r = true -> credentials_done h').
Proof.
  unfold deleteCachedBYOCCredentials. on_call got; [by apply cr_read |].
  destruct got as [s|err].
  - destruct (controls inst (sec_Meta s)) eqn:Eo; cbn [negb]; [| done].
    on_call d; [by apply cr_delete; [apply saw_here |] |].
    destruct (IgnoreNotFound d) eqn:Ed; [done |]. intros _. right. exists s, d. split; [apply saw_here | done].
  - unfold IgnoreNotFound. destruct (IsNotFound err) eqn:En; [| done]. intros _. left. by apply gone_here.
Qed.

End Whole.

(** ** Finalization *)

Section Final.
  Variable rc : LLMInstanceReconciler.
  Variable inst : LLMInstance.

(** The slug an instance was served under: recorded, or that of the reviewed policy for
    instances of before it was recorded. *)
Definition served_slug (slug : string) : Prop :=
  slug = ActiveBYOCSlug (Status inst) \/
  ActiveBYOCSlug (Status inst) = "" /\ exists sel, Select (rec_SlugPolicy rc) (inst_Meta inst) = Ok sel /\ slug = sel_Slug sel.

Local Abbreviation target := (ActiveBYOCTargetID (Status inst)).

Definition cleaned (h : history) : Prop :=
  managed_done rc inst target h /\
  (ActiveBYOCKubeconfigSecretName (Status inst) = "" \/
   exists slug, served_slug slug /\ cluster_done rc inst slug target h /\ credentials_done inst slug h).

Definition final_write (h : history) (e : event) : Prop := exists slug, served_slug slug /\ cleanup_write rc inst slug target h e.

Lemma cleanup_safe (h : history) :
  safe (recording final_write) h (cleanupBYOC rc inst) (fun h' r => is_ok r = true -> cleaned h').
Proof.
  unfold cleanupBYOC. cbv zeta. apply safe_fbind.
  assert (K : forall slug h, served_slug slug -> safe (recording final_write) h
    (let? _ := cleanup_managed_tls rc inst target in
     if bool_decide (ActiveBYOCKubeconfigSecretName (Status inst) = "") then fret tt
     else
       let? data := cachedBYOCKubeconfig inst slug in
       match data with
       | None => fail (ErrText "cannot clean BYOC without protected cached credentials")
       | Some data =>
           let? _ := clean_target rc inst slug data target "refusing cleanup on replacement BYOC cluster" in
           deleteCachedBYOCCredentials inst slug
       end) (fun h' r => is_ok r = true -> cleaned h')).
  { intros slug h1 Hs.
    on_part (managed_tls_safe rc inst); [intros h' e _ He; exists slug; split; [done | by apply cl_managed] |].
    intros h2 [[]|e] [Hg2 Hm]; [| done]. specialize (Hm eq_refl).
    case_bool_decide; [intros _; split; auto |].
    on_step (cached_safe inst slug final_write); [intros ? ? ?; exists slug; split; [done | by apply cl_read] |].
    intros h3 [[data|]|e] [Hg3 Hd]; [| done ..]. specialize (Hd data eq_refl).
    pose proof (managed_done_grows _ _ _ _ _ Hg3 Hm) as Hm3. unfold clean_target.
    on_part (clean_target_safe inst (byocCleanupTLSConfig rc inst) slug data target).
    { intros h' e Hg He. exists slug. split; [done |].
      eapply cl_target; [by eapply managed_done_grows | by eapply cached_read_grows | exact He]. }
    intros h4 [[]|e] [Hg4 Hc]; [| done]. specialize (Hc eq_refl).
    pose proof (managed_done_grows _ _ _ _ _ Hg4 Hm3) as Hm4.
    assert (Hc4 : cluster_done rc inst slug target h4).
    { exists data. split; [by eapply cached_read_grows | exact Hc]. }
    eapply safe_mono; [eapply safe_within; [apply delete_credentials_safe |] | cbv beta].
    { intros h' e Hg He. exists slug. split; [done |].
      apply cl_credentials; [by eapply managed_done_grows | by eapply cluster_done_grows | exact He]. }
    intros h5 r [Hg5 Hr] Hok. split; [by eapply managed_done_grows |]. right. exists slug.
    split_and!; [done | by eapply cluster_done_grows | auto]. }
  destruct (bool_decide (ActiveBYOCSlug (Status inst) = "") && _) eqn:Es; [| apply K; by left].
  bool_props. destruct (Select _ _) as [sel|err] eqn:El; [| done]. apply K. right. eauto.
Qed.

(** C20: whatever the caches and clusters answer, the cleanup of a bring-your-own instance
    deletes only objects it has just read and found to be its own, conditioned on their
    UID: DNS first, then the Certificate once its output is bound to it, then the
    Secrets left, then, on the cluster verified to be the one recorded, the remote
    objects and last their TLS Secret, and the credentials after all of that; when it
    succeeds, each of them has been seen absent. *)
Theorem cleanupBYOC_complete :
  safe (recording final_write) [] (cleanupBYOC rc inst) (fun h r => is_ok r = true -> cleaned h).
Proof. apply cleanup_safe. Qed.

Lemma cleaned_grows (h h' : history) : grows h h' -> cleaned h -> cleaned h'.
Proof.
  intros Hg [? Hc]. split; [by eapply managed_done_grows |].
  destruct Hc as [? | (slug & ? & ? & Hd)]; [by left | right]. exists slug.
  split_and!; [done | by eapply cluster_done_grows | by eapply credentials_done_grows].
Qed.

Variable req : ObjectKey.

(** Writes of a finalization: the cleanup, and the instance without its finalizer. *)
Inductive release_write (h : history) : event -> Prop :=
| rl_cleanup e : final_write h e -> release_write h e
| rl_release i :
    byoc_bound inst = false \/ cleaned h ->
    i = inst \/ saw h (EGet (routeReader rc) KInstance req) (Ok i) ->
    release_write h (EUpdate Cached KInstance
      (i <| inst_Meta -> Finalizers ::= fun fs => RemoveFinalizer fs finalizerName |>)).

Lemma rl_read (h : history) (e : event) : read_only e -> release_write h e.
Proof. intros He. apply rl_cleanup. exists (ActiveBYOCSlug (Status inst)). split; [by left | by apply cl_read]. Qed.

Lemma release_safe (tries : nat) (h : history) (i : LLMInstance) :
  byoc_bound inst = false \/ cleaned h -> i = inst \/ saw h (EGet (routeReader rc) KInstance req) (Ok i) ->
  safe (recording release_write) h (releaseInstance rc tries req i) (fun _ _ => True).
Proof.
  revert h i. induction tries as [|tries IH]; intros h i Hc Hi; [done |]. cbn [releaseInstance].
  on_call stored; [by apply rl_release |]. destruct stored as [o|err]; [done |].
  destruct (IsNotFound err); [done |]. destruct (IsConflict err); [| done].
  unfold getInstance. apply safe_bind. on_call got; [by apply rl_read |].
  destruct got as [fresh|err']; [| by destruct (IsNotFound err')].
  cbn [safe fret]. apply IH; [| right; apply saw_here].
  destruct Hc as [? | ?]; [by left | right]. eapply cleaned_grows; [| done]. eauto with go.
Qed.

Lemma finalizeInstance_safe (h : history) :
  safe (recording release_write) h (finalizeLLMInstance rc inst req) (fun _ _ => True).
Proof.
  unfold finalizeLLMInstance. destruct (ContainsFinalizer _ _); [| done].
  destruct (byoc_bound inst) eqn:Eb; [| apply release_safe; auto].
  apply safe_bind. eapply safe_mono; [eapply safe_within; [apply cleanup_safe |] |].
  - intros ? ? _. apply rl_cleanup.
  - cbv beta. intros h1 [[]|e] [_ Hc]; [| done]. apply release_safe; auto.
Qed.

(** C7: an instance is released, that is written without its finalizer, only when no
    bring-your-own target is configured or recorded, or after the cleanup of the target
    has succeeded with everything seen absent. *)
Theorem released_after_cleanup :
  safe (recording release_write) [] (finalizeLLMInstance rc inst req) (fun _ _ => True).
Proof. apply finalizeInstance_safe. Qed.

End Final.

(** ** A changed target *)

Section Change.
  Variable rc : LLMInstanceReconciler.
  Variable inst0 : LLMInstance.
  Variable slug : string.

Local Abbreviation old_slug := (safeBYOCSlug inst0 slug).
Local Abbreviation previous := (ActiveBYOCKubeconfigSecretName (Status inst0)).
Local Abbreviation oldID := (ActiveBYOCTargetID (Status inst0)).

(** *** What was seen of the target now configured *)

(** Its credentials are missing for now. *)
Definition source_lacking (h : history) : Prop :=
  exists got, saw h (EGet Cached KSecret (key_of (Namespace (inst_Meta inst0)) (kubeconfig_secret inst0))) got /\
    match got with Ok s => mget (sec_Data s) byocKubeconfigKey = "" | Err err => IsNotFound err = true end.

(** The credentials lead, verified, to the cluster of this identity. *)
Definition cluster_seen (h : history) (data id : string) : Prop :=
  exists rest apiID kubeSystem, verifiedBYOCRESTConfig data = Ok rest /\ client_built rest /\
    byocTargetIdentity data = Ok apiID /\
    saw h (EGet (Remote data) KNamespace (key_of "" "kube-system")) (Ok kubeSystem) /\ UID (ns_Meta kubeSystem) <> "" /\
    id = sha256_hex (apiID +:+ chr 0 +:+ UID (ns_Meta kubeSystem)).

(** It is the previous one: the same Secret is named, and it is missing for now or leads
    to the API of the protected copy [old] and to the cluster recorded. *)
Definition target_same (h : history) (old : string) : Prop :=
  IsBYOC inst0 = true /\ previous = kubeconfig_secret inst0 /\
  (source_lacking h \/
   exists data apiID id, source_read inst0 h data /\ byocTargetIdentity old = Ok apiID /\
     byocTargetIdentity data = Ok apiID /\ cluster_seen h data id /\ (oldID = "" \/ oldID = id)).

(** It is another one, or none: hosted now, another Secret, another API, another cluster. *)
Definition target_moved (h : history) (old : string) : Prop :=
  IsBYOC inst0 = false \/
  previous <> kubeconfig_secret inst0 /\ source_lacking h \/
  exists data oldAPI newAPI, source_read inst0 h data /\ byocTargetIdentity old = Ok oldAPI /\
    byocTargetIdentity data = Ok newAPI /\
    (previous <> kubeconfig_secret inst0 \/ oldAPI <> newAPI \/
     exists id, cluster_seen h data id /\ oldID <> "" /\ oldID <> id).

(** *** The steps of leaving, in order *)

(** The instance as it was, but without an endpoint: still bound to the previous target. *)
Definition withdrawing (now : Z) : LLMInstance :=
  with_status inst0 now ConditionFalse "Provisioning" "" byocReasonTargetChanging "Removing the previous BYOC endpoint".

(** The API server took that and answered with [i]. *)
Definition withdrawn (h : history) (i : LLMInstance) : Prop :=
  exists now, saw h (EUpdateStatus Cached KInstance (withdrawing now)) (Ok i).

(** The previous target is clean: its managed objects, and then its cluster, reached with
    the protected copy of its credentials. *)
Definition left_behind (h : history) (i : LLMInstance) : Prop :=
  managed_done rc i oldID h /\ exists data, cached_read inst0 old_slug h data /\ leads_to data oldID h /\
    objects_gone old_slug data h /\ (oldID = "" \/ remote_tls_gone i (byocCleanupTLSConfig rc i) data oldID h).

(** The instance [i] bound to no target: its Secret, identity, domain and namespace. *)
Definition forgetting (i : LLMInstance) (now : Z) : LLMInstance :=
  with_status (forget_target i) now ConditionFalse "Provisioning" "" byocReasonTargetChanging "Previous BYOC target removed".

Definition forgotten (h : history) (i i' : LLMInstance) : Prop :=
  exists now, saw h (EUpdateStatus Cached KInstance (forgetting i now)) (Ok i').

Inductive change_write (h : history) : event -> Prop :=
| cg_read e : read_only e -> change_write h e
| cg_withdraw old now :
    previous <> "" -> cached_read inst0 old_slug h old -> target_moved h old ->
    change_write h (EUpdateStatus Cached KInstance (withdrawing now))
| cg_managed i e :
    withdrawn h i -> managed_write i (byocCleanupTLSConfig rc i) oldID h e -> change_write h e
| cg_target i data e :
    withdrawn h i -> managed_done rc i oldID h -> cached_read inst0 old_slug h data ->
    target_write i (byocCleanupTLSConfig rc i) old_slug data oldID h e -> change_write h e
| cg_forget i now :
    withdrawn h i -> left_behind h i -> change_write h (EUpdateStatus Cached KInstance (forgetting i now))
| cg_credentials i i' e :
    withdrawn h i -> left_behind h i -> forgotten h i i' -> credentials_removal i' old_slug h e -> change_write h e.

(** *** What a reconcile that goes on has seen *)

(** Nothing to leave: no target is recorded, or it is the one configured. *)
Definition stayed (h : history) (i : LLMInstance) : Prop :=
  i = inst0 /\ (previous = "" \/ exists old, cached_read inst0 old_slug h old /\ target_same h old).

(** The previous target was left: every step was done, and [i] is the instance without it. *)
Definition moved_on (h : history) (i : LLMInstance) : Prop :=
  exists i0, withdrawn h i0 /\ left_behind h i0 /\ forgotten h i0 i /\ credentials_done i old_slug h.

Lemma source_lacking_grows (h h' : history) : grows h h' -> source_lacking h -> source_lacking h'.
Proof. intros Hg (got & ? & ?). exists got. split; eauto with go. Qed.

Lemma source_read_grows (h h' : history) (data : string) : grows h h' -> source_read inst0 h data -> source_read inst0 h' data.
Proof. intros Hg (s & ? & ?). exists s. split; eauto with go. Qed.

Lemma cluster_seen_grows (h h' : history) (data id : string) : grows h h' -> cluster_seen h data id -> cluster_seen h' data id.
Proof. intros Hg (r & a & k & ? & ? & ? & ? & ?). exists r, a, k. split_and!; eauto with go; tauto. Qed.

Lemma target_same_grows (h h' : history) (old : string) : grows h h' -> target_same h old -> target_same h' old.
Proof.
  intros Hg (? & ? & Hs). do 2 (split; [done |]). destruct Hs as [? | (d & a & i & ? & ? & ? & ? & ?)].
  - left. by eapply source_lacking_grows.
  - right. exists d, a, i. eauto 7 using source_read_grows, cluster_seen_grows.
Qed.

Lemma target_moved_grows (h h' : history) (old : string) : grows h h' -> target_moved h old -> target_moved h' old.
Proof.
  intros Hg [? | [[? ?] | (d & a & a' & ? & ? & ? & Hs)]]; [by left | right; left | right; right].
  - split; [done |]. by eapply source_lacking_grows.
  - exists d, a, a'. split_and!; try done; [by eapply source_read_grows |].
    destruct Hs as [? | [? | (id & ? & ?)]]; [by left | by right; left | right; right].
    exists id. split; [by eapply cluster_seen_grows | done].
Qed.

Lemma withdrawn_grows (h h' : history) (i : LLMInstance) : grows h h' -> withdrawn h i -> withdrawn h' i.
Proof. intros Hg [now ?]. exists now. eauto with go. Qed.

Lemma forgotten_grows (h h' : history) (i i' : LLMInstance) : grows h h' -> forgotten h i i' -> forgotten h' i i'.
Proof. intros Hg [now ?]. exists now. eauto with go. Qed.

Lemma left_behind_grows (h h' : history) (i : LLMInstance) : grows h h' -> left_behind h i -> left_behind h' i.
Proof.
  intros Hg (Hm & d & ? & ? & ? & Ht). split; [by eapply managed_done_grows |]. exists d.
  split_and!; [by eapply cached_read_grows | by eapply leads_to_grows | by eapply objects_gone_grows |].
  destruct Ht as [? | (n & host & ? & ?)]; [by left | right; exists n, host; eauto using gone_grows].
Qed.

Lemma stayed_grows (h h' : history) (i : LLMInstance) : grows h h' -> stayed h i -> stayed h' i.
Proof.
  intros Hg (-> & [? | (old & ? & ?)]); (split; [done |]); [by left | right]. exists old.
  split; [by eapply cached_read_grows | by eapply target_same_grows].
Qed.

Lemma moved_on_grows (h h' : history) (i : LLMInstance) : grows h h' -> moved_on h i -> moved_on h' i.
Proof.
  intros Hg (i0 & ? & ? & ? & ?). exists i0.
  split_and!; [by eapply withdrawn_grows | by eapply left_behind_grows | by eapply forgotten_grows |].
  by eapply credentials_done_grows.
Qed.

(** The cluster of the same API is compared with the one recorded. *)
Lemma same_cluster_safe (h : history) (old data apiID : string) :
  IsBYOC inst0 = true -> previous = kubeconfig_secret inst0 -> source_read inst0 h data ->
  byocTargetIdentity old = Ok apiID -> byocTargetIdentity data = Ok apiID ->
  safe (recording (fun _ => read_only)) h
    (let? remote := of_res (remoteClientForKubeconfig data) in
     let? currentID := byocClusterIdentity remote apiID in
     fret (bool_decide (oldID = "") || bool_decide (currentID = oldID)))
    (fun h' r => (r = Ok true -> target_same h' old) /\ (r = Ok false -> target_moved h' old)).
Proof.
  intros Hb Hp Hs Ho Hd. apply safe_fbind. cbn [safe of_res].
  destruct (remoteClientForKubeconfig data) as [remote|] eqn:Em; [| done].
  apply remote_client_built in Em as (-> & rest & Hv & Hc). unfold byocClusterIdentity. apply safe_fbind.
  on_call got; [done |]. destruct got as [ns|err]; [| done]. case_bool_decide; [done |]. cbn [safe fret].
  set (id := sha256_hex _). match goal with |- context [target_same ?h' _] => set (h2 := h') end.
  assert (Hg : grows h h2) by apply grows_cons.
  assert (Hid : cluster_seen h2 data id) by (exists rest, apiID, ns; split_and!; try done; apply saw_here).
  pose proof (source_read_grows _ _ _ Hg Hs) as Hs2. split; intros [= E].
  - split_and!; try done. right. exists data, apiID, id. split_and!; try done.
    apply orb_true_iff in E as [E | E]; bool_props; auto.
  - right; right. exists data, apiID, apiID. split_and!; try done. right; right. exists id.
    bool_props. split_and!; try done.
Qed.

(** The comparison only reads, and answers by what it read. *)
Lemma same_target_safe (h : history) (old : string) :
  safe (recording (fun _ => read_only)) h (same_target inst0 old) (fun h' r =>
    (r = Ok true -> target_same h' old) /\ (r = Ok false -> target_moved h' old)).
Proof.
  unfold same_target. destruct (IsBYOC inst0) eqn:Eb; cbn [negb]; [| split; [done | by left]].
  cbv zeta. unfold byocKubeconfig. cbv zeta. apply safe_fbind.
  assert (L : forall h, source_lacking h ->
    (Ok (bool_decide (previous = kubeconfig_secret inst0)) = Ok true -> target_same h old) /\
    (Ok (bool_decide (previous = kubeconfig_secret inst0)) = Ok false -> target_moved h old)).
  { intros h' Hl. split; intros [= E]; bool_props; [by split_and!; [| | left] | right; left; by split]. }
  on_call got; [done |]. destruct got as [s|err].
  2: { destruct (IsNotFound err) eqn:En; [| done]. apply L. exists (Err err). split; [apply saw_here | done]. }
  destruct (bool_decide (mget _ _ = "")) eqn:Ed; bool_props; cbn [negb safe fret].
  { apply L. exists (Ok s). split; [apply saw_here | done]. }
  on_res oldAPI Ho. on_res newAPI Hn.
  match goal with |- safe _ ?h' _ _ => set (h1 := h') end.
  assert (Hs : source_read inst0 h1 (mget (sec_Data s) byocKubeconfigKey)) by (exists s; split_and!; [apply saw_here | done ..]).
  destruct (_ && _) eqn:Esame; [bool_props; subst newAPI; by apply same_cluster_safe |].
  cbn [safe fret]. split; [done |]. intros _. right; right. exists (mget (sec_Data s) byocKubeconfigKey), oldAPI, newAPI.
  split_and!; try done. apply andb_false_iff in Esame as [E | E]; bool_props; auto.
Qed.

(** A status update: accepted, the instance is the answer; refused, what was sent. *)
Lemma status_safe (P : history -> event -> Prop) (h : history) (i : LLMInstance) (reason message : string) :
  (forall h e, read_only e -> P h e) ->
  (forall h' now, grows h h' ->
     P h' (EUpdateStatus Cached KInstance (with_status i now ConditionFalse "Provisioning" "" reason message))) ->
  safe (recording P) h (provisioning "" reason message i) (fun h' '(i', r) => grows h h' /\ exists now,
    if is_ok r then saw h' (EUpdateStatus Cached KInstance (with_status i now ConditionFalse "Provisioning" "" reason message)) (Ok i')
    else i' = with_status i now ConditionFalse "Provisioning" "" reason message).
Proof.
  intros HR HP. unfold provisioning, store_status. on_call now; [by apply HR |].
  on_call stored; [apply HP, grows_cons |].
  destruct stored as [o|]; (split; [by eauto with go |]); exists now; [apply saw_here | done].
Qed.

Lemma withdrawn_current (h : history) (i : LLMInstance) : withdrawn h i -> current inst0 h i.
Proof. intros [now Hs]. exists i. split; [right; by eexists | done]. Qed.

Lemma forgotten_current (h : history) (i i' : LLMInstance) : forgotten h i i' -> current inst0 h i'.
Proof. intros [now Hs]. exists i'. split; [right; by eexists | done]. Qed.

Lemma moved_on_current (h : history) (i : LLMInstance) : moved_on h i -> current inst0 h i.
Proof. intros (i0 & _ & _ & Hf & _). by eapply forgotten_current. Qed.

(** From the accepted withdrawal: the managed objects, the cluster, the status, the credentials. *)
Lemma leave_safe (h : history) (i : LLMInstance) (old : string) :
  withdrawn h i -> cached_read inst0 old_slug h old ->
  safe (recording change_write) h
    ((let* _ := lift (cleanup_managed_tls rc i oldID) in
      let* _ := lift (clean_target rc i old_slug old oldID
        "previous BYOC cluster identity changed; refusing cleanup on replacement cluster") in
      let* _ := smodify forget_target in
      let* _ := provisioning "" byocReasonTargetChanging "Previous BYOC target removed" in
      let* inst := sget in
      lift (deleteCachedBYOCCredentials inst old_slug)) i)
    (fun h' '(i', r) => current inst0 h' i' /\ (is_ok r = true -> moved_on h' i')).
Proof.
  intros Hw Hd. apply safe_sbind, safe_lift.
  eapply safe_mono; [eapply safe_within; [apply (managed_tls_safe rc i) |] | cbv beta].
  { intros h' e Hg He. eapply cg_managed; [by eapply withdrawn_grows | exact He]. }
  intros h1 x [Hg1 Hm]. pose proof (withdrawn_grows _ _ _ Hg1 Hw) as Hw1.
  pose proof (cached_read_grows _ _ _ _ _ Hg1 Hd) as Hd1.
  destruct x as [[]|e]; [| split; [by apply withdrawn_current | done]]. specialize (Hm eq_refl).
  apply safe_sbind, safe_lift. unfold clean_target.
  eapply safe_mono; [eapply safe_within; [apply (clean_target_safe i (byocCleanupTLSConfig rc i) old_slug old oldID) |] | cbv beta].
  { intros h' e Hg He. eapply cg_target; [by eapply withdrawn_grows | by eapply managed_done_grows | | exact He].
    by eapply cached_read_grows. }
  intros h2 x [Hg2 Hc]. pose proof (withdrawn_grows _ _ _ Hg2 Hw1) as Hw2.
  destruct x as [[]|e]; [| split; [by apply withdrawn_current | done]]. specialize (Hc eq_refl).
  assert (Hl : left_behind h2 i).
  { split; [by eapply managed_done_grows |]. exists old. split; [by eapply cached_read_grows | exact Hc]. }
  apply safe_smodify, safe_sbind. eapply safe_mono; [apply (status_safe change_write) |].
  { apply cg_read. }
  { intros h' now Hg. apply cg_forget; [by eapply withdrawn_grows | by eapply left_behind_grows]. }
  intros h3 [i' [[]|e]] [Hg3 [now Hf]]; cbn [is_ok] in Hf.
  2: { split; [| done]. subst i'. apply with_status_current. apply withdrawn_current in Hw2.
       destruct (current_grows _ _ _ _ Hg3 Hw2) as (i0 & ? & ? & ?). by exists i0. }
  assert (Hf3 : forgotten h3 i i') by by exists now.
  apply safe_sbind. cbn [safe sget mret io_ret]. apply safe_lift.
  eapply safe_mono; [eapply safe_within; [apply delete_credentials_safe |] | cbv beta].
  { intros h' e Hg He. eapply cg_credentials; [| | by eapply forgotten_grows | exact He].
    - eapply withdrawn_grows; [| exact Hw2]. eauto with go.
    - eapply left_behind_grows; [| exact Hl]. eauto with go. }
  intros h4 r [Hg4 Hr]. pose proof (forgotten_grows _ _ _ _ Hg4 Hf3) as Hf4.
  split; [by eapply forgotten_current |]. intros Hok. exists i. split_and!; [| | done | auto].
  - eapply withdrawn_grows; [| exact Hw2]. eauto with go.
  - eapply left_behind_grows; [| exact Hl]. eauto with go.
Qed.

Lemma change_safe (h0 : history) :
  safe (recording change_write) h0 (cleanupChangedBYOCTarget rc slug inst0) (fun h '(i, r) =>
    current inst0 h i /\ (is_ok r = true -> stayed h i /\ (unwritten h0 -> unwritten h) \/ moved_on h i)).
Proof.
  unfold cleanupChangedBYOCTarget. apply safe_sbind. cbn [safe sget mret io_ret].
  pose proof (fun h => current_initial inst0 h) as C0.
  case_bool_decide as Ep; [split; [apply C0 | intros _; left; split; [split; auto | done]] |]. cbv zeta.
  apply safe_sbind, safe_lift.
  eapply safe_mono; [eapply safe_within; [apply safe_unwritten, (cached_safe inst0 old_slug (fun _ => read_only)); done |] | cbv beta].
  { intros ? ? _. apply cg_read. }
  intros h1 [[old|]|e] (Hg1 & Hu1 & Hd); [| by split ..]. specialize (Hd old eq_refl).
  apply safe_sbind, safe_lift.
  eapply safe_mono; [eapply safe_within; [apply safe_unwritten, same_target_safe |] | cbv beta].
  { intros ? ? _. apply cg_read. }
  intros h2 [[]|e] (Hg2 & Hu2 & Ht & Hf); [| | by split].
  { split; [apply C0 |]. intros _. left. split; [| auto]. split; [done |]. right. exists old.
    split; [by eapply cached_read_grows | auto]. }
  apply safe_sbind. eapply safe_mono; [apply (status_safe change_write) |].
  { apply cg_read. }
  { intros h' now Hg. apply (cg_withdraw _ old); [done | eapply cached_read_grows; [| exact Hd]; eauto with go |].
    eapply target_moved_grows; [exact Hg | auto]. }
  intros h3 [i [[]|e]] [Hg3 [now Hw]]; cbn [is_ok] in Hw.
  2: { split; [| done]. subst i. apply with_status_current, C0. }
  apply safe_sbind. cbn [safe sget mret io_ret].
  eapply safe_mono; [apply (leave_safe h3 i old); [by exists now | eapply cached_read_grows; [| exact Hd]; eauto with go] |].
  intros h4 [i' r] [Hc Hr]. split; [done |]. right. auto.
Qed.

(** C21: an instance whose target changed leaves the previous one in order.  The first write
    withdraws the endpoint, with the binding to the previous target intact, and is made
    only when that target was compared with what is configured and found to be another:
    the instance is hosted now, or names another Secret, or its credentials lead to
    another API or another cluster.  Only once that write was accepted is anything
    removed, with the protected copy of the old credentials and on the cluster verified
    to be the one recorded; only once all of it is gone is the target forgotten, all four
    fields at once, and only once that was accepted are the credentials deleted.  A
    reconcile that goes on has either written nothing, because no target is recorded or
    because it was seen to be the configured one, or has done every one of these steps. *)
Theorem target_change_safe :
  safe (recording change_write) [] (cleanupChangedBYOCTarget rc slug inst0) (fun h '(i, r) =>
    current inst0 h i /\ (is_ok r = true -> stayed h i /\ unwritten h \/ moved_on h i)).
Proof.
  eapply safe_mono; [apply change_safe |]. intros h [i r] [Hc Hr]. split; [done |]. intros Hok.
  destruct (Hr Hok) as [[? Hu] | ?]; [left; split; [done | by apply Hu, List.Forall_nil] | by right].
Qed.

End Change.

End Cleanup.
