(* ===== verification/InstanceSafety.v ===== *)
(** * The whole reconcile of an instance: evidence behind every write

    [reconcile_write] composes the disciplines of the parts: the release of a deleted
    instance, the checks in front of any workload, a changed target, and the hosted or
    bring-your-own part that serves. *)

From Stdlib Require Import Ascii.
From S2P Require Import Prelude GoStd GoNet GoIP GoError Sha256 Kube KubeRef Api Io Names SlugPolicy Model TokenRequest SlugRoute Workload WorkloadFacts Routing RoutingSafety HostedSafety SlugRouteFacts ByocTransport ByocTLS Byoc Instance ByocNetFacts ByocFacts ByocWrites ByocSafety ByocCleanup.

Section Whole.
  Context `{KubeLaws} `{X509Lib} `{ClientLib}.
  Variable rc : LLMInstanceReconciler.
  Variable req : ObjectKey.

(** The instance as the API server's reader returned it. *)
Definition fetched (h : history) (inst : LLMInstance) : Prop :=
  saw h (EGet (routeReader rc) KInstance req) (Ok inst).

Definition live (h : history) (inst : LLMInstance) : Prop :=
  fetched h inst /\ time_IsZero (DeletionTimestamp (inst_Meta inst)) = true.

(** Metadata and spec of the instance fetched, or of an answer to a write of its status. *)
Definition known (h : history) (i : LLMInstance) : Prop :=
  exists i0, (fetched h i0 \/ (exists o, saw h (EUpdateStatus Cached KInstance o) (Ok i0)) \/
              (exists b o, saw h (EPatchStatus Cached KInstance b o) (Ok i0))) /\
    inst_Meta i = inst_Meta i0 /\ Spec i = Spec i0.

(** What holds before anything is served: the finalizer is there, the provider's ceilings
    are respected, the slug is the policy's and recorded, and a hosted route is free. *)
Record admitted_to_serve (h : history) (inst : LLMInstance) (slug : string) : Prop := {
  ad_live : live h inst;
  ad_finalizer : ContainsFinalizer (Finalizers (inst_Meta inst)) finalizerName = true;
  ad_ceilings : check (rec_Ceilings rc) inst = None;
  ad_slug : selectSlug rc inst = Ok {| sel_Slug := slug; sel_Source := SlugSource (Status inst) |};
  ad_recorded : Slug (Status inst) = slug;
  ad_route : IsBYOC inst = false -> route_free rc h inst slug;
}.

(** The instance to serve: the one admitted, when it has no previous target to leave, or its
    update once that target was left. *)
Definition to_serve (h : history) (inst : LLMInstance) (slug : string) (i : LLMInstance) : Prop :=
  current inst h i /\ (stayed inst slug h i \/ moved_on rc inst slug h i).

Inductive reconcile_write (h : history) : event -> Prop :=
| rw_read e : read_only e -> reconcile_write h e
| rw_release inst e :
    fetched h inst -> time_IsZero (DeletionTimestamp (inst_Meta inst)) = false ->
    release_write rc inst req h e -> reconcile_write h e
| rw_withdraw i e : known h i -> withdrawal rc i h e -> reconcile_write h e
| rw_unserved i now phase reason message :
    known h i -> phase <> "Ready" ->
    reconcile_write h (EUpdateStatus Cached KInstance (with_status i now ConditionFalse phase "" reason message))
| rw_upgrade inst sel e :
    live h inst -> IsBYOC inst = false -> selectSlug rc inst = Ok sel ->
    auth_write rc inst (sel_Slug sel) false h e -> reconcile_write h e
| rw_finalizer inst :
    live h inst -> ContainsFinalizer (Finalizers (inst_Meta inst)) finalizerName = false ->
    reconcile_write h (EUpdate Cached KInstance
      (inst <| inst_Meta -> Finalizers ::= fun fs => AddFinalizer fs finalizerName |>))
| rw_slug inst e : live h inst -> slug_patch rc inst h e -> reconcile_write h e
| rw_change inst slug e :
    admitted_to_serve h inst slug -> change_write rc inst slug h e -> reconcile_write h e
| rw_hosted inst slug i e :
    admitted_to_serve h inst slug -> to_serve h inst slug i -> IsBYOC i = false ->
    hosted_write rc i slug (modelForInstance inst) h e -> reconcile_write h e
| rw_byoc inst slug i e :
    admitted_to_serve h inst slug -> to_serve h inst slug i -> IsBYOC i = true ->
    byoc_write rc i slug h e -> reconcile_write h e.

Lemma live_grows (h h' : history) (inst : LLMInstance) : grows h h' -> live h inst -> live h' inst.
Proof. intros Hg [? ?]. split; [by eapply saw_grows | done]. Qed.

Lemma known_grows (h h' : history) (i : LLMInstance) : grows h h' -> known h i -> known h' i.
Proof.
  intros Hg (i0 & Hs & ?). exists i0. split; [| done].
  destruct Hs as [? | [[o ?] | (b & o & ?)]]; [left; by eapply saw_grows | right; left; exists o | right; right; exists b, o];
    eauto with go.
Qed.

Lemma admitted_grows (h h' : history) (inst : LLMInstance) (slug : string) :
  grows h h' -> admitted_to_serve h inst slug -> admitted_to_serve h' inst slug.
Proof. intros Hg []. split; eauto using live_grows, route_free_grows. Qed.

Lemma to_serve_grows (h h' : history) (inst : LLMInstance) (slug : string) (i : LLMInstance) :
  grows h h' -> to_serve h inst slug i -> to_serve h' inst slug i.
Proof.
  intros Hg [? [? | ?]]; (split; [by eapply current_grows |]); [left | right].
  - by eapply stayed_grows.
  - by eapply moved_on_grows.
Qed.

Lemma known_live (h : history) (inst : LLMInstance) : live h inst -> known h inst.
Proof. intros [? _]. exists inst. auto. Qed.

Lemma known_current (h : history) (inst i : LLMInstance) : live h inst -> current inst h i -> known h i.
Proof.
  intros [Hf _] (i0 & [-> | [o ?]] & ?); [exists inst | exists i0]; (split; [| done]); [by left | right; left; by exists o].
Qed.

Local Abbreviation R := (recording reconcile_write).

Lemma target_safe (h : history) (inst : LLMInstance) (slug : string) :
  admitted_to_serve h inst slug -> safe R h (reconcileTarget rc inst slug) (fun _ _ => True).
Proof.
  intros Ha. unfold reconcileTarget. cbv zeta. apply safe_bind.
  eapply safe_mono; [eapply safe_within; [apply change_safe |] | cbv beta].
  { intros h' e Hg He. eapply rw_change; [by eapply admitted_grows | exact He]. }
  intros h1 [i [[]|err]] (Hg1 & Hc & Hs); pose proof (admitted_grows _ _ _ _ Hg1 Ha) as Ha1.
  - assert (Ht : to_serve h1 inst slug i) by (split; [done |]; destruct (Hs eq_refl) as [[? _] | ?]; auto).
    destruct (IsBYOC i) eqn:Eb.
    + apply safe_bind. eapply safe_mono; [eapply safe_within; [apply byoc_safe, modelForInstance_no_host |] |].
      * intros h' e Hg He. eapply rw_byoc; [by eapply admitted_grows | by eapply to_serve_grows | done | exact He].
      * by intros h2 [? ?] _.
    + eapply safe_mono; [eapply safe_within; [apply hosted_safe |] | done].
      intros h' e Hg He. eapply rw_hosted; [by eapply admitted_grows | by eapply to_serve_grows | done | exact He].
  - apply safe_bind. unfold provisioning, store_status. on_call now; [by apply rw_read |].
    on_call stored; [| by destruct stored].
    apply rw_unserved; [| done]. eapply known_grows; [apply grows_cons |].
    eapply known_current; [apply Ha1 | exact Hc].
Qed.

Lemma reject_safe (h : history) (i : LLMInstance) (err : error) :
  known h i -> safe R h (reject rc i err) (fun _ _ => True).
Proof.
  intros Hk. unfold reject. apply safe_bind.
  eapply safe_mono; [eapply safe_within; [apply withdraw_safe |] | done].
  intros h' e Hg He. eapply rw_withdraw; [by eapply known_grows | exact He].
Qed.

Lemma settings_safe (h : history) (i : LLMInstance) (message : string) :
  known h i -> safe R h (rejectModelSettings i message) (fun _ _ => True).
Proof.
  intros Hk. unfold rejectModelSettings. on_call now; [by apply rw_read |]. case_bool_decide; [done |].
  on_call stored; [| done]. apply rw_unserved; [eapply known_grows; [apply grows_cons | done] | done].
Qed.

Lemma upgrade_safe (h : history) (inst : LLMInstance) (sel : Selection) :
  live h inst -> selectSlug rc inst = Ok sel ->
  safe R h (upgradeExistingAuthMiddleware rc inst) (fun h' _ => grows h h').
Proof.
  intros Hl Hs. unfold upgradeExistingAuthMiddleware. destruct (IsBYOC inst) eqn:Eb; [by cbn |]. rewrite Hs.
  eapply safe_mono; [eapply safe_within; [apply (reconcileAuthMiddleware_safe rc inst (sel_Slug sel)) |] |].
  - intros h' e Hg He. eapply rw_upgrade; [by eapply live_grows | done | exact Hs | exact He].
  - by intros h' r [? _].
Qed.

Lemma slug_safe (h : history) (inst : LLMInstance) :
  live h inst ->
  safe R h (ensureSlug rc inst) (fun h' '(i, r) => grows h h' /\ known h' i /\ slug_settled rc inst h h' i r).
Proof.
  intros Hl. unfold ensureSlug. destruct (selectSlug rc inst) as [[slug source] | err] eqn:Es;
    [| split_and!; [done | by apply known_live | done]].
  cbn [sel_Slug sel_Source]. case_match eqn:E.
  - bool_props. subst. cbn. split_and!; try done; by apply known_live.
  - on_call patched; [eapply rw_slug; [done | right; by eexists] |].
    destruct patched as [i | err].
    + on_call got; [by apply rw_read |]. split_and!; [by eauto with go | |].
      * exists i. split; [right; right; eexists _, _; apply saw_later, saw_here | done].
      * destruct got as [persisted | err]; [| done].
        case_match eqn:E1; [done |]. case_match eqn:E2; [done |]. bool_props. subst.
        exists persisted. split_and!; try done. apply saw_here.
    + split_and!; [apply grows_cons | | done]. exists inst. split; [left; apply saw_later, Hl | done].
Qed.

Lemma live_safe (h : history) (inst : LLMInstance) : live h inst -> safe R h (reconcileLive rc inst) (fun _ _ => True).
Proof.
  intros Hl. unfold reconcileLive.
  destruct (selectSlug rc inst) as [sel|err] eqn:Es; [| by apply reject_safe, known_live].
  apply safe_bind. eapply safe_mono; [by eapply upgrade_safe |]. intros h1 x Hg1.
  pose proof (live_grows _ _ _ Hg1 Hl) as Hl1.
  destruct x as [[]|err]; [| by apply reject_safe, known_live].
  destruct (check (rec_Ceilings rc) inst) as [err|] eqn:Ec.
  { apply safe_bind. eapply safe_mono; [by apply settings_safe, known_live | done]. }
  destruct (ContainsFinalizer (Finalizers (inst_Meta inst)) finalizerName) eqn:Ef; cbn [negb].
  2: { on_call stored; [by apply rw_finalizer | done]. }
  apply safe_bind. eapply safe_mono; [by apply slug_safe |]. intros h2 [i r] (Hg2 & Hk2 & Hr).
  destruct r as [[slug [|]] | err]; [done | | by apply reject_safe].
  destruct Hr as (_ & -> & Hslug & Hsel). pose proof (live_grows _ _ _ Hg2 Hl1) as Hl2.
  assert (K : forall h3, grows h2 h3 -> (IsBYOC inst = false -> route_free rc h3 inst slug) ->
    safe R h3 (reconcileTarget rc inst slug) (fun _ _ => True)).
  { intros h3 Hg3 Hf. apply target_safe. split; try done. by eapply live_grows. }
  apply safe_bind. destruct (IsBYOC inst) eqn:Eb; cbn [negb]; [by apply K |].
  eapply safe_mono; [apply (checkSlugRoute_safe rc reconcile_write); apply rw_read |].
  intros h3 [[]|err] [Hg3 Hf]; [by apply K; [| auto] |]. apply reject_safe. by eapply known_grows.
Qed.

(** C5: whatever the cache, the API servers, the remote cluster, the clock and the
    network answer, every write of a reconcile follows from what was read before it: the
    finalizer leaves only a deleted instance whose target was cleaned, nothing is served
    before finalizer, ceilings, slug and route are settled and a previous target was left
    clean, and every write of the part that serves keeps to the discipline of that part. *)
Theorem Reconcile_writes : safe (recording reconcile_write) [] (Reconcile rc req) (fun _ _ => True).
Proof.
  unfold Reconcile, getInstance. apply safe_bind. on_call got; [by apply rw_read |].
  destruct got as [inst|err]; [| by destruct (IsNotFound err)]. cbn [safe fret].
  destruct (time_IsZero (DeletionTimestamp (inst_Meta inst))) eqn:Ed; cbn [negb].
  - apply live_safe. split; [apply saw_here | done].
  - apply safe_bind. eapply safe_mono; [eapply safe_within; [apply finalizeInstance_safe |] | done].
    intros h' e Hg He. eapply rw_release; [eapply saw_grows; [exact Hg | apply saw_here] | done | exact He].
Qed.

End Whole.
