(* ===== verification/ByocSteady.v ===== *)
(** * A settled bring-your-own instance is published, and nothing else is written

    When everything a reconcile brings about is in place and the endpoint answers, one
    reconcile makes a single write, the Ready status with the endpoint. *)

From Stdlib Require Import Ascii.
From S2P Require Import Prelude GoStd GoNet GoIP GoError Sha256 Kube KubeRef Api Io Names SlugPolicy Model TokenRequest SlugRoute Workload WorkloadFacts Routing ByocTransport ByocTLS Byoc ByocNetFacts ByocFacts ByocWrites ByocSafety.

Section Steady.
  Context `{KubeLaws} `{X509Lib} `{ClientLib}.
  Variable rc : LLMInstanceReconciler.
  Variable O : oracle.
  Variable inst : LLMInstance.
  Variable slug : string.
  Variable model : modelSelection.
  Variables data targetID tlsName hostname revision : string.

Local Abbreviation cfg := (BYOCTLS rc).
Local Abbreviation remote := (Remote data).
Local Abbreviation managed name := (key_of (tls_Namespace cfg) name).

(** ** What settled means *)

(** The status records the target of the kubeconfig, which still leads there. *)
Record target_settled : Prop := {
  ts_migrated : tls_migrated rc inst = false;
  ts_slug : slug <> "" /\ ActiveBYOCSlug (Status inst) = slug;
  ts_recorded : ActiveBYOCKubeconfigSecretName (Status inst) = kubeconfig_secret inst /\
                ActiveBYOCTargetID (Status inst) = targetID;
  ts_source : exists sec, O (EGet Cached KSecret (key_of (Namespace (inst_Meta inst)) (kubeconfig_secret inst))) = Ok sec /\
                mget (sec_Data sec) byocKubeconfigKey = data /\ data <> "";
  ts_client : remoteClientForKubeconfig data = Ok remote;
  ts_cluster : exists apiID, byocTargetIdentity data = Ok apiID /\
                 run_oracle O (byocClusterIdentity remote apiID) = Ok targetID;
  ts_names : byocTLSIdentity inst cfg targetID = Ok (tlsName, hostname);
  ts_stored : exists s, O (EGet Cached KSecret (credentials_key inst slug)) = Ok s /\
                controls inst (sec_Meta s) = true /\ mget (sec_Data s) byocKubeconfigKey = data;
  ts_namespace : exists n, O (EGet remote KNamespace (key_of "" byocNamespace)) = Ok n;
}.

(** The Service has a public address, published under the host name. *)
Record network_settled : Prop := {
  ns_service : exists s d, O (EGet remote KService (base_key slug)) = Ok s /\ owned_remotely inst (svc_Meta s) = true /\
    exposes inst slug s /\ validBYOCDNSTarget (loadBalancerAddress s) = true /\
    O (EGet Cached KDNSEntry (managed tlsName)) = Ok d /\ requireBYOCTLSOwner (dns_Meta d) inst = None /\
    DeletionTimestamp (dns_Meta d) = None /\ dns_Spec d = Present (dns_spec hostname (loadBalancerAddress s)) /\
    mget (Annotations (dns_Meta d)) dns_class_key = DNSClass cfg;
  ns_class : DNSClass cfg <> "";
  ns_proxy : exists c, O (EGet remote KConfigMap (key_of byocNamespace (byocBaseName slug +:+ "-proxy"))) = Ok c /\
    owned_remotely inst (cm_Meta c) = true /\ proxies hostname c;
}.

(** The Certificate is issued, its material valid, cached and delivered. *)
Record tls_settled (cert : GardenerCertificate) (source : Secret) (desired : gmap string uvalue) (target : string) : Prop := {
  tl_issuer : validateBYOCTLSIssuer cfg = None;
  tl_cert : O (EGet Cached KCertificate (managed tlsName)) = Ok cert;
  tl_owner : requireBYOCTLSOwner (crt_Meta cert) inst = None;
  tl_alive : DeletionTimestamp (crt_Meta cert) = None;
  tl_uid : UID (crt_Meta cert) <> "";
  tl_spec : preserveBYOCCertificateRenewal cert (byocCertificateSpec tlsName hostname (UID (crt_Meta cert)) cfg inst) = Ok desired /\
            crt_Spec cert = Present desired;
  tl_state : nested_or "" (crt_State cert) = byocCertificateReadyState;
  tl_generation : nested_or 0%Z (crt_ObservedGeneration cert) = Generation (crt_Meta cert);
  tl_unrevoked : mget (Annotations (crt_Meta cert)) byocTLSRevokedAnnotation <> byocTLSRevokedValue;
  tl_source : O (EGet Cached KSecret (managed tlsName)) = Ok source;
  tl_bound : requireBYOCSourceSecret source cert inst = None;
  tl_source_unrevoked : mget (Annotations (sec_Meta source)) byocTLSRevokedAnnotation <> byocTLSRevokedValue;
  tl_valid : validateBYOCTLSMaterial (sec_Data source) hostname (O ENow) = Ok revision;
  tl_target : byocTLSTarget targetID = Ok target;
  tl_copies : forall c key, (c = Cached /\ key = managed (last_valid tlsName) \/ c = remote /\ key = key_of byocNamespace tlsName) ->
    exists s, O (EGet c KSecret key) = Ok s /\ requireBYOCTargetSecret s inst target = None /\
      DeletionTimestamp (sec_Meta s) = None /\ sec_Data s = copyBYOCTLSData (sec_Data source);
}.

(** The remote Deployment is the desired one for the keys held, and is available. *)
Record server_settled : Prop := {
  sv_keys : exists file bootstrap s d, run_oracle O (desiredAPIKeyFile remote inst slug) = Ok (file, bootstrap) /\
    O (EGet remote KSecret (key_of byocNamespace (byocKeySecretName slug))) = Ok s /\
    owned_remotely inst (sec_Meta s) = true /\ holds_keys file bootstrap s /\
    O (EGet remote KDeployment (base_key slug)) = Ok d /\ owned_remotely inst (d_Meta d) = true /\
    converge_remote_deployment (corev1defaults
      ((buildBYOCDeployment inst slug (desired_replicas inst) model (ResourceVersion (sec_Meta s)) tlsName revision)
         <| d_Selector := d_Selector d |>)) d = (d, false) /\
    deployment_available d;
  sv_health : exists u resp, url_Parse ("https://" +:+ hostname +:+ "/health") = Some u /\ Scheme u = "https" /\
    revision <> "" /\ O (EHTTPS ("https://" +:+ hostname +:+ "/health")) = Ok resp /\ byoc_health revision resp = None;
}.

(** ** The parts only read *)

Lemma quiet_guard {A} (e : option error) (k : unit -> fio A) (b : res A) :
  e = None -> quiet O (k tt) b -> quiet O (fbind (or_fail e) k) b.
Proof. intros -> Hk. eapply quiet_fbind; [apply quiet_ret | exact Hk]. Qed.

Lemma quiet_of_res {A B} (x : res A) (a : A) (k : A -> fio B) (b : res B) :
  x = Ok a -> quiet O (k a) b -> quiet O (fbind (of_res x) k) b.
Proof. intros -> Hk. eapply quiet_fbind; [apply quiet_ret | exact Hk]. Qed.

Lemma owner_none (m : ObjectMeta) : owned_remotely inst m = true -> checkBYOCObjectOwner m inst = None.
Proof. unfold checkBYOCObjectOwner. by intros ->. Qed.

Lemma service_quiet (s : Service) :
  O (EGet remote KService (base_key slug)) = Ok s -> owned_remotely inst (svc_Meta s) = true -> exposes inst slug s ->
  quiet O (reconcileBYOCService remote inst slug) (Ok tt).
Proof.
  intros Hs Ho He. unfold reconcileBYOCService. on_read Hs. apply quiet_guard; [by apply owner_none |].
  destruct (ensure_remote_service_converges (byocLabels (Name (inst_Meta inst)) slug) s) as (_ & C & _).
  rewrite (C He). apply quiet_ret.
Qed.

Lemma proxy_quiet (c : ConfigMap) :
  O (EGet remote KConfigMap (key_of byocNamespace (byocBaseName slug +:+ "-proxy"))) = Ok c ->
  owned_remotely inst (cm_Meta c) = true -> proxies hostname c ->
  quiet O (reconcileBYOCProxyConfig remote inst slug hostname) (Ok tt).
Proof.
  intros Hc Ho Hp. unfold reconcileBYOCProxyConfig. on_read Hc. rewrite owner_none by done.
  rewrite bool_decide_true by exact Hp. apply quiet_ret.
Qed.

Lemma key_secret_quiet (file : string) (bootstrap : bool) (s : Secret) :
  O (EGet remote KSecret (key_of byocNamespace (byocKeySecretName slug))) = Ok s ->
  owned_remotely inst (sec_Meta s) = true -> holds_keys file bootstrap s ->
  quiet O (reconcileBYOCKeySecret remote inst slug file bootstrap) (Ok (ResourceVersion (sec_Meta s))).
Proof.
  intros Hs Ho Hk. unfold reconcileBYOCKeySecret. on_read Hs. apply quiet_guard; [by apply owner_none |].
  destruct (ensure_key_secret_converges file bootstrap s) as (_ & C & _). rewrite (C Hk). apply quiet_ret.
Qed.

Lemma deployment_quiet (keysRevision : string) (d : Deployment) :
  O (EGet remote KDeployment (base_key slug)) = Ok d -> owned_remotely inst (d_Meta d) = true ->
  converge_remote_deployment (corev1defaults
    ((buildBYOCDeployment inst slug (desired_replicas inst) model keysRevision tlsName revision)
       <| d_Selector := d_Selector d |>)) d = (d, false) ->
  quiet O (reconcileBYOCDeployment remote inst slug model keysRevision tlsName revision) (Ok tt).
Proof.
  intros Hd Ho Hc. unfold reconcileBYOCDeployment. on_read Hd. apply quiet_guard; [by apply owner_none |].
  cbv zeta. rewrite Hc. apply quiet_ret.
Qed.

Lemma dns_quiet (s : Service) (d : DNSEntry) :
  DNSClass cfg <> "" -> byocTLSIdentity inst cfg targetID = Ok (tlsName, hostname) ->
  validBYOCDNSTarget (loadBalancerAddress s) = true -> O (EGet Cached KDNSEntry (managed tlsName)) = Ok d ->
  requireBYOCTLSOwner (dns_Meta d) inst = None -> DeletionTimestamp (dns_Meta d) = None ->
  dns_Spec d = Present (dns_spec hostname (loadBalancerAddress s)) ->
  mget (Annotations (dns_Meta d)) dns_class_key = DNSClass cfg ->
  quiet O (reconcileBYOCDNS inst cfg (loadBalancerAddress s) targetID) (Ok tt).
Proof.
  intros Hc Hn Hv Hd Ho Ha Hs Hk. unfold reconcileBYOCDNS. rewrite bool_decide_false by done.
  eapply quiet_of_res; [exact Hn |]. cbv beta iota. rewrite Hv. cbn [negb].
  on_read Hd. apply quiet_guard; [done |]. rewrite Ha, Hs, Hk, !bool_decide_true by done. apply quiet_ret.
Qed.

Section Certificate.
  Variables (cert : GardenerCertificate) (source : Secret) (desired : gmap string uvalue) (target : string).
  Hypothesis Hn : byocTLSIdentity inst cfg targetID = Ok (tlsName, hostname).
  Hypothesis Ht : tls_settled cert source desired target.

Lemma certificate_quiet : quiet O (reconcileBYOCManagedCertificate inst cfg targetID) (Ok tt).
Proof using Hn Ht.
  destruct Ht as [T1 T2 T3 T4 T5 [T6 T7] _ _ _ T10 T11 _ _ _ _]. unfold reconcileBYOCManagedCertificate.
  apply quiet_guard; [done |]. eapply quiet_of_res; [exact Hn |]. cbv beta iota.
  eapply quiet_fbind. { unfold get_or_create_certificate. on_read T2. apply quiet_ret. }
  apply quiet_guard; [done |]. rewrite T4, bool_decide_true, bool_decide_false by done. cbn [negb].
  eapply quiet_fbind. { unfold guard_output. on_read T10. rewrite T11. apply quiet_ret. }
  eapply quiet_of_res; [exact T6 |]. rewrite bool_decide_true by done. apply quiet_ret.
Qed.

Lemma write_quiet (c : client) (ns name : string) :
  c = Cached /\ key_of ns name = managed (last_valid tlsName) \/ c = remote /\ key_of ns name = key_of byocNamespace tlsName ->
  quiet O (writeBYOCTLSSecret c ns name inst target (sec_Data source)) (Ok tt).
Proof using Ht.
  intros Hp. destruct (tl_copies _ _ _ _ Ht c (key_of ns name) Hp) as (s & S1 & S2 & S3 & S4).
  unfold writeBYOCTLSSecret. on_read S1. apply quiet_guard; [done |].
  rewrite S3, S4, !bool_decide_true by done. apply quiet_ret.
Qed.

Lemma tls_quiet : quiet O (reconcileBYOCTLSSecret remote inst cfg targetID) (Ok revision).
Proof using Hn Ht.
  destruct (id Ht) as [T1 T2 T3 T4 _ [T6 T7] T8 T9 T10 T11 T12 T13 T14 T15 _]. unfold reconcileBYOCTLSSecret.
  apply quiet_guard; [done |]. eapply quiet_of_res; [exact Hn |]. cbv beta iota. eapply quiet_of_res; [exact T15 |].
  on_read T2. apply quiet_guard; [done |]. rewrite T4, bool_decide_true by done. cbn [negb].
  eapply quiet_of_res; [exact T6 |]. rewrite bool_decide_true by done. cbn [negb].
  rewrite T8, (bool_decide_false (byocCertificateReadyState = "Revoked")), (bool_decide_false (_ = byocTLSRevokedValue)) by done.
  cbn [orb]. eapply quiet_bind; [by refine (quiet_call O ENow _ _ eq_refl) |].
  eapply quiet_fbind.
  { unfold issued_material. on_read T11. apply quiet_guard; [done |].
    rewrite (bool_decide_false (_ = byocTLSRevokedValue)), T8, T9, !bool_decide_true by done. cbn [andb].
    rewrite T14. apply quiet_ret. }
  eapply quiet_fbind.
  { unfold serving_material. eapply quiet_fbind; [apply write_quiet; by left | apply quiet_ret]. }
  cbv beta iota. eapply quiet_fbind; [apply write_quiet; by right | apply quiet_ret].
Qed.

End Certificate.

(** ** The whole reconcile *)

Local Abbreviation writes := (writes O).

Lemma writes_lift {A} (m : fio A) (a : A) (k : A -> sresult) (i : LLMInstance) W b :
  quiet O m (Ok a) -> writes (k a i) W b -> writes (or_return_err (lift m) k i) W b.
Proof.
  intros Hm Hk. unfold or_return_err. eapply writes_bind; [eapply quiet_bind; [exact Hm | apply quiet_ret] | exact Hk].
Qed.

Lemma writes_attempt {A} (m : fio A) (x : res A) (k : res A -> sresult) (i : LLMInstance) W b :
  quiet O m x -> writes (k x i) W b -> writes (or_return_err (attempt_fio m) k i) W b.
Proof.
  intros Hm Hk. unfold or_return_err. eapply writes_bind; [eapply quiet_bind; [exact Hm | apply quiet_ret] | exact Hk].
Qed.

Lemma writes_sget (k : LLMInstance -> sresult) (i : LLMInstance) W b :
  writes (k i i) W b -> writes (or_return_err sget k i) W b.
Proof. done. Qed.

Lemma identity_quiet (apiID : string) :
  run_oracle O (byocClusterIdentity remote apiID) = Ok targetID ->
  quiet O (byocClusterIdentity remote apiID) (Ok targetID).
Proof.
  intros <-. apply (safe_quiet O [] _ (fun _ _ => True)). unfold byocClusterIdentity.
  on_call got; [done |]. destruct got as [k|]; [| done]. by case_bool_decide.
Qed.

Lemma public_address (address : string) : validBYOCDNSTarget address = true -> address <> "".
Proof. intros Hv ->. discriminate Hv. Qed.

Lemma workload_quiet cert source desired target :
  target_settled -> network_settled -> tls_settled cert source desired target -> server_settled ->
  quiet O (reconcileBYOCWorkload rc remote inst slug model targetID tlsName hostname) (Ok revision).
Proof.
  intros Ht Hw Hl Hs. pose proof (ts_names Ht) as Hn.
  destruct Hw as [(s & d & S1 & S2 & S3 & S4 & D1 & D2 & D3 & D4 & D5) Hc (c & C1 & C2 & C3)].
  destruct Hs as [(file & bootstrap & ks & dep & K1 & K2 & K3 & K4 & P1 & P2 & P3 & P4) _].
  unfold reconcileBYOCWorkload. eapply quiet_fbind; [by apply (service_quiet s) |].
  eapply quiet_fbind; [by eapply certificate_quiet |]. on_read S1.
  rewrite bool_decide_false by by apply public_address.
  eapply quiet_fbind; [by eapply dns_quiet |]. eapply quiet_fbind; [by eapply tls_quiet |].
  eapply quiet_fbind; [by eapply proxy_quiet |].
  eapply quiet_fbind.
  { rewrite <-K1. eapply safe_quiet. apply (key_file_safe (fun _ => read_only) []). done. }
  cbv beta iota. eapply quiet_fbind; [by eapply key_secret_quiet |].
  eapply quiet_fbind; [by eapply deployment_quiet | apply quiet_ret].
Qed.

Lemma readiness_quiet : network_settled -> server_settled ->
  quiet O (evaluateBYOCReadiness remote slug hostname revision)
    (Ok (true, "https://" +:+ hostname, "Provisioned", "LLM instance is ready")).
Proof.
  intros [(s & _ & S1 & _ & _ & S4 & _) _ _] [(file & bootstrap & ks & dep & _ & _ & _ & _ & P1 & _ & _ & P4) (u & resp & U1 & U2 & U3 & U4 & U5)].
  unfold evaluateBYOCReadiness. on_read P1.
  apply (deploymentReadiness_spec _ (byocBaseName slug)) in P4.
  destruct (deploymentReadiness dep (byocBaseName slug)) as [[[] reason] message]; [cbn [negb] | done].
  on_read S1. rewrite bool_decide_false by by apply public_address. cbv zeta.
  apply quiet_bind with None; [| apply quiet_ret].
  unfold runBYOCHealthCheck. change (("https://" +:+ hostname) +:+ "/health") with ("https://" +:+ hostname +:+ "/health").
  rewrite U1, U2, bool_decide_true, bool_decide_false by done. cbn [negb orb].
  eapply quiet_bind; [by refine (quiet_call _ _ _ _ U4) |]. cbv beta iota. rewrite U5. apply quiet_ret.
Qed.

(** C14: when the recorded target, its credentials, the Service, DNS, certificate, keys
    and Deployment are as the reconcile brings them about and the endpoint answers with
    the delivered certificate, one reconcile publishes the HTTPS endpoint as Ready and
    comes back after 30 seconds; that status update is its only write. *)
Theorem byoc_published (cert : GardenerCertificate) (source : Secret) (desired : gmap string uvalue) (target : string)
  (stored : LLMInstance) (Ht : target_settled) (Hw : network_settled) (Hl : tls_settled cert source desired target)
  (Hs : server_settled)
  (Hu : O (EUpdateStatus Cached KInstance
           (with_status inst (O ENow) ConditionTrue "Ready" ("https://" +:+ hostname) "Provisioned" "LLM instance is ready"))
        = Ok stored) :
  run_oracle O (reconcileBYOC rc slug model inst) = (stored, (requeue_after 30, None)) /\
  filter (fun e => is_write e = true) (calls O (reconcileBYOC rc slug model inst)) =
    [EUpdateStatus Cached KInstance
       (with_status inst (O ENow) ConditionTrue "Ready" ("https://" +:+ hostname) "Provisioned" "LLM instance is ready")].
Proof.
  assert (B : writes (reconcileBYOC_body rc slug model inst)
    [EUpdateStatus Cached KInstance
       (with_status inst (O ENow) ConditionTrue "Ready" ("https://" +:+ hostname) "Provisioned" "LLM instance is ready")]
    (stored, (requeue_after 30, None))).
  { pose proof (workload_quiet _ _ _ _ Ht Hw Hl Hs) as Q1. pose proof (readiness_quiet Hw Hs) as Q2.
    destruct Ht as [T1 [T2 T3] [T4 T5] (sec & T6 & T7 & T8) T9 (apiID & T10 & T11) T12 (cs & T13 & T14 & T15) (n & T16)].
    unfold reconcileBYOC_body. apply writes_sget.
    rewrite T1, T3, bool_decide_false, bool_decide_true by done. cbn [negb andb].
    apply writes_lift with (inl (remote, data)).
    { unfold byocClient, byocKubeconfig. cbv zeta. apply quiet_fbind with (inl data).
      - on_read T6. rewrite T7, bool_decide_false by done. apply quiet_ret.
      - rewrite T9. apply quiet_ret. }
    cbv beta iota. apply writes_lift with apiID; [rewrite T10; apply quiet_ret |].
    apply writes_lift with targetID; [by apply identity_quiet |].
    apply writes_lift with (tlsName, hostname); [rewrite T12; apply quiet_ret |]. cbv beta iota.
    rewrite T5, (bool_decide_true (targetID = targetID)), andb_false_r by done.
    apply writes_lift with tt.
    { unfold ensureCachedCredentials. on_read T13. rewrite T14, T15, bool_decide_true by done. apply quiet_ret. }
    assert (Et : targetID <> "").
    { intros E. unfold byocTLSIdentity in T12. rewrite E in T12. repeat case_bool_decide; by repeat case_match. }
    unfold target_recorded. rewrite T3, T4, T5, bool_decide_true, !bool_decide_false by done. cbn [negb orb].
    apply writes_bind with (inst, Ok tt); [apply quiet_ret |]. cbv beta iota.
    unfold serve_target. apply writes_lift with tt.
    { unfold ensureBYOCNamespace. on_read T16. apply quiet_ret. }
    apply writes_sget. apply writes_attempt with (Ok revision); [exact Q1 |]. cbv beta iota.
    eapply writes_lift; [exact Q2 |]. cbv beta iota. cbn [negb].
    assert (Hp : run_oracle O (publish ("https://" +:+ hostname) inst) = (stored, Ok tt)).
    { unfold publish, store_status. rewrite !run_oracle_bind. cbn [call run_oracle mret io_ret]. by rewrite Hu. }
    unfold or_return_err. split; rewrite ?run_oracle_bind, ?calls_bind, Hp; [done |].
    unfold publish, store_status. rewrite !calls_bind. reflexivity. }
  destruct B as [B1 B2]. unfold reconcileBYOC. split; rewrite ?run_oracle_bind, ?calls_bind, B1; [done |].
  cbn [calls mret io_ret]. rewrite app_nil_r. exact B2.
Qed.

End Steady.
