(* ===== verification/ByocRef.v ===== *)
(** * A concrete bring-your-own cluster

    Reference instances of [ClientLib] and [X509Lib], a settled cluster as an oracle,
    and the theorems of the bring-your-own part applied to them. *)

From Stdlib Require Import Ascii.
From S2P Require Import Prelude GoStd GoNet GoIP GoError Sha256 Kube KubeRef Api Io Names SlugPolicy Model TokenRequest TokenRequestFlow SlugRoute Workload WorkloadFacts Routing ByocTransport ByocTLS Byoc Instance ByocNetFacts ByocFacts ByocWrites ByocSafety ByocCleanup InstanceSafety ByocSteady.

(** One kubeconfig is known: an HTTPS server, inline trust and an inline token. *)
Definition known_kubeconfig : KubeConfig := {|
  CurrentContext := "main";
  Contexts := {[ "main" := {| ctx_Cluster := "remote"; ctx_AuthInfo := "operator" |} ]};
  Clusters := {[ "remote" := {| Server := "https://api.example.com:6443"; InsecureSkipTLSVerify := false;
                                CertificateAuthority := ""; ProxyURL := "" |} ]};
  AuthInfos := {[ "operator" := {| ai_Exec := false; ai_AuthProvider := false; TokenFile := "";
                                   ClientCertificate := ""; ClientKey := "" |} ]} |}.

Definition known_settings : RESTConfig := {|
  rest_Host := "https://api.example.com:6443"; ServerName := ""; CAData := "PEM"; Timeout := 0; DirectOnly := false |}.

#[export] Instance ref_client : ClientLib := {
  clientcmd_Load s := if bool_decide (s = "kubeconfig") then Some known_kubeconfig else None;
  RESTConfigFromKubeConfig s := if bool_decide (s = "kubeconfig") then Some known_settings else None;
  RoundTripper := unit;
  HTTPClientFor _ := Ok {| Transport := tt; CheckRedirect := None |};
  client_New _ _ := None;
}.

(** A certificate is the host name it is for; its key is that name with a prefix. *)
Definition leaf_for (host : string) : X509Certificate := {|
  Raw := host; IsCA := false; DNSNames := [host]; IPAddresses := []; EmailAddresses := []; URIs := [];
  NotBefore := 0; NotAfter := 10 ^ 18; ExtKeyUsages := [ServerAuth]; x_PublicKey := ECDSAKey 256 |}.

#[export] Instance ref_x509 : X509Lib := {
  X509KeyPair cert key := if bool_decide (key = "key:" +:+ cert) then Some (cert, []) else None;
  ParseCertificate der := Some (leaf_for der);
  x509_Verify leaf host _ _ := bool_decide (host ∈ DNSNames leaf);
}.


Module ByocExample.

Definition cfg : BYOCTLSConfig := {|
  Domain := "llm.example.com"; tls_Namespace := "operator-tls"; IssuerName := "issuer"; IssuerNamespace := "";
  DNSClass := "garden" |}.

Definition rc : LLMInstanceReconciler := {|
  RouteReader := Some Live; rec_SlugPolicy := Some PolicyExample.policy; rec_Ceilings := ModelExample.unset;
  PublicHost := "llm.example.com"; AuthServiceURL := "http://auth.system.svc:8090/"; PublicScheme := "https";
  ExtraIngressAnnotations := ∅; TLSSecretName := ""; BYOCTLS := cfg |}.

Definition slug : string := "llm-remote".
Definition apiID : string := sha256_hex (trust_text known_settings).
Definition targetID : string := sha256_hex (apiID +:+ chr 0 +:+ "cluster-uid").
Definition tlsName : string := "byoc-" +:+ str_take 32 (sha256_hex ("byoc-uid" +:+ chr 0 +:+ targetID)).
Definition hostname : string := tlsName +:+ ".llm.example.com".
Definition target : string := str_take 32 (sha256_hex targetID).
Definition revision : string := sha256_hex hostname.

Definition inst : LLMInstance := {|
  inst_Meta := empty_meta <| Name := "remote" |> <| Namespace := "tenant-a" |> <| UID := "byoc-uid" |>
                          <| Generation := 3%Z |> <| CreationTimestamp := 63928785601000000000%Z |>
                          <| Finalizers := [finalizerName] |>;
  Spec := {| spec_Model := ""; spec_Replicas := 1; spec_Resources := None; spec_ContextSize := None;
             spec_ParallelSlots := None; spec_DNSPolicy := "";
             spec_ClusterRef := Some {| KubeconfigSecretName := "kube" |} |};
  Status := {| Slug := slug; SlugSource := Derived; Phase := "Provisioning"; Endpoint := "";
               ActiveBYOCKubeconfigSecretName := "kube"; ActiveBYOCTargetID := targetID;
               ActiveBYOCTLSDomain := "llm.example.com"; ActiveBYOCTLSNamespace := "operator-tls";
               ActiveBYOCSlug := slug; ObservedGeneration := 3; Conditions := [] |} |}.

Definition model : modelSelection := modelForInstance inst.

(** ** What the cluster and the operator's namespace hold *)

Definition owned (name : string) : ObjectMeta :=
  empty_meta <| Name := name |> <| Namespace := byocNamespace |> <| UID := name |> <| ResourceVersion := "5" |>
             <| Annotations := byocOwnedAnnotations inst |>.

Definition kube_secret (name : string) (owners : list OwnerReference) : Secret := {|
  sec_Meta := empty_meta <| Name := name |> <| Namespace := "tenant-a" |> <| OwnerReferences := owners |>;
  sec_Type := SecretTypeOpaque; sec_Data := {[ byocKubeconfigKey := "kubeconfig" ]}; sec_StringData := ∅ |}.

Definition managed (name : string) (labels : gmap string string) : ObjectMeta :=
  empty_meta <| Name := name |> <| Namespace := "operator-tls" |> <| UID := name |>
             <| Labels := <[byocTLSOwnerLabel := "byoc-uid"]> labels |>.

Definition cert_spec : gmap string uvalue := byocCertificateSpec tlsName hostname tlsName cfg inst.
Definition cert : GardenerCertificate := {|
  crt_Meta := managed tlsName ∅; crt_Spec := Present cert_spec; crt_State := Present "Ready";
  crt_ObservedGeneration := Present 0%Z |}.

Definition material : gmap string string :=
  <[TLSCertKey := hostname]> {[ TLSPrivateKeyKey := "key:" +:+ hostname ]}.
Definition tls_secret (name ns : string) (labels : gmap string string) : Secret := {|
  sec_Meta := (managed name labels) <| Namespace := ns |>; sec_Type := SecretTypeTLS;
  sec_Data := material; sec_StringData := ∅ |}.
Definition source : Secret := tls_secret tlsName "operator-tls" {[ byocTLSCertificateLabel := tlsName ]}.
Definition copy (name ns : string) : Secret := tls_secret name ns {[ byocTLSTargetLabel := target ]}.

Definition service : Service :=
  (newBYOCService inst slug) <| svc_LoadBalancer := [{| lb_IP := "8.8.4.4"; lb_Hostname := "" |}] |>.
Definition dns : DNSEntry :=
  {| dns_Meta := (managed tlsName ∅) <| Annotations := {[ dns_class_key := "garden" ]} |>;
     dns_Spec := Present (dns_spec hostname "8.8.4.4") |}.

(** A token request of the instance with its Secret, bound to the target. *)
Definition tr : APITokenRequest := TokenExample.tr
  <| tr_Spec := {| InstanceName := "remote"; Description := "" |} |> <| tr_Status -> SecretName := "req-token" |>.
Definition token_secret : Secret := TokenExample.sec
  <| sec_Meta -> Annotations := <[credentialTargetAnnotation := targetID]> {[ credentialInstanceAnnotation := "byoc-uid" ]} |>.
Definition keys : Secret := {|
  sec_Meta := owned (byocKeySecretName slug); sec_Type := SecretTypeOpaque;
  sec_Data := {[ byocAPIKeyFileKey := "k" +:+ chr 10 ]}; sec_StringData := ∅ |}.

Definition deployment : Deployment :=
  (buildBYOCDeployment inst slug 1 model "5" tlsName revision)
    <| d_Status := {| ds_ObservedGeneration := 0; ds_UpdatedReplicas := 1; ds_ReadyReplicas := 1; ds_AvailableReplicas := 1 |} |>.

Definition not_found : error := ErrAPI ReasonNotFound "not found".

Definition find_secret (l : list Secret) (k : ObjectKey) : res Secret :=
  match find (fun s => bool_decide (ObjectKeyFromObject (sec_Meta s) = k)) l with
  | Some s => Ok s
  | None => Err not_found
  end.

Definition local_secrets : list Secret :=
  [kube_secret "kube" []; kube_secret (byocCredentialsName slug) [instance_ref inst]; source;
   copy (last_valid tlsName) "operator-tls"; token_secret].
Definition remote_secrets : list Secret := [copy tlsName byocNamespace; keys].

Definition world : oracle := fun e =>
  match e return answer e with
  | EGet Cached KSecret k => find_secret local_secrets k
  | EGet (Remote _) KSecret k => find_secret remote_secrets k
  | EGet _ KInstance _ => Ok inst
  | EGet _ KTokenRequest _ => Ok tr
  | EGet _ KNamespace _ => Ok {| ns_Meta := empty_meta <| UID := "cluster-uid" |> |}
  | EGet _ KService _ => Ok service
  | EGet _ KConfigMap _ => Ok (proxy_config_map inst slug hostname)
  | EGet _ KDeployment _ => Ok deployment
  | EGet _ KCertificate _ => Ok cert
  | EGet _ KDNSEntry _ => Ok dns
  | EGet _ _ _ => Err not_found
  | EList _ KSecret _ _ => Ok [token_secret]
  | EList _ _ _ _ => Ok []
  | ECreate _ _ o | EUpdate _ _ o | EUpdateStatus _ _ o | EPatchStatus _ _ _ o => Ok o
  | EDelete _ _ _ _ => None
  | ENow => 1000%Z
  | ERandom n => Ok (replicate n 0%Z)
  | EProbe _ => Ok 200%Z
  | EHTTPS _ => Ok {| hr_Verified := true; hr_Peers := [hostname]; hr_StatusCode := 200 |}
  end.

Lemma target_ok : target_settled rc world inst slug "kubeconfig" targetID tlsName hostname.
Proof.
  split.
  - vm_compute; reflexivity.
  - split; [discriminate | reflexivity].
  - split; reflexivity.
  - exists (kube_secret "kube" []). split_and!; [vm_compute; reflexivity | vm_compute; reflexivity | discriminate].
  - vm_compute; reflexivity.
  - exists apiID. split; vm_compute; reflexivity.
  - vm_compute; reflexivity.
  - exists (kube_secret (byocCredentialsName slug) [instance_ref inst]). split_and!; vm_compute; reflexivity.
  - eexists. reflexivity.
Qed.

Lemma network_ok : network_settled rc world inst slug "kubeconfig" tlsName hostname.
Proof.
  split.
  - exists service, dns. split_and!.
    + reflexivity.
    + vm_compute; reflexivity.
    + split_and!; [done | vm_compute; reflexivity | by eexists | done].
    + vm_compute; reflexivity.
    + reflexivity.
    + vm_compute; reflexivity.
    + reflexivity.
    + reflexivity.
    + vm_compute; reflexivity.
  - discriminate.
  - eexists. split_and!; [reflexivity | vm_compute; reflexivity | reflexivity].
Qed.

Lemma tls_ok : tls_settled rc world inst "kubeconfig" targetID tlsName hostname revision cert source cert_spec target.
Proof.
  split.
  - vm_compute; reflexivity.
  - reflexivity.
  - vm_compute; reflexivity.
  - reflexivity.
  - vm_compute; discriminate.
  - split; [vm_compute; reflexivity | reflexivity].
  - reflexivity.
  - reflexivity.
  - vm_compute; discriminate.
  - vm_compute; reflexivity.
  - vm_compute; reflexivity.
  - vm_compute; discriminate.
  - vm_compute; reflexivity.
  - vm_compute; reflexivity.
  - intros c key [[-> ->] | [-> ->]];
      [exists (copy (last_valid tlsName) "operator-tls") | exists (copy tlsName byocNamespace)];
      split_and!; vm_compute; reflexivity.
Qed.

Lemma server_ok : server_settled world inst slug model "kubeconfig" tlsName hostname revision.
Proof.
  split.
  - exists ("k" +:+ chr 10), false, keys, deployment. split_and!.
    + vm_compute; reflexivity.
    + vm_compute; reflexivity.
    + vm_compute; reflexivity.
    + split_and!; [vm_compute; reflexivity | vm_compute; reflexivity | done].
    + reflexivity.
    + vm_compute; reflexivity.
    + vm_compute; reflexivity.
    + vm_compute. split_and!; discriminate.
  - eexists _, _. split_and!; [vm_compute; reflexivity | reflexivity | vm_compute; discriminate | reflexivity |].
    vm_compute; reflexivity.
Qed.

Definition published : LLMInstance :=
  with_status inst 1000 ConditionTrue "Ready" ("https://" +:+ hostname) "Provisioned" "LLM instance is ready".

Lemma published_stored :
  world (EUpdateStatus Cached KInstance
    (with_status inst (world ENow) ConditionTrue "Ready" ("https://" +:+ hostname) "Provisioned" "LLM instance is ready"))
  = Ok published.
Proof. reflexivity. Qed.

(** The instance names another Secret, and everything on the previous target is gone. *)
Definition rebound : LLMInstance := inst <| Spec -> spec_ClusterRef := Some {| KubeconfigSecretName := "moved" |} |>.
Definition protected_copy : Secret := kube_secret (byocCredentialsName slug) [instance_ref inst].

Definition emptied : oracle := fun e =>
  match e return answer e with
  | EGet Cached KSecret k => find_secret [protected_copy] k
  | EGet _ KNamespace _ => Ok {| ns_Meta := empty_meta <| UID := "cluster-uid" |> |}
  | EGet _ _ _ => Err not_found
  | e => world e
  end.

Definition left : LLMInstance := forgetting (withdrawing rebound 1000) 1000.

Example rebound_leaves :
  run_oracle emptied (cleanupChangedBYOCTarget rc slug rebound) = (left, Ok tt) /\
  filter (fun e => is_write e = true) (calls emptied (cleanupChangedBYOCTarget rc slug rebound)) =
    [EUpdateStatus Cached KInstance (withdrawing rebound 1000); EUpdateStatus Cached KInstance left;
     EDelete Cached KSecret protected_copy (same_uid (sec_Meta protected_copy))].
Proof. split; vm_compute; reflexivity. Qed.

End ByocExample.

(** ** The theorems at this cluster *)

Import ByocExample.

Lemma byoc_published_witness :
  (run_oracle world (reconcileBYOC rc slug model inst)).2 = (requeue_after 30, None) /\
  length (filter (fun e => is_write e = true) (calls world (reconcileBYOC rc slug model inst))) = 1.
Proof.
  destruct (byoc_published rc world inst slug model "kubeconfig" targetID tlsName hostname revision cert source cert_spec
              target published target_ok network_ok tls_ok server_ok published_stored) as [-> ->].
  by split.
Defined.

Lemma target_identity_pins_witness :
  exists ns ns', world (EGet (Remote "kubeconfig") KNamespace (key_of "" "kube-system")) = Ok ns /\
    world (EGet Live KNamespace (key_of "" "kube-system")) = Ok ns' /\
    ((same_trust (known_settings <| Timeout := 30%Z |> <| DirectOnly := true |>)
        (known_settings <| Timeout := 30%Z |> <| DirectOnly := true |>) /\
      UID (ns_Meta ns) = UID (ns_Meta ns')) \/
     sha_collision (trust_text (known_settings <| Timeout := 30%Z |> <| DirectOnly := true |>))
       (trust_text (known_settings <| Timeout := 30%Z |> <| DirectOnly := true |>)) \/
     sha_collision (apiID +:+ chr 0 +:+ UID (ns_Meta ns)) (apiID +:+ chr 0 +:+ UID (ns_Meta ns'))).
Proof.
  apply (target_identity_pins world world "kubeconfig" "kubeconfig" _ _ apiID apiID targetID (Remote "kubeconfig") Live);
    vm_compute; reflexivity.
Defined.

Lemma byocTLSIdentity_unique_witness :
  hostname = tlsName +:+ "." +:+ Domain cfg /\ IsDNS1123Subdomain hostname = true /\
  tls_Namespace cfg <> Namespace (inst_Meta inst) /\
  (tlsName = tlsName \/ hostname = hostname ->
   (UID (inst_Meta inst) = UID (inst_Meta inst) /\ targetID = targetID) \/
   name_collision (UID (inst_Meta inst) +:+ chr 0 +:+ targetID) (UID (inst_Meta inst) +:+ chr 0 +:+ targetID)).
Proof. apply (byocTLSIdentity_unique inst inst cfg cfg targetID targetID); vm_compute; reflexivity. Defined.

Lemma key_file_exact_witness :
  exists secrets, world (keys_event inst) = Ok secrets /\
    exists lines, split_byte (Ascii.ascii_of_nat 10) ("k" +:+ chr 10) = lines ++ [""] /\ lines <> [] /\
      Sorted.Sorted string_le lines /\
      (forall key, key ∈ lines <-> admits secrets (fun name tr => world (request_of_event inst name) = Ok tr) inst key).
Proof.
  apply (key_file_exact world (Remote "kubeconfig") inst slug ("k" +:+ chr 10) false). vm_compute. reflexivity.
Defined.

Lemma reconcileBYOC_writes_witness :
  safe (recording (byoc_write rc inst slug)) [] (reconcileBYOC rc slug model inst) (fun _ _ => True).
Proof. exact (reconcileBYOC_writes rc inst slug model (modelForInstance_no_host inst)). Defined.

Lemma cleanupBYOC_complete_witness :
  safe (recording (final_write rc inst)) [] (cleanupBYOC rc inst) (fun h r => is_ok r = true -> cleaned rc inst h).
Proof. exact (cleanupBYOC_complete rc inst). Defined.

Lemma released_after_cleanup_witness :
  safe (recording (release_write rc inst (instance_key inst))) [] (finalizeLLMInstance rc inst (instance_key inst))
    (fun _ _ => True).
Proof. exact (released_after_cleanup rc inst (instance_key inst)). Defined.

Lemma Reconcile_writes_witness :
  safe (recording (reconcile_write rc (instance_key inst))) [] (Reconcile rc (instance_key inst)) (fun _ _ => True).
Proof. exact (Reconcile_writes rc (instance_key inst)). Defined.

Lemma target_change_safe_witness :
  safe (recording (change_write rc inst slug)) [] (cleanupChangedBYOCTarget rc slug inst) (fun h '(i, r) =>
    current inst h i /\ (is_ok r = true -> stayed inst slug h i /\ unwritten h \/ moved_on rc inst slug h i)).
Proof. exact (target_change_safe rc inst slug). Defined.
