(* ===== verification/StatusTyped.v ===== *)
(** * Every status the operator writes is well typed

    The schema of the status conditions (config/crd/bases), and the proof that however
    the reconciles, the forwardAuth server and the API server interleave, the stored
    [LLMInstance]s and [APITokenRequest]s keep it: one condition of a type, known phases,
    and a phase that agrees with the Ready condition. *)

From Stdlib Require Import Ascii.
From S2P Require Import Prelude GoStd GoNet GoError Kube KubeRef Api Io Names SlugPolicy Model Auth TokenRequest TokenRequestSafety TokenRequestFlow SlugRoute Workload WorkloadFacts Routing RoutingSafety HostedSafety SlugRouteFacts ByocTransport ByocTLS Byoc Assured Instance Runtime ByocNetFacts ByocFacts ByocWrites ByocSafety ByocCleanup InstanceSafety ByocRef.

(** ** The schema of a condition *)

(** The first and the last byte of a text satisfy a predicate; neither holds of "". *)
Definition first_is (p : ascii -> bool) (s : string) : bool :=
  match s with EmptyString => false | String c _ => p c end.

Fixpoint last_is (p : ascii -> bool) (s : string) : bool :=
  match s with
  | EmptyString => false
  | String c EmptyString => p c
  | String _ s' => last_is p s'
  end.

(** [^[A-Za-z]([A-Za-z0-9_,:]*[A-Za-z0-9_])?$], at most 1024 characters. *)
Definition reason_valid (s : string) : bool :=
  (String.length s <=? 1024)%nat && first_is is_alpha s && last_is (fun c => is_alnum c || one_of "_" c) s
  && str_forall (fun c => is_alnum c || one_of "_,:" c) s.

Definition dns_label_valid (s : string) : bool :=
  let p c := is_lower c || is_digit c in
  first_is p s && last_is p s && str_forall (fun c => p c || one_of "-" c) s.

(** An optional DNS prefix with a slash, then the name, at most 316 characters. *)
Definition type_valid (s : string) : bool :=
  let name_valid n := first_is is_alnum n && last_is is_alnum n && str_forall (fun c => is_alnum c || one_of "-_." c) n in
  (String.length s <=? 316)%nat &&
  match cut_byte "/" s with
  | (name, None) => name_valid name
  | (prefix, Some name) => forallb dns_label_valid (split_byte "." prefix) && name_valid name
  end.

(** The schema of one condition, but for the 32768 characters a message may have. *)
Definition condition_valid (c : Condition) : bool :=
  type_valid (cond_Type c) && existsb (String.eqb (cond_Status c)) ["True"; "False"; "Unknown"]
  && reason_valid (cond_Reason c) && (0 <=? cond_ObservedGeneration c)%Z.

(** ** Well-typed objects *)

(** Valid conditions, one of a type, and a Ready condition that agrees with the phase. *)
Record conditions_typed (phase : string) (cs : list Condition) : Prop := {
  ct_valid : Forall (fun c => condition_valid c = true) cs;
  ct_unique : NoDup (cond_Type <$> cs);
  ct_ready : forall c, c ∈ cs -> cond_Type c = "Ready" -> (cond_Status c = ConditionTrue <-> phase = "Ready");
}.

Record instance_typed (i : LLMInstance) : Prop := {
  it_generation : (0 <= Generation (inst_Meta i))%Z;
  it_phase : Phase (Status i) ∈ [""; "Provisioning"; "Ready"; "Rejected"];
  it_conditions : conditions_typed (Phase (Status i)) (Conditions (Status i));
  it_rejected : Phase (Status i) = "Rejected" -> Endpoint (Status i) = "";
}.

Record request_sound (tr : APITokenRequest) : Prop := {
  rs_generation : (0 <= Generation (tr_Meta tr))%Z;
  rs_phase : tr_Phase (tr_Status tr) ∈ [""; "Pending"; "Ready"];
  rs_conditions : conditions_typed (tr_Phase (tr_Status tr)) (tr_Conditions (tr_Status tr));
}.

(** A Ready request also names its Secret. *)
Definition request_typed (tr : APITokenRequest) : Prop :=
  request_sound tr /\ (tr_Phase (tr_Status tr) = "Ready" -> SecretName (tr_Status tr) <> "").

Definition object_typed (K : kind) : obj K -> Prop :=
  match K with
  | KInstance => instance_typed
  | KTokenRequest => request_typed
  | _ => fun _ => True
  end.

Definition ok_typed (K : kind) (r : res (obj K)) : Prop :=
  match r with Ok o => object_typed K o | Err _ => True end.

(** The API server returns typed objects, *)
Definition answers_typed (e : event) : answer e -> Prop :=
  match e with
  | EGet _ K _ | ECreate _ K _ | EUpdate _ K _ | EUpdateStatus _ K _ | EPatchStatus _ K _ _ => ok_typed K
  | EList _ K _ _ => fun r => match r with Ok l => Forall (object_typed K) l | Err _ => True end
  | _ => fun _ => True
  end.

(** and is sent typed objects. *)
Definition sends_typed (e : event) : Prop :=
  match e with
  | ECreate _ K o | EUpdate _ K o | EUpdateStatus _ K o | EPatchStatus _ K _ o => object_typed K o
  | _ => True
  end.

Local Abbreviation typed m Q := (assured answers_typed sends_typed m Q).
Local Abbreviation keeps_typed := (keeps instance_typed).

Section Typed.
  Context `{KubeLaws} `{X509Lib} `{ClientLib}.

(** A status whose Ready condition is set along with the phase. *)
Lemma set_ready_typed (phase status reason message : string) (now generation : Z) (phase0 : string) (cs : list Condition) :
  conditions_typed phase0 cs -> reason_valid reason = true -> (0 <= generation)%Z ->
  status = ConditionTrue /\ phase = "Ready" \/ status = ConditionFalse /\ phase <> "Ready" ->
  conditions_typed phase (SetStatusCondition now cs
    {| cond_Type := "Ready"; cond_Status := status; cond_ObservedGeneration := generation;
       cond_LastTransitionTime := 0; cond_Reason := reason; cond_Message := message |}).
Proof.
  intros [C1 C2 _] Hr Hg Hs. set (c := {| cond_Type := _ |}).
  destruct (SetStatusCondition_unique now cs c C2) as [U1 U2].
  assert (Hc : condition_valid c = true).
  { unfold condition_valid, c. cbn [cond_Type cond_Status cond_Reason cond_ObservedGeneration]. rewrite Hr.
    apply Z.leb_le in Hg. rewrite Hg. by destruct Hs as [[-> _] | [-> _]]. }
  split; [| done |].
  - rewrite Forall_forall. intros x [[Hx _] | [t ->]]%U2; [| exact Hc]. rewrite Forall_forall in C1. by apply C1.
  - intros x [[_ Hx] | [t ->]]%U2 Ht; [done |]. change (cond_Status (c <| cond_LastTransitionTime := t |>)) with status.
    unfold ConditionTrue, ConditionFalse in *. naive_solver.
Qed.

Lemma with_status_typed (i : LLMInstance) (now : Z) (status phase endpoint reason message : string) :
  instance_typed i -> reason_valid reason = true -> phase ∈ ["Provisioning"; "Ready"; "Rejected"] ->
  status = ConditionTrue /\ phase = "Ready" \/ status = ConditionFalse /\ phase <> "Ready" ->
  (phase = "Rejected" -> endpoint = "") ->
  instance_typed (with_status i now status phase endpoint reason message).
Proof.
  intros [I1 I2 I3 I4] Hr Hp Hs He. unfold with_status. split; [exact I1 | cbn; set_solver | | exact He].
  cbn. by eapply set_ready_typed.
Qed.

(** ** The hosted part *)

Section Hosted.
  Variable rc : LLMInstanceReconciler.

Lemma deployment_typed (i : LLMInstance) labels model : typed (reconcileDeployment i labels model) (fun _ => True).
Proof. unfold reconcileDeployment. repeat assured_step; done. Qed.

Lemma service_typed (i : LLMInstance) labels name : typed (reconcileService i labels name) (fun _ => True).
Proof. unfold reconcileService. repeat assured_step; done. Qed.

Lemma strip_typed (i : LLMInstance) labels name prefix :
  typed (reconcileStripMiddleware i labels name prefix) (fun _ => True).
Proof. unfold reconcileStripMiddleware. repeat assured_step; done. Qed.

Lemma auth_typed (i : LLMInstance) labels name slug create :
  typed (reconcileAuthMiddleware rc i labels name slug create) (fun _ => True).
Proof. unfold reconcileAuthMiddleware. repeat assured_step; done. Qed.

Lemma route_typed (i : LLMInstance) slug : typed (checkSlugRoute rc i slug) (fun _ => True).
Proof. unfold checkSlugRoute. cbv zeta. repeat assured_step; done. Qed.

Lemma ingress_typed (i : LLMInstance) labels name prefix : typed (reconcileIngress rc i labels name prefix) (fun _ => True).
Proof.
  unfold reconcileIngress. apply assured_fbind. eapply assured_mono; [apply route_typed |].
  intros [] _; [| done]. repeat assured_step; done.
Qed.

Definition reason_of (r : res (bool * string * string)) : Prop :=
  match r with Ok (_, reason, _) => reason_valid reason = true | Err _ => True end.

Lemma deploymentReadiness_reason (d : Deployment) (name : string) :
  let '(ready, reason, _) := deploymentReadiness d name in ready = false -> reason_valid reason = true.
Proof. unfold deploymentReadiness. cbv zeta. repeat case_match; simplify_eq; done. Qed.

Lemma readiness_typed (i : LLMInstance) name :
  typed (evaluateInstanceReadiness i name) reason_of.
Proof.
  unfold evaluateInstanceReadiness, serviceHasReadyEndpoints, runServiceHealthCheck, defaultServiceHealthChecker. assured_step. assured_step; [done |].
  destruct r as [d|err]; [| by destruct (IsNotFound err)].
  pose proof (deploymentReadiness_reason d (llama_name i)) as Hd.
  destruct (deploymentReadiness d (llama_name i)) as [[[] reason] message]; cbn [negb]; [| by apply Hd].
  repeat assured_step; done.
Qed.

(** ** Status updates *)

Lemma provisioning_update_typed (i : LLMInstance) endpoint reason message :
  instance_typed i -> reason_valid reason = true ->
  typed (updateProvisioningStatus i endpoint reason message) (fun r => match r with Ok i => instance_typed i | Err _ => True end).
Proof.
  intros Hi Hr. unfold updateProvisioningStatus. assured_step. split; [done |]. intros now _. cbn [assured].
  split; [| by intros []]. cbn. apply with_status_typed; try done; [set_solver | right; done].
Qed.

Lemma ready_update_typed (i : LLMInstance) endpoint :
  instance_typed i -> typed (updateReadyStatus i endpoint) (fun r => match r with Ok i => instance_typed i | Err _ => True end).
Proof.
  intros Hi. unfold updateReadyStatus. assured_step. split; [done |]. intros now _. cbn [assured].
  split; [| by intros []]. cbn. apply with_status_typed; try done; [set_solver | left; done].
Qed.

Lemma rejectSlug_typed (i : LLMInstance) cause : instance_typed i -> typed (rejectSlug rc i cause) (fun _ => True).
Proof.
  intros Hi. unfold rejectSlug. case_match; [done |]. assured_step. split; [done |]. intros got _. cbn [assured].
  assert (K : forall routeErr, typed (let! stored := updateProvisioningStatus i "" "SlugOwnershipError"
      "Inference identity requires a valid operator policy and an exclusively owned route" in
    mret (errors_Join [Some cause; routeErr; err_of stored])) (fun _ => True)).
  { intros routeErr. assured_step. eapply assured_mono; [by apply provisioning_update_typed | done]. }
  assured_step. destruct got as [ing|err]; [| apply K]. destruct (ownsSlugIngress i ing); cbn [negb]; [| apply K].
  assured_step. split; [done |]. intros deleted _. apply K.
Qed.

Lemma rejectModelSettings_typed (i : LLMInstance) message :
  instance_typed i -> typed (rejectModelSettings i message) (fun _ => True).
Proof.
  intros Hi. unfold rejectModelSettings. assured_step. split; [done |]. intros now _. cbn [assured].
  case_bool_decide; [done |]. assured_step. split; [| done]. cbn.
  apply with_status_typed; try done; [set_solver | right; done].
Qed.

(** An update of the other fields of the status keeps it typed. *)
Lemma same_status_typed (i i' : LLMInstance) :
  instance_typed i -> Generation (inst_Meta i') = Generation (inst_Meta i) ->
  Phase (Status i') = Phase (Status i) -> Conditions (Status i') = Conditions (Status i) ->
  Endpoint (Status i') = Endpoint (Status i) -> instance_typed i'.
Proof. intros [] E1 E2 E3 E4. split; rewrite ?E1, ?E2, ?E3, ?E4; done. Qed.

Lemma or_reject_typed (i : LLMInstance) step k :
  instance_typed i -> typed step (fun _ => True) -> typed k (fun _ => True) ->
  typed (or_reject rc i step k) (fun _ => True).
Proof.
  intros Hi Hs Hk. unfold or_reject. assured_step. eapply assured_mono; [exact Hs |]. intros [] _; [exact Hk |].
  assured_step. eapply assured_mono; [by apply rejectSlug_typed | done].
Qed.

Lemma hosted_typed (i : LLMInstance) slug model : instance_typed i -> typed (reconcileHosted rc i slug model) (fun _ => True).
Proof.
  intros Hi0. unfold reconcileHosted. cbv zeta. set (i1 := i <| Status -> ActiveBYOCKubeconfigSecretName := "" |>).
  assert (Hi : instance_typed i1) by by eapply same_status_typed.
  apply or_reject_typed; [done | apply deployment_typed |].
  apply or_reject_typed; [done | apply service_typed |].
  apply or_reject_typed; [done | apply strip_typed |].
  apply or_reject_typed; [done | apply auth_typed |].
  apply or_reject_typed; [done | apply ingress_typed |].
  assured_step. eapply assured_mono; [apply readiness_typed |]. intros [[[ready reason] message]|e] Hr; [| done].
  destruct ready; cbn [negb]; assured_step.
  - eapply assured_mono; [by apply ready_update_typed |]. by intros [].
  - eapply assured_mono; [by apply provisioning_update_typed |]. by intros [].
Qed.

End Hosted.

(** ** The bring-your-own part *)

Section Remote.
  Variable rc : LLMInstanceReconciler.

(** The disciplines of the parts without a status send no instance and no request. *)
Lemma read_sends (e : event) : read_only e -> sends_typed e.
Proof. by destruct e. Qed.

Lemma object_sends (c : client) i (K : kind) key C h e :
  object_write c i K key C h e -> K <> KInstance -> K <> KTokenRequest -> sends_typed e.
Proof. intros [] Hi Ht; [by apply read_sends | by destruct K ..]. Qed.

Lemma credentials_sends i slug data h e : credentials_write i slug data h e -> sends_typed e.
Proof. by intros []; [apply read_sends | ..]. Qed.

Lemma certificate_sends i cfg targetID h e : certificate_write i cfg targetID h e -> sends_typed e.
Proof. by intros []; [apply read_sends | ..]. Qed.

Lemma dns_sends i cfg targetID address h e : dns_write i cfg targetID address h e -> sends_typed e.
Proof. by intros []; [apply read_sends | ..]. Qed.

Lemma tls_sends i cfg targetID c h e : tls_write i cfg targetID c h e -> sends_typed e.
Proof. by intros []; [apply read_sends | ..]. Qed.

Lemma workload_sends i slug data targetID tlsName hostname h e :
  workload_write rc slug i data targetID tlsName hostname h e -> sends_typed e.
Proof.
  intros []; [by apply read_sends | by eapply object_sends | by eapply certificate_sends | by eapply dns_sends
    | by eapply tls_sends | by eapply object_sends ..].
Qed.

Lemma managed_sends i cfg targetID h e : managed_write i cfg targetID h e -> sends_typed e.
Proof. by intros []; [apply read_sends | eapply certificate_sends | ..]. Qed.

Lemma target_sends i cfg slug data targetID h e : target_write i cfg slug data targetID h e -> sends_typed e.
Proof. by intros []; [apply read_sends | ..]. Qed.

Lemma removal_sends i slug h e : credentials_removal i slug h e -> sends_typed e.
Proof. by intros []; [apply read_sends | ..]. Qed.

Lemma final_sends i h e : final_write rc i h e -> sends_typed e.
Proof. by intros (slug & _ & []); [apply read_sends | eapply managed_sends | eapply target_sends | eapply removal_sends]. Qed.

(** A part proved under such a discipline is typed. *)
Lemma disciplined_typed {A} (D : history -> event -> Prop) (m : io A) (Q : history -> A -> Prop) :
  safe (recording D) [] m Q -> (forall h e, D h e -> sends_typed e) -> typed m (fun _ => True).
Proof. intros Hm HD. eapply assured_mono; [by eapply recorded_assured | done]. Qed.

Lemma workload_typed i slug inst data targetID tlsName hostname :
  typed (reconcileBYOCWorkload rc (Remote data) i slug (modelForInstance inst) targetID tlsName hostname) (fun _ => True).
Proof. eapply disciplined_typed; [eapply workload_safe, modelForInstance_no_host | apply workload_sends]. Qed.

Lemma namespace_typed (remote : client) : typed (ensureBYOCNamespace remote) (fun _ => True).
Proof. unfold ensureBYOCNamespace. repeat assured_step; done. Qed.

Lemma byoc_readiness_typed (remote : client) slug hostname revision :
  typed (evaluateBYOCReadiness remote slug hostname revision)
    (fun r => match r with Ok (_, _, reason, _) => reason_valid reason = true | Err _ => True end).
Proof.
  unfold evaluateBYOCReadiness, runBYOCHealthCheck. assured_step. assured_step; [done |].
  destruct r as [d|err]; [| by destruct (IsNotFound err)].
  pose proof (deploymentReadiness_reason d (byocBaseName slug)) as Hd.
  destruct (deploymentReadiness d (byocBaseName slug)) as [[[] reason] message]; cbn [negb]; [| by apply Hd].
  cbv zeta. repeat assured_step; done.
Qed.

Lemma client_typed (i : LLMInstance) :
  typed (byocClient i) (fun r => match r with
    | Ok (inl (remote, _)) => exists data, remote = Remote data
    | Ok (inr (reason, _)) => reason_valid reason = true
    | Err _ => True end).
Proof.
  unfold byocClient, byocKubeconfig. cbv zeta. assured_step. assured_step. split; [done |]. intros got _. cbn [assured].
  destruct got as [sec|err]; [| by destruct (IsNotFound err)]. case_bool_decide; cbn [negb]; [done |]. cbn [assured fret].
  destruct (remoteClientForKubeconfig _) eqn:Em; [| done]. apply remote_client_built in Em as [-> _]. by eexists.
Qed.

(** ** Steps that thread the instance *)

Lemma store_typed (i : LLMInstance) status phase endpoint reason message :
  instance_typed i -> reason_valid reason = true ->
  status = ConditionTrue /\ phase = "Ready" \/ status = ConditionFalse /\ phase = "Provisioning" ->
  typed (store_status status phase endpoint reason message i) keeps_typed.
Proof.
  intros Hi Hr Hs. unfold store_status. assured_step. split; [done |]. intros now _. cbn [assured]. assured_step.
  assert (Hw : instance_typed (with_status i now status phase endpoint reason message)).
  { apply with_status_typed; [done | done | | |]; destruct Hs as [[-> ->] | [-> ->]]; try done; [set_solver .. | by left | by right]. }
  split; [exact Hw |]. intros [o|e] Ho; [exact Ho | exact Hw].
Qed.

Lemma provisioning_typed (i : LLMInstance) endpoint reason message :
  instance_typed i -> reason_valid reason = true -> typed (provisioning endpoint reason message i) keeps_typed.
Proof. intros Hi Hr. unfold provisioning. apply store_typed; [done | done | by right]. Qed.

Lemma publish_typed (i : LLMInstance) endpoint : instance_typed i -> typed (publish endpoint i) keeps_typed.
Proof. intros Hi. unfold publish. apply store_typed; [done | done | by left]. Qed.

Lemma serve_target_typed (i : LLMInstance) inst data slug targetID tlsName hostname :
  instance_typed i ->
  typed (serve_target rc (Remote data) slug (modelForInstance inst) targetID tlsName hostname i) keeps_typed.
Proof.
  intros Hi. unfold serve_target. eapply assured_or_return_lift; [done | apply namespace_typed |]. intros [] _.
  apply assured_or_return with (fun i' r => r = Ok i'); [done |]. intros i1 ? Hi1 [= <-].
  apply assured_or_return with (fun i' r => True).
  { apply assured_attempt; [done | apply workload_typed]. }
  intros i2 [revision|err] Hi2 _.
  - eapply assured_or_return_lift; [done | apply byoc_readiness_typed |]. intros [[[ready endpoint] reason] message] Hr.
    destruct ready; cbn [negb]; [| by apply assured_return_with, provisioning_typed].
    apply assured_or_return with (fun i' r => True); [| done].
    eapply assured_mono; [by apply publish_typed |]. by intros [i' r].
  - destruct (errors_Is err ErrBYOCTLSNotReady); [| done]. by apply assured_return_with, provisioning_typed.
Qed.

Lemma identity_typed (remote : client) apiID : typed (byocClusterIdentity remote apiID) (fun _ => True).
Proof. unfold byocClusterIdentity. repeat assured_step; done. Qed.

Lemma body_typed (i : LLMInstance) inst slug :
  instance_typed i -> typed (reconcileBYOC_body rc slug (modelForInstance inst) i) keeps_typed.
Proof.
  intros Hi. unfold reconcileBYOC_body. apply assured_or_return with (fun i' r => i' = i /\ r = Ok i); [done |].
  intros i' a _ [-> [= ->]]. destruct (tls_migrated rc i); [done |]. destruct (negb _ && negb _); [done |].
  eapply assured_or_return_lift; [done | apply client_typed |].
  intros [[remote data]|[reason message]] Hc; [| by apply assured_return_with, provisioning_typed].
  destruct Hc as [data' ->].
  eapply assured_or_return_lift; [done | apply assured_of_res |]. intros apiID _.
  eapply assured_or_return_lift; [done | apply identity_typed |]. intros targetID _.
  eapply assured_or_return_lift; [done | apply assured_of_res |]. intros [tlsName hostname] _.
  destruct (negb _ && negb _); [done |].
  eapply assured_or_return_lift; [done | eapply disciplined_typed; [apply credentials_safe | apply credentials_sends] |].
  intros [] _. apply assured_or_return with (fun _ _ => True); [| intros i1 [] Hi1 _; by apply serve_target_typed].
  destruct (target_recorded i); [done |].
  apply assured_mono with keeps_typed; [| intros [i1 r1] Hx; split; [exact Hx | exact I]].
  apply assured_sbind with (fun _ _ => True); [by split; [eapply same_status_typed |] |].
  intros i1 [] Hi1 _. by apply provisioning_typed.
Qed.

Lemma byoc_typed (i : LLMInstance) inst slug :
  instance_typed i -> typed (reconcileBYOC rc slug (modelForInstance inst) i) (fun _ => True).
Proof.
  intros Hi. unfold reconcileBYOC. assured_step. eapply assured_mono; [by apply body_typed |].
  intros [i' [result [e|]]] Hi'; [| done]. assured_step. eapply assured_mono; [by apply provisioning_typed |].
  by intros [i2 []].
Qed.

(** ** A changed target *)

Lemma cached_typed (i : LLMInstance) slug : typed (cachedBYOCKubeconfig i slug) (fun _ => True).
Proof. unfold cachedBYOCKubeconfig. repeat assured_step; done. Qed.

Lemma same_target_typed (i : LLMInstance) oldData : typed (same_target i oldData) (fun _ => True).
Proof.
  unfold same_target, byocKubeconfig, byocClusterIdentity, of_res. cbv zeta. repeat assured_step; done.
Qed.

Lemma change_typed (i : LLMInstance) slug : instance_typed i -> typed (cleanupChangedBYOCTarget rc slug i) keeps_typed.
Proof.
  intros Hi. unfold cleanupChangedBYOCTarget. apply assured_sbind with (fun i' r => i' = i /\ r = Ok i); [done |].
  intros i' a _ [-> [= ->]]. case_bool_decide; [done |]. cbv zeta.
  apply assured_sbind_lift; [done | apply cached_typed |]. intros [oldData|]; [| done].
  apply assured_sbind_lift; [done | apply same_target_typed |]. intros [|]; [done |].
  apply assured_sbind with (fun _ _ => True); [eapply assured_mono; [by apply provisioning_typed | by intros []] |].
  intros i1 [] Hi1 _. apply assured_sbind with (fun i' r => r = Ok i'); [done |]. intros i2 ? Hi2 [= <-].
  apply assured_sbind_lift; [done | eapply disciplined_typed; [apply managed_tls_safe | apply managed_sends] |]. intros [].
  apply assured_sbind_lift; [done | eapply disciplined_typed; [apply clean_target_safe | apply target_sends] |]. intros [].
  apply assured_sbind with (fun _ _ => True); [by split; [eapply same_status_typed |] |]. intros i3 [] Hi3 _.
  apply assured_sbind with (fun _ _ => True); [eapply assured_mono; [by apply provisioning_typed | by intros []] |].
  intros i4 [] Hi4 _. apply assured_sbind with (fun i' r => r = Ok i'); [done |]. intros i5 ? Hi5 [= <-].
  eapply assured_mono; [apply assured_lift; eapply disciplined_typed; [apply delete_credentials_safe | apply removal_sends] |].
  by intros [i' r] [-> _].
Qed.

(** ** The entry *)

Lemma getInstance_typed req :
  typed (getInstance rc req) (fun r => match r with Ok (Some i) => instance_typed i | _ => True end).
Proof.
  unfold getInstance. assured_step. split; [done |]. intros [i|err] Hr; [exact Hr |]. cbn. by destruct (IsNotFound err).
Qed.

Lemma with_finalizers_typed (i : LLMInstance) f :
  instance_typed i -> instance_typed (i <| inst_Meta -> Finalizers ::= f |>).
Proof. intros Hi. by eapply same_status_typed. Qed.

Lemma release_typed tries req (i : LLMInstance) : instance_typed i -> typed (releaseInstance rc tries req i) (fun _ => True).
Proof.
  revert i. induction tries as [|tries IH]; intros i Hi; [done |]. cbn [releaseInstance]. assured_step.
  split; [by apply with_finalizers_typed |]. intros [o|err] _; [done |]. cbn [assured].
  destruct (IsNotFound err); [done |]. destruct (IsConflict err); [| done].
  assured_step. eapply assured_mono; [apply getInstance_typed |]. intros [[fresh|]|e] Hf; [by apply IH | done ..].
Qed.

Lemma finalize_instance_typed (i : LLMInstance) req : instance_typed i -> typed (finalizeLLMInstance rc i req) (fun _ => True).
Proof.
  intros Hi. unfold finalizeLLMInstance. destruct (ContainsFinalizer _ _); [| done].
  destruct (byoc_bound i); [| by apply release_typed]. assured_step.
  eapply assured_mono; [eapply disciplined_typed; [apply cleanup_safe | apply final_sends] |].
  intros [] _; [by apply release_typed | done].
Qed.

Lemma ensureSlug_typed (i : LLMInstance) : instance_typed i -> typed (ensureSlug rc i) keeps_typed.
Proof.
  intros Hi. unfold ensureSlug. destruct (selectSlug rc i) as [sel|]; [| done]. case_match; [done |].
  assert (Hi' : instance_typed (i <| Status -> Slug := sel_Slug sel |> <| Status -> SlugSource := sel_Source sel |>))
    by by eapply same_status_typed.
  cbv zeta. assured_step. split; [exact Hi' |]. intros [o|e] Ho; cbn [assured]; [| exact Hi'].
  assured_step. split; [done |]. by intros.
Qed.

Lemma live_typed (i : LLMInstance) : instance_typed i -> typed (reconcileLive rc i) (fun _ => True).
Proof.
  intros Hi. assert (Hreject : forall i err, instance_typed i -> typed (reject rc i err) (fun _ => True)).
  { intros i' err Hi'. unfold reject. assured_step. eapply assured_mono; [by apply rejectSlug_typed | done]. }
  unfold reconcileLive. destruct (selectSlug rc i) as [sel|err] eqn:Es; [| by apply Hreject].
  assured_step. eapply assured_mono.
  { unfold upgradeExistingAuthMiddleware. rewrite Es. instantiate (1 := fun _ => True). destruct (IsBYOC i); [done | apply auth_typed]. }
  intros [[]|err] _; [| by apply Hreject].
  destruct (check (rec_Ceilings rc) i).
  { assured_step. eapply assured_mono; [by apply rejectModelSettings_typed | done]. }
  destruct (ContainsFinalizer _ _); cbn [negb].
  2: { cbv zeta. assured_step. split; [by apply with_finalizers_typed | done]. }
  assured_step. eapply assured_mono; [by apply ensureSlug_typed |]. intros [i1 [[slug [|]]|err]] Hi1; [done | | by apply Hreject].
  assured_step. eapply assured_mono; [instantiate (1 := fun _ => True); destruct (negb (IsBYOC i1)); [apply route_typed | done] |].
  intros [[]|err] _; [| by apply Hreject]. unfold reconcileTarget. cbv zeta.
  assured_step. eapply assured_mono; [by apply change_typed |]. intros [i2 [[]|err]] Hi2.
  - destruct (IsBYOC i2); [| by apply hosted_typed]. assured_step.
    eapply assured_mono; [by apply byoc_typed | by intros []].
  - assured_step. eapply assured_mono; [by apply provisioning_typed |]. by intros [i3 []].
Qed.

Lemma reconcile_typed req : typed (Instance.Reconcile rc req) (fun _ => True).
Proof.
  unfold Instance.Reconcile. assured_step. eapply assured_mono; [apply getInstance_typed |].
  intros [[i|]|err] Hi; [| done ..]. destruct (negb _); [| by apply live_typed].
  assured_step. eapply assured_mono; [by apply finalize_instance_typed | done].
Qed.

End Remote.

(** ** Token requests *)

Section Tokens.
  Variable policy : option Policy.

(** The condition replaced, the status it belongs to keeps one condition of a type. *)
Lemma set_request_ready_typed (tr : APITokenRequest) (phase status reason message secretName : string) (now : Z) :
  request_sound tr -> reason_valid reason = true ->
  status = ConditionTrue /\ phase = "Ready" /\ secretName <> "" \/ status = ConditionFalse /\ phase = "Pending" ->
  request_typed ((setTRStatusCondition tr (ready_condition status reason message now))
    <| tr_Status -> SecretName := secretName |> <| tr_Status -> tr_Phase := phase |>
    <| tr_Status -> tr_ObservedGeneration := Generation (tr_Meta tr) |>).
Proof.
  intros [R1 R2 [C1 C2 C3]] Hr Hs. unfold setTRStatusCondition. set (c := ready_condition _ _ _ _).
  assert (Hc : condition_valid c = true).
  { unfold condition_valid, c, ready_condition. cbn [cond_Type cond_Status cond_Reason cond_ObservedGeneration]. rewrite Hr.
    by destruct Hs as [(-> & _) | [-> _]]. }
  split; [split; cbn; [exact R1 | set_solver | split] | cbn; naive_solver].
  - apply Forall_app; split; [| by constructor]. rewrite Forall_forall in C1 |- *.
    intros d [_ Hd]%list_elem_of_filter. by apply C1.
  - rewrite fmap_app. apply NoDup_app. split_and!; [| | apply NoDup_singleton].
    + eapply sublist_NoDup; [exact C2 | apply fmap_sublist, sublist_filter].
    + intros t (d & -> & [Hd _]%list_elem_of_filter)%list_elem_of_fmap Ht. apply list_elem_of_singleton in Ht. done.
  - intros d [[Hd _]%list_elem_of_filter | ->%list_elem_of_singleton]%elem_of_app Ht; [done |].
    cbn. unfold ConditionTrue, ConditionFalse in *. naive_solver.
Qed.

Lemma same_request_typed (tr tr' : APITokenRequest) :
  request_typed tr -> Generation (tr_Meta tr') = Generation (tr_Meta tr) ->
  tr_Phase (tr_Status tr') = tr_Phase (tr_Status tr) -> tr_Conditions (tr_Status tr') = tr_Conditions (tr_Status tr) ->
  SecretName (tr_Status tr') = SecretName (tr_Status tr) -> request_typed tr'.
Proof. intros [[] ?] E1 E2 E3 E4. split; [split |]; rewrite ?E1, ?E2, ?E3, ?E4; auto. Qed.

Definition request_sound_if (r : res APITokenRequest) : Prop := match r with Ok tr => request_sound tr | Err _ => True end.
Definition request_kept (r : res APITokenRequest) : Prop := match r with Ok tr => request_typed tr | Err _ => True end.

Lemma pending_typed (tr : APITokenRequest) reason message :
  request_sound tr -> reason_valid reason = true -> typed (updatePendingStatus tr reason message) (fun _ => True).
Proof.
  intros Ht Hr. unfold updatePendingStatus. assured_step. split; [done |]. intros now _. cbn [assured]. split; [| done].
  apply (set_request_ready_typed tr "Pending" ConditionFalse reason message (SecretName (tr_Status tr)) now); auto.
Qed.

Lemma ready_typed (tr : APITokenRequest) secretName :
  request_typed tr -> secretName <> "" -> typed (TokenRequest.updateReadyStatus tr secretName) (fun _ => True).
Proof.
  intros [Ht _] Hs. unfold TokenRequest.updateReadyStatus. assured_step. split; [done |]. intros now _. cbn [assured]. split; [| done].
  apply (set_request_ready_typed tr "Ready" ConditionTrue "Provisioned" "Token generated" secretName now); auto.
Qed.

Lemma touch_typed (tr : APITokenRequest) version : request_typed tr -> typed (touchAPITokenRequest tr version) request_kept.
Proof.
  intros Ht. unfold touchAPITokenRequest. case_match; [exact Ht |]. assured_step. split; [done |]. intros now _.
  cbn [assured]. split; [by eapply same_request_typed |]. by intros [].
Qed.

Lemma rotate_typed sec inst allow slug : typed (rotateTokenForTarget sec inst allow slug) (fun _ => True).
Proof. unfold rotateTokenForTarget, generateToken. repeat assured_step; done. Qed.

Lemma createSecret_typed tr inst name slug endpoint : typed (createSecret tr inst name slug endpoint) (fun _ => True).
Proof. unfold createSecret, generateToken. repeat assured_step; done. Qed.

Lemma update_when_typed (changed : bool) (sec : Secret) :
  typed (if changed then call (EUpdate Cached KSecret sec) else fret sec) (fun _ => True).
Proof. by destruct changed. Qed.

Lemma ensureSecret_typed tr inst name slug endpoint :
  request_typed tr -> typed (ensureSecret tr inst name slug endpoint) request_kept.
Proof.
  intros Ht. unfold ensureSecret. assured_step. split; [done |]. intros got _. cbn [assured].
  destruct got as [sec|err].
  - destruct (ownsTokenSecret tr sec); cbn [negb]; [| done]. assured_step.
    eapply assured_mono; [apply rotate_typed |]. intros [[sec1 rotated]|] _; [| done].
    destruct (applySecretMutations _ _ _ _) as [sec2 updated]. assured_step.
    eapply assured_mono; [apply update_when_typed |]. intros [sec3|] _; [by apply touch_typed | done].
  - destruct (IsNotFound err); [| done]. assured_step. eapply assured_mono; [apply createSecret_typed |].
    by intros [] _.
Qed.

Lemma invalidate_typed tr inst : request_typed tr -> typed (invalidateTokenEndpoint tr inst) request_sound_if.
Proof.
  intros Ht. unfold invalidateTokenEndpoint. assured_step. split; [done |]. intros got _. cbn [assured].
  destruct got as [sec|err]; [| destruct (IgnoreNotFound (Some err)); [done | apply Ht]].
  destruct (ownsTokenSecret tr sec) eqn:Ho; cbn [negb]; [| done]. assured_step.
  eapply assured_mono; [apply rotate_typed |]. intros [su|] _; [| done].
  destruct (withdraw _) as [sec1 changed]. assured_step. eapply assured_mono; [apply update_when_typed |].
  intros [sec2|] _; [| done]. assured_step. eapply assured_mono; [by apply touch_typed |].
  intros [tr'|] Htr; [| done]. destruct Htr as [[] _]. by split.
Qed.

Lemma with_request_finalizers_typed (tr : APITokenRequest) f :
  request_typed tr -> request_typed (tr <| tr_Meta -> Finalizers ::= f |>).
Proof. intros Ht. by eapply same_request_typed. Qed.

Lemma deleteOwned_typed tr items : typed (deleteOwned tr items) (fun _ => True).
Proof.
  induction items as [|sec items IH]; [done |]. cbn [deleteOwned]. destruct (negb _); [exact IH |].
  assured_step. split; [done |]. intros r _. exact IH.
Qed.

Lemma dropFinalizer_typed n key (tr : APITokenRequest) : request_typed tr -> typed (dropFinalizer n key tr) (fun _ => True).
Proof.
  revert tr. induction n as [|n IH]; intros tr Ht; [done |]. cbn [dropFinalizer]. assured_step.
  split; [by apply with_request_finalizers_typed |]. intros [o|err] _; [done |]. cbn [assured].
  destruct (IsNotFound err); [done |]. destruct (IsConflict err); [| done].
  assured_step. split; [done |]. intros [fresh|e] Hf; [by apply IH | done].
Qed.

Lemma finalize_request_typed (tr : APITokenRequest) : request_typed tr -> typed (finalizeTokenRequest tr) (fun _ => True).
Proof.
  intros Ht. unfold finalizeTokenRequest. destruct (negb _); [done |]. assured_step. split; [done |]. intros listed _.
  cbn [assured]. assured_step. eapply assured_mono.
  { instantiate (1 := fun _ => True). destruct listed; [apply deleteOwned_typed | done]. }
  intros [] _. assured_step. eapply assured_mono; [by apply dropFinalizer_typed | done].
Qed.

Lemma or_return_fio_typed {A} (m : fio A) (k : A -> io (Result * option error)) (Q : res A -> Prop) :
  typed m Q -> (forall a, Q (Ok a) -> typed (k a) (fun _ => True)) -> typed (or_return m k) (fun _ => True).
Proof.
  intros Hm Hk. unfold or_return. assured_step. eapply assured_mono; [exact Hm |]. intros [a|e] Ha; [by apply Hk | done].
Qed.

Lemma token_reconcile_typed req : typed (TokenRequest.Reconcile policy req) (fun _ => True).
Proof.
  unfold TokenRequest.Reconcile. assured_step. split; [done |]. intros [tr|err] Ht; [| done]. cbn in Ht. cbn [assured].
  destruct (negb _); [by apply finalize_request_typed |]. unfold ensureFinalizer. assured_step.
  destruct (ContainsFinalizer _ _).
  2: { assured_step. split; [by apply with_request_finalizers_typed |]. by intros []. }
  cbn [assured mret io_ret]. assured_step. split; [done |]. intros [inst|err] Hi; cbn [assured].
  - unfold reconcileInstance. cbv zeta. destruct (_ || _).
    + eapply or_return_fio_typed; [by apply invalidate_typed |]. intros tr' Ht'.
      eapply or_return_fio_typed; [by apply pending_typed | done].
    + eapply or_return_fio_typed; [by apply ensureSecret_typed |]. intros tr' Ht'.
      eapply or_return_fio_typed; [apply ready_typed; [done | by destruct (Name (tr_Meta tr))] | done].
  - destruct (IsNotFound err); [| done].
    eapply or_return_fio_typed; [by apply invalidate_typed |]. intros tr' Ht'.
    eapply or_return_fio_typed; [by apply pending_typed | done].
Qed.

Lemma handler_typed (r : Request) : typed (Handler policy r) (fun _ => True).
Proof. eapply disciplined_typed; [apply Handler_safe | by intros h e []]. Qed.

End Tokens.

(** ** The operator *)

Section Operator.
  Variable rc : LLMInstanceReconciler.

Variable version : string.

(** The labels the manager's client adds keep objects typed. *)
Lemma label_typed base (K : kind) (o : obj K) : object_typed K o -> object_typed K (label_object base K o).
Proof.
  assert (Hg : forall m, Generation (ensureLabels base m) = Generation m) by (intros m; unfold ensureLabels; by case_match).
  destruct K; cbn; try done.
  - intros Hi. eapply same_status_typed; [exact Hi | apply Hg | done ..].
  - intros Ht. eapply same_request_typed; [exact Ht | apply Hg | done ..].
Qed.

Lemma labelled_typed {A} base (m : io A) (Q : A -> Prop) : typed m Q -> typed (labelled base m) Q.
Proof.
  induction m as [a | e k IH]; [done |]. intros [He Hk]. cbn [labelled].
  destruct e as [| | [] K o | [] K o | | | | | | |]; cbn; (split; [exact He || by apply label_typed | intros r Hr; by apply IH, Hk]).
Qed.

(** What runs: reconciles of instances and token requests and the lookups of their
    watches, all through the labelling client, and requests to the forwardAuth server. *)
Inductive operator_handler : io unit -> Prop :=
| oh_instance req : operator_handler (labelled (baseLabels version) (Instance.Reconcile rc req ≫= fun _ => mret tt))
| oh_token req :
    operator_handler (labelled (baseLabels version) (TokenRequest.Reconcile (rec_SlugPolicy rc) req ≫= fun _ => mret tt))
| oh_request r : operator_handler (Handler (rec_SlugPolicy rc) r ≫= fun _ => mret tt)
| oh_secret_watch sec : operator_handler (findInstancesForSecret rc sec ≫= fun _ => mret tt)
| oh_instance_watch i : operator_handler (findTokenRequestsForInstance i ≫= fun _ => mret tt).

Lemma operator_typed (m : io unit) : operator_handler m -> typed m (fun _ => True).
Proof.
  intros []; try apply labelled_typed; apply assured_bind.
  - eapply assured_mono; [apply reconcile_typed | done].
  - eapply assured_mono; [apply token_reconcile_typed | done].
  - eapply assured_mono; [apply handler_typed | done].
  - unfold findInstancesForSecret. cbv zeta. case_match. assured_step. split; done.
  - unfold findTokenRequestsForInstance. assured_step. split; done.
Qed.

(** C13: take any API server that stores typed objects and answers with the objects it
    stores.  However the reconciles, the forwardAuth server and the watches of the
    operator interleave, call by call and any number of each, what is stored stays
    typed: every condition keeps to the published schema (but for the length of a
    message), there is one of a type, the phase is one of those the code defines and is
    Ready exactly when the Ready condition is True, a Rejected instance has no endpoint
    and a Ready request names its Secret. *)
Theorem stored_objects_typed {S} (E : env S) (I : S -> Prop) (s s' : S) (ms : list (io unit))
  (HE : upholds E I answers_typed sends_typed) (Hi : I s)
  (Hrun : rtc (pool_step E operator_handler) (s, []) (s', ms)) : I s'.
Proof. eapply pool_invariant; [exact HE | apply operator_typed | exact Hi | exact Hrun]. Qed.

End Operator.

End Typed.
(** ** A small API server *)

Module TypedExample.

(** It holds one instance and one token request, and nothing else is ever found. *)
Definition held : Type := LLMInstance * APITokenRequest.

Definition read (K : kind) (s : held) : res (obj K) :=
  match K with
  | KInstance => Ok s.1
  | KTokenRequest => Ok s.2
  | _ => Err ByocExample.not_found
  end.

Definition write (K : kind) (s : held) : obj K -> held :=
  match K with
  | KInstance => fun o => (o, s.2)
  | KTokenRequest => fun o => (s.1, o)
  | _ => fun _ => s
  end.

Definition server : env held := fun e s =>
  match e with
  | EGet _ K _ => (s, read K s)
  | EList _ K _ _ => (s, Ok [])
  | ECreate _ K o | EUpdate _ K o | EUpdateStatus _ K o | EPatchStatus _ K _ o => (write K s o, Ok o)
  | EDelete _ _ _ _ => (s, None)
  | ENow => (s, 1000%Z)
  | ERandom n => (s, Ok (repeat 7%Z n))
  | EProbe _ => (s, Ok 200%Z)
  | EHTTPS _ => (s, Err ByocExample.not_found)
  end.

Definition holds_typed (s : held) : Prop := instance_typed s.1 /\ request_typed s.2.

Lemma server_upholds : upholds server holds_typed answers_typed sends_typed.
Proof.
  assert (Hw : forall K (o : obj K) s, holds_typed s -> object_typed K o ->
    holds_typed (write K s o) /\ ok_typed K (Ok o)).
  { intros K o s [Hi Hr] Ho. split; [| exact Ho]. destruct K; by split. }
  intros s [] Hs He; cbn; auto; split; try done; try by constructor.
  destruct K; cbn; try done; apply Hs.
Qed.

Definition inst : LLMInstance := ModelExample.inst
  <| inst_Meta := empty_meta <| Name := "example" |> <| Namespace := "team" |> <| UID := "uid-1" |> <| Generation := 1%Z |>
                             <| CreationTimestamp := 63928785601000000000%Z |> |>.
Definition request : APITokenRequest := TokenExample.tr
  <| tr_Status := {| tr_Phase := ""; SecretName := ""; tr_ObservedGeneration := 0; tr_Conditions := [] |} |>.

Lemma initially_typed : holds_typed (inst, request).
Proof.
  split; split; try done; [set_solver | | split]; try (split; [constructor | constructor | set_solver]); [done | set_solver].
Qed.

(** Three reconciles of the instance (finalizer, slug, workload), then one of the request. *)
Definition handlers : list (io unit) :=
  let through m := labelled (baseLabels "v1") m in
  let reconcile := through (Instance.Reconcile ByocExample.rc (instance_key inst) ≫= fun _ => mret tt) in
  [reconcile; reconcile; reconcile;
   through (TokenRequest.Reconcile (rec_SlugPolicy ByocExample.rc) (ObjectKeyFromObject (tr_Meta request)) ≫= fun _ => mret tt)].

Definition after (s : held) : held := foldl (fun s m => (run server s m).1) s handlers.

Definition start : held := (inst, request).

(** What the instance's status says in the end. *)
Definition summary (i : LLMInstance) : string * list (string * string) :=
  (Phase (Status i), (fun c => (cond_Status c, cond_Reason c)) <$> Conditions (Status i)).

Lemma handlers_start : Forall (operator_handler ByocExample.rc "v1") handlers.
Proof. repeat constructor. Qed.

Lemma run_together (s : held) (ms done : list (io unit)) :
  Forall (operator_handler ByocExample.rc "v1") ms ->
  exists done', rtc (pool_step server (operator_handler ByocExample.rc "v1")) (s, done)
                    (foldl (fun s m => (run server s m).1) s ms, done').
Proof.
  intros Hms. revert s done. induction Hms as [|m ms Hm Hms IH]; intros s done; [by exists done |]. cbn [foldl].
  destruct (IH (run server s m).1 (Ret tt :: done)) as [done' Hd]. exists done'.
  etrans; [by apply pool_handler | exact Hd].
Qed.

End TypedExample.

Lemma stored_objects_typed_witness :
  TypedExample.holds_typed (TypedExample.after TypedExample.start) /\
  TypedExample.summary (TypedExample.after TypedExample.start).1 = ("Provisioning", [("False", "DeploymentNotFound")]).
Proof.
  split; [| vm_compute; reflexivity].
  destruct (TypedExample.run_together TypedExample.start TypedExample.handlers [] TypedExample.handlers_start) as [ms Hr].
  exact (stored_objects_typed ByocExample.rc "v1" TypedExample.server TypedExample.holds_typed TypedExample.start _ ms
           TypedExample.server_upholds TypedExample.initially_typed Hr).
Defined.
