(* ===== verification/EndToEnd.v ===== *)
(** * The components together

    The URL the instance controller writes is the binding the server reads; a Secret
    the token controller publishes is one the server grants; routes of different
    instances under one policy never compete; and where the controllers keep writing. *)

From Stdlib Require Import Ascii.
From S2P Require Import Prelude GoStd GoNet GoError Kube KubeRef Api Io Names SlugPolicy Model Auth TokenRequest TokenRequestFacts TokenRequestSafety TokenRequestFlow SlugRoute Workload Routing RoutingSafety HostedSafety.

(** ** The verification URL *)

Section Binding.
  Context `{KubeLib}.
  Variable rc : LLMInstanceReconciler.
  Variable inst : LLMInstance.
  Variable slug : string.

(** The identity of the instance is one the API server admits, and is not blank. *)
Record bindable : Prop := {
  bd_namespace : IsDNS1123Label (Namespace (inst_Meta inst)) = true;
  bd_name : IsDNS1123Subdomain (Name (inst_Meta inst)) = true;
  bd_slug : IsValidLabelValue slug = true;
  bd_set : Forall (fun v => TrimSpace v <> "")
             [Namespace (inst_Meta inst); Name (inst_Meta inst); UID (inst_Meta inst); slug];
}.

(** C15: the URL the instance controller writes into the forwardAuth middleware, split at
    its query, is parsed by the server into exactly the namespace, name, UID and slug of
    the instance, whatever bytes the UID has. *)
Theorem forwardAuth_binding (Hb : bindable)
  (Hbase : str_exists (Ascii.eqb "?"%char) (AuthServiceURL rc) = false) :
  exists base query, cut_byte "?"%char (authAddress rc inst slug) = (base, Some query) /\
    base = TrimRightByte (AuthServiceURL rc) "/"%char +:+ "/auth/verify" /\
    parseBinding (ParseQuery query) =
      Some {| ib_namespace := Namespace (inst_Meta inst); ib_name := Name (inst_Meta inst);
              ib_uid := UID (inst_Meta inst); ib_slug := slug |}.
Proof.
  assert (Htrim : forall s, str_exists (Ascii.eqb "?"%char) s = false ->
                            str_exists (Ascii.eqb "?"%char) (TrimRightByte s "/"%char) = false).
  { induction s as [|c s IH]; [done |]. cbn [str_exists TrimRightByte]. intros [Hc Hs]%orb_false_iff.
    specialize (IH Hs). destruct (TrimRightByte s "/"%char) as [|d t].
    - destruct (Ascii.eqb c "/"%char); cbn [str_exists]; [done |]. by rewrite Hc.
    - cbn [str_exists] in *. by rewrite Hc. }
  exists (TrimRightByte (AuthServiceURL rc) "/"%char +:+ "/auth/verify"), (encode_query (binding_query inst slug)).
  split_and!; [| done |].
  - unfold authAddress. set (base := TrimRightByte _ _). set (query := encode_query _).
    replace (base +:+ "/auth/verify?" +:+ query)
      with ((base +:+ "/auth/verify") +:+ String "?"%char query) by (by rewrite <-string_app_assoc).
    apply cut_byte_app. rewrite str_exists_app. unfold base. by rewrite Htrim.
  - rewrite ParseQuery_encode by done. destruct Hb as [B1 B2 B3 B4]. rewrite !Forall_cons in B4.
    destruct B4 as (N1 & N2 & N3 & N4 & _).
    assert (V : forall i n sl u,
      query_values [("instance", i); ("namespace", n); ("slug", sl); ("uid", u)] "namespace" = [n] /\
      query_values [("instance", i); ("namespace", n); ("slug", sl); ("uid", u)] "instance" = [i] /\
      query_values [("instance", i); ("namespace", n); ("slug", sl); ("uid", u)] "uid" = [u] /\
      query_values [("instance", i); ("namespace", n); ("slug", sl); ("uid", u)] "slug" = [sl]) by done.
    destruct (V (Name (inst_Meta inst)) (Namespace (inst_Meta inst)) slug (UID (inst_Meta inst))) as (V1 & V2 & V3 & V4).
    unfold parseBinding, binding_key_ok, query_get, binding_query. cbn [forallb].
    rewrite V1, V2, V3, V4, !bool_decide_false by done. cbn [negb andb head from_option id ib_namespace ib_name ib_slug].
    by rewrite B1, B2, B3.
Qed.

End Binding.

(** ** From a published Secret to a granted request *)

Section Granted.
  Context `{KubeLib}.
  Variable policy : option Policy.
  Variable O : oracle.

(** What the token controller leaves behind for a request of a Ready hosted instance. *)
Record provisioned (inst : LLMInstance) (tr : APITokenRequest) (sec : Secret) (token : string) : Prop := {
  pv_publishable : publishable policy inst;
  pv_hosted : byoc_bound inst = false;
  pv_owned : ownsTokenSecret tr sec = true;
  pv_published : published_for policy (sec_Data sec) inst sec;
  pv_key : key_in sec = token;
  pv_label : mget (Labels (sec_Meta sec)) tokenRequestLabelKey = Name (tr_Meta tr);
  pv_secret_alive : time_IsZero (DeletionTimestamp (sec_Meta sec)) = true;
  pv_request_alive : time_IsZero (DeletionTimestamp (tr_Meta tr)) = true;
  pv_namespace : Namespace (tr_Meta tr) = Namespace (inst_Meta inst);
  pv_instance : InstanceName (tr_Spec tr) = Name (inst_Meta inst);
  pv_status : SecretName (tr_Status tr) = Name (sec_Meta sec);
  pv_generation : tr_ObservedGeneration (tr_Status tr) = Generation (tr_Meta tr);
}.

Lemma publishable_selected (inst : LLMInstance) :
  publishable policy inst ->
  Slug (Status inst) = verified_slug policy inst /\
  Select policy (inst_Meta inst) =
    Ok {| sel_Slug := verified_slug policy inst; sel_Source := SlugSource (Status inst) |} /\
  time_IsZero (DeletionTimestamp (inst_Meta inst)) = true.
Proof.
  intros [Hs _ Hr _]. unfold verified_slug in *. unfold instance_ready in Hr.
  destruct (FindStatusCondition _ _); [| done]. bool_props.
  destruct (Select policy (inst_Meta inst)) as [[slug source] | err]; [| done]. cbn in *.
  destruct (negb _ || negb _) eqn:E; [done |]. bool_props. by subst.
Qed.

(** The server grants every request that carries the URL binding of a Ready hosted
    instance and the key of a Secret as the token controller publishes it, when the API
    server answers with those objects, whatever other Secrets are listed. *)
Theorem published_token_granted (inst : LLMInstance) (tr : APITokenRequest) (sec : Secret)
  (token : string) (secrets : list Secret) (r : Request)
  (Hp : provisioned inst tr sec token)
  (Hb : binding_of r = Some {| ib_namespace := Namespace (inst_Meta inst); ib_name := Name (inst_Meta inst);
                               ib_uid := UID (inst_Meta inst); ib_slug := verified_slug policy inst |})
  (Ht : token_of r = Some token)
  (Hi : O (EGet Live KInstance (key_of (Namespace (inst_Meta inst)) (Name (inst_Meta inst)))) = Ok inst)
  (Hs : O (EList Live KSecret (Some (Namespace (inst_Meta inst)))
             [(slugKey, verified_slug policy inst)]) = Ok secrets)
  (Hin : sec ∈ secrets)
  (Htr : O (EGet Live KTokenRequest (key_of (Namespace (inst_Meta inst)) (Name (tr_Meta tr)))) = Ok tr)
  (Hl : lookups_answered O) :
  Code (run_oracle O (Handler policy r)) = 200%Z.
Proof.
  apply Handler_complete; [done |]. destruct Hp as [P1 P2 P3 P4 P5 P6 P7 P8 P9 P10 P11 P12].
  destruct (publishable_selected inst P1) as (S1 & S2 & S3).
  apply ownsTokenSecret_spec in P3 as (U & N & T & owner & Ho & Hv & Hk & Hu & Hn).
  destruct P4 as [_ Q2 Q3 _ _ [Q5 Q6]]. rewrite P2 in Q6.
  unfold byoc_bound in P2. apply orb_false_iff in P2 as [P2 P2']. bool_props.
  eexists _, token, inst, secrets, sec, owner, tr.
  split_and!; [exact Hb | exact Ht | exact Hi | by split | exact Hs | exact Hin | | |].
  - split; try done. congruence.
  - unfold request_event. by rewrite Hn.
  - split; try done. congruence.
Qed.

End Granted.

(** ** Routes under one policy *)

Section Disjoint.
  Context `{KubeLaws}.
  Variable rc : LLMInstanceReconciler.

Lemma TrimRight_slash (s : string) :
  str_exists (Ascii.eqb "/"%char) s = false -> s <> "" ->
  TrimRightByte ("/llm/" +:+ s) "/"%char = "/llm/" +:+ s /\
  TrimRightByte (("/llm/" +:+ s) +:+ "/") "/"%char = "/llm/" +:+ s.
Proof.
  intros Hs Hne.
  assert (E : TrimRightByte s "/"%char = s /\ TrimRightByte (s +:+ "/") "/"%char = s).
  { clear Hne. induction s as [|c s IH]; [done |]. cbn [str_exists] in Hs.
    apply orb_false_iff in Hs as [Hc Hs]. destruct (IH Hs) as [E1 E2]. rewrite string_app_cons.
    assert (c <> "/"%char) by (intros ->; done).
    by rewrite !TrimRightByte_cons, E1, E2. }
  destruct E as [E1 E2]. rewrite <-string_app_assoc.
  assert (F : forall t, TrimRightByte t "/"%char = s -> TrimRightByte ("/llm/" +:+ t) "/"%char = "/llm/" +:+ s).
  { intros t Et. destruct s as [|c s]; [done |]. rewrite !string_app_cons. cbn [TrimRightByte].
    rewrite !string_app_nil_l. rewrite Et. reflexivity. }
  split; by apply F.
Qed.

Lemma selected_no_slash (reader : res string) (p : Policy) (o : ObjectMeta) (s : Selection) :
  Parse reader = Ok p -> Select (Some p) o = Ok s ->
  str_exists (Ascii.eqb "/"%char) (sel_Slug s) = false /\ sel_Slug s <> "".
Proof.
  intros Hp Hs. apply Parse_wf in Hp.
  destruct (select_cases p o s Hs) as (_ & _ & [(e & He & Hl & _ & _ & ->) | [_ ->]]).
  - destruct (wf_entry p Hp _ e He) as [_ Hv]. revert Hv. unfold validateEntry.
    destruct (bool_decide _ || _ || _ || _); [done |]. fold (is_legacy e). rewrite Hl.
    destruct (bool_decide _ || _ || _ || _) eqn:Hb; [done |]. bool_props. intros _.
    split; [by apply label_value_no_slash | done].
  - split; [| by unfold derived_slug]. cbn [sel_Slug]. unfold derived_slug. rewrite str_exists_app. cbn.
    by apply (charset_excludes is_lower_hex); [apply hex_encode_charset |].
Qed.

(** C34: the paths the operator routes for one instance never conflict with the route of
    another instance under the same policy, unless their UIDs collide in the truncated
    digest: a route check is never failed by an Ingress of another managed instance. *)
Theorem routes_disjoint (reader : res string) (p : Policy) (a b : ObjectMeta) (s t : Selection) (svcName : string)
  (Hp : Parse reader = Ok p) (Ha : Select (Some p) a = Ok s) (Hb : Select (Some p) b = Ok t)
  (Hu : UID a <> UID b) (Hc : ~ slug_collision (UID a) (UID b)) :
  existsb (rule_conflicts (PublicHost rc) ("/llm/" +:+ sel_Slug s))
    (slugIngressRules rc ("/llm/" +:+ sel_Slug t) svcName) = false.
Proof.
  destruct (selected_no_slash reader p b t Hp Hb) as [Nt Et].
  assert (F : HasPrefix ("/llm/" +:+ sel_Slug t) ("/llm/" +:+ sel_Slug s) = false /\
              HasPrefix ("/llm/" +:+ sel_Slug s) ("/llm/" +:+ sel_Slug t) = false).
  { assert (G : forall x y, HasPrefix ("/llm/" +:+ x) ("/llm/" +:+ y) = HasPrefix x y) by done.
    rewrite !G. split; apply not_true_is_false; intros Hover.
    - destruct (select_no_overlap_pure reader p b a t s Hp Hb Ha Hover) as [? | [? ?]]; [congruence |].
      apply Hc. by split.
    - destruct (select_no_overlap_pure reader p a b s t Hp Ha Hb Hover) as [? | ?]; [congruence | done]. }
  destruct F as [F1 F2]. destruct (TrimRight_slash (sel_Slug t) Nt Et) as [T1 T2].
  unfold slugIngressRules. cbn [existsb]. rewrite orb_false_r. unfold rule_conflicts. cbn [rule_HTTP rule_Host existsb].
  unfold path_conflicts. cbn [hp_Path]. rewrite T1, T2, F1, F2. by rewrite andb_false_r.
Qed.

End Disjoint.

(** ** Extra annotations *)

(** As soon as one extra Ingress annotation is configured, every reconcile of an
    existing Ingress reports a change and writes it again, even when nothing differs. *)
Theorem extra_annotations_always_update (rc : LLMInstanceReconciler) (ing : Ingress)
  (Hx : ExtraIngressAnnotations rc <> ∅) :
  (applyExtraIngressAnnotations rc true ing).2 = true /\
  applyExtraIngressAnnotations rc true (applyExtraIngressAnnotations rc true ing).1 =
    ((applyExtraIngressAnnotations rc true ing).1, true).
Proof.
  assert (E : forall i, (applyExtraIngressAnnotations rc true i).2 = true).
  { intros i. unfold applyExtraIngressAnnotations. cbn [snd orb].
    destruct (map_to_list (ExtraIngressAnnotations rc)) as [|kv l] eqn:Em; [| done].
    by apply map_to_list_empty_iff in Em. }
  assert (I : forall i, (applyExtraIngressAnnotations rc true (applyExtraIngressAnnotations rc true i).1).1 =
                        (applyExtraIngressAnnotations rc true i).1).
  { intros [[] ? ? ? ?]. unfold applyExtraIngressAnnotations. cbn. by rewrite map_union_assoc, map_union_idemp. }
  split; [apply E |].
  by rewrite (surjective_pairing (applyExtraIngressAnnotations rc true (applyExtraIngressAnnotations rc true ing).1)), I, E.
Qed.

(** ** A concrete operator *)

Module OperatorExample.

Definition rc : LLMInstanceReconciler := {|
  RouteReader := Some Live;
  rec_SlugPolicy := Some PolicyExample.policy;
  rec_Ceilings := ModelExample.unset;
  PublicHost := "llm.example.com";
  AuthServiceURL := "http://auth.system.svc:8090/";
  PublicScheme := "https";
  ExtraIngressAnnotations := {[ "example.com/team" := "llm" ]};
  TLSSecretName := "";
  BYOCTLS := {| Domain := ""; tls_Namespace := ""; IssuerName := ""; IssuerNamespace := ""; DNSClass := "" |};
|}.

Definition inst : LLMInstance := TokenExample.inst.

Lemma inst_bindable : bindable inst "Existing_Slug".
Proof. split; [vm_compute; reflexivity .. |]. repeat constructor; vm_compute; discriminate. Qed.

Definition tr : APITokenRequest :=
  TokenExample.tr <| tr_Status -> SecretName := "req-token" |> <| tr_Status -> tr_ObservedGeneration := 1%Z |>.

Lemma inst_provisioned : provisioned (Some PolicyExample.policy) inst tr TokenExample.sec "k".
Proof.
  split; [exact TokenExample.ready | vm_compute; reflexivity | vm_compute; reflexivity |
          exact TokenExample.is_published | vm_compute; reflexivity ..].
Qed.

Definition request : Request := {|
  RawQuery := encode_query (binding_query inst "Existing_Slug"); Authorization := ["Bearer k"] |}.

Definition server : oracle := fun e =>
  match e return answer e with
  | EGet _ KTokenRequest _ => Ok tr
  | e => TokenExample.server e
  end.

Definition ing : Ingress :=
  buildDesiredIngress rc inst (llamaLabels "old") "old-llama" "/llm/Existing_Slug".

End OperatorExample.

Lemma forwardAuth_binding_witness :
  exists base query,
    cut_byte "?"%char (authAddress OperatorExample.rc OperatorExample.inst "Existing_Slug") = (base, Some query) /\
    base = "http://auth.system.svc:8090/auth/verify" /\
    parseBinding (ParseQuery query) =
      Some {| ib_namespace := "tenant-a"; ib_name := "old"; ib_uid := "old-uid"; ib_slug := "Existing_Slug" |}.
Proof.
  apply (forwardAuth_binding OperatorExample.rc OperatorExample.inst "Existing_Slug"
           OperatorExample.inst_bindable).
  reflexivity.
Defined.

Lemma published_token_granted_witness :
  Code (run_oracle OperatorExample.server (Handler (Some PolicyExample.policy) OperatorExample.request)) = 200%Z.
Proof.
  apply (published_token_granted (Some PolicyExample.policy) OperatorExample.server OperatorExample.inst
           OperatorExample.tr TokenExample.sec "k" [TokenExample.sec] OperatorExample.request
           OperatorExample.inst_provisioned).
  - vm_compute. reflexivity.
  - vm_compute. reflexivity.
  - reflexivity.
  - reflexivity.
  - apply list_elem_of_singleton. reflexivity.
  - reflexivity.
  - intros key err [=].
Defined.

Lemma routes_disjoint_witness :
  existsb (rule_conflicts "llm.example.com" ("/llm/" +:+ "Existing_Slug"))
    (slugIngressRules OperatorExample.rc ("/llm/" +:+ derived_slug "fresh-uid") "fresh-llama") = false.
Proof.
  apply (routes_disjoint (H := ref_lib) OperatorExample.rc (Ok PolicyExample.text)
           PolicyExample.policy PolicyExample.old PolicyExample.fresh
           PolicyExample.old_selection {| sel_Slug := derived_slug "fresh-uid"; sel_Source := Derived |}).
  - exact PolicyExample.parse_ok.
  - exact PolicyExample.old_selected.
  - exact PolicyExample.fresh_derived.
  - vm_compute. discriminate.
  - intros [_ E]. vm_compute in E. discriminate E.
Defined.

Lemma extra_annotations_witness :
  (applyExtraIngressAnnotations OperatorExample.rc true OperatorExample.ing).2 = true.
Proof.
  apply (extra_annotations_always_update OperatorExample.rc OperatorExample.ing).
  vm_compute. discriminate.
Defined.

Lemma hosted_writes_witness :
  safe (recording (hosted_write OperatorExample.rc OperatorExample.inst "Existing_Slug" (modelForInstance OperatorExample.inst))) []
    (reconcileHosted OperatorExample.rc OperatorExample.inst "Existing_Slug" (modelForInstance OperatorExample.inst))
    (fun _ _ => True).
Proof.
  exact (hosted_writes (H := ref_lib) (H0 := ref_laws) OperatorExample.rc OperatorExample.inst "Existing_Slug"
           (modelForInstance OperatorExample.inst)).
Defined.
