(* ===== verification/HostedSteady.v ===== *)
(** * A settled hosted instance is published, and nothing else is written

    When the Ingress settles, and: when everything a reconcile brings about is in place
    and the server is ready, one whole reconcile makes a single write, the Ready status
    with the public endpoint. *)

From Stdlib Require Import Ascii.
From S2P Require Import Prelude GoStd GoNet GoError Kube KubeRef Api Io Names SlugPolicy Model TokenRequest TokenRequestFlow SlugRoute Workload WorkloadFacts Routing RoutingSafety HostedSafety ByocTransport ByocTLS Byoc Instance ByocRef EndToEnd.

(** ** When an Ingress settles *)

Section IngressSettles.
  Variable rc : LLMInstanceReconciler.
  Variable inst : LLMInstance.
  Variable slug : string.

Local Abbreviation svc := (llama_name inst).
Local Abbreviation https := (isHTTPS rc).
Local Abbreviation annotation ing := (mget (Annotations (ing_Meta ing))).

Definition desired_tls_ok (ing : Ingress) : Prop :=
  https = true -> TrimSpace (TLSSecretName rc) <> "" ->
  exists t rest, ing_TLS ing = t :: rest /\ tls_SecretName t = TrimSpace (TLSSecretName rc) /\
    head (tls_Hosts t) = Some (PublicHost rc).

Definition tls_annotation_ok (ing : Ingress) : Prop :=
  if https then annotation ing tls_key = byocBootstrapTrue else Annotations (ing_Meta ing) !! tls_key = None.

(** The Ingress is as the operator wants it: routing, auth, entry points and TLS. *)
Record ingress_settled (ing : Ingress) : Prop := {
  is_auth : annotation ing middlewares_key = desiredMiddlewareAnnotation (Namespace (inst_Meta inst)) svc;
  is_entry : annotation ing entrypoints_key = desiredIngressEntryPoints https;
  is_tls : tls_annotation_ok ing;
  is_class : ing_ClassName ing = Some "traefik";
  is_rules : ing_Rules ing = slugIngressRules rc ("/llm/" +:+ slug) svc;
  is_default : ing_DefaultBackend ing = None;
  is_matcher : Annotations (ing_Meta ing) !! pathmatcher_key = None;
  is_certificate : desired_tls_ok ing;
}.

Lemma annotation_converges (key value : string) :
  converges (fun ing => annotation ing key = value) (ensure_annotation key value).
Proof.
  apply converges_set_when; intros ing; [by rewrite negb_false_iff, bool_decide_eq_true |].
  cbn. unfold mget. by rewrite lookup_insert_eq.
Qed.

Lemma drop_converges (key : string) :
  converges (fun ing => Annotations (ing_Meta ing) !! key = None) (drop_annotation key).
Proof.
  apply converges_set_when; intros ing; [by rewrite negb_false_iff, bool_decide_eq_true |].
  cbn. by rewrite lookup_delete_eq.
Qed.

(** A step on one annotation leaves the others. *)
Lemma annotation_keeps (P : option string -> Prop) (key other value : string) :
  key <> other -> preserves (fun ing => P (Annotations (ing_Meta ing) !! key)) (ensure_annotation other value).
Proof. intros Hk. apply preserves_set_when. intros ing Hp. cbn. by rewrite lookup_insert_ne. Qed.

Lemma drop_keeps (P : option string -> Prop) (key other : string) :
  key <> other -> preserves (fun ing => P (Annotations (ing_Meta ing) !! key)) (drop_annotation other).
Proof. intros Hk. apply preserves_set_when. intros ing Hp. cbn. by rewrite lookup_delete_ne. Qed.

Lemma annotations_converge (middleware entry : string) :
  converges (fun ing => annotation ing middlewares_key = middleware /\ annotation ing entrypoints_key = entry /\
                        tls_annotation_ok ing /\ True)
    (ensureIngressAnnotations middleware entry https).
Proof.
  unfold ensureIngressAnnotations, tls_annotation_ok.
  repeat apply converges_cons; try apply converges_nil; try apply annotation_converges;
    try (destruct https; [apply annotation_converges | apply drop_converges]).
  all: repeat constructor; try destruct https;
    first [apply (annotation_keeps (fun v => default "" v = _)); done | apply (drop_keeps (fun v => default "" v = _)); done].
Qed.

Lemma rule_converges :
  converges (fun ing => ing_Rules ing = slugIngressRules rc ("/llm/" +:+ slug) svc /\ ing_DefaultBackend ing = None /\
                        Annotations (ing_Meta ing) !! pathmatcher_key = None)
    (ensureIngressHTTPRule rc ("/llm/" +:+ slug) svc).
Proof.
  intros ing. split; [by split_and!; apply ensureIngressHTTPRule_spec |].
  unfold ensureIngressHTTPRule. set (desired := slugIngressRules rc _ _).
  destruct (drop_converges pathmatcher_key (ing <| ing_Rules := desired |> <| ing_DefaultBackend := None |>)) as (_ & D2 & D3).
  destruct (drop_annotation _ _) as [ing' dropped]. cbn [fst snd] in *. split.
  - intros (R1 & R2 & R3). specialize (D2 R3). simplify_eq. rewrite R1, R2, !bool_decide_true by done.
    destruct ing; cbn in *. by subst.
  - intros [[Hr Hd]%orb_false_iff ->]%orb_false_iff. bool_props. rewrite D3 by done. destruct ing; cbn in *. by subst.
Qed.

Lemma tls_converges : converges desired_tls_ok (ensureIngressTLS rc https).
Proof.
  intros ing. unfold ensureIngressTLS, desired_tls_ok. destruct https; cbn [negb orb]; [| by split_and!].
  case_bool_decide as Et; [by split_and! |].
  set (ok := match ing_TLS ing with t :: _ => _ | [] => false end).
  assert (Hok : ok = true <-> exists t rest, ing_TLS ing = t :: rest /\ tls_SecretName t = TrimSpace (TLSSecretName rc) /\
    head (tls_Hosts t) = Some (PublicHost rc)).
  { subst ok. destruct (ing_TLS ing) as [|t rest]; [by split; [| intros (? & ? & ? & _)] |].
    rewrite andb_true_iff, !bool_decide_eq_true. naive_solver. }
  clearbody ok. destruct ok; cbn [fst snd]; (split; [| split]).
  - intros _ _. by apply Hok.
  - done.
  - done.
  - intros _ _. by eexists _, _.
  - intros Hi. by specialize (proj2 Hok (Hi eq_refl Et)).
  - done.
Qed.

(** The annotations the HTTP rule step leaves. *)
Lemma rule_keeps (P : option string -> Prop) (key : string) :
  key <> pathmatcher_key ->
  preserves (fun ing => P (Annotations (ing_Meta ing) !! key)) (ensureIngressHTTPRule rc ("/llm/" +:+ slug) svc).
Proof.
  intros Hk ing Hp. set (ing1 := ing <| ing_Rules := slugIngressRules rc ("/llm/" +:+ slug) svc |> <| ing_DefaultBackend := None |>).
  assert ((ensureIngressHTTPRule rc ("/llm/" +:+ slug) svc ing).1 = (drop_annotation pathmatcher_key ing1).1) as ->.
  { unfold ensureIngressHTTPRule. fold ing1. by destruct (drop_annotation _ ing1). }
  by apply drop_keeps.
Qed.

Lemma keeps_and {A} (P Q : A -> Prop) (f : A -> A * bool) :
  preserves P f -> preserves Q f -> preserves (fun a => P a /\ Q a) f.
Proof. intros Hp Hq a [? ?]. split; auto. Qed.

(** A step that leaves these annotations leaves what was reached for them. *)
Lemma keeps_annotations (middleware entry : string) (f : Ingress -> Ingress * bool) :
  (forall (P : option string -> Prop) key, key <> pathmatcher_key ->
     preserves (fun ing => P (Annotations (ing_Meta ing) !! key)) f) ->
  preserves (fun ing => annotation ing middlewares_key = middleware /\ annotation ing entrypoints_key = entry /\
                        tls_annotation_ok ing /\ True) f.
Proof.
  intros Hf. repeat apply keeps_and; [| | | by intros ?].
  - by apply (Hf (fun v => default "" v = _)).
  - by apply (Hf (fun v => default "" v = _)).
  - unfold tls_annotation_ok. destruct https; [by apply (Hf (fun v => default "" v = _)) | by apply (Hf (fun v => v = None))].
Qed.

Lemma no_extra_converges : ExtraIngressAnnotations rc = ∅ -> converges (fun _ => True) (applyExtraIngressAnnotations rc true).
Proof.
  intros E ing. unfold applyExtraIngressAnnotations. rewrite E, map_to_list_empty.
  assert (Ei : ing <| ing_Meta -> Annotations ::= fun m => ∅ ∪ m |> = ing).
  { destruct ing as [[] ? ? ? ?]. cbn. by rewrite map_empty_union. }
  by rewrite Ei.
Qed.

Lemma tls_keeps (P : Ingress -> Prop) :
  (forall ing t, P ing -> P (ing <| ing_TLS := t |>)) -> preserves P (ensureIngressTLS rc https).
Proof. intros HP ing Hi. unfold ensureIngressTLS. repeat case_match; cbn [fst]; auto. Qed.

Lemma ensureIngress_settles :
  ExtraIngressAnnotations rc = ∅ -> converges ingress_settled (ensureIngress rc inst svc ("/llm/" +:+ slug)).
Proof.
  intros Hx. eapply converges_iff.
  2: { unfold ensureIngress. apply converges_cons; [apply annotations_converge | |].
       - apply converges_cons; [by apply no_extra_converges | |].
         + apply converges_cons; [apply converges_set_when with (ok := fun ing => ing_ClassName ing = Some "traefik") | |].
           * intros ing. by rewrite negb_false_iff, bool_decide_eq_true.
           * done.
           * apply converges_cons; [apply rule_converges | apply converges_cons; [apply tls_converges | apply converges_nil | done] |].
             apply Forall_singleton. by apply tls_keeps.
           * apply Forall_cons_2; [| apply Forall_singleton; by apply tls_keeps]. intros ing <-. apply ensureIngressHTTPRule_spec.
         + repeat apply Forall_cons_2; try apply Forall_nil_2; by intros ?.
       - repeat apply Forall_cons_2; try apply Forall_nil_2; apply keeps_annotations; intros P key Hk.
         + intros ing Hp. destruct (no_extra_converges Hx ing) as (_ & E & _). by rewrite E.
         + by apply preserves_set_when.
         + by apply rule_keeps.
         + by apply tls_keeps. }
  intros ing. split; [intros ((? & ? & ? & _) & _ & ? & (? & ? & ?) & ? & _); by split | intros []; by split_and!].
Qed.

Lemma extra_reports (ing : Ingress) :
  ExtraIngressAnnotations rc <> ∅ -> (applyExtraIngressAnnotations rc true ing).2 = true.
Proof.
  intros Hx. unfold applyExtraIngressAnnotations. cbn [snd orb].
  destruct (map_to_list (ExtraIngressAnnotations rc)) as [|kv l] eqn:Em; [| done].
  by apply map_to_list_empty_iff in Em.
Qed.

(** The Ingress as it is created lacks only the annotation that turns TLS on. *)
Lemma created_settled (labels : gmap string string) :
  ExtraIngressAnnotations rc = ∅ ->
  ingress_settled (buildDesiredIngress rc inst labels svc ("/llm/" +:+ slug)) <-> https = false.
Proof.
  intros Hx. destruct (ingress_routes_secured rc inst labels slug {| ing_Meta := empty_meta; ing_ClassName := None; ing_DefaultBackend := None; ing_Rules := []; ing_TLS := [] |}) as [_ [S1 S2 S3 S4 S5]].
  specialize (S5 ltac:(by rewrite Hx)). set (ing := buildDesiredIngress _ _ _ _ _) in *.
  assert (L : forall key, key <> pathmatcher_key -> Annotations (ing_Meta ing) !! key =
    (<[entrypoints_key := desiredIngressEntryPoints https]>
       ({[ middlewares_key := desiredMiddlewareAnnotation (Namespace (inst_Meta inst)) svc ]} : gmap string string)) !! key).
  { intros key Hk. subst ing. unfold buildDesiredIngress, applyExtraIngressAnnotations. rewrite Hx. cbv beta iota zeta.
    set (ing0 := _ <| ing_Meta -> Annotations ::= _ |>).
    pose proof (rule_keeps (fun v => v = Annotations (ing_Meta ing0) !! key) key Hk ing0 eq_refl) as K. cbv beta in K.
    destruct (ensureIngressHTTPRule _ _ _ ing0) as [ing1 u1]. cbn [fst] in K. rewrite K. cbn. by rewrite map_empty_union. }
  split.
  - intros [_ _ C _ _ _ _ _]. unfold tls_annotation_ok in C. destruct https; [| done].
    unfold mget in C. rewrite L in C by done. rewrite lookup_insert_ne, lookup_singleton_ne in C by done. discriminate C.
  - intros E. split; try done.
    + unfold mget. rewrite L by done. by rewrite lookup_insert_eq.
    + unfold tls_annotation_ok. rewrite E, L by done. by rewrite lookup_insert_ne, lookup_singleton_ne by done.
    + unfold desired_tls_ok. by rewrite E.
Qed.

(** C37: without extra annotations the existing Ingress settles: whatever it contains, one
    update brings routing, auth, entry points and TLS to the desired state, an update is
    reported exactly when something differed, and the next reconcile reports none.  An
    Ingress as created is settled only without HTTPS: under HTTPS the annotation that
    turns TLS on comes with the update of the next reconcile.  As soon as one extra
    annotation is configured, every reconcile of every Ingress reports an update, even of
    one that is as desired. *)
Theorem ensureIngress_updates (ing : Ingress) (labels : gmap string string) :
  let f := ensureIngress rc inst svc ("/llm/" +:+ slug) in
  (ExtraIngressAnnotations rc = ∅ ->
     ingress_settled (f ing).1 /\ f (f ing).1 = ((f ing).1, false) /\ ((f ing).2 = false <-> ingress_settled ing) /\
     (ingress_settled (buildDesiredIngress rc inst labels svc ("/llm/" +:+ slug)) <-> https = false)) /\
  (ExtraIngressAnnotations rc <> ∅ -> (f ing).2 = true).
Proof.
  cbv zeta. split; intros Hx.
  - pose proof (ensureIngress_settles Hx) as C. destruct (converges_idempotent _ _ ing C).
    split_and!; [apply C | done | done | by apply created_settled].
  - apply (in_order_reports [_] (applyExtraIngressAnnotations rc true) [_; _; _]). intros i. by apply extra_reports.
Qed.

End IngressSettles.

(** ** What settled means *)

Section Steady.
  Context `{KubeLaws} `{X509Lib} `{ClientLib}.
  Variable rc : LLMInstanceReconciler.
  Variable req : ObjectKey.
  Variable O : oracle.
  Variable inst : LLMInstance.
  Variable slug : string.

Local Abbreviation svc := (llama_name inst).
Local Abbreviation ns := (Namespace (inst_Meta inst)).
Local Abbreviation cached K name := (O (EGet Cached K (key_of ns name))).
Local Abbreviation mine m := (ownsLLMResource inst m = true).
Local Abbreviation writes := (writes O).

(** The live instance passes the checks, its slug is the policy's and recorded. *)
Record admitted_hosted : Prop := {
  ah_read : O (EGet (routeReader rc) KInstance req) = Ok inst;
  ah_live : time_IsZero (DeletionTimestamp (inst_Meta inst)) = true;
  ah_finalizer : ContainsFinalizer (Finalizers (inst_Meta inst)) finalizerName = true;
  ah_hosted : IsBYOC inst = false /\ ActiveBYOCKubeconfigSecretName (Status inst) = "";
  ah_uid : UID (inst_Meta inst) <> "";
  ah_ceilings : check (rec_Ceilings rc) inst = None;
  ah_slug : selectSlug rc inst = Ok {| sel_Slug := slug; sel_Source := SlugSource (Status inst) |};
  ah_recorded : Slug (Status inst) = slug;
}.

(** The named Ingress is the instance's own and settled, and no other one competes. *)
Record route_settled : Prop := {
  rs_reader : exists ing, O (named_event rc inst) = Ok ing /\ ownsSlugIngress inst ing = true;
  rs_others : exists l, O (EList (routeReader rc) KIngress None []) = Ok l /\ existsb (ingress_conflicts rc inst slug) l = false;
  rs_extra : ExtraIngressAnnotations rc = ∅;
  rs_ingress : exists ing, cached KIngress svc = Ok ing /\ ownsSlugIngress inst ing = true /\ ingress_settled rc inst slug ing;
}.

(** The workload and the middlewares are the instance's own and as it asks for. *)
Record workload_settled : Prop := {
  ws_deployment : exists d, cached KDeployment svc = Ok d /\ mine (d_Meta d) /\
    converged inst (modelForInstance inst) d /\ deployment_available d;
  ws_service : exists s, cached KService svc = Ok s /\ mine (svc_Meta s);
  ws_strip : exists mw, cached KMiddleware (stripMiddlewareName svc) = Ok mw /\ mine (mw_Meta mw) /\
    mw_Prefixes mw = Present ["/llm/" +:+ slug];
  ws_auth : exists mw m, cached KMiddleware (authMiddlewareName svc) = Ok mw /\ mine (mw_Meta mw) /\
    mw_ForwardAuth mw = Present m /\ m = desired_forwardAuth (authAddress rc inst slug) m;
}.

(** The server answers behind its Service. *)
Record server_ready : Prop := {
  sr_endpoints : exists endpoints subset, cached KEndpoints svc = Ok endpoints /\
    subset ∈ ep_Subsets endpoints /\ es_Addresses subset <> [] /\ (8000%Z ∈ es_Ports subset);
  sr_probe : exists status, O (EProbe (serviceProbeURL ns svc 8000 "/health")) = Ok status /\ (200 <= status < 300)%Z;
}.

(** ** The parts only read *)

Lemma hosted_deployment_quiet labels : workload_settled -> quiet O (reconcileDeployment inst labels (modelForInstance inst)) (Ok tt).
Proof.
  intros [(d & D1 & D2 & D3 & _) _ _ _]. unfold reconcileDeployment. on_read D1. rewrite D2. cbn [negb].
  destruct (ensure_converges inst (modelForInstance inst) d) as (_ & C & _). rewrite (C D3). apply quiet_ret.
Qed.

Lemma hosted_service_quiet labels : workload_settled -> quiet O (reconcileService inst labels svc) (Ok tt).
Proof.
  intros [_ (s & S1 & S2) _ _]. unfold reconcileService. on_read S1. rewrite S2. apply quiet_ret.
Qed.

Lemma strip_quiet labels : workload_settled ->
  quiet O (reconcileStripMiddleware inst labels svc ("/llm/" +:+ slug)) (Ok tt).
Proof.
  intros [_ _ (mw & M1 & M2 & M3) _]. unfold reconcileStripMiddleware. on_read M1. rewrite M2, M3. cbn [negb].
  rewrite bool_decide_true by done. apply quiet_ret.
Qed.

Lemma auth_quiet labels (create : bool) : UID (inst_Meta inst) <> "" -> workload_settled ->
  quiet O (reconcileAuthMiddleware rc inst labels svc slug create) (Ok tt).
Proof.
  intros Ha [_ _ _ (mw & m & M1 & M2 & M3 & M4)]. unfold reconcileAuthMiddleware.
  rewrite bool_decide_false by done. cbv zeta. on_read M1. rewrite M2, M3. cbn [negb].
  rewrite bool_decide_true by exact M4. apply quiet_ret.
Qed.

Lemma route_quiet : route_settled -> quiet O (checkSlugRoute rc inst slug) (Ok tt).
Proof.
  intros [(ing & R1 & R2) (l & R3 & R4) _ _]. unfold checkSlugRoute. fold (named_event rc inst). on_read R1.
  rewrite R2. cbn [negb]. on_read R3. rewrite R4. apply quiet_ret.
Qed.

Lemma ingress_quiet labels : route_settled -> quiet O (reconcileIngress rc inst labels svc ("/llm/" +:+ slug)) (Ok tt).
Proof.
  intros Hr. destruct (id Hr) as [_ _ Hx (ing & I1 & I2 & I3)]. unfold reconcileIngress. rewrite TrimPrefix_app.
  eapply quiet_fbind; [by apply route_quiet |]. on_read I1. rewrite I2. cbn [negb].
  destruct (ensureIngress_settles rc inst slug Hx ing) as (_ & C & _). rewrite (C I3). apply quiet_ret.
Qed.

Lemma health_quiet (url : string) (status : Z) :
  O (EProbe url) = Ok status -> (200 <= status < 300)%Z -> quiet O (runServiceHealthCheck url) None.
Proof.
  intros Hp Hs. apply (quiet_bind _ _ _ (Ok status)); [by refine (quiet_call _ _ _ _ Hp) |]. cbv beta iota.
  rewrite (proj2 (status_health_none status)) by done. apply quiet_ret.
Qed.

Lemma hosted_readiness_quiet : workload_settled -> server_ready ->
  quiet O (evaluateInstanceReadiness inst svc) (Ok (true, "Provisioned", "LLM instance is ready")).
Proof.
  intros [(d & D1 & _ & _ & D4) _ _ _] [(eps & subset & E1 & E2 & E3 & E4) (status & P & Hst)]. unfold evaluateInstanceReadiness.
  on_read D1. apply (deploymentReadiness_spec _ svc) in D4.
  destruct (deploymentReadiness d svc) as [[[] reason] message]; [cbn [negb] | done].
  apply quiet_fbind with (true, "").
  { unfold serviceHasReadyEndpoints. on_read E1.
    assert (existsb (subset_ready 8000) (ep_Subsets eps) = true) as ->; [| apply quiet_ret].
    apply existsb_exists. exists subset. split; [by apply list_elem_of_In |]. unfold subset_ready.
    rewrite bool_decide_false by done. apply existsb_exists. exists 8000%Z. split; [by apply list_elem_of_In | done]. }
  cbv beta iota. cbn [negb]. eapply quiet_bind; [by apply (health_quiet _ status) | apply quiet_ret].
Qed.

(** ** The whole reconcile *)

Lemma writes_or_reject (i : LLMInstance) (step : fio unit) (k : io (Result * option error)) W b :
  quiet O step (Ok tt) -> writes k W b -> writes (or_reject rc i step k) W b.
Proof. intros Hs Hk. unfold or_reject. by eapply writes_bind. Qed.

Lemma hosted_writes_ready (stored : LLMInstance) :
  let ready := EUpdateStatus Cached KInstance
    (with_status inst (O ENow) ConditionTrue "Ready" (instanceEndpoint rc slug) "Provisioned" "LLM instance is ready") in
  admitted_hosted -> route_settled -> workload_settled -> server_ready -> O ready = Ok stored ->
  writes (reconcileHosted rc inst slug (modelForInstance inst)) [ready] (requeue_after 30, None).
Proof.
  cbv zeta. intros Ha Hr Hw Hs Hu. unfold reconcileHosted.
  assert (inst <| Status -> ActiveBYOCKubeconfigSecretName := "" |> = inst) as ->.
  { destruct Ha as [_ _ _ [_ E] _ _ _ _]. destruct inst as [? ? []]. cbn in *. by subst. }
  cbv zeta. apply writes_or_reject; [by apply hosted_deployment_quiet |]. apply writes_or_reject; [by apply hosted_service_quiet |].
  apply writes_or_reject; [by apply strip_quiet |]. apply writes_or_reject; [apply auth_quiet; [apply Ha | done] |].
  apply writes_or_reject; [by apply ingress_quiet |].
  eapply writes_bind; [by apply hosted_readiness_quiet |]. cbv beta iota. cbn [negb].
  assert (Hp : run_oracle O (updateReadyStatus inst (instanceEndpoint rc slug)) = Ok stored).
  { unfold updateReadyStatus. rewrite run_oracle_bind. exact Hu. }
  split; rewrite ?run_oracle_bind, ?calls_bind, Hp; [done |].
  unfold updateReadyStatus. rewrite !calls_bind. reflexivity.
Qed.

(** C12: when the instance is admitted, its route free, and Deployment, Service, middlewares
    and Ingress are as the reconcile brings them about, and the server answers, one whole
    reconcile publishes the public endpoint as Ready and comes back after 30 seconds;
    that status update is its only write. *)
Theorem hosted_published (stored : LLMInstance) (Ha : admitted_hosted) (Hr : route_settled) (Hw : workload_settled)
  (Hs : server_ready)
  (Hu : O (EUpdateStatus Cached KInstance
           (with_status inst (O ENow) ConditionTrue "Ready" (instanceEndpoint rc slug) "Provisioned" "LLM instance is ready"))
        = Ok stored) :
  run_oracle O (Reconcile rc req) = (requeue_after 30, None) /\
  filter (fun e => is_write e = true) (calls O (Reconcile rc req)) =
    [EUpdateStatus Cached KInstance
       (with_status inst (O ENow) ConditionTrue "Ready" (instanceEndpoint rc slug) "Provisioned" "LLM instance is ready")].
Proof.
  change (writes (Reconcile rc req)
    [EUpdateStatus Cached KInstance
       (with_status inst (O ENow) ConditionTrue "Ready" (instanceEndpoint rc slug) "Provisioned" "LLM instance is ready")]
    (requeue_after 30, None)).
  pose proof (hosted_writes_ready stored Ha Hr Hw Hs Hu) as K.
  destruct (id Ha) as [A1 A2 A3 [A4 A4'] A5 A6 A7 A8].
  unfold Reconcile. eapply writes_bind.
  { unfold getInstance. on_read A1. apply quiet_ret. }
  cbv beta iota. rewrite A2. cbn [negb]. unfold reconcileLive. rewrite A7.
  eapply writes_bind.
  { unfold upgradeExistingAuthMiddleware. rewrite A4, A7. cbn [sel_Slug]. apply auth_quiet; [exact A5 | done]. }
  cbv beta iota. rewrite A6, A3. cbn [negb].
  eapply writes_bind.
  { unfold ensureSlug. rewrite A7. cbn [sel_Slug sel_Source]. rewrite A8, !bool_decide_true by done. apply quiet_ret. }
  cbv beta iota. eapply writes_bind.
  { rewrite A4. cbn [negb]. by apply route_quiet. }
  cbv beta iota. unfold reconcileTarget. cbv zeta. eapply writes_bind.
  { unfold cleanupChangedBYOCTarget, sbind, sget. cbn [mbind io_bind mret io_ret]. rewrite bool_decide_true by done. apply quiet_ret. }
  cbv beta iota. rewrite A4. exact K.
Qed.

End Steady.

(** ** A concrete cluster *)

Module HostedExample.

Definition rc : LLMInstanceReconciler :=
  OperatorExample.rc <| ExtraIngressAnnotations := ∅ |> <| TLSSecretName := "public-tls" |>.

Definition inst : LLMInstance := TokenExample.inst <| inst_Meta -> Finalizers := [finalizerName] |>.
Definition slug : string := "Existing_Slug".
Definition owned (name : string) : ObjectMeta :=
  empty_meta <| Name := name |> <| Namespace := "tenant-a" |> <| OwnerReferences := [instance_ref inst] |>.

Definition ing : Ingress :=
  (ensureIngress rc inst "old-llama" "/llm/Existing_Slug"
     {| ing_Meta := owned "old-llama"; ing_ClassName := None; ing_DefaultBackend := None; ing_Rules := []; ing_TLS := [] |}).1.

Definition deployment : Deployment :=
  (buildDeployment inst (llamaLabels "old") 1 (modelForInstance inst)) <| d_Meta := owned "old-llama" |>
    <| d_Status := {| ds_ObservedGeneration := 0; ds_UpdatedReplicas := 1; ds_ReadyReplicas := 1; ds_AvailableReplicas := 1 |} |>.

Definition strip : Middleware :=
  {| mw_Meta := owned "old-llama-strip"; mw_Prefixes := Present ["/llm/Existing_Slug"]; mw_ForwardAuth := NotSet |}.
Definition auth : Middleware :=
  {| mw_Meta := owned "old-llama-auth"; mw_Prefixes := NotSet;
     mw_ForwardAuth := Present (desired_forwardAuth (authAddress rc inst slug) ∅) |}.

Definition world : oracle := fun e =>
  match e return answer e with
  | EGet _ KInstance _ => Ok inst
  | EGet _ KDeployment _ => Ok deployment
  | EGet _ KService _ => Ok ((newService inst (llamaLabels "old") "old-llama") <| svc_Meta := owned "old-llama" |>)
  | EGet _ KMiddleware k => Ok (if bool_decide (key_Name k = "old-llama-strip") then strip else auth)
  | EGet _ KIngress _ => Ok ing
  | EGet _ KEndpoints _ => Ok {| ep_Meta := owned "old-llama"; ep_Subsets := [{| es_Addresses := ["10.0.0.7"]; es_Ports := [8000%Z] |}] |}
  | EGet _ _ _ => Err ByocExample.not_found
  | EList _ KIngress _ _ => Ok [ing]
  | EList _ _ _ _ => Ok []
  | ECreate _ _ o | EUpdate _ _ o | EUpdateStatus _ _ o | EPatchStatus _ _ _ o => Ok o
  | EDelete _ _ _ _ => None
  | ENow => 1000%Z
  | ERandom n => Ok (replicate n 0%Z)
  | EProbe _ => Ok 200%Z
  | EHTTPS _ => Err ByocExample.not_found
  end.

Lemma admitted : admitted_hosted rc (instance_key inst) world inst slug.
Proof. split; try (vm_compute; reflexivity); [by split | discriminate]. Qed.

Lemma route : route_settled rc world inst slug.
Proof.
  split; [exists ing; split; vm_compute; reflexivity | exists [ing]; split; vm_compute; reflexivity | reflexivity |].
  exists ing. split_and!; [vm_compute; reflexivity | vm_compute; reflexivity |].
  apply (ensureIngress_settles rc inst slug eq_refl).
Qed.

Lemma workload : workload_settled rc world inst slug.
Proof.
  split.
  - exists deployment. split_and!; [reflexivity | vm_compute; reflexivity | | by vm_compute].
    destruct (build_converged inst (llamaLabels "old") (modelForInstance inst)) as [C1 C2 C3 C4]. by split.
  - eexists. split; [reflexivity | vm_compute; reflexivity].
  - exists strip. split_and!; [vm_compute; reflexivity | vm_compute; reflexivity | reflexivity].
  - exists auth. eexists. split_and!; [vm_compute; reflexivity | vm_compute; reflexivity | reflexivity | vm_compute; reflexivity].
Qed.

Lemma server : server_ready world inst.
Proof.
  split; [| by exists 200%Z]. eexists _, _.
  split_and!; [reflexivity | by apply list_elem_of_singleton | discriminate | by apply list_elem_of_singleton].
Qed.

End HostedExample.

Lemma hosted_published_witness :
  run_oracle HostedExample.world (Reconcile HostedExample.rc (instance_key HostedExample.inst)) = (requeue_after 30, None).
Proof.
  exact (proj1 (hosted_published HostedExample.rc (instance_key HostedExample.inst) HostedExample.world HostedExample.inst
    HostedExample.slug _ HostedExample.admitted HostedExample.route HostedExample.workload HostedExample.server eq_refl)).
Defined.

Lemma ensureIngress_updates_witness :
  ingress_settled HostedExample.rc HostedExample.inst HostedExample.slug HostedExample.ing /\
  (ensureIngress OperatorExample.rc OperatorExample.inst "old-llama" "/llm/Existing_Slug" HostedExample.ing).2 = true.
Proof.
  split.
  - refine (proj1 (proj1 (ensureIngress_updates HostedExample.rc HostedExample.inst HostedExample.slug _ ∅) eq_refl)).
  - apply (proj2 (ensureIngress_updates OperatorExample.rc OperatorExample.inst HostedExample.slug HostedExample.ing ∅)).
    vm_compute. discriminate.
Defined.
