(* ===== verification/HostedProgress.v ===== *)
(** * A hosted instance comes up

    On a working API server, whatever is already there of an instance, a bounded number
    of reconciles brings everything about, and once the model server answers, the next
    one publishes the instance. *)

From Stdlib Require Import Ascii.
From S2P Require Import Prelude GoStd GoNet GoError Kube KubeRef Api Io Names SlugPolicy Model TokenRequest TokenRequestFlow SlugRoute Workload WorkloadFacts Routing Cluster ClusterRef RoutingSafety HostedSafety ByocTransport ByocTLS Byoc Instance ByocRef EndToEnd HostedSteady.

(** ** The same instance at different times *)

(** Status, finalizers, labels and version may differ. *)
Record alike (i j : LLMInstance) : Prop := {
  al_name : Name (inst_Meta i) = Name (inst_Meta j);
  al_namespace : Namespace (inst_Meta i) = Namespace (inst_Meta j);
  al_uid : UID (inst_Meta i) = UID (inst_Meta j);
  al_created : CreationTimestamp (inst_Meta i) = CreationTimestamp (inst_Meta j);
  al_deleted : DeletionTimestamp (inst_Meta i) = DeletionTimestamp (inst_Meta j);
  al_spec : Spec i = Spec j;
}.

#[export] Instance alike_equivalence : Equivalence alike.
Proof. split; [by split | intros i j []; by split | intros i j k [] []; split; congruence]. Qed.

Ltac alike_same :=
  intros [[] ? ?] [[] ? ?] Hal; destruct Hal; cbn in *; subst; reflexivity.

Section Alike.
  Context `{KubeLib} `{X509Lib} `{ClientLib}.
  Variable rc : LLMInstanceReconciler.

#[export] Instance alike_llama_name : Proper (alike ==> eq) llama_name.
Proof. alike_same. Qed.
#[export] Instance alike_model : Proper (alike ==> eq) modelForInstance.
Proof. alike_same. Qed.
#[export] Instance alike_check c : Proper (alike ==> eq) (check c).
Proof. alike_same. Qed.
#[export] Instance alike_IsBYOC : Proper (alike ==> eq) IsBYOC.
Proof. alike_same. Qed.
#[export] Instance alike_deployment : Proper (alike ==> eq ==> eq ==> eq) reconcileDeployment.
Proof. intros i j Hij l _ <- m _ <-. revert i j Hij. alike_same. Qed.
#[export] Instance alike_service : Proper (alike ==> eq ==> eq ==> eq) reconcileService.
Proof. intros i j Hij l _ <- m _ <-. revert i j Hij. alike_same. Qed.
#[export] Instance alike_strip : Proper (alike ==> eq ==> eq ==> eq ==> eq) reconcileStripMiddleware.
Proof. intros i j Hij l _ <- m _ <- p _ <-. revert i j Hij. alike_same. Qed.
#[export] Instance alike_auth : Proper (alike ==> eq ==> eq ==> eq ==> eq ==> eq) (reconcileAuthMiddleware rc).
Proof. intros i j Hij l _ <- m _ <- p _ <- b _ <-. revert i j Hij. alike_same. Qed.
#[export] Instance alike_ingress : Proper (alike ==> eq ==> eq ==> eq ==> eq) (reconcileIngress rc).
Proof. intros i j Hij l _ <- m _ <- p _ <-. revert i j Hij. alike_same. Qed.
#[export] Instance alike_route : Proper (alike ==> eq ==> eq) (checkSlugRoute rc).
Proof. intros i j Hij l _ <-. revert i j Hij. alike_same. Qed.
#[export] Instance alike_readiness : Proper (alike ==> eq ==> eq) evaluateInstanceReadiness.
Proof. intros i j Hij l _ <-. revert i j Hij. alike_same. Qed.

End Alike.

(** ** What one part brings about *)

Section Parts.
  Context {HK : KubeLib} {HL : KubeLaws} {HX : X509Lib} {HC : ClientLib}.
  Context {S : Type} {E : env S} {find : S -> forall K : kind, ObjectKey -> option (obj K)} {HS : ApiServer E find}.
  Variable rc : LLMInstanceReconciler.
  Variable inst : LLMInstance.
  Variable slug : string.
  Hypothesis Huid : UID (inst_Meta inst) <> "".
  Hypothesis Hreader : in_cluster (routeReader rc) = true.

Local Abbreviation svc := (llama_name inst).
Local Abbreviation ns := (Namespace (inst_Meta inst)).
Local Abbreviation mine m := (ownsLLMResource inst m = true).

(** Nothing foreign under the key. *)
Definition own_or_absent (K : kind) (key : ObjectKey) (s : S) : Prop :=
  forall o, find s K key = Some o -> mine (meta_of K o).

(** The instance's own object is now there as [P] says, and nothing else changed. *)
Definition brought (K : kind) (key : ObjectKey) (P : obj K -> Prop) (s s' : S) : Prop :=
  only_at find K key s s' /\ exists o, find s' K key = Some o /\ mine (meta_of K o) /\ P o.

(** The step succeeds and brings that about. *)
Definition brings (K : kind) (key : ObjectKey) (P : obj K -> Prop) (s : S) (step : fio unit) : Prop :=
  total E s step (fun s' r => r = Ok tt /\ brought K key P s s').

Lemma total_get {A} s c K key (k : res (obj K) -> io A) (Q : S -> A -> Prop) :
  in_cluster c = true ->
  (forall o, find s K key = Some o -> total E s (k (Ok o)) Q) ->
  (find s K key = None -> forall err, IsNotFound err = true -> no_middleware_kind err = false -> total E s (k (Err err)) Q) ->
  total E s (call (EGet c K key) ≫= k) Q.
Proof.
  intros Hc Hf Hn. destruct (find s K key) as [o|] eqn:Ef.
  - eapply total_read; [done | by apply get_found |]. by apply Hf.
  - destruct (get_missing s c K key Hc Ef) as (err & Ha & H1 & H2). eapply total_read; [done | exact Ha |]. by apply Hn.
Qed.

Lemma brings_nothing K key (P : obj K -> Prop) s o :
  find s K key = Some o -> mine (meta_of K o) -> P o -> brings K key P s (fret tt).
Proof. intros Hf Hm HP. split; [done |]. split; [by intros ? ? | by exists o]. Qed.

Lemma brings_created K key (P : obj K -> Prop) s o :
  key_of_obj K o = key -> find s K key = None -> mine (meta_of K o) -> (forall o', stored_as K o o' -> P o') ->
  brings K key P s (let? _ := call (ECreate Cached K o) in fret tt).
Proof.
  intros <- Hf Hm HP. apply total_create; [done |]. intros o' s' Ho Hfo Hat. split; [done |]. split; [done |].
  exists o'. split_and!; [done | | by apply HP]. by rewrite (owns_content inst _ _ (stored_meta K o o' Ho)).
Qed.

Lemma brings_updated K key (P : obj K -> Prop) s o old :
  find s K key = Some old -> key_of_obj K o = key_of_obj K old ->
  ResourceVersion (meta_of K o) = ResourceVersion (meta_of K old) -> same_status K o old ->
  Finalizers (meta_of K o) = Finalizers (meta_of K old) -> mine (meta_of K o) -> (forall o', stored_as K o o' -> P o') ->
  brings K key P s (let? _ := call (EUpdate Cached K o) in fret tt).
Proof.
  intros Hf Hk Hv Hst Hl Hm HP. pose proof (find_key _ _ _ _ Hf) as Hkey. rewrite <- Hkey, <- Hk in Hf |- *.
  eapply total_update; [done | done | done | by right; left |]. intros o' s' Ho Hfo Hat. split; [done |]. split; [done |].
  exists o'. split_and!; [done | | by apply HP]. by rewrite (owns_content inst _ _ (stored_meta K o o' Ho)).
Qed.

(** The controller reference of a new object makes it the instance's own. *)
Lemma fresh_owned (m : ObjectMeta) :
  OwnerReferences m = [] -> Namespace m = ns ->
  exists m', SetControllerReference (instance_ref inst) m = Ok m' /\ mine m' /\ Name m' = Name m /\ Namespace m' = ns /\
             m' = m <| OwnerReferences := OwnerReferences m' |>.
Proof.
  intros Ho Hn. destruct (SetControllerReference_fresh (instance_ref inst) m Ho) as [m' Em]. exists m'.
  destruct (set_owner inst m m' Em Hn) as ([Cn Cc] & En & Er). split_and!; try done.
  unfold ownsLLMResource. rewrite Cc, Cn. cbn.
  rewrite (bool_decide_false (UID (inst_Meta inst) = "")) by done. by rewrite !bool_decide_true.
Qed.

Lemma key_is (K : kind) (o : obj K) (namespace name : string) :
  Name (meta_of K o) = name -> Namespace (meta_of K o) = namespace -> key_of_obj K o = key_of namespace name.
Proof. intros <- <-. done. Qed.

Lemma ensureDeployment_meta (d : Deployment) model : d_Meta (ensureDeployment d inst model).1 = d_Meta d.
Proof.
  unfold ensureDeployment, ensureDeploymentReplicas, ensureDeploymentModel, ensureDeploymentDNSPolicy.
  destruct (bool_decide (d_Replicas d = None) || _), (ensure_all _ _), (ensure_all _ _); cbn; by case_bool_decide.
Qed.

Lemma deployment_brings s labels model : own_or_absent KDeployment (key_of ns svc) s ->
  brings KDeployment (key_of ns svc) (converged inst model) s (reconcileDeployment inst labels model).
Proof.
  intros Hown. unfold reconcileDeployment. apply total_get; [done | |].
  - intros d Hd. pose proof (Hown d Hd) as Hm. cbn in Hm. rewrite Hm. cbn [negb].
    pose proof (ensureDeployment_meta d model) as Em. pose proof (ensure_result d inst model) as C.
    destruct (ensureDeployment d inst model) as [d' []]; destruct C as (C1 & _ & _ & C4); cbn in *.
    + eapply brings_updated; [exact Hd | by unfold key_of_obj; cbn; rewrite Em | by cbn; rewrite Em | done | by cbn; rewrite Em | by cbn; rewrite Em |].
      intros o' [_ Hc]. by eapply converged_content.
    + apply (brings_nothing KDeployment _ _ _ d); [done | done |]. by rewrite <- C4.
  - intros Hd err -> _. cbn [negb]. destruct (fresh_owned (d_Meta (buildDeployment inst labels (desired_replicas inst) model)))
      as (m & -> & Hm & Hn & Hns & _); [done | done |].
    apply brings_created; [| done | done |].
    + by apply key_is.
    + intros o' [_ Hc]. eapply converged_content; [exact Hc |].
      destruct (build_converged inst labels model) as [C1 C2 C3 C4]. by split.
Qed.

Lemma service_brings s labels : own_or_absent KService (key_of ns svc) s ->
  brings KService (key_of ns svc) (fun _ => True) s (reconcileService inst labels svc).
Proof.
  intros Hown. unfold reconcileService. apply total_get; [done | |].
  - intros o Ho. pose proof (Hown o Ho) as Hm. cbn in Hm. rewrite Hm. by apply (brings_nothing KService _ _ _ o).
  - intros Ho err -> _. cbn [negb]. destruct (fresh_owned (svc_Meta (newService inst labels svc)))
      as (m & -> & Hm & Hn & Hns & _); [done | done |].
    apply brings_created; [| done | done | done]. by apply key_is.
Qed.

(** A field that is not a value of another shape can be set. *)
Definition settable {A} (n : nested A) : Prop := match n with NotSet | Present _ => True | _ => False end.

Local Abbreviation strip_key := (key_of ns (stripMiddlewareName svc)).
Local Abbreviation auth_key := (key_of ns (authMiddlewareName svc)).

Definition strip_free (s : S) : Prop :=
  own_or_absent KMiddleware strip_key s /\ forall mw, find s KMiddleware strip_key = Some mw -> settable (mw_Prefixes mw).
Definition auth_free (s : S) : Prop :=
  own_or_absent KMiddleware auth_key s /\ forall mw, find s KMiddleware auth_key = Some mw -> settable (mw_ForwardAuth mw).

Definition strips (mw : Middleware) : Prop := mw_Prefixes mw = Present ["/llm/" +:+ slug].
Definition binds (mw : Middleware) : Prop :=
  exists m, mw_ForwardAuth mw = Present m /\ m = desired_forwardAuth (authAddress rc inst slug) m.

Lemma strip_brings s labels : strip_free s ->
  brings KMiddleware strip_key strips s (reconcileStripMiddleware inst labels svc ("/llm/" +:+ slug)).
Proof.
  intros [Hown Hset]. unfold reconcileStripMiddleware. apply total_get; [done | |].
  - intros mw Hmw. pose proof (Hown mw Hmw) as Hm. pose proof (Hset mw Hmw) as Hs. cbn in Hm. rewrite Hm. cbn [negb].
    assert (Hup : brings KMiddleware strip_key strips s
      (let? _ := call (EUpdate Cached KMiddleware (mw <| mw_Prefixes := Present ["/llm/" +:+ slug] |>)) in fret tt)).
    { eapply brings_updated; [exact Hmw | done | done | done | done | done |]. intros o' [_ ->]. done. }
    unfold strips in *. destruct (mw_Prefixes mw) as [| | | p] eqn:Ep; cbn [set_nested]; try done.
    case_bool_decide; [| done]. subst p. by apply (brings_nothing KMiddleware _ _ _ mw).
  - intros Hmw err Hn ->. rewrite Hn. cbn [negb].
    edestruct (fresh_owned (empty_meta <| Name := stripMiddlewareName svc |> <| Namespace := ns |> <| Labels := labels |>))
      as (m & Em & Hm & Hnm & Hns & _); [done | done |]. cbn [mw_Meta]. rewrite Em.
    apply brings_created; [by apply key_is | done | done |]. intros o' [_ ->]. done.
Qed.

Lemma desired_idempotent addr m : desired_forwardAuth addr (desired_forwardAuth addr m) = desired_forwardAuth addr m.
Proof. unfold desired_forwardAuth. apply map_eq. intros k. rewrite !lookup_insert. by repeat case_decide. Qed.

Lemma auth_updates s mw f : find s KMiddleware auth_key = Some mw -> mine (mw_Meta mw) ->
  brings KMiddleware auth_key binds s
    (let? _ := call (EUpdate Cached KMiddleware
       (mw <| mw_ForwardAuth := Present (desired_forwardAuth (authAddress rc inst slug) f) |>)) in fret tt).
Proof.
  intros Hmw Hm. eapply brings_updated; [exact Hmw | done | done | done | done | done |].
  intros o' [_ ->]. eexists. split; [done |]. by rewrite desired_idempotent.
Qed.

Lemma auth_found s labels create mw : auth_free s -> find s KMiddleware auth_key = Some mw ->
  brings KMiddleware auth_key binds s (reconcileAuthMiddleware rc inst labels svc slug create).
Proof.
  intros [Hown Hset] Hmw. unfold reconcileAuthMiddleware. rewrite bool_decide_false by done. cbv zeta.
  apply total_get; [done | | by rewrite Hmw]. intros o Ho. rewrite Hmw in Ho. injection Ho as <-.
  pose proof (Hown mw Hmw) as Hm. pose proof (Hset mw Hmw) as Hs. pose proof (auth_updates s mw) as Hup.
  cbn in Hm. rewrite Hm. cbn [negb]. destruct (mw_ForwardAuth mw) as [| | | m] eqn:Ep; cbn [set_nested]; try done.
  - case_bool_decide; [| by apply Hup]. apply (brings_nothing KMiddleware _ _ _ mw); try done.
  - case_bool_decide as Heq; [| by apply Hup]. apply (brings_nothing KMiddleware _ _ _ mw); try done. by exists m.
Qed.

Lemma auth_brings s labels : auth_free s ->
  brings KMiddleware auth_key binds s (reconcileAuthMiddleware rc inst labels svc slug true).
Proof.
  intros Hf. destruct (find s KMiddleware auth_key) as [mw|] eqn:Hmw; [by eapply auth_found |].
  unfold reconcileAuthMiddleware. rewrite bool_decide_false by done. cbv zeta.
  apply total_get; [done | by rewrite Hmw |]. intros _ err Hn ->. rewrite Hn. cbn [negb].
  edestruct (fresh_owned (empty_meta <| Name := authMiddlewareName svc |> <| Namespace := ns |> <| Labels := labels |>))
    as (m & Em & Hm & Hnm & Hns & _); [done | done |]. cbn [mw_Meta key_Name key_Namespace key_of]. 
  match goal with |- context [SetControllerReference ?o ?x] => change x with
    (empty_meta <| Name := authMiddlewareName svc |> <| Namespace := ns |> <| Labels := labels |>) end. rewrite Em.
  apply brings_created; [by apply key_is | done | done |]. intros o' [_ ->]. eexists. split; [done |].
  by rewrite desired_idempotent.
Qed.

Local Abbreviation ingress_key := (key_of ns svc).

(** No other Ingress competes for the path. *)
Definition route_clear (s : S) : Prop :=
  own_or_absent KIngress ingress_key s /\
  forall key ing, find s KIngress key = Some ing -> ingress_conflicts rc inst slug ing = false.

Lemma route_passes s : route_clear s -> total E s (checkSlugRoute rc inst slug) (fun s' r => r = Ok tt /\ s' = s).
Proof.
  intros [Hown Hclear]. unfold checkSlugRoute. cbv zeta.
  assert (Hc : total E s
    (let? ingresses := call (EList (routeReader rc) KIngress None []) in
     if existsb (ingress_conflicts rc inst slug) ingresses then fail errSlugRouteConflict else fret tt)
    (fun s' r => r = Ok tt /\ s' = s)).
  { destruct (list_found s (routeReader rc) KIngress None [] Hreader) as (l & Ha & Hl).
    refine (total_read _ _ _ _ _ _ Ha _); [done |].
    assert (existsb (ingress_conflicts rc inst slug) l = false) as ->; [| done].
    apply existsb_false. intros o [Ho _]%Hl. by eapply Hclear. }
  apply total_get; [done | |].
  - intros ing Hi. pose proof (Hown ing Hi) as Hm. cbn in Hm. unfold ownsSlugIngress. rewrite Hm. exact Hc.
  - intros _ err -> _. exact Hc.
Qed.

Lemma settled_content (a b : Ingress) : stored_as KIngress a b -> ingress_settled rc inst slug a -> ingress_settled rc inst slug b.
Proof.
  intros [(_ & _ & _ & Ea & _)%meta_kept_fields Eb]. destruct a as [ma ? ? ? ?], b as [mb ? ? ? ?]. cbn in *.
  injection Eb as -> -> -> ->. intros [I1 I2 I3 I4 I5 I6 I7 I8].
  split; unfold tls_annotation_ok in *; cbn in *; rewrite ?Ea; assumption.
Qed.

Lemma ensureIngress_found (ing : Ingress) :
  ing_Meta (ensureIngress rc inst svc ("/llm/" +:+ slug) ing).1 =
  (ing_Meta ing) <| Annotations := Annotations (ing_Meta (ensureIngress rc inst svc ("/llm/" +:+ slug) ing).1) |>.
Proof. apply ensureIngress_only_annotations. Qed.

(** What [buildDesiredIngress] makes is settled up to its owner. *)
Definition routes (s : S) (ing : Ingress) : Prop :=
  isHTTPS rc = false \/ find s KIngress ingress_key <> None -> ingress_settled rc inst slug ing.

Lemma ingress_brings s labels : ExtraIngressAnnotations rc = ∅ -> route_clear s ->
  brings KIngress ingress_key (routes s) s (reconcileIngress rc inst labels svc ("/llm/" +:+ slug)).
Proof.
  intros Hx Hr. unfold reconcileIngress. rewrite TrimPrefix_app. apply total_fbind.
  eapply total_mono; [by apply route_passes |]. intros s' r [-> ->]. cbv beta iota.
  destruct Hr as [Hown _]. apply total_get; [done | |].
  - intros ing Hi. pose proof (Hown ing Hi) as Hm. cbn in Hm. unfold ownsSlugIngress. rewrite Hm. cbn [negb].
    pose proof (ensureIngress_settles rc inst slug Hx ing) as (C1 & _ & C3). pose proof (ensureIngress_found ing) as Em.
    destruct (ensureIngress rc inst svc ("/llm/" +:+ slug) ing) as [i u]. cbn [fst snd] in *. destruct u; cbn [negb].
    + eapply brings_updated; [exact Hi | by unfold key_of_obj; cbn; rewrite Em | by cbn; rewrite Em | done | by cbn; rewrite Em | |].
      * cbn. rewrite Em. exact Hm.
      * intros o' Ho _. by eapply settled_content.
    + apply (brings_nothing KIngress _ _ _ ing); [done | done |]. intros _. by rewrite <- C3.
  - intros Hi err -> _. cbn [negb]. destruct (buildDesiredIngress_meta rc inst slug labels) as (Bn & Bns & Bo).
    destruct (fresh_owned _ Bo Bns) as (m & -> & Hm & Hnm & Hns & Er).
    apply brings_created; [apply key_is; [exact (eq_trans Hnm Bn) | exact Hns] | done | done |].
    intros o' Ho [Hh | Hne]; [| by destruct Hne]. eapply settled_content; [exact Ho |].
    pose proof (proj2 (created_settled rc inst slug labels Hx) Hh) as [I1 I2 I3 I4 I5 I6 I7 I8].
    rewrite Er. split; done.
Qed.

(** Upgrading an existing middleware, early in every reconcile. *)
Lemma auth_upgrade s labels : auth_free s ->
  total E s (reconcileAuthMiddleware rc inst labels svc slug false)
    (fun s' r => r = Ok tt /\ only_at find KMiddleware auth_key s s' /\ auth_free s').
Proof.
  intros Hf. destruct (find s KMiddleware auth_key) as [mw|] eqn:Hmw.
  - eapply total_mono; [by eapply auth_found |]. intros s' r [-> [Ho (o & Hfo & Hm & m & Hp & _)]]. split_and!; [done | done |].
    split; intros o'; rewrite Hfo; intros [= <-]; [done | by rewrite Hp].
  - unfold reconcileAuthMiddleware. rewrite bool_decide_false by done. cbv zeta.
    apply total_get; [done | by rewrite Hmw |]. intros _ err Hn ->. rewrite Hn. cbn [negb]. split_and!; [done | by intros ? ? | done].
Qed.

(** Readiness is evaluated without writing, whatever it says. *)
Lemma readiness_runs s : total E s (evaluateInstanceReadiness inst svc) (fun s' r => s' = s /\ is_ok r = true).
Proof.
  unfold evaluateInstanceReadiness. cbv zeta. apply total_get; [done | |].
  2: { intros _ err -> _. done. }
  intros d _. destruct (deploymentReadiness d svc) as [[[] reason] message]; cbn [negb]; [| done].
  apply total_fbind. unfold serviceHasReadyEndpoints. apply total_get; [done | |].
  2: { intros _ err -> _. done. }
  intros eps _. destruct (existsb _ _); cbn [negb]; [| done].
  apply total_ret. cbn [negb]. unfold runServiceHealthCheck, defaultServiceHealthChecker. apply total_bind.
  refine (total_read _ _ _ _ _ _ eq_refl _); [done |]. apply total_ret. by case_match.
Qed.

(** ** Everything around an instance *)

Local Abbreviation deployment_key := (key_of ns svc).
Local Abbreviation service_key := (key_of ns svc).

(** Nothing of what the instance needs is in foreign hands. *)
Record world (s : S) : Prop := {
  w_deployment : own_or_absent KDeployment deployment_key s;
  w_service : own_or_absent KService service_key s;
  w_strip : strip_free s;
  w_auth : auth_free s;
  w_route : route_clear s;
}.

Definition there (K : kind) (key : ObjectKey) (P : obj K -> Prop) (s : S) : Prop :=
  exists o, find s K key = Some o /\ mine (meta_of K o) /\ P o.

(** Everything is there and as the instance asks for. *)
Record deployed (s : S) : Prop := {
  dp_deployment : there KDeployment deployment_key (converged inst (modelForInstance inst)) s;
  dp_service : there KService service_key (fun _ => True) s;
  dp_strip : there KMiddleware strip_key strips s;
  dp_auth : there KMiddleware auth_key binds s;
  dp_ingress : there KIngress ingress_key (ingress_settled rc inst slug) s;
}.

Lemma there_kept K key (P : obj K -> Prop) K' key' s s' :
  only_at find K' key' s s' -> (K, key) <> (K', key') -> there K key P s -> there K key P s'.
Proof. intros Ho Hne (o & Hf & Hm & HP). exists o. by rewrite (Ho K key Hne). Qed.

Lemma own_kept K key K' key' s s' :
  only_at find K' key' s s' -> (K, key) <> (K', key') -> own_or_absent K key s -> own_or_absent K key s'.
Proof. intros Ho Hne Hown o. rewrite (Ho K key Hne). apply Hown. Qed.

Lemma there_own K key P s : there K key P s -> own_or_absent K key s.
Proof. intros (o & Hf & Hm & _) o'. rewrite Hf. by intros [= <-]. Qed.

Lemma there_weaken K key (P P' : obj K -> Prop) s : (forall o, P o -> P' o) -> there K key P s -> there K key P' s.
Proof. intros HP (o & ? & ? & ?). exists o. auto. Qed.

Lemma strip_ne_auth : strip_key <> auth_key.
Proof. intros [= Heq]. by apply string_app_inj_l in Heq. Qed.

(** A write under one key leaves the world to what is there afterwards. *)
Lemma world_changed K key s s' :
  only_at find K key s s' ->
  ((KDeployment, deployment_key) = (K, key) -> own_or_absent KDeployment deployment_key s') ->
  ((KService, service_key) = (K, key) -> own_or_absent KService service_key s') ->
  ((KMiddleware, strip_key) = (K, key) -> strip_free s') ->
  ((KMiddleware, auth_key) = (K, key) -> auth_free s') ->
  (KIngress = K -> route_clear s') ->
  world s -> world s'.
Proof.
  intros Ho H1 H2 H3 H4 H5 [W1 W2 [W3 W3'] [W4 W4'] [W5 W5']]. split.
  - destruct (decide ((KDeployment, deployment_key) = (K, key))) as [e | e]; [by apply H1 | by eapply own_kept].
  - destruct (decide ((KService, service_key) = (K, key))) as [e | e]; [by apply H2 | by eapply own_kept].
  - destruct (decide ((KMiddleware, strip_key) = (K, key))) as [e | e]; [by apply H3 |].
    split; [by eapply own_kept | intros mw; rewrite (Ho _ _ e); apply W3'].
  - destruct (decide ((KMiddleware, auth_key) = (K, key))) as [e | e]; [by apply H4 |].
    split; [by eapply own_kept | intros mw; rewrite (Ho _ _ e); apply W4'].
  - destruct (decide (KIngress = K)) as [e | e]; [by apply H5 |].
    assert (Hk : forall k, (KIngress, k) <> (K, key)) by congruence.
    split; [by eapply own_kept | intros k ing; rewrite (Ho _ _ (Hk k)); apply W5'].
Qed.

Lemma world_part K key P s s' : brought K key P s s' -> K <> KMiddleware -> K <> KIngress -> world s -> world s'.
Proof.
  intros [Ho Ht] N1 N2 Hw. eapply world_changed; [exact Ho | | | congruence | congruence | congruence | exact Hw].
  - intros [= <- <-]. by eapply there_own.
  - intros [= <- <-]. by eapply there_own.
Qed.

Lemma world_strip s s' : brought KMiddleware strip_key strips s s' -> world s -> world s'.
Proof.
  intros [Ho Ht] Hw. eapply world_changed; [exact Ho | done | done | | | done | exact Hw].
  - intros _. split; [by eapply there_own |]. destruct Ht as (o & Hf & _ & Hp). intros mw. rewrite Hf. intros [= <-]. by rewrite Hp.
  - intros [= Heq]. by apply string_app_inj_l in Heq.
Qed.

Lemma world_auth s s' : brought KMiddleware auth_key binds s s' -> world s -> world s'.
Proof.
  intros [Ho Ht] Hw. eapply world_changed; [exact Ho | done | done | | | done | exact Hw].
  - intros [= Heq]. by apply string_app_inj_l in Heq.
  - intros _. split; [by eapply there_own |]. destruct Ht as (o & Hf & _ & m & Hp & _). intros mw. rewrite Hf. intros [= <-]. by rewrite Hp.
Qed.

Lemma own_no_conflict s ing : own_or_absent KIngress ingress_key s -> find s KIngress ingress_key = Some ing ->
  ingress_conflicts rc inst slug ing = false.
Proof.
  intros Hown Hf. pose proof (find_key _ _ _ _ Hf) as Hkey. pose proof (Hown ing Hf) as Hm. unfold key_of_obj in Hkey.
  cbn in Hkey, Hm. unfold ingress_conflicts, ownsSlugIngress. by rewrite bool_decide_true, Hm.
Qed.

Lemma world_ingress P s s' : brought KIngress ingress_key P s s' -> world s -> world s'.
Proof.
  intros [Ho Ht] Hw. eapply world_changed; [exact Ho | done | done | done | done | | exact Hw].
  intros _. split; [by eapply there_own |]. intros key ing Hi.
  destruct (decide (key = ingress_key)) as [-> | Hne].
  - eapply own_no_conflict; [by eapply there_own | exact Hi].
  - rewrite Ho in Hi by congruence. by eapply (w_route s Hw).
Qed.

(** Writing the instance changes none of it. *)
Lemma world_instance key s s' : only_at find KInstance key s s' -> world s -> world s'.
Proof. intros Ho. by eapply world_changed. Qed.

(** ** The instance in its reconciles *)

Hypothesis Hextra : ExtraIngressAnnotations rc = ∅.
Hypothesis Hslug : slug <> "".

(** The stored instance may be served: hosted, with an accepted slug, in a free world. *)
Record hosted_at (s : S) (i : LLMInstance) : Prop := {
  ha_found : find s KInstance (instance_key inst) = Some i;
  ha_alike : alike i inst;
  ha_slug : exists source, selectSlug rc i = Ok {| sel_Slug := slug; sel_Source := source |};
  ha_hosted : ActiveBYOCKubeconfigSecretName (Status i) = "";
  ha_world : world s;
}.

Definition finalized (i : LLMInstance) : Prop := ContainsFinalizer (Finalizers (inst_Meta i)) finalizerName = true.
Definition recorded (i : LLMInstance) : Prop :=
  selectSlug rc i = Ok {| sel_Slug := Slug (Status i); sel_Source := SlugSource (Status i) |}.

Lemma Select_alike p (i j : LLMInstance) : alike i j -> Select p (inst_Meta i) = Select p (inst_Meta j).
Proof. revert i j. alike_same. Qed.

(** An accepted slug stays accepted once recorded, while the status changes around it. *)
Lemma select_kept (i j : LLMInstance) sel :
  alike j i -> selectSlug rc i = Ok sel -> sel_Slug sel <> "" ->
  Slug (Status j) = sel_Slug sel -> ActiveBYOCSlug (Status j) = ActiveBYOCSlug (Status i) -> selectSlug rc j = Ok sel.
Proof.
  unfold selectSlug. intros Hal Hr Hne E1 E2. rewrite (Select_alike _ j i Hal), E1, E2.
  destruct (Select _ _) as [sel'|]; [| done].
  assert (sel' = sel) as -> by (repeat case_match; by simplify_eq).
  rewrite (bool_decide_false (sel_Slug sel = "")), (bool_decide_true (sel_Slug sel = sel_Slug sel)), andb_false_r by done.
  cbn [negb andb]. rewrite orb_false_r.
  destruct (negb (bool_decide (ActiveBYOCSlug (Status i) = "")) && _) eqn:Eb; [| done].
  revert Hr. cbn [orb]. by repeat case_match.
Qed.

Lemma total_or_reject K key P s i (step : fio unit) (k : io (Result * option error)) (Q : S -> Result * option error -> Prop) :
  brings K key P s step -> (forall s', brought K key P s s' -> total E s' k Q) -> total E s (or_reject rc i step k) Q.
Proof.
  intros Hb Hk. unfold or_reject. apply total_bind. destruct Hb as [Hr Hs]. unfold total at 1. rewrite Hr. by apply Hk.
Qed.

Lemma total_status (s : S) (i : LLMInstance) status phase endpoint reason message
    (k : res LLMInstance -> io (Result * option error)) (Q : S -> Result * option error -> Prop) :
  find s KInstance (instance_key i) = Some i ->
  (forall s' now rv ls, let i' := (with_status i now status phase endpoint reason message)
       <| inst_Meta -> ResourceVersion := rv |> <| inst_Meta -> Labels := ls |> in
     find s' KInstance (instance_key i) = Some i' -> only_at find KInstance (instance_key i) s s' -> total E s' (k (Ok i')) Q) ->
  total E s ((let! now := call ENow in
              call (EUpdateStatus Cached KInstance (with_status i now status phase endpoint reason message))) ≫= k) Q.
Proof.
  intros Hf Hk. apply total_bind. refine (total_read _ _ _ _ _ _ eq_refl _); [done |]. cbv beta.
  set (now := answers E s ENow). set (o := with_status _ _ _ _ _ _ _).
  assert (Hko : key_of_obj KInstance o = instance_key i) by done.
  destruct (update_status_accepted s KInstance o i) as (o' & Hr & (rv & ls & _ & ->) & Hfo & Ho); [by rewrite Hko | done |].
  rewrite Hko in *. specialize (Hk _ now rv ls Hfo Ho). unfold total in *. cbn [call run].
  destruct (E _ s) as [s' r]. cbn in Hr |- *. subst r. exact Hk.
Qed.

(** A status write keeps all that matters of the instance. *)
Lemma hosted_at_status s s' i now status phase endpoint reason message rv ls :
  let i' := (with_status i now status phase endpoint reason message)
    <| inst_Meta -> ResourceVersion := rv |> <| inst_Meta -> Labels := ls |> in
  hosted_at s i -> finalized i -> recorded i -> Slug (Status i) = slug ->
  find s' KInstance (instance_key inst) = Some i' -> world s' ->
  hosted_at s' i' /\ finalized i' /\ recorded i'.
Proof.
  intros i' [H1 H2 _ H4 _] Hfin Hrec Hs Hf Hw.
  assert (Hal : alike i' i) by done. assert (Hrec' : recorded i') by (eapply select_kept; [exact Hal | exact Hrec | change (Slug (Status i) <> ""); congruence | done | done]).
  split_and!; [split; [done | by etransitivity | | done | done] | done | done].
  exists (SlugSource (Status i')). unfold recorded in Hrec'. rewrite Hrec'. by rewrite <- Hs.
Qed.

Definition hosted_done (s s' : S) : Prop :=
  exists i, hosted_at s' i /\ finalized i /\ recorded i /\ Slug (Status i) = slug /\
    there KIngress ingress_key (fun _ => True) s' /\
    (isHTTPS rc = false \/ find s KIngress ingress_key <> None -> deployed s').

Lemma alike_key i : alike i inst -> instance_key i = instance_key inst.
Proof. intros [E1 E2]. unfold instance_key, ObjectKeyFromObject. by rewrite E1, E2. Qed.

(** What the five parts leave behind, one after the other. *)
Lemma parts_there s s1 s2 s3 s4 s5 :
  brought KDeployment deployment_key (converged inst (modelForInstance inst)) s s1 ->
  brought KService service_key (fun _ => True) s1 s2 -> brought KMiddleware strip_key strips s2 s3 ->
  brought KMiddleware auth_key binds s3 s4 -> brought KIngress ingress_key (routes s4) s4 s5 ->
  (forall key, find s5 KInstance key = find s KInstance key) /\ there KIngress ingress_key (fun _ => True) s5 /\
  (isHTTPS rc = false \/ find s KIngress ingress_key <> None -> deployed s5).
Proof.
  intros [O1 T1] [O2 T2] [O3 T3] [O4 T4] [O5 T5]. split_and!.
  - intros key. by rewrite O5, O4, O3, O2, O1 by done.
  - by eapply there_weaken; [| exact T5].
  - intros Hh. split.
    + do 4 (eapply there_kept; [eassumption | done |]). exact T1.
    + do 3 (eapply there_kept; [eassumption | done |]). exact T2.
    + eapply there_kept; [exact O5 | done |]. eapply there_kept; [exact O4 | | exact T3].
      intros [= Heq]. by apply string_app_inj_l in Heq.
    + eapply there_kept; [exact O5 | done | exact T4].
    + eapply there_weaken; [| exact T5]. intros ing Hr. apply Hr. by rewrite O4, O3, O2, O1 by done.
Qed.

Lemma deployed_instance key s s' : only_at find KInstance key s s' -> deployed s -> deployed s'.
Proof. intros Ho [P1 P2 P3 P4 P5]. by split; (eapply there_kept; [exact Ho | done |]). Qed.

(** Every part has its object, and a status is stored. *)
Lemma hosted_run s i : hosted_at s i -> finalized i -> recorded i -> Slug (Status i) = slug ->
  total E s (reconcileHosted rc i slug (modelForInstance i)) (fun s' r => r.2 = None /\ hosted_done s s').
Proof.
  intros Hat Hfin Hrec Hs. pose proof (ha_alike _ _ Hat) as Hal. unfold reconcileHosted.
  assert (i <| Status -> ActiveBYOCKubeconfigSecretName := "" |> = i) as ->.
  { pose proof (ha_hosted _ _ Hat) as Eh. destruct i as [? ? []]. cbn in *. by subst. }
  cbv zeta. rewrite (alike_llama_name i inst Hal), (alike_model i inst Hal).
  set (labels := llamaLabels _). set (model := modelForInstance inst). pose proof (ha_world _ _ Hat) as W0.
  eapply total_or_reject; [rewrite (alike_deployment i inst Hal labels _ eq_refl model _ eq_refl); apply deployment_brings, W0 |].
  intros s1 B1. pose proof (world_part _ _ _ _ _ B1 ltac:(done) ltac:(done) W0) as W1.
  eapply total_or_reject; [rewrite (alike_service i inst Hal labels _ eq_refl _ _ eq_refl); apply service_brings, W1 |].
  intros s2 B2. pose proof (world_part _ _ _ _ _ B2 ltac:(done) ltac:(done) W1) as W2.
  eapply total_or_reject; [rewrite (alike_strip i inst Hal labels _ eq_refl _ _ eq_refl _ _ eq_refl); apply strip_brings, W2 |].
  intros s3 B3. pose proof (world_strip _ _ B3 W2) as W3.
  eapply total_or_reject; [unfold reconcileForwardAuthMiddleware;
    rewrite (alike_auth rc i inst Hal labels _ eq_refl _ _ eq_refl _ _ eq_refl _ _ eq_refl); apply auth_brings, W3 |].
  intros s4 B4. pose proof (world_auth _ _ B4 W3) as W4.
  eapply total_or_reject; [rewrite (alike_ingress rc i inst Hal labels _ eq_refl _ _ eq_refl _ _ eq_refl); apply ingress_brings; [done | apply W4] |].
  intros s5 B5. pose proof (world_ingress _ _ _ B5 W4) as W5.
  destruct (parts_there s s1 s2 s3 s4 s5 B1 B2 B3 B4 B5) as (Hsame & Hing & Hdep).
  rewrite (alike_readiness i inst Hal _ _ eq_refl). apply total_bind.
  eapply total_mono; [apply readiness_runs |]. intros s' [[[ready reason] message] | err] [-> Hok]; [| done].
  assert (Hi : find s5 KInstance (instance_key i) = Some i) by (rewrite Hsame, (alike_key i Hal); apply Hat).
  destruct ready; cbn [negb]; unfold updateReadyStatus, updateProvisioningStatus; apply total_status; try done;
    intros s6 now rv ls i' Hf Ho; rewrite (alike_key i Hal) in Hf; (split; [done |]); exists i';
    (edestruct (hosted_at_status s s6 i) as (A1 & A2 & A3); [exact Hat | done | done | done | exact Hf | by eapply world_instance |]);
    (split_and!; [done | done | done | done | by eapply there_kept | intros Hh; eapply deployed_instance; [exact Ho | by apply Hdep]]).
Qed.

Hypothesis Hlive : time_IsZero (DeletionTimestamp (inst_Meta inst)) = true.
Hypothesis Hhosted : IsBYOC inst = false.
Hypothesis Hceilings : check (rec_Ceilings rc) inst = None.

(** What is left to do: nothing (0), an update of the Ingress (1), the objects (2), the
    slug (3), the finalizer (4). *)
Definition stage (n : nat) (s : S) : Prop :=
  exists i, hosted_at s i /\ (n <= 3 -> finalized i) /\ (n <= 2 -> recorded i /\ Slug (Status i) = slug) /\
    (n <= 1 -> there KIngress ingress_key (fun _ => True) s) /\ (n = 0 -> deployed s).

(** The middleware of an earlier version is upgraded first. *)
Lemma upgrade_run s i : hosted_at s i ->
  total E s (upgradeExistingAuthMiddleware rc i)
    (fun s' r => r = Ok tt /\ hosted_at s' i /\ only_at find KMiddleware auth_key s s').
Proof.
  intros [H1 H2 [source H3] H4 W]. unfold upgradeExistingAuthMiddleware.
  rewrite (alike_IsBYOC i inst H2), Hhosted, H3, (alike_llama_name i inst H2). cbn [sel_Slug].
  rewrite (alike_auth rc i inst H2 _ _ eq_refl _ _ eq_refl _ _ eq_refl _ _ eq_refl).
  eapply total_mono; [apply auth_upgrade, W |]. intros s' r (-> & Ho & Hf). split_and!; [done | | done].
  split; [by rewrite Ho | done | by exists source | done |].
  eapply world_changed; [exact Ho | done | done | | done | done | exact W]. intros [= Heq]. by apply string_app_inj_l in Heq.
Qed.

Lemma finalizer_run s i source : hosted_at s i -> selectSlug rc i = Ok {| sel_Slug := slug; sel_Source := source |} ->
  total E s (call (EUpdate Cached KInstance (i <| inst_Meta -> Finalizers ::= fun fs => AddFinalizer fs finalizerName |>)))
    (fun s' r => is_ok r = true /\ exists i', hosted_at s' i' /\ finalized i').
Proof.
  intros Hat Hsel. set (o := i <| inst_Meta -> Finalizers ::= _ |>).
  assert (Hko : key_of_obj KInstance o = instance_key inst) by (apply (alike_key i), Hat).
  destruct (update_accepted s KInstance o i) as (o' & Hr & (rv & ls & _ & Er) & Hfo & Ho); [rewrite Hko; apply Hat | done | done | left; change (time_IsZero (DeletionTimestamp (inst_Meta i)) = true); by rewrite (al_deleted _ _ (ha_alike _ _ Hat)) |].
  rewrite Hko in *. apply total_call. rewrite Hr. split; [done |]. exists o'. subst o'. split; [| apply AddFinalizer_spec].
  split; [exact Hfo | etransitivity; [| apply Hat]; done | exists source; exact Hsel | apply Hat |].
  eapply world_instance; [exact Ho | apply Hat].
Qed.

Lemma slug_run s i source : hosted_at s i -> finalized i -> selectSlug rc i = Ok {| sel_Slug := slug; sel_Source := source |} ->
  total E s (ensureSlug rc i)
    (fun s' r => (r = (i, Ok (slug, false)) /\ s' = s /\ recorded i /\ Slug (Status i) = slug) \/
                 (r.2 = Ok (slug, true) /\ ~ recorded i /\ exists i', hosted_at s' i' /\ finalized i' /\ recorded i' /\ Slug (Status i') = slug)).
Proof.
  intros Hat Hfin Hsel. unfold ensureSlug. rewrite Hsel. cbn [sel_Slug sel_Source].
  destruct (bool_decide (Slug (Status i) = slug) && _) eqn:Er.
  { bool_props. left. split_and!; try done. unfold recorded. rewrite Hsel. congruence. }
  assert (Hnot : ~ recorded i).
  { unfold recorded. rewrite Hsel. intros [= Ea Eb]. by rewrite !bool_decide_true in Er. }
  clear Er. cbv zeta. set (o := i <| Status -> Slug := _ |> <| Status -> SlugSource := _ |>).
  assert (Hko : key_of_obj KInstance o = instance_key inst) by (apply (alike_key i), Hat).
  destruct (patch_status_accepted s KInstance o i) as (o' & Hr & (rv & ls & _ & Eo) & Hfo & Ho); [rewrite Hko; apply Hat | done |].
  rewrite Hko in *. apply total_vis. rewrite Hr.
  refine (total_read _ (EGet (routeReader rc) KInstance (instance_key i)) (Ok o') _ _ _ _ _); [done | |].
  { apply get_found; [done |]. rewrite (alike_key i); [exact Hfo | apply Hat]. }
  apply total_ret. right. subst o'. split_and!; [| done |].
  - cbn. by rewrite !bool_decide_true.
  - exists (o <| inst_Meta -> ResourceVersion := rv |> <| inst_Meta -> Labels := ls |>). split_and!; [| exact Hfin | | done].
    + split; [exact Hfo | transitivity i; [by split | apply Hat] | exists source | apply Hat | eapply world_instance; [exact Ho | apply Hat]].
      by eapply (select_kept i).
    + unfold recorded. by eapply (select_kept i).
Qed.

(** From the settled slug on. *)
Lemma target_run s i Q : hosted_at s i ->
  total E s (reconcileHosted rc i slug (modelForInstance i)) Q ->
  total E s (let! checked := if negb (IsBYOC i) then checkSlugRoute rc i slug else fret tt in
             match checked with Err err => reject rc i err | Ok _ => reconcileTarget rc i slug end) Q.
Proof.
  intros Hat HQ. pose proof (ha_alike _ _ Hat) as Hal.
  rewrite (alike_IsBYOC i inst Hal), Hhosted. cbn [negb]. rewrite (alike_route rc i inst Hal _ _ eq_refl).
  apply total_bind. eapply total_mono; [apply route_passes, Hat |]. intros s' r [-> ->]. unfold reconcileTarget. cbv zeta.
  assert (Hc : cleanupChangedBYOCTarget rc slug i = Ret (i, Ok tt)).
  { unfold cleanupChangedBYOCTarget, sbind, sget. cbn [mbind io_bind mret io_ret].
    rewrite bool_decide_true; [done | apply Hat]. }
  rewrite Hc. cbn [mbind io_bind]. by rewrite (alike_IsBYOC i inst Hal), Hhosted.
Qed.

(** Up to the finalizer: the instance is read, its slug accepted, its middleware upgraded. *)
Lemma reconcile_read s i (I : S -> Prop) Q : hosted_at s i ->
  total E s (upgradeExistingAuthMiddleware rc i) (fun s1 r => r = Ok tt /\ I s1) ->
  (forall s1, I s1 -> total E s1
     (if negb (ContainsFinalizer (Finalizers (inst_Meta i)) finalizerName) then
        let! stored := call (EUpdate Cached KInstance (i <| inst_Meta -> Finalizers ::= fun fs => AddFinalizer fs finalizerName |>)) in
        mret (match stored with Ok _ => requeue_now | Err _ => requeue_after 5 end, None)
      else
        let! (i, settled) := ensureSlug rc i in
        match settled with
        | Err err => reject rc i err
        | Ok (slug, requeue) =>
            if requeue : bool then mret (requeue_now, None)
            else let! checked := if negb (IsBYOC i) then checkSlugRoute rc i slug else fret tt in
                 match checked with Err err => reject rc i err | Ok _ => reconcileTarget rc i slug end
        end) Q) ->
  total E s (Reconcile rc (instance_key inst)) Q.
Proof.
  intros Hat Hup HQ. unfold Reconcile. apply total_bind. unfold getInstance.
  eapply total_read; [done | apply get_found; [done | apply Hat] |]. apply total_ret.
  rewrite (al_deleted _ _ (ha_alike _ _ Hat)), Hlive. cbn [negb]. unfold reconcileLive.
  destruct (ha_slug _ _ Hat) as [source Hsel]. rewrite Hsel.
  apply total_bind. eapply total_mono; [exact Hup |]. intros s1 r [-> HI].
  rewrite (alike_check _ i inst (ha_alike _ _ Hat)), Hceilings. by apply HQ.
Qed.

Lemma reconcile_step n s : stage n s ->
  total E s (Reconcile rc (instance_key inst)) (fun s' r => r.2 = None /\ stage (pred n) s').
Proof.
  intros (i & Hat & F3 & F2 & F1 & F0). eapply reconcile_read; [exact Hat | by apply upgrade_run |].
  intros s1 [Hat1 Ho]. destruct (ha_slug _ _ Hat) as [source Hsel].
  destruct (ContainsFinalizer (Finalizers (inst_Meta i)) finalizerName) eqn:Hfin; cbn [negb].
  - apply total_bind. eapply total_mono; [by eapply slug_run |].
    intros s2 r [(-> & -> & Hrec & Hs) | (Hr & Hnot & i' & Hat' & Hfin' & Hrec' & Hs')].
    + apply target_run; [done |]. eapply total_mono; [by apply hosted_run |].
      intros s3 r3 (-> & i' & A1 & A2 & A3 & A4 & A5 & A6). split; [done |].
      exists i'. split_and!; try done. intros Hn. apply A6. right.
      destruct (F1 ltac:(lia)) as (ing & Hf & _). by rewrite Ho, Hf by done.
    + destruct r as [j r]. cbn in Hr. subst r. apply total_ret. split; [done |]. exists i'.
      assert (3 <= n) by (destruct (decide (n <= 2)) as [Hn | ?]; [| lia]; by destruct Hnot, (F2 Hn)).
      split_and!; try done; lia.
  - assert (4 <= n) by (destruct (decide (n <= 3)) as [Hn | ?]; [| lia]; specialize (F3 Hn); unfold finalized in F3; congruence).
    apply total_bind. eapply total_mono; [by eapply finalizer_run |]. intros s2 [] [Hok (i' & Hat' & Hfin')]; [| done].
    apply total_ret. split; [done |]. exists i'. split_and!; try done; lia.
Qed.

(** ** Publication *)

(** The model server answers behind its Service. *)
Definition serving (s : S) : Prop :=
  (forall d, find s KDeployment deployment_key = Some d -> deployment_available d) /\
  server_ready (answers E s) inst.

Lemma deployed_settled s : deployed s -> serving s -> workload_settled rc (answers E s) inst slug.
Proof.
  intros [(d & D1 & D2 & D3) (v & V1 & V2 & _) (m & M1 & M2 & M3) (a & A1 & A2 & f & A3 & A4) _] [Hd _]. split.
  - exists d. split_and!; [by apply get_found | done | done | by apply Hd].
  - exists v. split; [by apply get_found | done].
  - exists m. split_and!; [by apply get_found | done | done].
  - exists a, f. split_and!; [by apply get_found | done | done | done].
Qed.

Lemma total_or_reject_quiet s i (step : fio unit) (k : io (Result * option error)) (Q : S -> Result * option error -> Prop) :
  quiet (answers E s) step (Ok tt) -> total E s k Q -> total E s (or_reject rc i step k) Q.
Proof. intros Hq Hk. unfold or_reject. apply total_bind. eapply total_quiet; [apply read_keeps | exact Hq | exact Hk]. Qed.

Lemma ingress_stays s labels : world s -> there KIngress ingress_key (ingress_settled rc inst slug) s ->
  total E s (reconcileIngress rc inst labels svc ("/llm/" +:+ slug)) (fun s' r => r = Ok tt /\ s' = s).
Proof.
  intros W (ing & Hi & Hm & Hs). unfold reconcileIngress. rewrite TrimPrefix_app. apply total_fbind.
  eapply total_mono; [apply route_passes, W |]. intros s' r [-> ->]. cbv beta iota.
  eapply total_read; [done | by apply get_found |]. unfold ownsSlugIngress. cbn in Hm. rewrite Hm. cbn [negb].
  destruct (ensureIngress_settles rc inst slug Hextra ing) as (_ & C & _). by rewrite (C Hs).
Qed.

(** What the instance says once it is published. *)
Definition published_at (s : S) : Prop :=
  exists i, find s KInstance (instance_key inst) = Some i /\ alike i inst /\
    Phase (Status i) = "Ready" /\ Endpoint (Status i) = instanceEndpoint rc slug /\
    ObservedGeneration (Status i) = Generation (inst_Meta i) /\
    (exists c, FindStatusCondition (Conditions (Status i)) "Ready" = Some c /\ cond_Status c = ConditionTrue /\
               cond_ObservedGeneration c = Generation (inst_Meta i)) /\
    recorded i /\ Slug (Status i) = slug /\ ActiveBYOCKubeconfigSecretName (Status i) = "".

Lemma publish_run s i : hosted_at s i -> finalized i -> recorded i -> Slug (Status i) = slug -> deployed s -> serving s ->
  total E s (reconcileHosted rc i slug (modelForInstance i)) (fun s' r => r = (requeue_after 30, None) /\ published_at s').
Proof.
  intros Hat Hfin Hrec Hsl Hd Hv. pose proof (ha_alike _ _ Hat) as Hal. pose proof (deployed_settled s Hd Hv) as Hw. unfold reconcileHosted.
  assert (i <| Status -> ActiveBYOCKubeconfigSecretName := "" |> = i) as ->.
  { pose proof (ha_hosted _ _ Hat) as Eh. destruct i as [? ? []]. cbn in *. by subst. }
  cbv zeta. rewrite (alike_llama_name i inst Hal), (alike_model i inst Hal). set (labels := llamaLabels _).
  apply total_or_reject_quiet.
  { rewrite (alike_deployment i inst Hal _ _ eq_refl _ _ eq_refl). by eapply hosted_deployment_quiet. }
  apply total_or_reject_quiet.
  { rewrite (alike_service i inst Hal _ _ eq_refl _ _ eq_refl). by eapply hosted_service_quiet. }
  apply total_or_reject_quiet.
  { rewrite (alike_strip i inst Hal _ _ eq_refl _ _ eq_refl _ _ eq_refl). by eapply strip_quiet. }
  apply total_or_reject_quiet.
  { unfold reconcileForwardAuthMiddleware. rewrite (alike_auth rc i inst Hal _ _ eq_refl _ _ eq_refl _ _ eq_refl _ _ eq_refl). by apply auth_quiet. }
  unfold or_reject. apply total_bind. rewrite (alike_ingress rc i inst Hal _ _ eq_refl _ _ eq_refl _ _ eq_refl).
  eapply total_mono; [apply ingress_stays; [apply Hat | apply Hd] |]. intros s' r [-> ->]. cbv beta iota.
  rewrite (alike_readiness i inst Hal _ _ eq_refl). apply total_bind.
  eapply total_quiet; [apply read_keeps | eapply hosted_readiness_quiet; [exact Hw | apply Hv] |]. cbv beta iota. cbn [negb].
  unfold updateReadyStatus. apply total_status; [rewrite (alike_key i Hal); apply Hat |].
  intros s' now rv ls i' Hf Ho. rewrite (alike_key i Hal) in Hf, Ho. split; [done |]. exists i'.
  edestruct (hosted_at_status s s' i) as (A1 & _ & A3); [exact Hat | done | done | done | exact Hf | eapply world_instance; [exact Ho | apply Hat] |].
  split_and!; [done | apply A1 | done | done | done | | exact A3 | done | apply A1].
  destruct (FindStatusCondition_set now (Conditions (Status i))
    (instance_condition i ConditionTrue "Provisioned" "LLM instance is ready")) as [t Ht]. eexists. split; [exact Ht | done].
Qed.

Lemma reconcile_ready s : stage 0 s -> serving s ->
  total E s (Reconcile rc (instance_key inst)) (fun s' r => r = (requeue_after 30, None) /\ published_at s').
Proof.
  intros (i & Hat & F3 & F2 & F1 & F0) Hv. destruct (F2 ltac:(lia)) as [Hrec Hs]. specialize (F0 eq_refl).
  specialize (F3 ltac:(lia)). pose proof (ha_alike _ _ Hat) as Hal.
  eapply (reconcile_read s i (fun s1 => s1 = s)); [exact Hat | |].
  { eapply total_quiet; [apply read_keeps | | by split]. unfold upgradeExistingAuthMiddleware.
    rewrite (alike_IsBYOC i inst Hal), Hhosted, Hrec, Hs. cbn [sel_Slug]. rewrite (alike_llama_name i inst Hal).
    rewrite (alike_auth rc i inst Hal _ _ eq_refl _ _ eq_refl _ _ eq_refl _ _ eq_refl). apply auth_quiet; [done |].
    by apply deployed_settled. }
  intros s1 ->. unfold finalized in F3. rewrite F3. cbn [negb].
  unfold ensureSlug. rewrite Hrec. cbn [sel_Slug sel_Source]. rewrite !bool_decide_true by done. cbn [andb mbind io_bind mret io_ret].
  rewrite Hs. apply target_run; [done |]. by apply publish_run.
Qed.

(** ** What may happen between two reconciles *)

(** The objects of the instance may be given versions, statuses and fields nobody set;
    other objects come and go, but none that competes for the path. *)
Definition touched (K : kind) (key : ObjectKey) (s s' : S) : Prop :=
  match find s K key, find s' K key with
  | Some o, Some o' => stored_as K o o'
  | None, None => True
  | _, _ => False
  end.

Record drift (s s' : S) : Prop := {
  dr_instance : touched KInstance (instance_key inst) s s';
  dr_deployment : touched KDeployment deployment_key s s';
  dr_service : touched KService service_key s s';
  dr_strip : touched KMiddleware strip_key s s';
  dr_auth : touched KMiddleware auth_key s s';
  dr_ingress : touched KIngress ingress_key s s';
  dr_route : forall key ing, find s' KIngress key = Some ing -> key <> ingress_key -> ingress_conflicts rc inst slug ing = false;
}.

Lemma there_touched K key (P : obj K -> Prop) s s' :
  (forall o o', stored_as K o o' -> P o -> P o') -> touched K key s s' -> there K key P s -> there K key P s'.
Proof.
  intros HP Ht (o & Hf & Hm & Ho). unfold touched in Ht. rewrite Hf in Ht. destruct (find s' K key) as [o'|] eqn:Hf'; [| done].
  exists o'. split_and!; [done | | by eapply HP]. by rewrite (owns_content inst _ _ (stored_meta K o o' Ht)).
Qed.

Lemma touched_back K key s s' o' : touched K key s s' -> find s' K key = Some o' ->
  exists o, find s K key = Some o /\ stored_as K o o'.
Proof. unfold touched. intros Ht Hf. rewrite Hf in Ht. destruct (find s K key) as [o|]; [by exists o | done]. Qed.

Lemma own_touched K key s s' : touched K key s s' -> own_or_absent K key s -> own_or_absent K key s'.
Proof.
  intros Ht Hown o' Hf. destruct (touched_back _ _ _ _ _ Ht Hf) as (o & Hfo & Hs).
  rewrite (owns_content inst _ _ (stored_meta K o o' Hs)). by apply Hown.
Qed.

Lemma strips_stored o o' : stored_as KMiddleware o o' -> strips o -> strips o'.
Proof. intros [_ Eo]. destruct o, o'. cbn in Eo. injection Eo as -> ->. done. Qed.

Lemma binds_stored o o' : stored_as KMiddleware o o' -> binds o -> binds o'.
Proof. intros [_ Eo]. destruct o, o'. cbn in Eo. injection Eo as -> ->. done. Qed.

Lemma world_drift s s' : drift s s' -> world s -> world s'.
Proof.
  intros [D1 D2 D3 D4 D5 D6 D7] [W1 W2 [W3 W3'] [W4 W4'] [W5 W5']].
  split; [by eapply own_touched | by eapply own_touched | split | split | split]; try by eapply own_touched.
  - intros mw Hf. destruct (touched_back _ _ _ _ _ D4 Hf) as (o & Hfo & _ & Eo). specialize (W3' o Hfo).
    destruct o, mw. cbn in Eo, W3' |- *. by injection Eo as -> ->.
  - intros mw Hf. destruct (touched_back _ _ _ _ _ D5 Hf) as (o & Hfo & _ & Eo). specialize (W4' o Hfo).
    destruct o, mw. cbn in Eo, W4' |- *. by injection Eo as -> ->.
  - intros key ing Hf. destruct (decide (key = ingress_key)) as [-> | Hne]; [| by eapply D7].
    eapply own_no_conflict; [by eapply own_touched | exact Hf].
Qed.

Lemma deployed_drift s s' : drift s s' -> deployed s -> deployed s'.
Proof.
  intros [D1 D2 D3 D4 D5 D6 D7] [P1 P2 P3 P4 P5]. split.
  - eapply there_touched; [| exact D2 | exact P1]. intros o o' [_ Hc]. by apply converged_content.
  - by eapply there_touched; [| exact D3 | exact P2].
  - eapply there_touched; [apply strips_stored | exact D4 | exact P3].
  - eapply there_touched; [apply binds_stored | exact D5 | exact P4].
  - eapply there_touched; [apply settled_content | exact D6 | exact P5].
Qed.

Lemma stage_drift n s s' : drift s s' -> stage n s -> stage n s'.
Proof.
  intros Hd (i & [H1 H2 H3 H4 W] & F3 & F2 & F1 & F0). pose proof (dr_instance _ _ Hd) as Hi. unfold touched in Hi.
  rewrite H1 in Hi. destruct (find s' KInstance (instance_key inst)) as [i'|] eqn:Hf; [| done]. destruct Hi as (rv & ls & _ & ->).
  eexists. split_and!; [split; [exact Hf | by transitivity i | exact H3 | exact H4 | by eapply world_drift] | exact F3 | exact F2 | |].
  - intros Hn. eapply there_touched; [| apply Hd | by apply F1]. done.
  - intros Hn. eapply deployed_drift; [exact Hd | by apply F0].
Qed.

(** [n] reconciles, whatever drifts before each. *)
Inductive rounds : nat -> S -> S -> Prop :=
| rounds_none s : rounds 0 s s
| rounds_next n s s1 s' : drift s s1 -> rounds n (run E s1 (Reconcile rc (instance_key inst))).1 s' -> rounds (Datatypes.S n) s s'.

Lemma rounds_stage n k s s' : rounds k s s' -> stage n s -> stage (n - k) s'.
Proof.
  intros Hr. revert n. induction Hr as [s | k s s1 s' Hd _ IH]; intros n Hst; [by rewrite Nat.sub_0_r |].
  destruct (reconcile_step n s1) as [_ Hn]; [by eapply stage_drift |]. apply IH in Hn. by replace (n - Datatypes.S k) with (pred n - k) by lia.
Qed.

(** Nothing need happen in between. *)
Fixpoint undisturbed (n : nat) (s : S) : S :=
  match n with
  | 0 => s
  | Datatypes.S n' => undisturbed n' (run E s (Reconcile rc (instance_key inst))).1
  end.

Lemma touched_self K key s : K <> KSecret -> touched K key s s.
Proof.
  intros HK'. unfold touched. destruct (find s K key) as [o|]; [| done].
  destruct K, o as [[]]; cbn; try done; by eexists _, _.
Qed.

Lemma drift_self n s : stage n s -> drift s s.
Proof.
  intros (i & [_ _ _ _ W] & _). split; try by apply touched_self. intros key ing Hf _. by eapply (w_route s W).
Qed.

Lemma undisturbed_rounds k n s : stage k s -> rounds n s (undisturbed n s).
Proof.
  revert k s. induction n as [|n IH]; intros k s Hst; [constructor |]. eapply rounds_next; [by eapply drift_self |].
  eapply IH, (proj2 (reconcile_step k s Hst)).
Qed.

End Parts.

(** ** The theorem *)

Section ComesUp.
  Context {HK : KubeLib} {HL : KubeLaws} {HX : X509Lib} {HC : ClientLib}.
  Context {S : Type} {E : env S} {find : S -> forall K : kind, ObjectKey -> option (obj K)} {HS : ApiServer E find}.
  Variable rc : LLMInstanceReconciler.
  Variable inst : LLMInstance.
  Variable slug : string.

(** A hosted instance the operator may serve under [slug]; no extra annotations. *)
Record servable : Prop := {
  sv_uid : UID (inst_Meta inst) <> "";
  sv_live : time_IsZero (DeletionTimestamp (inst_Meta inst)) = true;
  sv_hosted : IsBYOC inst = false;
  sv_ceilings : check (rec_Ceilings rc) inst = None;
  sv_slug : slug <> "";
  sv_reader : in_cluster (routeReader rc) = true;
  sv_extra : ExtraIngressAnnotations rc = ∅;
}.

(** C8: a hosted instance comes up.  Take any API server that stores what it accepts, and
    an instance whose slug is accepted and whose names are free: each of its objects may
    be absent, or its own in any state.  Every reconcile succeeds, and after four of them
    (finalizer, slug, objects, and the second look at the Ingress), Deployment, Service,
    middlewares and Ingress are as the instance asks for, and stay so under further
    reconciles, whatever the rest of the cluster does in between.  As soon as the model
    server answers, the next reconcile publishes the endpoint as Ready. *)
Theorem hosted_comes_up (n : nat) (s s' s'' : S) (i : LLMInstance)
  (Hv : servable) (Hat : hosted_at (find := find) rc inst slug s i)
  (Hr : rounds (E := E) (find := find) rc inst slug n s s') (Hd : drift (find := find) rc inst slug s' s'') :
  (run E s'' (Reconcile rc (instance_key inst))).2.2 = None /\
  (4 <= n -> deployed (find := find) rc inst slug s'' /\
     (serving (E := E) (find := find) inst s'' ->
        (run E s'' (Reconcile rc (instance_key inst))).2 = (requeue_after 30, None) /\
        published_at (find := find) rc inst slug (run E s'' (Reconcile rc (instance_key inst))).1)).
Proof.
  destruct Hv as [V1 V2 V3 V4 V5 V6 V7].
  assert (Hst : stage (find := find) rc inst slug (4 - n) s'').
  { eapply stage_drift; [exact Hd |]. eapply rounds_stage; [done .. | exact Hr |]. exists i. split_and!; try done; lia. }
  split.
  - by destruct (reconcile_step (E := E) rc inst slug V1 V6 V7 V5 V2 V3 V4 (4 - n) s'' Hst) as [-> _].
  - intros Hn. replace (4 - n) with 0 in Hst by lia. split; [by destruct Hst as (j & _ & _ & _ & _ & Hdep); apply Hdep |].
    intros Hs. by apply reconcile_ready.
Qed.

End ComesUp.

(** ** A cluster in which nothing but the instance is there *)

Module ProgressExample.

Definition rc : LLMInstanceReconciler := HostedExample.rc.
Definition slug : string := "Existing_Slug".

Definition inst : LLMInstance := HostedExample.inst <| inst_Meta -> Finalizers := [] |>
  <| Status := {| Slug := ""; SlugSource := ""; Phase := ""; Endpoint := ""; ActiveBYOCKubeconfigSecretName := "";
                  ActiveBYOCTargetID := ""; ActiveBYOCTLSDomain := ""; ActiveBYOCTLSNamespace := ""; ActiveBYOCSlug := "";
                  ObservedGeneration := 0; Conditions := [] |} |>.

Definition start : Listed.store := [existT KInstance inst].

(** After the four reconciles, and once the pods of the Deployment answer. *)
Definition settled : Listed.store := undisturbed (E := Listed.server) rc inst 4 start.

Definition endpoints : Endpoints :=
  {| ep_Meta := empty_meta <| Name := "old-llama" |> <| Namespace := "tenant-a" |>;
     ep_Subsets := [{| es_Addresses := ["10.0.0.7"]; es_Ports := [8000%Z] |}] |}.

Definition with_pods (s : Listed.store) : Listed.store :=
  match Listed.find s KDeployment (key_of "tenant-a" "old-llama") with
  | Some d =>
      existT KEndpoints endpoints
      :: existT KDeployment (d <| d_Status := {| ds_ObservedGeneration := 9; ds_UpdatedReplicas := 1;
                                                  ds_ReadyReplicas := 1; ds_AvailableReplicas := 1 |} |>) :: s
  | None => s
  end.

Definition answering : Listed.store := with_pods settled.

Lemma pods_leave (s : Listed.store) K key :
  K <> KDeployment -> K <> KEndpoints -> Listed.find (with_pods s) K key = Listed.find s K key.
Proof.
  intros N1 N2. unfold with_pods. destruct (Listed.find s KDeployment _); [| done]. by rewrite !Listed.find_put_other by congruence.
Qed.

Lemma pods_touch (s : Listed.store) K key : K <> KSecret -> K <> KEndpoints -> touched (find := Listed.find) K key s (with_pods s).
Proof.
  intros N1 N2. unfold with_pods. destruct (Listed.find s KDeployment _) as [d|] eqn:Hd; [| by apply touched_self].
  pose proof (Listed.find_slot _ _ _ _ Hd) as Hk. set (d' := d <| d_Status := _ |>).
  assert (Hk' : key_of_obj KDeployment d' = key_of "tenant-a" "old-llama") by exact Hk.
  unfold touched. rewrite (Listed.find_put_other KEndpoints) by congruence.
  destruct (decide ((K, key) = (KDeployment, key_of "tenant-a" "old-llama"))) as [[= -> ->] | Hne].
  - assert (Hf : Listed.find (existT KDeployment d' :: s) KDeployment (key_of "tenant-a" "old-llama") = Some d')
      by (rewrite <- Hk'; apply Listed.find_put).
    rewrite Hd, Hf. by split.
  - rewrite Listed.find_put_other by (by rewrite Hk'). by apply touched_self.
Qed.

Lemma may_serve : servable rc inst slug.
Proof. split; try (vm_compute; reflexivity); discriminate. Qed.

Lemma starts_free : hosted_at (find := Listed.find) rc inst slug start inst.
Proof.
  split; [vm_compute; reflexivity | done | exists Legacy; vm_compute; reflexivity | reflexivity |].
  split; [| | split | split | split]; unfold own_or_absent; cbn; intros; discriminate.
Qed.

Lemma four_rounds : rounds (E := Listed.server) (find := Listed.find) rc inst slug 4 start settled.
Proof.
  destruct may_serve as [V1 V2 V3 V4 V5 V6 V7]. apply (undisturbed_rounds _ _ _ V1 V6 V7 V5 V2 V3 V4 4).
  exists inst. split_and!; [apply starts_free | lia ..].
Qed.

Lemma pods_come_up : drift (find := Listed.find) rc inst slug settled answering.
Proof.
  split; try (by apply pods_touch).
  destruct may_serve as [V1 V2 V3 V4 V5 V6 V7].
  assert (Hst : stage (find := Listed.find) rc inst slug 4 start) by (exists inst; split_and!; [apply starts_free | lia ..]).
  pose proof (rounds_stage _ _ _ V1 V6 V7 V5 V2 V3 V4 _ _ _ _ four_rounds Hst) as (i & [_ _ _ _ W] & _).
  intros key ing Hf _. eapply (proj2 (w_route _ _ _ _ W) key). unfold answering in Hf. by rewrite pods_leave in Hf.
Qed.

Lemma answers_now : serving (E := Listed.server) (find := Listed.find) inst answering.
Proof.
  split; [| split].
  - assert (He : exists d, Listed.find answering KDeployment (key_of "tenant-a" "old-llama") = Some d /\ deployment_available d).
    { eexists. split; [vm_compute; reflexivity | vm_compute; split_and!; done]. }
    destruct He as (d0 & Hf & Hd). intros d Hf'. change (llama_name inst) with "old-llama" in Hf'. cbn [inst_Meta Namespace] in Hf'.
    assert (d = d0) as -> by (apply (inj Some); by rewrite <- Hf, <- Hf'). exact Hd.
  - eexists _, _. split_and!; [vm_compute; reflexivity | by left | discriminate | by left].
  - exists 200%Z. by split.
Qed.

End ProgressExample.

Lemma hosted_comes_up_witness :
  (run Listed.server ProgressExample.answering (Reconcile ProgressExample.rc (instance_key ProgressExample.inst))).2 =
    (requeue_after 30, None) /\
  published_at (find := Listed.find) ProgressExample.rc ProgressExample.inst ProgressExample.slug
    (run Listed.server ProgressExample.answering (Reconcile ProgressExample.rc (instance_key ProgressExample.inst))).1.
Proof.
  apply (hosted_comes_up ProgressExample.rc ProgressExample.inst ProgressExample.slug 4 ProgressExample.start
           ProgressExample.settled ProgressExample.answering ProgressExample.inst ProgressExample.may_serve
           ProgressExample.starts_free ProgressExample.four_rounds ProgressExample.pods_come_up); [lia | apply ProgressExample.answers_now].
Defined.
