(* ===== verification/TokenProgress.v ===== *)
(** * From a token request to a granted call

    On a working API server, two reconciles of a new request for a published instance
    store a key, and the forwardAuth server grants the calls made with it. *)

From Stdlib Require Import Ascii.
From S2P Require Import Prelude GoStd GoNet GoError Kube KubeRef Api Io Names SlugPolicy Model Auth TokenRequest TokenRequestFacts TokenRequestSafety TokenRequestFlow SlugRoute Workload WorkloadFacts Routing Cluster ClusterRef RoutingSafety HostedSafety ByocTransport ByocTLS Byoc Instance ByocRef EndToEnd HostedSteady HostedProgress.

(** ** What the request and the instance keep *)

(** The same request, whatever its status, version, finalizers and annotations. *)
Record same_request (t t0 : APITokenRequest) : Prop := {
  sr_name : Name (tr_Meta t) = Name (tr_Meta t0);
  sr_namespace : Namespace (tr_Meta t) = Namespace (tr_Meta t0);
  sr_uid : UID (tr_Meta t) = UID (tr_Meta t0);
  sr_deleted : DeletionTimestamp (tr_Meta t) = DeletionTimestamp (tr_Meta t0);
  sr_spec : tr_Spec t = tr_Spec t0;
}.

#[export] Instance same_request_equivalence : Equivalence same_request.
Proof. split; [by split | intros t u []; by split | intros t u v [] []; split; congruence]. Qed.

Lemma same_request_key `{KubeLib} t u : same_request t u -> ObjectKeyFromObject (tr_Meta t) = ObjectKeyFromObject (tr_Meta u).
Proof. intros [E1 E2 _ _ _]. unfold ObjectKeyFromObject. by rewrite E1, E2. Qed.

Lemma same_request_owns `{KubeLib} t u sec : same_request t u -> ownsTokenSecret t sec = ownsTokenSecret u sec.
Proof. intros [E1 E2 E3 _ _]. unfold ownsTokenSecret. by rewrite E1, E2, E3. Qed.

(** The forwardAuth server only reads, so it answers as from a fixed state. *)
Lemma handler_run `{KubeLib} {S : Type} (E : env S) {find : S -> forall K : kind, ObjectKey -> option (obj K)} `{!ApiServer E find}
  (policy : option Policy) (s : S) (r : Request) :
  total E s (Handler policy r) (fun s' resp => s' = s /\ resp = run_oracle (answers E s) (Handler policy r)).
Proof.
  eapply total_quiet; [apply (read_keeps (find := find)) | | by split].
  eapply (safe_quiet _ [] (Handler policy r)), safe_recording_mono; [apply Handler_safe | | done]. intros h e []; done.
Qed.

(** Publication depends on the identity and the mode of the instance only. *)
Lemma published_alike data (i j : LLMInstance) slug endpoint sec :
  Name (inst_Meta i) = Name (inst_Meta j) -> UID (inst_Meta i) = UID (inst_Meta j) ->
  byoc_bound i = false -> byoc_bound j = false ->
  published data i slug endpoint sec -> published data j slug endpoint sec.
Proof.
  intros E1 E2 B1 B2 [P1 P2 P3 P4 P5 [P6 P7]]. split; try done; [congruence |].
  split; [congruence |]. by rewrite P7, B1, B2.
Qed.

(** The labels the controller gives a Secret are there. *)
Definition complete_labels (m : ObjectMeta) : Prop :=
  Forall (fun k => is_Some (Labels m !! k)) [instanceLabelKey; slugAnnotationKey; compatibilityLabelKey; tokenRequestLabelKey].

Lemma complete_kept m m' : meta_kept m m' -> complete_labels m ->
  complete_labels m' /\
  Forall (fun k => mget (Labels m') k = mget (Labels m) k) [instanceLabelKey; slugAnnotationKey; compatibilityLabelKey; tokenRequestLabelKey].
Proof.
  intros (_ & _ & Hl & _)%meta_kept_fields Hc. split; (eapply Forall_impl; [exact Hc |]); intros k Hk; by destruct (mget_kept _ _ k Hl Hk).
Qed.

Lemma published_kept data (i : LLMInstance) slug endpoint sec sec' :
  meta_kept (sec_Meta sec) (sec_Meta sec') -> complete_labels (sec_Meta sec) ->
  published data i slug endpoint sec -> published data i slug endpoint sec'.
Proof.
  intros Hm Hc [P1 P2 P3 P4 P5 P6]. destruct (complete_kept _ _ Hm Hc) as [_ Hk]. rewrite !Forall_cons in Hk.
  destruct Hk as (K1 & K2 & K3 & _). apply meta_kept_fields in Hm as (_ & _ & _ & F4 & _ & _).
  unfold bound in P6. split; unfold bound; rewrite ?K1, ?K2, ?K3, ?F4; done.
Qed.

Lemma owned_kept `{KubeLib} tr sec sec' :
  meta_kept (sec_Meta sec) (sec_Meta sec') -> sec_Type sec' = sec_Type sec -> ownsTokenSecret tr sec = true -> ownsTokenSecret tr sec' = true.
Proof.
  intros (_ & F2 & _ & _ & F5 & _)%meta_kept_fields T Ho. apply ownsTokenSecret_spec. apply ownsTokenSecret_spec in Ho. by rewrite F2, F5, T.
Qed.

Section Secret.
  Context {HK : KubeLib} {HL : KubeLaws}.
  Variable policy : option Policy.
  Variable inst : LLMInstance.

Local Abbreviation secret_key tr := (key_of (Namespace (tr_Meta tr)) (secret_name tr)).

Hypothesis Hp : publishable policy inst.
Hypothesis Hhosted : byoc_bound inst = false.

(** The new Secret, as it is sent and as it is stored. *)
Lemma secret_stored (tr : APITokenRequest) token :
  UID (tr_Meta tr) <> "" -> 
  exists sec, newTokenSecret tr inst (secret_name tr) (verified_slug policy inst) (TrimSpace (Endpoint (Status inst))) token = Ok sec /\
  exists m, SetControllerReference (controller_ref APITokenRequestKind (tr_Meta tr)) (sec_Meta sec) = Ok m /\
  let o := sec <| sec_Meta := m |> in
  key_of_obj KSecret o = secret_key tr /\
  forall o', stored_as KSecret o o' ->
    Name (sec_Meta o') = secret_name tr /\ ownsTokenSecret tr o' = true /\ published_for policy (sec_Data o') inst o' /\
    mget (Labels (sec_Meta o')) tokenRequestLabelKey = Name (tr_Meta tr) /\ complete_labels (sec_Meta o') /\
    time_IsZero (DeletionTimestamp (sec_Meta o')) = true /\ sec_StringData o' = ∅.
Proof.
  intros Hu.
  destruct (newTokenSecret tr inst (secret_name tr) (verified_slug policy inst) (TrimSpace (Endpoint (Status inst))) token)
    as [sec | err] eqn:Enew; [| by unfold newTokenSecret in Enew; rewrite Hhosted in Enew].
  exists sec. split; [done |]. pose proof Enew as Efields. apply newTokenSecret_spec in Enew as (N1 & N2 & N3 & _ & N5 & N6); [| done].
  assert (Hshape : OwnerReferences (sec_Meta sec) = [] /\ sec_Data sec = ∅ /\ DeletionTimestamp (sec_Meta sec) = None /\
                   complete_labels (sec_Meta sec)).
  { unfold newTokenSecret in Efields. rewrite Hhosted in Efields. injection Efields as <-. split_and!; try done.
    unfold complete_labels, tokenLabels. cbn [sec_Meta]. rewrite (bool_decide_false (verified_slug _ _ = "")) by apply Hp.
    repeat constructor; cbn; by eexists. }
  destruct Hshape as (Howners & Hdata & Hdel & Hlab).
  destruct (SetControllerReference_fresh (controller_ref APITokenRequestKind (tr_Meta tr)) (sec_Meta sec) Howners) as [m Em].
  exists m. split; [done |]. apply SetControllerReference_ok in Em as [Mo Em]; [| done].
  destruct sec as [sm st sd ss]. cbn [sec_Meta sec_Type sec_Data sec_StringData] in *. subst sd. cbv zeta.
  assert (M : Name m = Name sm /\ Namespace m = Namespace sm /\ Labels m = Labels sm /\ Annotations m = Annotations sm /\
              DeletionTimestamp m = DeletionTimestamp sm) by (rewrite Em; done).
  destruct M as (M1 & M2 & M3 & M4 & M5). split.
  { change (key_of (Namespace m) (Name m) = secret_key tr). by rewrite M1, M2, N1, N2. }
  intros o' (Hm & Ht & Hd & Hs). change (meta_kept m (sec_Meta o')) in Hm. change (sec_Type o' = st) in Ht.
  change (sec_Data o' = ss ∪ ∅) in Hd. rewrite map_union_empty in Hd. cbn in N1, N2, N3, N5.
  set (o := {| sec_Meta := m; sec_Type := st; sec_Data := ∅; sec_StringData := ss |}).
  assert (Hc : complete_labels m) by (unfold complete_labels; rewrite M3; exact Hlab).
  destruct (complete_kept _ _ Hm Hc) as [Hc' Hk]. rewrite !Forall_cons in Hk. destruct Hk as (_ & _ & _ & K4 & _).
  pose proof (meta_kept_fields _ _ Hm) as (F1 & F2 & _ & _ & F5 & F6).
  split_and!.
  - congruence.
  - apply ownsTokenSecret_spec. split_and!; [done | congruence | congruence |]. rewrite F5.
    exists (controller_ref APITokenRequestKind (tr_Meta tr)). by split_and!.
  - rewrite Hd. apply (published_kept _ _ _ _ o); [exact Hm | exact Hc |].
    destruct N6 as [P1 P2 P3 P4 P5 P6]. unfold bound in P6. cbn in P2, P3, P4, P5, P6.
    split; unfold bound; cbn [o sec_Meta]; rewrite ?M3, ?M4; done.
  - by rewrite K4, M3.
  - exact Hc'.
  - by rewrite F6, M5, Hdel.
  - done.
Qed.

End Secret.

(** ** The reconciles *)

Section Key.
  Context {HK : KubeLib} {HL : KubeLaws}.
  Context {S : Type} {E : env S} {find : S -> forall K : kind, ObjectKey -> option (obj K)} {HS : ApiServer E find}.
  Variable policy : option Policy.
  Variable inst : LLMInstance.
  Variable slug : string.
  Variable endpoint : string.
  Variable tr0 : APITokenRequest.

Local Abbreviation inst_key := (key_of (Namespace (inst_Meta inst)) (Name (inst_Meta inst))).
Local Abbreviation req := (ObjectKeyFromObject (tr_Meta tr0)).
Local Abbreviation secret_key := (key_of (Namespace (tr_Meta tr0)) (secret_name tr0)).

(** The instance is published under the slug and the endpoint. *)
Record offers (i : LLMInstance) : Prop := {
  of_name : Name (inst_Meta i) = Name (inst_Meta inst);
  of_namespace : Namespace (inst_Meta i) = Namespace (inst_Meta inst);
  of_uid : UID (inst_Meta i) = UID (inst_Meta inst);
  of_hosted : byoc_bound i = false;
  of_publishable : publishable policy i;
  of_slug : verified_slug policy i = slug;
  of_endpoint : TrimSpace (Endpoint (Status i)) = endpoint;
}.

Definition offered (s : S) : Prop := exists i, find s KInstance inst_key = Some i /\ offers i.

(** The request is stored. *)
Definition asked (s : S) (tr : APITokenRequest) : Prop :=
  find s KTokenRequest req = Some tr /\ same_request tr tr0.

(** The Secret holds the key of the request and is bound to the instance. *)
Record holds (sec : Secret) (key : string) : Prop := {
  hd_name : Name (sec_Meta sec) = secret_name tr0;
  hd_owned : ownsTokenSecret tr0 sec = true;
  hd_published : published (sec_Data sec) inst slug endpoint sec;
  hd_label : mget (Labels (sec_Meta sec)) tokenRequestLabelKey = Name (tr_Meta tr0);
  hd_labels : complete_labels (sec_Meta sec);
  hd_alive : time_IsZero (DeletionTimestamp (sec_Meta sec)) = true;
  hd_plain : sec_StringData sec = ∅;
  hd_key : key_in sec = key;
}.

Definition held (s : S) (key : string) : Prop :=
  exists sec, find s KSecret secret_key = Some sec /\ holds sec key.

Hypothesis Halive : time_IsZero (DeletionTimestamp (tr_Meta tr0)) = true.
Hypothesis Huid : UID (tr_Meta tr0) <> "".
Hypothesis Hns : Namespace (tr_Meta tr0) = Namespace (inst_Meta inst).
Hypothesis Hname : InstanceName (tr_Spec tr0) = Name (inst_Meta inst).
Hypothesis Hhosted : byoc_bound inst = false.
Hypothesis Hrandom : forall s, exists b, answers E s (ERandom 32) = Ok b.

Lemma same_secret_key tr : same_request tr tr0 -> key_of (Namespace (tr_Meta tr)) (secret_name tr) = secret_key.
Proof. intros [E1 E2 _ _ _]. unfold secret_name. by rewrite E1, E2. Qed.

(** A key is drawn and stored. *)
Lemma create_run s i tr : offers i -> same_request tr tr0 -> find s KSecret secret_key = None ->
  total E s (createSecret tr i (secret_name tr) (verified_slug policy i) (TrimSpace (Endpoint (Status i))))
    (fun s' r => r = Ok tt /\ (exists key, held s' key) /\ only_at find KSecret secret_key s s').
Proof.
  intros [O1 O2 O3 O4 O5 O6 O7] Hs Hf. unfold createSecret, generateToken. apply total_fbind. destruct (Hrandom s) as [b Hb].
  refine (total_read s (ERandom 32) (Ok b) _ _ _ Hb _); [done |]. cbv beta iota. apply total_ret.
  set (token := TrimRightByte _ _).
  destruct (secret_stored policy i O5 O4 tr token) as (sec & -> & m & -> & Hkey & Hst); [by rewrite (sr_uid _ _ Hs) |].
  rewrite (same_secret_key tr Hs) in Hkey. apply total_create; [by rewrite Hkey |]. rewrite Hkey. intros sec' s' Hs' Hf' Ho.
  apply total_ret. split_and!; [done | | done].
  destruct (Hst sec' Hs') as (N1 & N2 & N3 & N4 & N5 & N6 & N7).
  exists (key_in sec'), sec'. split; [done |]. split; try done.
  - unfold secret_name in N1 |- *. by rewrite N1, (sr_name _ _ Hs).
  - by rewrite <- (same_request_owns tr tr0).
  - rewrite <- O6, <- O7. eapply published_alike; [exact O1 | exact O3 | done | done | exact N3].
  - by rewrite N4, (sr_name _ _ Hs).
Qed.

Definition finalizing (tr : APITokenRequest) : Prop :=
  ContainsFinalizer (Finalizers (tr_Meta tr)) apiTokenRequestFinalizer = true.

(** Rewriting the request keeps the Secret and the instance. *)
Lemma held_elsewhere K key0 s s' key : K <> KSecret -> only_at find K key0 s s' -> held s key -> held s' key.
Proof. intros HK' Ho (sec & Hf & Hh). exists sec. split; [| done]. rewrite Ho; [done | congruence]. Qed.

Lemma offered_elsewhere K key0 s s' : K <> KInstance -> only_at find K key0 s s' -> offered s -> offered s'.
Proof. intros HK' Ho (i & Hf & Hh). exists i. split; [| done]. rewrite Ho; [done | congruence]. Qed.

Lemma touch_run s tr version : asked s tr -> finalizing tr ->
  total E s (touchAPITokenRequest tr version)
    (fun s' r => exists tr', r = Ok tr' /\ asked s' tr' /\ finalizing tr' /\ only_at find KTokenRequest req s s').
Proof.
  intros [Hf Hs] Hfin. unfold touchAPITokenRequest. case_match; [apply total_ret; by exists tr |].
  refine (total_read s ENow _ _ _ _ eq_refl _); [done |]. cbv beta. set (o := tr <| tr_Meta -> Annotations ::= _ |>).
  assert (Hko : key_of_obj KTokenRequest o = req) by (by apply (same_request_key tr)).
  refine (total_updated s KTokenRequest o tr _ _ _ _ _ _); [by rewrite Hko | done | done | left; change (time_IsZero (DeletionTimestamp (tr_Meta tr)) = true); by rewrite (sr_deleted _ _ Hs) |]. rewrite Hko.
  intros o' s' (rv & ls & _ & ->) Hfo Ho. eexists. split_and!; [done | split; [exact Hfo |] | exact Hfin | exact Ho].
  transitivity tr; [by split | done].
Qed.

(** The Secret is created, or found as it should be. *)
Lemma ensure_run s i tr : offers i -> asked s tr -> finalizing tr -> (find s KSecret secret_key = None \/ exists key, held s key) ->
  total E s (ensureSecret tr i (secret_name tr) (verified_slug policy i) (TrimSpace (Endpoint (Status i))))
    (fun s' r => exists tr' key, r = Ok tr' /\ asked s' tr' /\ finalizing tr' /\ held s' key /\
       (forall key0, held s key0 -> key = key0) /\ (offered s -> offered s')).
Proof.
  intros Hi [Hf Hs] Hfin Hsec. unfold ensureSecret. rewrite (same_secret_key tr Hs). destruct Hsec as [Hnone | [key Hheld]].
  - destruct (get_missing s Cached KSecret secret_key eq_refl Hnone) as (err & Hr & Hnf & _).
    refine (total_read s (EGet Cached KSecret secret_key) _ _ _ _ Hr _); [done |]. cbv beta iota. rewrite Hnf.
    apply total_fbind. eapply total_mono; [by apply create_run |]. intros s' r (-> & [key Hheld] & Ho). apply total_ret.
    exists tr, key. split_and!; try done.
    + split; [rewrite Ho; [exact Hf | congruence] | done].
    + intros key0 (sec & Hf0 & _). congruence.
    + refine (offered_elsewhere _ _ _ _ _ Ho); discriminate.
  - destruct (id Hheld) as (sec & Hfs & Hh).
    refine (total_read s (EGet Cached KSecret secret_key) _ _ _ _ (get_found s Cached KSecret secret_key sec eq_refl Hfs) _); [done |].
    cbv beta iota. rewrite (same_request_owns tr tr0 sec Hs), (hd_owned _ _ Hh). cbn [negb].
    destruct Hi as [O1 O2 O3 O4 O5 O6 O7].
    assert (Hpub : published (sec_Data sec) i slug endpoint sec) by (by apply (published_alike _ inst); [symmetry .. | | | apply Hh]).
    unfold rotateTokenForTarget.
    rewrite decide_rotation_bound; [| by eapply publishable_uid | by eapply publishable_target | apply Hpub].
    apply total_fbind, total_ret. rewrite O6, O7, applySecretMutations_published; [| rewrite <- O7; apply O5 | done].
    cbn [orb]. apply total_fbind, total_ret.
    eapply total_mono; [by apply touch_run |]. intros s' r (tr' & -> & Ha & Hfin' & Ho). exists tr', key.
    split_and!; try done.
    + refine (held_elsewhere _ _ _ _ _ _ Ho Hheld); discriminate.
    + intros key0 (sec0 & Hf0 & H0). rewrite <- (hd_key _ _ Hh), <- (hd_key _ _ H0). congruence.
    + refine (offered_elsewhere _ _ _ _ _ Ho); discriminate.
Qed.

(** The request is stored, its Secret is not or is as it should be. *)
Definition pending (finalizer : bool) (s : S) : Prop :=
  offered s /\ (find s KSecret secret_key = None \/ exists key, held s key) /\
  exists tr, asked s tr /\ (finalizer = true -> finalizing tr).

(** The key is out, and the status of the request names its Secret. *)
Definition issued (key : string) (s : S) : Prop :=
  offered s /\ held s key /\
  exists tr, asked s tr /\ finalizing tr /\ SecretName (tr_Status tr) = secret_name tr0 /\
    tr_ObservedGeneration (tr_Status tr) = Generation (tr_Meta tr).

Lemma issued_pending key s : issued key s -> pending true s.
Proof. intros (H1 & H2 & tr & H3 & H4 & _). split_and!; [done | by right; exists key | by exists tr]. Qed.

Lemma status_run s tr key : asked s tr -> finalizing tr -> held s key -> offered s ->
  total E s (TokenRequest.updateReadyStatus tr (secret_name tr)) (fun s' r => is_ok r = true /\ issued key s').
Proof.
  intros [Hf Hs] Hfin Hh Ho. unfold TokenRequest.updateReadyStatus. refine (total_read s ENow _ _ _ _ eq_refl _); [done |]. cbv beta zeta.
  set (o := _ <| tr_Status -> tr_ObservedGeneration := _ |>).
  assert (Hko : key_of_obj KTokenRequest o = req) by (by apply (same_request_key tr)).
  refine (total_status_updated s KTokenRequest o tr _ _ _ _); [by rewrite Hko | done |]. rewrite Hko.
  intros o' s' (rv & ls & _ & ->) Hfo Hat. split; [done |]. split_and!.
  - refine (offered_elsewhere _ _ _ _ _ Hat Ho); discriminate.
  - refine (held_elsewhere _ _ _ _ _ _ Hat Hh); discriminate.
  - eexists. split_and!; [split; [exact Hfo | transitivity tr; [by split | done]] | exact Hfin | | done].
    cbn. unfold secret_name. by rewrite (sr_name _ _ Hs).
Qed.

Lemma finalize_run s tr : asked s tr ->
  total E s (ensureFinalizer tr)
    (fun s' r => (finalizing tr /\ r = (tr, None) /\ s' = s) \/
       (~ finalizing tr /\ r.2 = Some requeue_now /\ only_at find KTokenRequest req s s' /\ exists tr', asked s' tr' /\ finalizing tr')).
Proof.
  intros [Hf Hs]. unfold ensureFinalizer, finalizing. destruct (ContainsFinalizer _ _) eqn:Hfin; [by apply total_ret; left |].
  apply total_bind. set (o := tr <| tr_Meta -> Finalizers ::= _ |>).
  assert (Hko : key_of_obj KTokenRequest o = req) by (by apply (same_request_key tr)).
  refine (total_updated s KTokenRequest o tr _ _ _ _ _ _); [by rewrite Hko | done | done | left; change (time_IsZero (DeletionTimestamp (tr_Meta tr)) = true); by rewrite (sr_deleted _ _ Hs) |]. rewrite Hko.
  intros o' s' (rv & ls & _ & ->) Hfo Ho. apply total_ret. right. split_and!; [unfold finalizing; congruence | done | done |]. eexists.
  split_and!; [split; [exact Hfo | transitivity tr; [by split | done]] | apply AddFinalizer_spec].
Qed.

(** With the instance read, the key is issued or kept. *)
Lemma issue_run s i tr : offers i -> offered s -> asked s tr -> finalizing tr -> (find s KSecret secret_key = None \/ exists key, held s key) ->
  total E s (reconcileInstance policy tr i)
    (fun s' r => r = (no_result, None) /\ exists key, issued key s' /\ forall key0, held s key0 -> key = key0).
Proof.
  intros Hi Hoff Ha Hfin Hsec. unfold reconcileInstance. destruct (of_publishable i Hi) as [P1 P2 P3 P4].
  rewrite !bool_decide_false, P3, P4 by done. cbn [orb negb]. cbv zeta. unfold or_return. fold (secret_name tr).
  apply total_bind. eapply total_mono; [by apply ensure_run |]. intros s1 r (tr1 & key & -> & Ha1 & Hf1 & Hh & Hk & Ho1). cbv beta iota.
  assert (secret_name tr = secret_name tr1) as ->.
  { unfold secret_name. by rewrite (sr_name _ _ (proj2 Ha)), (sr_name _ _ (proj2 Ha1)). }
  apply total_bind. eapply total_mono; [apply status_run; [exact Ha1 | exact Hf1 | exact Hh | by apply Ho1] |].
  intros s2 [tr2 | err] [Hok Hiss]; [| done]. apply total_ret. split; [done |]. by exists key.
Qed.

Lemma reconcile_pending b s : pending b s ->
  total E s (TokenRequest.Reconcile policy req)
    (fun s' r => r.2 = None /\ pending true s' /\
       (b = true -> exists key, issued key s' /\ forall key0, held s key0 -> key = key0)).
Proof.
  intros (Hoff & Hsec & tr & Ha & Hfin). destruct (id Ha) as [Hf Hs]. unfold TokenRequest.Reconcile.
  refine (total_read s (EGet Cached KTokenRequest req) _ _ _ _ (get_found s Cached KTokenRequest req tr eq_refl Hf) _); [done |].
  cbv beta iota. rewrite (sr_deleted _ _ Hs), Halive. cbn [negb]. apply total_bind. eapply total_mono; [by apply finalize_run |].
  intros s1 r [(Hf1 & -> & ->) | (Hnot & Hr & Ho & tr1 & Ha1 & Hf1)]; cbv beta iota.
  - destruct (id Hoff) as (i & Hfi & Hi).
    assert (key_of (key_Namespace req) (InstanceName (tr_Spec tr)) = inst_key) as ->.
    { by rewrite (sr_spec _ _ Hs), Hname, <- Hns. }
    refine (total_read s (EGet Cached KInstance inst_key) _ _ _ _ (get_found s Cached KInstance inst_key i eq_refl Hfi) _); [done |].
    cbv beta iota. eapply total_mono; [by apply (issue_run s i tr) |]. intros s' r (-> & key & Hiss & Hk).
    split; [done |]. split; [by eapply issued_pending | by exists key].
  - destruct r as [t handled]. cbn in Hr. subst handled. apply total_ret. split; [done |].
    assert (Hsec1 : find s1 KSecret secret_key = None \/ exists key, held s1 key).
    { destruct Hsec as [Hnone | [key Hh]]; [left; by rewrite Ho | right; exists key].
      refine (held_elsewhere _ _ _ _ _ _ Ho Hh); discriminate. }
    split; [| intros ->; by destruct (Hnot (Hfin eq_refl))].
    split_and!; [refine (offered_elsewhere _ _ _ _ _ Ho Hoff); discriminate | exact Hsec1 | by exists tr1].
Qed.

(** ** The grant *)

Lemma issued_granted s key r : issued key s ->
  binding_of r = Some {| ib_namespace := Namespace (inst_Meta inst); ib_name := Name (inst_Meta inst);
                         ib_uid := UID (inst_Meta inst); ib_slug := slug |} ->
  token_of r = Some key ->
  total E s (Handler policy r) (fun s' resp => s' = s /\ Code resp = 200%Z).
Proof.
  intros ((i & Hfi & [O1 O2 O3 O4 O5 O6 O7]) & (sec & Hfs & [D1 D2 D3 D4 D9 D5 D6 D7]) & tr & [Hft Hs] & Hfin & Hst & Hgen) Hb Ht.
  eapply total_mono; [apply (handler_run (find := find) E) |]. intros s' resp [-> ->].
  split; [done |]. destruct (list_found s Live KSecret (Some (Namespace (inst_Meta i))) [(slugKey, slug)] eq_refl) as (l & Hl & Hin).
  apply Handler_complete.
  { intros k err Hg. destruct (find s KTokenRequest k) as [t|] eqn:Hk.
    - by rewrite (get_found s Live KTokenRequest k t eq_refl Hk) in Hg.
    - destruct (get_missing s Live KTokenRequest k eq_refl Hk) as (e & He & Hn & _). rewrite He in Hg. by injection Hg as <-. }
  apply ownsTokenSecret_spec in D2 as (U & N & T & owner & Ho & Hv & Hk & Hu & Hn).
  destruct (publishable_selected policy i O5) as (S1 & S2 & S3). destruct D3 as [_ Q2 Q3 _ _ [Q5 Q6]]. rewrite Hhosted in Q6.
  pose proof O4 as B. unfold byoc_bound in B. apply orb_false_iff in B as [B1 B2]. bool_props.
  assert (Hsec : find s KSecret (key_of_obj KSecret sec) = Some sec) by (by rewrite (find_key s KSecret _ _ Hfs)).
  eexists _, key, i, l, sec, owner, tr. split_and!; [exact Hb | exact Ht | | | exact Hl | | | |].
  - by apply get_found.
  - split; cbn; try done; congruence.
  - apply Hin. split; [exact Hsec |]. cbn. rewrite N, Hns, O2, bool_decide_true by done. cbn.
    rewrite bool_decide_true; [done |]. unfold mget in Q3. change slugAnnotationKey with slugKey in Q3.
    destruct (Labels (sec_Meta sec) !! slugKey) as [v|]; cbn in Q3; [by subst v |]. by destruct (pb_slug _ _ O5); rewrite O6.
  - split; first [done | congruence | etransitivity; [eassumption | done]].
  - unfold request_event. rewrite Hn, O2, <- Hns. by apply get_found.
  - destruct Hs as [E1 E2 E3 E4 E5]. split; first [done | congruence | etransitivity; [exact D4 | done]].
Qed.

(** ** What may happen between two reconciles *)

(** The instance stays published; the request and the Secret may be given versions. *)
Record calm (s s' : S) : Prop := {
  cm_instance : offered s -> offered s';
  cm_request : touched (find := find) KTokenRequest req s s';
  cm_secret : touched (find := find) KSecret secret_key s s';
}.

Lemma held_calm s s' key : calm s s' -> held s key -> held s' key.
Proof.
  intros [_ _ Ht] (sec & Hf & [D1 D2 D3 D4 D5 D6 D7 D8]). unfold touched in Ht. rewrite Hf in Ht.
  destruct (find s' KSecret secret_key) as [sec'|] eqn:Hf'; [| done]. exists sec'. split; [done |].
  destruct Ht as (Hm & T & D & P). rewrite D7, (left_id_L ∅ (∪)) in D.
  destruct (complete_kept _ _ Hm D5) as [Hc Hk]. rewrite !Forall_cons in Hk. destruct Hk as (_ & _ & _ & K4 & _).
  pose proof (meta_kept_fields _ _ Hm) as (F1 & _ & _ & _ & _ & F6).
  split; try congruence; [by eapply owned_kept | | unfold key_in in *; congruence].
  rewrite D. by eapply published_kept.
Qed.

Lemma pending_calm b s s' : calm s s' -> pending b s -> pending b s'.
Proof.
  intros Hc (Hoff & Hsec & tr & [Hf Hs] & Hfin). split_and!; [by apply (cm_instance _ _ Hc) | |].
  - destruct Hsec as [Hnone | [key Hh]]; [left | right; exists key; by eapply held_calm].
    pose proof (cm_secret _ _ Hc) as Ht. unfold touched in Ht. rewrite Hnone in Ht. by destruct (find s' KSecret _).
  - pose proof (cm_request _ _ Hc) as Ht. unfold touched in Ht. rewrite Hf in Ht.
    destruct (find s' KTokenRequest req) as [tr'|] eqn:Hf'; [| done]. destruct Ht as (rv & ls & _ & ->).
    eexists. split; [split; [done | transitivity tr; [by split | done]] | exact Hfin].
Qed.

Lemma issued_calm key s s' : calm s s' -> issued key s -> issued key s'.
Proof.
  intros Hc (Hoff & Hh & tr & [Hf Hs] & Hrest). split_and!; [by apply (cm_instance _ _ Hc) | by eapply held_calm |].
  pose proof (cm_request _ _ Hc) as Ht. unfold touched in Ht. rewrite Hf in Ht.
  destruct (find s' KTokenRequest req) as [tr'|] eqn:Hf'; [| done]. destruct Ht as (rv & ls & _ & ->).
  eexists. split; [split; [done | transitivity tr; [by split | done]] | exact Hrest].
Qed.

(** [n] reconciles, whatever happens before each. *)
Inductive issuing : nat -> S -> S -> Prop :=
| issuing_none s : issuing 0 s s
| issuing_next n s s1 s' : calm s s1 -> issuing n (run E s1 (TokenRequest.Reconcile policy req)).1 s' -> issuing (Datatypes.S n) s s'.

Lemma issuing_kept key n s s' : issuing n s s' -> issued key s -> issued key s'.
Proof.
  induction 1 as [s | n s s1 s' Hc _ IH]; [done |]. intros Hi. apply IH. apply (issued_calm _ _ _ Hc) in Hi.
  destruct (reconcile_pending true s1 (issued_pending _ _ Hi)) as (_ & _ & Hk). destruct (Hk eq_refl) as (key' & Hi' & Heq).
  rewrite <- (Heq key); [done | apply Hi].
Qed.

Lemma issuing_once n s s' : issuing n s s' -> pending true s -> pending true s' /\ (1 <= n -> exists key, issued key s').
Proof.
  intros [t | m t s1 t' Hc Hr] Hp; [split; [done | lia] |].
  destruct (reconcile_pending true s1 (pending_calm _ _ _ Hc Hp)) as (_ & _ & Hk). destruct (Hk eq_refl) as (key & Hi & _).
  pose proof (issuing_kept _ _ _ _ Hr Hi). split; [by eapply issued_pending | by exists key].
Qed.

Lemma issuing_pending n s s' : issuing n s s' -> pending false s -> pending false s' /\ (2 <= n -> exists key, issued key s').
Proof.
  intros [t | m t s1 t' Hc Hr] Hp; [split; [done | lia] |].
  destruct (reconcile_pending false s1 (pending_calm _ _ _ Hc Hp)) as (_ & Hp1 & _).
  destruct (issuing_once _ _ _ Hr Hp1) as [(P1 & P2 & tr & Ha & _) Hi].
  split; [split_and!; [done | done | by exists tr] | intros; apply Hi; lia].
Qed.

(** Nothing need happen in between. *)
Fixpoint again (n : nat) (s : S) : S :=
  match n with
  | 0 => s
  | Datatypes.S n' => again n' (run E s (TokenRequest.Reconcile policy req)).1
  end.

Lemma calm_self b s : pending b s -> calm s s.
Proof.
  intros (_ & Hsec & _). split; [done | by apply touched_self |]. unfold touched.
  destruct Hsec as [-> | (key & sec & -> & Hh)]; [done |]. cbn. rewrite (hd_plain _ _ Hh). by rewrite (left_id_L ∅ (∪)).
Qed.

Lemma again_issuing n s : pending false s -> issuing n s (again n s).
Proof.
  revert s. induction n as [|n IH]; intros s Hp; [constructor |]. eapply issuing_next; [by eapply calm_self |].
  apply IH. destruct (reconcile_pending false s Hp) as (_ & (P1 & P2 & tr & Ha & _) & _). split_and!; [done | done | by exists tr].
Qed.

End Key.

(** ** The theorem *)

Section Granted.
  Context {HK : KubeLib} {HL : KubeLaws}.
  Context {S : Type} {E : env S} {find : S -> forall K : kind, ObjectKey -> option (obj K)} {HS : ApiServer E find}.
  Variable rc : LLMInstanceReconciler.
  Variable inst : LLMInstance.
  Variable slug : string.
  Variable tr : APITokenRequest.

Local Abbreviation req := (ObjectKeyFromObject (tr_Meta tr)).
Local Abbreviation secret_key := (key_of (Namespace (tr_Meta tr)) (secret_name tr)).
Local Abbreviation policy := (rec_SlugPolicy rc).
Local Abbreviation endpoint := (TrimSpace (instanceEndpoint rc slug)).

Lemma select_policy i sel : selectSlug rc i = Ok sel -> Select policy (inst_Meta i) = Ok sel.
Proof. unfold selectSlug. destruct (Select policy _) as [sel' | err]; [| done]. cbv zeta. do 2 (case_match; [done |]). by intros [= ->]. Qed.

(** What publication leaves in the status is what the token controller waits for. *)
Lemma published_offers s :
  slug <> "" -> endpoint <> "" -> time_IsZero (DeletionTimestamp (inst_Meta inst)) = true -> IsBYOC inst = false ->
  published_at (find := find) rc inst slug s -> offered (find := find) policy inst slug endpoint s.
Proof.
  intros Hs He Hd Hb (i & Hf & Hal & _ & Hep & Hg & (c & Hc & Hct & Hcg) & Hrec & Hsl & Ha). exists i. split; [exact Hf |].
  assert (Hv : verified_slug policy i = slug).
  { apply select_policy in Hrec. unfold verified_slug. rewrite Hrec. cbn. by rewrite !bool_decide_true. }
  assert (Hh : byoc_bound i = false) by (unfold byoc_bound; by rewrite (alike_IsBYOC i inst Hal), Hb, Ha).
  destruct Hal as [E1 E2 E3 E4 E5 E6]. split; try done; [| by rewrite Hep]. split.
  - by rewrite Hv.
  - by rewrite Hep.
  - unfold instance_ready. rewrite Hc, Hct, Hcg, Hg, E5, Hd. by rewrite bool_decide_true, Z.eqb_refl.
  - unfold valid_endpoint. by rewrite Hh.
Qed.

(** A new request for a published instance. *)
Record new_request (s : S) : Prop := {
  nr_published : published_at (find := find) rc inst slug s;
  nr_slug : slug <> "";
  nr_endpoint : endpoint <> "";
  nr_live : time_IsZero (DeletionTimestamp (inst_Meta inst)) = true;
  nr_hosted : IsBYOC inst = false;
  nr_inactive : ActiveBYOCKubeconfigSecretName (Status inst) = "";
  nr_found : find s KTokenRequest req = Some tr;
  nr_alive : time_IsZero (DeletionTimestamp (tr_Meta tr)) = true;
  nr_uid : UID (tr_Meta tr) <> "";
  nr_namespace : Namespace (tr_Meta tr) = Namespace (inst_Meta inst);
  nr_instance : InstanceName (tr_Spec tr) = Name (inst_Meta inst);
  nr_secret : find s KSecret secret_key = None;
}.

Lemma new_pending s : new_request s ->
  byoc_bound inst = false /\ pending (find := find) policy inst slug endpoint tr false s.
Proof.
  intros [N1 N2 N3 N4 N5 N6 N7 N8 N9 N10 N11 N12]. split; [unfold byoc_bound; by rewrite N5, N6 |].
  split_and!; [by apply published_offers | by left | by exists tr].
Qed.

(** C9: a new key is granted.  Take a request for an instance that is published, on any
    API server that stores what it accepts.  Every reconcile of the request succeeds; from
    the second on, its Secret holds the endpoint and a key, the same ever after, and the
    forwardAuth server answers 200 to every call that carries the binding of the instance
    and the key, while the instance stays published. *)
Theorem new_key_granted (n : nat) (s s' s'' : S)
  (Hrandom : forall s, exists b, answers E s (ERandom 32) = Ok b)
  (Hn : new_request s)
  (Hr : issuing (E := E) (find := find) policy inst slug endpoint tr n s s')
  (Hc : calm (find := find) policy inst slug endpoint tr s' s'') :
  (run E s'' (TokenRequest.Reconcile policy req)).2.2 = None /\
  (2 <= n -> exists key sec, find s'' KSecret secret_key = Some sec /\ key_in sec = key /\
     mget (sec_Data sec) openAIAPIURLKey = endpoint /\
     (forall r, binding_of r = Some {| ib_namespace := Namespace (inst_Meta inst); ib_name := Name (inst_Meta inst);
                                       ib_uid := UID (inst_Meta inst); ib_slug := slug |} ->
        token_of r = Some key -> Code (run E s'' (Handler policy r)).2 = 200%Z) /\
     (forall m t, issuing (E := E) (find := find) policy inst slug endpoint tr m s'' t ->
        exists sec', find t KSecret secret_key = Some sec' /\ key_in sec' = key)).
Proof.
  destruct (new_pending s Hn) as [Hb Hp]. destruct Hn as [_ _ _ _ _ _ _ N8 N9 N10 N11 _].
  apply (issuing_pending policy inst slug endpoint tr N8 N9 N10 N11 Hb Hrandom n s s' Hr) in Hp as [Hp Hi].
  split; [by destruct (reconcile_pending (E := E) policy inst slug endpoint tr N8 N9 N10 N11 Hb Hrandom false s'' (pending_calm policy inst slug endpoint tr N8 false s' s'' Hc Hp)) |].
  intros H2. destruct (Hi H2) as [key Hk]. apply (issued_calm policy inst slug endpoint tr N8 key _ _ Hc) in Hk.
  destruct (id Hk) as (_ & (sec & Hf & Hh) & _). exists key, sec.
  split_and!; [exact Hf | apply Hh | apply Hh | |].
  - intros r Hbr Htr. by apply (issued_granted (E := E) policy inst slug endpoint tr N8 N9 N10 N11 Hb s'' key r).
  - intros m t Ht. destruct (issuing_kept policy inst slug endpoint tr N8 N9 N10 N11 Hb Hrandom key m s'' t Ht Hk) as (_ & (sec' & Hf' & Hh') & _).
    exists sec'. split; [done | apply Hh'].
Qed.

End Granted.

(** ** A request for the instance of [ProgressExample] once it is published *)

Module KeyExample.

Import ProgressExample.

Definition tr : APITokenRequest := {|
  tr_Meta := empty_meta <| Name := "req" |> <| Namespace := "tenant-a" |> <| UID := "tr-uid" |> <| Generation := 1%Z |>;
  tr_Spec := {| InstanceName := "old"; Description := "" |};
  tr_Status := {| tr_Phase := ""; SecretName := ""; tr_ObservedGeneration := 0; tr_Conditions := [] |} |}.

Definition with_request (s : Listed.store) : Listed.store := existT KTokenRequest tr :: s.

Definition published : Listed.store := (run Listed.server answering (Reconcile rc (instance_key inst))).1.

Definition start : Listed.store := with_request published.

Local Abbreviation endpoint := (TrimSpace (instanceEndpoint rc slug)).

Definition later : Listed.store := again (E := Listed.server) (rec_SlugPolicy rc) tr 2 start.

Lemma random s : exists b, answers Listed.server s (ERandom 32) = Ok b.
Proof. by eexists. Qed.

Lemma request_leaves s : published_at (find := Listed.find) rc inst slug s -> published_at (find := Listed.find) rc inst slug (with_request s).
Proof. intros (i & Hf & Hi). exists i. split; [| exact Hi]. unfold with_request. by rewrite Listed.find_put_other. Qed.

Lemma published_now : published_at (find := Listed.find) rc inst slug published.
Proof.
  destruct may_serve as [V1 V2 V3 V4 V5 V6 V7].
  apply (reconcile_ready (E := Listed.server) rc inst slug V1 V6 V7 V5 V2 V3 V4); [| apply answers_now].
  eapply stage_drift; [apply pods_come_up |]. apply (rounds_stage rc inst slug V1 V6 V7 V5 V2 V3 V4 4 4 ProgressExample.start); [apply four_rounds |].
  exists inst. split_and!; [apply starts_free | lia ..].
Qed.

Lemma is_new : new_request (find := Listed.find) rc inst slug tr start.
Proof. split; [apply request_leaves, published_now | vm_compute; first [reflexivity | discriminate] ..]. Qed.

Lemma is_pending : pending (find := Listed.find) (rec_SlugPolicy rc) inst slug endpoint tr false start.
Proof. exact (proj2 (new_pending rc inst slug tr start is_new)). Qed.

Lemma two_reconciles : issuing (E := Listed.server) (find := Listed.find) (rec_SlugPolicy rc) inst slug endpoint tr 2 start later.
Proof.
  destruct is_new as [N1 N2 N3 N4 N5 N6 N7 N8 N9 N10 N11 N12].
  apply again_issuing; [exact N8 | exact N9 | exact N10 | exact N11 | reflexivity | exact random | exact is_pending].
Qed.

Lemma nothing_else : calm (find := Listed.find) (rec_SlugPolicy rc) inst slug endpoint tr later later.
Proof.
  destruct is_new as [N1 N2 N3 N4 N5 N6 N7 N8 N9 N10 N11 N12].
  eapply (calm_self _ _ _ _ _ false), (proj1 (issuing_pending _ _ _ _ _ N8 N9 N10 N11 eq_refl random 2 _ _ two_reconciles is_pending)).
Qed.

Definition call : Request := {|
  RawQuery := encode_query (binding_query inst slug);
  Authorization := ["Bearer " +:+ TrimRightByte (base64url_encode (repeat 7%Z 32)) "="%char] |}.

Example granted_now : Code (run Listed.server later (Handler (rec_SlugPolicy rc) call)).2 = 200%Z.
Proof. vm_compute. reflexivity. Qed.

End KeyExample.

Lemma new_key_granted_witness :
  exists key sec, Listed.find KeyExample.later KSecret (key_of "tenant-a" "req-token") = Some sec /\ key_in sec = key /\
    forall r, binding_of r = Some {| ib_namespace := "tenant-a"; ib_name := "old"; ib_uid := "old-uid"; ib_slug := "Existing_Slug" |} ->
      token_of r = Some key -> Code (run Listed.server KeyExample.later (Handler (rec_SlugPolicy ProgressExample.rc) r)).2 = 200%Z.
Proof.
  destruct (new_key_granted ProgressExample.rc ProgressExample.inst ProgressExample.slug KeyExample.tr 2 KeyExample.start
              KeyExample.later KeyExample.later KeyExample.random KeyExample.is_new KeyExample.two_reconciles KeyExample.nothing_else)
    as [_ Hk].
  destruct (Hk (le_n 2)) as (key & sec & H1 & H2 & _ & H3 & _). exists key, sec. exact (conj H1 (conj H2 H3)).
Defined.
