(* ===== verification/Revocation.v ===== *)
(** * From a deleted token request to a refused call

    As soon as a request is under deletion, the forwardAuth server refuses the calls made
    with its key; one reconcile deletes the Secrets it controls and lets it go. *)

From S2P Require Import Prelude GoStd GoNet GoError Kube KubeRef Api Io Names SlugPolicy Model Auth TokenRequest TokenRequestFacts TokenRequestSafety TokenRequestFlow SlugRoute Workload WorkloadFacts Routing Cluster ClusterRef RoutingSafety HostedSafety ByocTransport ByocTLS Byoc Instance ByocRef EndToEnd HostedSteady HostedProgress TokenProgress.

Section Revocation.
  Context {HK : KubeLib} {HL : KubeLaws}.
  Context {S : Type} {E : env S} {find : S -> forall K : kind, ObjectKey -> option (obj K)} {HS : ApiServer E find}.
  Variable policy : option Policy.
  Variable tr : APITokenRequest.

Local Abbreviation req := (ObjectKeyFromObject (tr_Meta tr)).

(** ** Refused calls *)

(** Nobody can use the key: only Secrets of the request hold it, and the request is gone,
    under deletion, or another one of the same name. *)
Record unusable (s : S) (key : string) : Prop := {
  un_secrets : forall k sec, find s KSecret k = Some sec -> key_in sec = key -> ownsTokenSecret tr sec = true;
  un_request : forall t, find s KTokenRequest req = Some t -> UID (tr_Meta t) = UID (tr_Meta tr) ->
               time_IsZero (DeletionTimestamp (tr_Meta t)) = false;
}.

Lemma unusable_refused s key r : unusable s key -> token_of r = Some key -> Code (run E s (Handler policy r)).2 <> 200%Z.
Proof.
  intros [U1 U2] Ht Hc. destruct (handler_run (find := find) E policy s r) as [_ Hr]. rewrite Hr in Hc.
  apply Handler_granted in Hc as (b & token & i & l & sec & owner & t & _ & Ht' & _ & _ & Hl & Hin & Bs & Hg & Br).
  rewrite Ht in Ht'. injection Ht' as <-.
  destruct (list_found s Live KSecret (Some (Namespace (inst_Meta i))) [(slugKey, ib_slug b)] eq_refl) as (l' & Hl' & Hin').
  unfold secrets_event in Hl. rewrite Hl' in Hl. injection Hl as ->. apply Hin' in Hin as [Hf _].
  specialize (U1 _ _ Hf (bs_token _ _ _ Bs)). apply ownsTokenSecret_spec in U1 as (_ & N & _ & o & Ho & _ & _ & Hu & Hn).
  destruct Br as [B1 B2 B3 B4 B5 B6 B7 B8 B9 B10]. assert (owner = o) as -> by congruence.
  unfold request_event in Hg. rewrite Hn, <- (bs_namespace _ _ _ Bs), N in Hg. change (key_of _ _) with req in Hg.
  destruct (find s KTokenRequest req) as [t'|] eqn:Hft.
  - rewrite (get_found s Live KTokenRequest _ _ eq_refl Hft) in Hg. injection Hg as ->.
    rewrite (U2 t eq_refl) in B6; [done | congruence].
  - destruct (get_missing s Live KTokenRequest _ eq_refl Hft) as (err & He & _). congruence.
Qed.

(** ** Cleanup *)

(** The request is under deletion; its Secrets are labelled as the controller makes them. *)
Record deleting (s : S) : Prop := {
  dl_found : find s KTokenRequest req = Some tr;
  dl_deleted : time_IsZero (DeletionTimestamp (tr_Meta tr)) = false;
  dl_finalizer : ContainsFinalizer (Finalizers (tr_Meta tr)) apiTokenRequestFinalizer = true;
  dl_secrets : forall k sec, find s KSecret k = Some sec -> ownsTokenSecret tr sec = true ->
               Labels (sec_Meta sec) !! tokenRequestLabelKey = Some (Name (tr_Meta tr)) /\ Finalizers (sec_Meta sec) = [];
}.

(** Nothing is lost but Secrets of the request. *)
Record cut (s s' : S) : Prop := {
  cut_others : forall K key, K <> KSecret -> find s' K key = find s K key;
  cut_secrets : forall k, find s' KSecret k = find s KSecret k \/
                (find s' KSecret k = None /\ exists sec, find s KSecret k = Some sec /\ ownsTokenSecret tr sec = true);
}.

#[local] Instance cut_preorder : PreOrder cut.
Proof.
  split; [split; auto |]. intros s t u [C1 C2] [D1 D2]. split.
  - intros K key Hne. by rewrite D1, C1.
  - intros k. destruct (D2 k) as [-> | (-> & sec & Hf & Ho)]; [apply C2 |]. right. split; [done |].
    destruct (C2 k) as [Eq | [Eq _]]; [exists sec; by rewrite <- Eq | congruence].
Qed.

Lemma delete_run s l :
  (forall k sec, find s KSecret k = Some sec -> ownsTokenSecret tr sec = true -> Finalizers (sec_Meta sec) = []) ->
  (forall sec, sec ∈ l -> find s KSecret (key_of_obj KSecret sec) = Some sec \/ find s KSecret (key_of_obj KSecret sec) = None) ->
  total E s (deleteOwned tr l)
    (fun s' _ => cut s s' /\ forall sec, sec ∈ l -> ownsTokenSecret tr sec = true -> find s' KSecret (key_of_obj KSecret sec) = None).
Proof.
  revert s. induction l as [|sec l IH]; intros s Hfin Hl; [apply total_ret; split; [done | by intros ? ?%not_elem_of_nil] |].
  assert (Htail : forall x, x ∈ l -> x ∈ sec :: l) by (intros x Hx; by right).
  cbn [deleteOwned]. destruct (ownsTokenSecret tr sec) eqn:Hown; cbn [negb].
  - refine (total_vis _ _ _ _ _ _). set (pre := {| pre_UID := _; pre_ResourceVersion := _ |}).
    pose proof (Hl sec ltac:(by left)) as Hf.
    destruct (delete_done s KSecret sec pre) as [Hg Ho].
    { intros old Hold. rewrite Hold in Hf. destruct Hf as [[= ->] | Hf]; [| done]. split; [by split | by eapply Hfin]. }
    set (s1 := (E (EDelete Cached KSecret sec pre) s).1) in *.
    assert (Hcut : cut s s1).
    { split; [intros K key Hne; apply Ho; congruence |]. intros k. destruct (decide (k = key_of_obj KSecret sec)) as [-> | Hne].
      - destruct Hf as [Hf | Hf]; [right | left; congruence]. split; [exact Hg | by exists sec].
      - left. apply Ho. congruence. }
    assert (Hsome : forall k x, find s1 KSecret k = Some x -> find s KSecret k = Some x).
    { intros k x Hx. destruct (cut_secrets _ _ Hcut k) as [Eq | [Eq _]]; congruence. }
    eapply total_mono; [apply IH |].
    + intros k x Hx. eapply Hfin, Hsome, Hx.
    + intros x Hx. destruct (cut_secrets _ _ Hcut (key_of_obj KSecret x)) as [-> | [-> _]]; [by apply Hl, Htail | by right].
    + intros s' _ [Hc Hd]. split; [by transitivity s1 |]. intros x [-> | Hx]%elem_of_cons Hx'; [| by apply Hd].
      destruct (cut_secrets _ _ Hc (key_of_obj KSecret sec)) as [-> | [-> _]]; done.
  - eapply total_mono; [apply IH; [done | intros x Hx; by apply Hl, Htail] |]. intros s' _ [Hc Hd]. split; [done |].
    intros x [-> | Hx]%elem_of_cons Hx'; [congruence | by apply Hd].
Qed.

(** The Secrets go, and then the request. *)
Lemma cleanup_run s : deleting s ->
  total E s (finalizeTokenRequest tr)
    (fun s' r => r = (no_result, None) /\
       (forall K key, K <> KSecret -> (K, key) <> (KTokenRequest, req) -> find s' K key = find s K key) /\
       (forall k sec, find s' KSecret k = Some sec <-> find s KSecret k = Some sec /\ ownsTokenSecret tr sec = false) /\
       (forall t, find s' KTokenRequest req = Some t -> DeletionTimestamp (tr_Meta t) = DeletionTimestamp (tr_Meta tr)) /\
       (RemoveFinalizer (Finalizers (tr_Meta tr)) apiTokenRequestFinalizer = [] -> find s' KTokenRequest req = None)).
Proof.
  intros [D1 D2 D3 D4]. unfold finalizeTokenRequest. rewrite D3. cbn [negb].
  destruct (list_found s Cached KSecret (Some (Namespace (tr_Meta tr))) [(tokenRequestLabelKey, Name (tr_Meta tr))] eq_refl)
    as (l & Hl & Hin).
  refine (total_read s (EList Cached KSecret _ _) _ _ _ _ Hl _); [done |]. cbv beta iota. apply total_bind.
  eapply total_mono; [apply delete_run; [intros k sec Hf Ho; by eapply D4 | intros sec Hx; left; by apply Hin] |].
  intros s1 _ [Hc Hd].
  assert (Hs1 : forall k sec, find s1 KSecret k = Some sec <-> find s KSecret k = Some sec /\ ownsTokenSecret tr sec = false).
  { intros k sec. split.
    - intros Hf. assert (Hf0 : find s KSecret k = Some sec) by (destruct (cut_secrets _ _ Hc k) as [Eq | [Eq _]]; congruence).
      split; [done |]. destruct (ownsTokenSecret tr sec) eqn:Ho; [| done].
      assert (Hk : key_of_obj KSecret sec = k) by by apply (find_key s).
      rewrite <- Hk, Hd in Hf; [done | | done]. apply Hin. rewrite Hk. split; [done |].
      destruct (D4 k sec Hf0 Ho) as [Hlab _]. apply ownsTokenSecret_spec in Ho as (_ & N & _).
      unfold listed. cbn. by rewrite !bool_decide_true.
    - intros [Hf Ho]. destruct (cut_secrets _ _ Hc k) as [-> | (_ & x & Hx & Hx')]; [done | congruence]. }
  assert (Hreq : find s1 KTokenRequest req = Some tr) by (by rewrite (cut_others _ _ Hc)).
  apply total_bind. cbn [dropFinalizer]. cbv zeta. set (o := tr <| tr_Meta -> Finalizers ::= _ |>). apply total_bind.
  assert (Hne : Finalizers (tr_Meta tr) <> []) by (intros Hn; rewrite Hn, ContainsFinalizer_nil in D3; done).
  destruct (decide (RemoveFinalizer (Finalizers (tr_Meta tr)) apiTokenRequestFinalizer = [])) as [Hr | Hr].
  - refine (total_released s1 KTokenRequest o tr _ Hreq eq_refl eq_refl D2 Hr Hne _). intros o' s' [Hg Ho].
    apply total_ret, total_ret. change (key_of_obj KTokenRequest o) with req in Hg, Ho. split_and!; [done | | | congruence | done].
    + intros K key Hk Hk'. rewrite Ho by done. by apply (cut_others _ _ Hc).
    + intros k sec. rewrite Ho by congruence. apply Hs1.
  - refine (total_updated s1 KTokenRequest o tr _ Hreq eq_refl eq_refl (or_intror (or_intror Hr)) _). intros o' s' (rv & ls & _ & ->) Hfo Ho.
    apply total_ret, total_ret. change (key_of_obj KTokenRequest o) with req in Hfo, Ho. split_and!; [done | | | | done].
    + intros K key Hk Hk'. rewrite Ho by done. by apply (cut_others _ _ Hc).
    + intros k sec. rewrite Ho by congruence. apply Hs1.
    + intros t Ht. rewrite Hfo in Ht. by injection Ht as <-.
Qed.

(** C10: a deleted request takes its key with it.  On any API server that stores what it
    accepts, take a request under deletion whose Secrets alone hold the key.  The
    forwardAuth server refuses every call with the key at once.  The next reconcile
    succeeds: of all Secrets exactly those the request controls are deleted, the request
    itself goes unless others hold it, nothing else changes, and the key stays refused,
    also for a new request of the same name, while no foreign Secret takes it over. *)
Theorem key_revoked (s : S) (key : string)
  (Hd : deleting s) (Hk : forall k sec, find s KSecret k = Some sec -> key_in sec = key -> ownsTokenSecret tr sec = true) :
  (forall r, token_of r = Some key -> Code (run E s (Handler policy r)).2 <> 200%Z) /\
  (run E s (TokenRequest.Reconcile policy req)).2 = (no_result, None) /\
  let s' := (run E s (TokenRequest.Reconcile policy req)).1 in
  (forall K k, K <> KSecret -> (K, k) <> (KTokenRequest, req) -> find s' K k = find s K k) /\
  (forall k sec, find s' KSecret k = Some sec <-> find s KSecret k = Some sec /\ ownsTokenSecret tr sec = false) /\
  (RemoveFinalizer (Finalizers (tr_Meta tr)) apiTokenRequestFinalizer = [] -> find s' KTokenRequest req = None) /\
  unusable s' key /\
  (forall t r, unusable t key -> token_of r = Some key -> Code (run E t (Handler policy r)).2 <> 200%Z).
Proof.
  assert (Hrun : total E s (TokenRequest.Reconcile policy req) (fun s' r => (run E s (finalizeTokenRequest tr)) = (s', r))).
  { unfold TokenRequest.Reconcile.
    refine (total_read s (EGet Cached KTokenRequest req) _ _ _ _ (get_found s Cached KTokenRequest req tr eq_refl (dl_found _ Hd)) _); [done |].
    cbv beta iota. rewrite (dl_deleted _ Hd). apply surjective_pairing. }
  destruct (cleanup_run s Hd) as (C1 & C2 & C3 & C4 & C5). unfold total in Hrun. cbv zeta. rewrite Hrun in C1, C2, C3, C4, C5.
  cbn [fst snd] in *.
  split_and!; [| exact C1 | exact C2 | exact C3 | exact C5 | | intros t r; apply unusable_refused].
  - intros r. apply unusable_refused. split; [exact Hk |]. intros t Ht _. rewrite (dl_found _ Hd) in Ht. injection Ht as <-. apply Hd.
  - split; [intros k sec [Hf _]%C3; by apply (Hk k) |]. intros t Ht _. rewrite (C4 t Ht). apply Hd.
Qed.

End Revocation.

(** ** A deleted instance *)

Section Retirement.
  Context {HK : KubeLib} {HL : KubeLaws} {HX : X509Lib} {HC : ClientLib}.
  Context {S : Type} {E : env S} {find : S -> forall K : kind, ObjectKey -> option (obj K)} {HS : ApiServer E find}.
  Variable rc : LLMInstanceReconciler.
  Variable inst : LLMInstance.

(** The instance is gone, under deletion, or another one of the same name. *)
Definition retired (s : S) : Prop :=
  forall i, find s KInstance (instance_key inst) = Some i -> UID (inst_Meta i) = UID (inst_Meta inst) ->
    time_IsZero (DeletionTimestamp (inst_Meta i)) = false.

(** The request is for this very instance. *)
Definition names (r : Request) : Prop :=
  exists b, binding_of r = Some b /\ key_of (ib_namespace b) (ib_name b) = instance_key inst /\ ib_uid b = UID (inst_Meta inst).

Lemma retired_refused s r : retired s -> names r -> Code (run E s (Handler (rec_SlugPolicy rc) r)).2 <> 200%Z.
Proof.
  intros Hret (b & Hb & Hkey & Hu) Hc. destruct (handler_run (find := find) E (rec_SlugPolicy rc) s r) as [_ Hr]. rewrite Hr in Hc.
  apply Handler_granted in Hc as (b' & token & i & l & sec & owner & t & Hb' & _ & Hi & Bi & _).
  rewrite Hb in Hb'. injection Hb' as <-. unfold instance_event in Hi. rewrite Hkey in Hi.
  destruct (find s KInstance (instance_key inst)) as [i'|] eqn:Hf.
  - rewrite (get_found s Live KInstance _ _ eq_refl Hf) in Hi. injection Hi as ->.
    destruct Bi as [B1 B2 _ _ _ _]. rewrite (Hret i Hf) in B2; congruence.
  - destruct (get_missing s Live KInstance _ eq_refl Hf) as (err & He & _). congruence.
Qed.

(** C11: a deleted hosted instance is let go.  On any API server that stores what it
    accepts, the next reconcile of a hosted instance under deletion succeeds, writes only
    the instance, and the instance goes unless others hold it; every call that names it is
    refused from the deletion on, whatever key it carries, also at a new instance of the
    same name. *)
Theorem instance_retired (s : S)
  (Hreader : in_cluster (routeReader rc) = true)
  (Hf : find s KInstance (instance_key inst) = Some inst)
  (Hd : time_IsZero (DeletionTimestamp (inst_Meta inst)) = false)
  (Hhosted : byoc_bound inst = false)
  (Hfin : ContainsFinalizer (Finalizers (inst_Meta inst)) finalizerName = true) :
  (run E s (Reconcile rc (instance_key inst))).2 = (no_result, None) /\
  let s' := (run E s (Reconcile rc (instance_key inst))).1 in
  only_at find KInstance (instance_key inst) s s' /\
  (RemoveFinalizer (Finalizers (inst_Meta inst)) finalizerName = [] -> find s' KInstance (instance_key inst) = None) /\
  retired s /\ retired s' /\
  (forall t r, retired t -> names r -> Code (run E t (Handler (rec_SlugPolicy rc) r)).2 <> 200%Z).
Proof.
  enough (Ht : total E s (Reconcile rc (instance_key inst)) (fun s' r => r = (no_result, None) /\
    only_at find KInstance (instance_key inst) s s' /\
    (RemoveFinalizer (Finalizers (inst_Meta inst)) finalizerName = [] -> find s' KInstance (instance_key inst) = None) /\ retired s')).
  { destruct Ht as (T1 & T2 & T3 & T4). cbv zeta. split_and!; [exact T1 | exact T2 | exact T3 | | exact T4 | intros t r; apply retired_refused].
    intros i Hi _. rewrite Hf in Hi. by injection Hi as <-. }
  unfold Reconcile. apply total_bind. unfold getInstance.
  refine (total_read s (EGet (routeReader rc) KInstance _) _ _ _ _ (get_found s _ KInstance _ inst Hreader Hf) _); [done |].
  apply total_ret. cbv beta iota. rewrite Hd. cbn [negb]. apply total_bind.
  unfold finalizeLLMInstance. rewrite Hfin, Hhosted. cbn [releaseInstance]. cbv zeta.
  set (o := inst <| inst_Meta -> Finalizers ::= _ |>). apply total_bind.
  assert (Hne : Finalizers (inst_Meta inst) <> []) by (intros Hn; rewrite Hn, ContainsFinalizer_nil in Hfin; done).
  destruct (decide (RemoveFinalizer (Finalizers (inst_Meta inst)) finalizerName = [])) as [Hr | Hr].
  - refine (total_released s KInstance o inst _ Hf eq_refl eq_refl Hd Hr Hne _). intros o' s' [Hg Ho].
    apply total_ret, total_ret. change (key_of_obj KInstance o) with (instance_key inst) in Hg, Ho.
    split_and!; [done | done | done | intros i Hi; congruence].
  - refine (total_updated s KInstance o inst _ Hf eq_refl eq_refl (or_intror (or_intror Hr)) _). intros o' s' (rv & ls & _ & ->) Hfo Ho.
    apply total_ret, total_ret. change (key_of_obj KInstance o) with (instance_key inst) in Hfo, Ho.
    split_and!; [done | done | done |]. intros i Hi _. rewrite Hfo in Hi. by injection Hi as <-.
Qed.

End Retirement.

(** ** A deleted request with its Secret *)

Module RevokedExample.

Definition tr : APITokenRequest := TokenExample.tr <| tr_Meta -> DeletionTimestamp := Some 63928785700000000000%Z |>.

Definition sec : Secret := TokenExample.sec.

Definition start : Listed.store := [existT KInstance TokenExample.inst; existT KTokenRequest tr; existT KSecret sec].

Lemma only_secret k x : Listed.find start KSecret k = Some x -> x = sec.
Proof. intros Hf%Listed.find_listed. change (x ∈ [sec]) in Hf. by apply list_elem_of_singleton in Hf. Qed.

Lemma is_deleting : deleting (find := Listed.find) tr start.
Proof. split; [vm_compute; reflexivity .. |]. intros k x ->%only_secret _. split; vm_compute; reflexivity. Qed.

Lemma holds_key k x : Listed.find start KSecret k = Some x -> key_in x = "k" -> ownsTokenSecret tr x = true.
Proof. intros ->%only_secret _. vm_compute. reflexivity. Qed.

Definition finished : Listed.store := (run Listed.server start (TokenRequest.Reconcile (Some PolicyExample.policy) (key_of "tenant-a" "req"))).1.

Example request_gone : Listed.find finished KTokenRequest (key_of "tenant-a" "req") = None.
Proof. vm_compute. reflexivity. Qed.

End RevokedExample.

Lemma key_revoked_witness :
  (forall r, token_of r = Some "k" -> Code (run Listed.server RevokedExample.start (Handler (Some PolicyExample.policy) r)).2 <> 200%Z) /\
  (forall r, token_of r = Some "k" -> Code (run Listed.server RevokedExample.finished (Handler (Some PolicyExample.policy) r)).2 <> 200%Z).
Proof.
  destruct (key_revoked (Some PolicyExample.policy) RevokedExample.tr RevokedExample.start "k"
              RevokedExample.is_deleting RevokedExample.holds_key) as (H1 & _ & _ & _ & _ & H2 & H3).
  split; [exact H1 | intros r; exact (H3 _ r H2)].
Defined.

(** ** A deleted instance, with its request and Secret still there *)

Module RetiredExample.

Definition inst : LLMInstance := TokenExample.inst
  <| inst_Meta -> DeletionTimestamp := Some 63928785700000000000%Z |> <| inst_Meta -> Finalizers := [finalizerName] |>.

Definition start : Listed.store := [existT KInstance inst; existT KTokenRequest TokenExample.tr; existT KSecret TokenExample.sec].

Definition finished : Listed.store := (run Listed.server start (Reconcile OperatorExample.rc (instance_key inst))).1.

Lemma named : names inst OperatorExample.request.
Proof. eexists. split_and!; vm_compute; reflexivity. Qed.

Lemma is_held : ContainsFinalizer (Finalizers (inst_Meta inst)) finalizerName = true.
Proof. vm_compute. reflexivity. Qed.

Lemma held_once : RemoveFinalizer (Finalizers (inst_Meta inst)) finalizerName = [].
Proof. vm_compute. reflexivity. Qed.

End RetiredExample.

Lemma instance_retired_witness :
  (run Listed.server RetiredExample.start (Reconcile OperatorExample.rc (instance_key RetiredExample.inst))).2 = (no_result, None) /\
  Listed.find RetiredExample.finished KInstance (instance_key RetiredExample.inst) = None /\
  Code (run Listed.server RetiredExample.start (Handler (rec_SlugPolicy OperatorExample.rc) OperatorExample.request)).2 <> 200%Z.
Proof.
  destruct (instance_retired (find := Listed.find) OperatorExample.rc RetiredExample.inst RetiredExample.start
              eq_refl eq_refl eq_refl eq_refl RetiredExample.is_held) as (H1 & _ & H2 & H3 & _ & H4).
  exact (conj H1 (conj (H2 RetiredExample.held_once) (H4 _ _ H3 RetiredExample.named))).
Defined.
