(* ===== verification/Watches.v ===== *)
(** * Watches: which changes bring a reconcile back (SetupWithManager)

    The watches both controllers register, that they cover the instance, the objects it
    owns and every Secret a bring-your-own reconcile reads from the cache, and that the
    kinds they do not cover are looked at again by the requeue of every such reconcile. *)

From Stdlib Require Import Ascii.
From S2P Require Import Prelude GoStd GoNet GoError Kube KubeRef Api Io Names SlugPolicy Model TokenRequest TokenRequestFlow SlugRoute Workload Routing ByocTransport ByocTLS Byoc Assured Instance ByocNetFacts ByocRef.


(** ** The registered watches *)

(** [For], [Owns] and [Watches] of a controller builder. *)
Inductive watch :=
| For (K : kind)
| Owns (K : kind)
| Watches (K : kind) (mapped : obj K -> io (list ObjectKey)).

Section Watches.
  Context `{KubeLib}.

Definition LLMInstance_watches (rc : LLMInstanceReconciler) : list watch :=
  [For KInstance; Owns KDeployment; Owns KService; Owns KIngress; Watches KSecret (findInstancesForSecret rc)].

Definition APITokenRequest_watches : list watch :=
  [For KTokenRequest; Owns KSecret; Watches KInstance findTokenRequestsForInstance].

(** What the manager enqueues for a changed object; which requests the owner references
    of an object give is the library's. *)
Variable owner_requests : ObjectMeta -> list ObjectKey.

Definition requests (w : watch) (K : kind) (o : obj K) : io (list ObjectKey) :=
  match w with
  | For K' => mret (if decide (K' = K) then [ObjectKeyFromObject (meta_of K o)] else [])
  | Owns K' => mret (if decide (K' = K) then owner_requests (meta_of K o) else [])
  | Watches K' mapped =>
      match decide (K = K') with
      | left e => mapped (eq_rect K obj o K' e)
      | right _ => mret []
      end
  end.

Fixpoint enqueued (ws : list watch) (K : kind) (o : obj K) : io (list ObjectKey) :=
  match ws with
  | [] => mret []
  | w :: ws' =>
      let! first := requests w K o in
      let! rest := enqueued ws' K o in
      mret (first ++ rest)
  end.

Lemma enqueued_by (O : oracle) (ws : list watch) (w : watch) (K : kind) (o : obj K) (key : ObjectKey) :
  w ∈ ws -> key ∈ run_oracle O (requests w K o) -> key ∈ run_oracle O (enqueued ws K o).
Proof.
  induction ws as [|w' ws IH]; [by intros ?%not_elem_of_nil |]. intros Hw Hk. cbn [enqueued].
  rewrite !run_oracle_bind. cbn [run_oracle mret io_ret]. apply elem_of_app.
  apply elem_of_cons in Hw as [<- | Hw]; [by left | right; auto].
Qed.

End Watches.

(** ** The Secrets a bring-your-own reconcile reads *)

Section Reads.
  Context `{KubeLib} `{X509Lib} `{ClientLib}.
  Variable rc : LLMInstanceReconciler.
  Variable inst : LLMInstance.

Local Abbreviation ns := (Namespace (inst_Meta inst)).

(** The kubeconfig, the copy of the credentials, or a Secret of the TLS namespace. *)
Definition known_secret (key : ObjectKey) : Prop :=
  key = key_of ns (kubeconfig_secret inst) \/ (exists slug, key = credentials_key inst slug) \/
  key_Namespace key = tls_Namespace (BYOCTLS rc).

(** The kinds no watch is registered for. *)
Definition unwatched (K : kind) : bool :=
  match K with KTokenRequest | KCertificate | KDNSEntry => true | _ => false end.

(** What is read of the operator's own cluster: the cached Secrets above, those listed by
    the label of the instance, and objects of the unwatched kinds. *)
Definition known_read (e : event) : Prop :=
  match e with
  | EGet (Remote _) _ _ | EList (Remote _) _ _ _ => True
  | EGet c KSecret key => c = Cached /\ known_secret key
  | EGet c K _ => c = Cached /\ unwatched K = true
  | EList c K scope labels =>
      c = Cached /\ K = KSecret /\ scope = Some ns /\ labels = [(instanceLabelKey, Name (inst_Meta inst))]
  | _ => True
  end.

(** The same instance with the same spec, whatever its status. *)
Definition same_instance (i : LLMInstance) : Prop :=
  Namespace (inst_Meta i) = ns /\ Name (inst_Meta i) = Name (inst_Meta inst) /\ Spec i = Spec inst.

(** A status update is answered with the instance as it is specified: a change of its
    spec is an event of its own. *)
Definition object_kept (K : kind) : obj K -> Prop :=
  match K with KInstance => same_instance | _ => fun _ => True end.

Definition spec_kept (e : event) : answer e -> Prop :=
  match e with
  | EUpdateStatus _ K _ => fun r => match r with Ok o => object_kept K o | Err _ => True end
  | _ => fun _ => True
  end.

Local Abbreviation watched m := (assured spec_kept known_read m (fun _ => True)).
Local Abbreviation kept := (keeps same_instance).

Lemma key_list_watched data i slug : same_instance i -> watched (desiredAPIKeyFile (Remote data) i slug).
Proof.
  intros (En & Em & _). unfold desiredAPIKeyFile, generateToken. assured_step. rewrite En, Em. split; [done |].
  intros [secrets|e] _; cbn [assured]; [| done]. assured_step.
  apply assured_mono with (fun _ => True).
  { induction secrets as [|s secrets IH]; [done |]. cbn [collect_keys]. destruct (token_owner s); [| exact IH].
    assured_step. split; [done |]. intros [r|e] _; cbn [assured]; [| by destruct (IsNotFound e)].
    destruct (_ && _); [| exact IH]. assured_step. eapply assured_mono; [exact IH | by intros []]. }
  intros [keys|e] _; [| done]. repeat assured_step; unfold or_fail; repeat assured_step; done.
Qed.

Lemma certificate_watched i targetID : same_instance i -> watched (reconcileBYOCManagedCertificate i (BYOCTLS rc) targetID).
Proof.
  intros Hi. unfold reconcileBYOCManagedCertificate, or_fail, of_res, get_or_create_certificate, refuse_existing, guard_output.
  repeat assured_step; try done; by split; [| right; right].
Qed.

Lemma tls_watched data i targetID : same_instance i ->
  watched (reconcileBYOCTLSSecret (Remote data) i (BYOCTLS rc) targetID).
Proof.
  intros Hi. unfold reconcileBYOCTLSSecret, issued_material, serving_material, writeBYOCTLSSecret, or_fail, of_res.
  repeat assured_step; try done; by split; [| right; right].
Qed.

Lemma dns_watched i address targetID : watched (reconcileBYOCDNS i (BYOCTLS rc) address targetID).
Proof. unfold reconcileBYOCDNS, or_fail, of_res. repeat assured_step; done. Qed.

Lemma remote_watched data i slug :
  watched (reconcileBYOCService (Remote data) i slug) /\
  (forall hostname, watched (reconcileBYOCProxyConfig (Remote data) i slug hostname)) /\
  (forall file bootstrap, watched (reconcileBYOCKeySecret (Remote data) i slug file bootstrap)) /\
  (forall model keys tlsName revision, watched (reconcileBYOCDeployment (Remote data) i slug model keys tlsName revision)).
Proof.
  split_and!; intros; unfold reconcileBYOCService, reconcileBYOCProxyConfig, reconcileBYOCKeySecret, reconcileBYOCDeployment, or_fail;
    cbv zeta; repeat assured_step; done.
Qed.

(** Go through a part of the workload that is watched; a failure ends the walk. *)
Ltac next_part lem := assured_step; eapply assured_mono; [by apply lem | intros [] _; [| done]].

Lemma workload_watched data i slug model targetID tlsName hostname : same_instance i ->
  watched (reconcileBYOCWorkload rc (Remote data) i slug model targetID tlsName hostname).
Proof.
  intros Hi. destruct (remote_watched data i slug) as (W1 & W2 & W3 & W4). unfold reconcileBYOCWorkload.
  next_part W1. next_part certificate_watched. assured_step. split; [done |]. intros [svc|e] _; cbn [assured]; [| done].
  cbv zeta. case_bool_decide; [done |]. next_part dns_watched. next_part tls_watched. next_part W2. next_part key_list_watched.
  assured_step. next_part W3. next_part W4. done.
Qed.

Lemma readiness_watched data slug hostname revision : watched (evaluateBYOCReadiness (Remote data) slug hostname revision).
Proof. unfold evaluateBYOCReadiness, runBYOCHealthCheck. cbv zeta. repeat assured_step; done. Qed.

Lemma client_watched i : same_instance i ->
  assured spec_kept known_read (byocClient i)
    (fun r => match r with Ok (inl (remote, _)) => exists data, remote = Remote data | _ => True end).
Proof.
  intros (En & Em & Es). unfold byocClient, byocKubeconfig. cbv zeta. assured_step. assured_step. split.
  { split; [done |]. left. unfold kubeconfig_secret. by rewrite En, Es. }
  intros [sec|err] _; cbn [assured]; [| by destruct (IsNotFound err)]. case_bool_decide; cbn [negb]; [done |]. cbn [assured fret].
  destruct (remoteClientForKubeconfig _) eqn:Ec; [| done]. apply remote_client_built in Ec as [-> _]. by eexists.
Qed.

Lemma credentials_watched i slug data : same_instance i -> watched (ensureCachedCredentials i slug data).
Proof.
  intros (En & _ & _). unfold ensureCachedCredentials. assured_step. split.
  { split; [done |]. right; left. exists slug. unfold credentials_key. by rewrite En. }
  intros got _. cbn [assured]. repeat assured_step; done.
Qed.

Lemma store_kept i status phase endpoint reason message :
  same_instance i -> assured spec_kept known_read (store_status status phase endpoint reason message i) kept.
Proof.
  intros Hi. unfold store_status. assured_step. split; [done |]. intros now _. cbn [assured]. assured_step.
  split; [done |]. intros [o|e] Ho; [exact Ho | exact Hi].
Qed.

Lemma provisioning_kept i endpoint reason message :
  same_instance i -> assured spec_kept known_read (provisioning endpoint reason message i) kept.
Proof. intros Hi. unfold provisioning. by apply store_kept. Qed.

Lemma serve_kept i data slug model targetID tlsName hostname : same_instance i ->
  assured spec_kept known_read (serve_target rc (Remote data) slug model targetID tlsName hostname i) kept.
Proof.
  intros Hi. unfold serve_target. eapply assured_or_return_lift with (Q := fun _ => True); [done | |].
  { unfold ensureBYOCNamespace. repeat assured_step; done. }
  intros [] _. apply assured_or_return with (fun i' r => r = Ok i'); [done |]. intros i1 ? Hi1 [= <-].
  apply assured_or_return with (fun _ _ => True); [apply assured_attempt; [done | by apply workload_watched] |].
  intros i2 [revision|err] Hi2 _.
  - eapply assured_or_return_lift; [done | apply readiness_watched |]. intros [[[ready endpoint] reason] message] _.
    destruct ready; cbn [negb]; [| by apply assured_return_with, provisioning_kept].
    apply assured_or_return with (fun _ _ => True); [| done].
    eapply assured_mono; [unfold publish; by apply store_kept | by intros []].
  - destruct (errors_Is err ErrBYOCTLSNotReady); [| done]. by apply assured_return_with, provisioning_kept.
Qed.

Lemma body_kept i slug model : same_instance i ->
  assured spec_kept known_read (reconcileBYOC_body rc slug model i) kept.
Proof.
  intros Hi. unfold reconcileBYOC_body. apply assured_or_return with (fun i' r => i' = i /\ r = Ok i); [done |].
  intros i' a _ [-> [= ->]]. destruct (tls_migrated rc i); [done |]. destruct (negb _ && negb _); [done |].
  eapply assured_or_return_lift; [done | by apply client_watched |].
  intros [[remote data]|[reason message]] Hc; [| by apply assured_return_with, provisioning_kept]. destruct Hc as [data' ->].
  eapply assured_or_return_lift; [done | apply assured_of_res |]. intros apiID _.
  eapply assured_or_return_lift with (Q := fun _ => True); [done | |].
  { unfold byocClusterIdentity. repeat assured_step; done. }
  intros targetID _. eapply assured_or_return_lift; [done | apply assured_of_res |]. intros [tlsName hostname] _.
  destruct (negb _ && negb _); [done |].
  eapply assured_or_return_lift; [done | by apply credentials_watched |].
  intros [] _. apply assured_or_return with (fun _ _ => True); [| intros i1 [] Hi1 _; by apply serve_kept].
  destruct (target_recorded i); [done |].
  apply assured_mono with kept; [| intros [i1 r1] Hx; split; [exact Hx | exact I]].
  apply assured_sbind with (fun _ _ => True); [done |]. intros i1 [] Hi1 _. by apply provisioning_kept.
Qed.

Lemma byoc_watched slug model : watched (reconcileBYOC rc slug model inst).
Proof.
  unfold reconcileBYOC. assured_step. eapply assured_mono; [by apply body_kept |].
  intros [i' [result [e|]]] Hi'; [| done]. assured_step. eapply assured_mono; [by apply provisioning_kept |]. by intros [i2 []].
Qed.

(** The kubeconfig is the first thing such a reconcile reads. *)
Lemma kubeconfig_read (O : oracle) slug model :
  tls_migrated rc inst = false -> ActiveBYOCSlug (Status inst) = slug ->
  EGet Cached KSecret (key_of ns (kubeconfig_secret inst)) ∈ calls O (reconcileBYOC rc slug model inst).
Proof.
  intros Hm Hs. unfold reconcileBYOC. rewrite calls_bind. rewrite elem_of_app. left.
  unfold reconcileBYOC_body, or_return_err at 1, sget. cbn [mbind io_bind mret io_ret]. rewrite Hm, Hs.
  rewrite (bool_decide_true (slug = slug)), andb_false_r by done. unfold or_return_err at 1, lift, byocClient, byocKubeconfig.
  cbv zeta. rewrite calls_bind. rewrite elem_of_app. left. left.
Qed.

(** Every read of the operator's own cluster is of a watched Secret or of an unwatched kind. *)
Lemma own_read (e : event) : known_read e ->
  match e with
  | EGet c K _ => (exists data, c = Remote data) \/ c = Cached /\ (K = KSecret \/ unwatched K = true)
  | EList c K _ _ => (exists data, c = Remote data) \/ c = Cached /\ K = KSecret
  | _ => True
  end.
Proof. destruct e as [[] []| [] [] | | | | | | | | |]; cbn; naive_solver. Qed.

(** ** What is not watched is looked at again *)

(** The handler fails, or asks to be called again in at most half a minute. *)
Definition returns_soon (r : Result * option error) : Prop :=
  r.2 <> None \/ (0 < RequeueAfter r.1 <= 30)%Z.

Definition soon (m : sresult) : Prop := forall (O : oracle) i, returns_soon (run_oracle O (m i)).2.

Lemma soon_or_return {A} (m : sio A) (k : A -> sresult) : (forall a, soon (k a)) -> soon (or_return_err m k).
Proof.
  intros Hk O i. unfold or_return_err. rewrite run_oracle_bind. destruct (run_oracle O (m i)) as [i' [a|e]]; [apply Hk |].
  by left.
Qed.

Lemma soon_return_with (result : Result) (m : sio unit) : (0 < RequeueAfter result <= 30)%Z -> soon (return_with result m).
Proof.
  intros Hr O i. unfold return_with. rewrite run_oracle_bind. destruct (run_oracle O (m i)) as [i' x]. by right.
Qed.

Lemma soon_failed (result : Result) (e : error) : soon (fun i => mret (i, (result, Some e))).
Proof. intros O i. by left. Qed.

Lemma serve_soon remote slug model targetID tlsName hostname :
  soon (serve_target rc remote slug model targetID tlsName hostname).
Proof.
  unfold serve_target. apply soon_or_return. intros []. apply soon_or_return. intros i. apply soon_or_return.
  intros [revision | err].
  - apply soon_or_return. intros [[[ready endpoint] reason] message]. destruct ready; cbn [negb].
    + apply soon_or_return. intros [] O i'. by right.
    + by apply soon_return_with.
  - case_match; [by apply soon_return_with | apply soon_failed].
Qed.

Lemma body_soon slug model : soon (reconcileBYOC_body rc slug model).
Proof.
  unfold reconcileBYOC_body. apply soon_or_return. intros i. cbv zeta. case_match; [apply soon_failed |].
  case_match; [apply soon_failed |]. apply soon_or_return. intros [[remote data] | [reason message]];
    [| by apply soon_return_with].
  apply soon_or_return. intros apiID. apply soon_or_return. intros targetID.
  apply soon_or_return. intros [tlsName hostname]. case_match; [apply soon_failed |].
  apply soon_or_return. intros []. apply soon_or_return. intros []. apply serve_soon.
Qed.

Lemma byoc_soon slug model : soon (reconcileBYOC rc slug model).
Proof.
  intros O i. unfold reconcileBYOC. rewrite run_oracle_bind. pose proof (body_soon slug model O i) as Hs.
  destruct (run_oracle O (reconcileBYOC_body rc slug model i)) as [i' [result [e|]]]; [| exact Hs].
  rewrite run_oracle_bind. destruct (run_oracle O (provisioning _ _ _ i')) as [i2 [[]|e']]; [by left |].
  left. intros He%errors_Join_None. by apply Forall_cons in He as [? _].
Qed.

(** ** The watches *)

Variable owner_requests : ObjectMeta -> list ObjectKey.

(** The library maps an object to its controller of the watched kind. *)
Definition maps_to_controller : Prop :=
  forall m o, GetControllerOf (OwnerReferences m) = Some o -> or_Kind o = LLMInstanceKind -> or_APIVersion o = GroupVersion ->
    key_of (Namespace m) (or_Name o) ∈ owner_requests m.

Local Abbreviation wakes O K o := (instance_key inst ∈ run_oracle O (enqueued owner_requests (LLMInstance_watches rc) K o)).

(** The instances are listed when a Secret changed. *)
Definition listed (O : oracle) : Prop :=
  forall scope, scope = None \/ scope = Some ns -> exists l, O (EList Cached KInstance scope []) = Ok l /\ inst ∈ l.

Lemma secret_wakes (O : oracle) (s : Secret) :
  listed O -> IsBYOC inst = true ->
  Namespace (sec_Meta s) = tls_Namespace (BYOCTLS rc) /\ tls_Namespace (BYOCTLS rc) <> "" \/
  Namespace (sec_Meta s) = ns /\ secret_concerns s inst = true ->
  wakes O KSecret s.
Proof.
  intros Hl Hb Hs. apply (enqueued_by owner_requests O _ (Watches KSecret (findInstancesForSecret rc))); [set_solver |].
  change (instance_key inst ∈ run_oracle O (findInstancesForSecret rc s)). unfold findInstancesForSecret. cbv zeta.
  destruct (negb _ && _) eqn:E; rewrite run_oracle_bind; cbn [run_oracle call mret io_ret].
  - destruct (Hl None) as (l & -> & Hin); [by left |]. apply list_elem_of_fmap. exists inst. split; [done |].
    apply list_elem_of_In, List.filter_In. split; [by apply list_elem_of_In | done].
  - destruct Hs as [[E1 E2] | [E1 E2]].
    { rewrite E1, bool_decide_false, bool_decide_true in E by done. done. }
    rewrite E1. destruct (Hl (Some ns)) as (l & -> & Hin); [by right |]. apply list_elem_of_fmap. exists inst. split; [done |].
    apply list_elem_of_In, List.filter_In. split; [by apply list_elem_of_In | done].
Qed.

Lemma owned_wakes (O : oracle) (K : kind) (o : obj K) :
  maps_to_controller -> K ∈ [KDeployment; KService; KIngress] -> ownsLLMResource inst (meta_of K o) = true -> wakes O K o.
Proof.
  intros Hlib HK Ho. apply (enqueued_by owner_requests O _ (Owns K)); [set_solver |]. cbn. rewrite decide_True by done.
  unfold ownsLLMResource in Ho. destruct (GetControllerOf _) as [r|] eqn:Er; [| done]. bool_props.
  replace (instance_key inst) with (key_of (Namespace (meta_of K o)) (or_Name r)); [by apply Hlib |].
  unfold instance_key, ObjectKeyFromObject, key_of. congruence.
Qed.

Lemma known_secret_wakes (O : oracle) (s : Secret) :
  listed O -> IsBYOC inst = true -> tls_Namespace (BYOCTLS rc) <> "" -> known_secret (ObjectKeyFromObject (sec_Meta s)) ->
  (forall slug, ObjectKeyFromObject (sec_Meta s) = credentials_key inst slug ->
     mget (Labels (sec_Meta s)) instanceLabelKey = Name (inst_Meta inst)) ->
  wakes O KSecret s.
Proof.
  intros Hl Hb Hns Hs Hlabel. apply secret_wakes; [done | done |]. destruct Hs as [Hk | [[slug' Hk] | Hk]].
  - right. injection Hk as E1 E2. split; [done |]. unfold secret_concerns.
    rewrite Hb, E2, (bool_decide_true (kubeconfig_secret inst = _)) by done.
    by rewrite orb_true_r.
  - right. pose proof (Hlabel _ Hk) as E. injection Hk as E1 _. split; [done |]. unfold secret_concerns.
    by rewrite E, bool_decide_true.
  - left. by split.
Qed.

Lemma unwatched_kinds (K : kind) : unwatched K = true <-> K ∈ [KTokenRequest; KCertificate; KDNSEntry].
Proof. destruct K; cbn; set_solver. Qed.

(** C22: what brings an instance back.  A change of the instance itself, of a Deployment,
    Service or Ingress it owns, or of a Secret the reconcile read from the cache or would
    have listed enqueues it at once; for the copy of the credentials this rests on the
    label it is created with.  Nothing else of the operator's own cluster is read but
    API token requests, Certificates and DNS entries.  Of these three kinds no change
    enqueues anything: they, like the other cluster, are looked at again only because
    every reconcile fails, and is retried, or asks to be called within half a minute. *)
Theorem watches_complete (O O' : oracle) (slug : string) (model : modelSelection)
  (Hlib : maps_to_controller) (Hl : listed O') (Hb : IsBYOC inst = true) (Hns : tls_Namespace (BYOCTLS rc) <> "")
  (Hkept : forall e, spec_kept e (O e)) :
  wakes O' KInstance inst /\
  (forall K o, K ∈ [KDeployment; KService; KIngress] -> ownsLLMResource inst (meta_of K o) = true -> wakes O' K o) /\
  (forall s, EGet Cached KSecret (ObjectKeyFromObject (sec_Meta s)) ∈ calls O (reconcileBYOC rc slug model inst) ->
     (forall slug', ObjectKeyFromObject (sec_Meta s) = credentials_key inst slug' ->
        mget (Labels (sec_Meta s)) instanceLabelKey = Name (inst_Meta inst)) ->
     wakes O' KSecret s) /\
  (forall scope labels s, EList Cached KSecret scope labels ∈ calls O (reconcileBYOC rc slug model inst) ->
     scope = Some (Namespace (sec_Meta s)) -> Forall (fun kv => mget (Labels (sec_Meta s)) kv.1 = kv.2) labels ->
     wakes O' KSecret s) /\
  (forall c K key, EGet c K key ∈ calls O (reconcileBYOC rc slug model inst) ->
     (exists data, c = Remote data) \/ c = Cached /\ (K = KSecret \/ K ∈ [KTokenRequest; KCertificate; KDNSEntry])) /\
  (forall c K scope labels, EList c K scope labels ∈ calls O (reconcileBYOC rc slug model inst) ->
     (exists data, c = Remote data) \/ c = Cached /\ K = KSecret) /\
  (forall K o, K ∈ [KTokenRequest; KCertificate; KDNSEntry] ->
     run_oracle O' (enqueued owner_requests (LLMInstance_watches rc) K o) = []) /\
  returns_soon (run_oracle O (reconcileBYOC rc slug model inst)).2.
Proof.
  assert (Hc : Forall known_read (calls O (reconcileBYOC rc slug model inst))).
  { by apply (assured_calls (R := spec_kept) O _ (fun _ => True)); [apply byoc_watched |]. }
  rewrite Forall_forall in Hc. split_and!.
  - apply (enqueued_by owner_requests O' _ (For KInstance)); [set_solver |]. cbn. rewrite decide_True by done. set_solver.
  - intros K o HK Ho. by apply owned_wakes.
  - intros s Hs Hlabel. apply Hc in Hs as [_ Hs]. by apply (known_secret_wakes O').
  - intros scope labels s He -> Hlabels. apply Hc in He as (_ & _ & [= E] & ->). apply secret_wakes; [done | done |]. right.
    rewrite Forall_singleton in Hlabels. cbn in Hlabels. split; [done |]. unfold secret_concerns.
    by rewrite Hlabels, bool_decide_true.
  - intros c K key He. apply Hc, own_read in He as [? | [? [? | ?]]]; [by left | right; auto | right].
    split; [done |]. right. by apply unwatched_kinds.
  - intros c K scope labels He. by apply Hc, own_read in He.
  - intros K o HK. apply unwatched_kinds in HK. by destruct K.
  - apply byoc_soon.
Qed.

End Reads.

(** ** Token requests *)

(** The requests an instance's change enqueues: those of its namespace whose instance name,
    trimmed, is its own.  A reconcile looks the name up untrimmed, so it finds the
    instance exactly for those without surrounding spaces. *)
Theorem findTokenRequests_spec `{KubeLib} (O : oracle) (inst : LLMInstance) (l : list APITokenRequest) (key : ObjectKey)
  (Hl : O (EList Cached KTokenRequest (Some (Namespace (inst_Meta inst))) []) = Ok l) :
  key ∈ run_oracle O (findTokenRequestsForInstance inst) <->
  exists tr, tr ∈ l /\ key = ObjectKeyFromObject (tr_Meta tr) /\
    TrimSpace (InstanceName (tr_Spec tr)) = Name (inst_Meta inst).
Proof.
  unfold findTokenRequestsForInstance. rewrite run_oracle_bind. cbn [run_oracle call]. rewrite Hl. cbn [run_oracle mret io_ret].
  rewrite list_elem_of_fmap. setoid_rewrite list_elem_of_filter. naive_solver.
Qed.

(** ** A concrete cluster *)

Module WatchExample.

(** The library's mapping, for the API group of the operator. *)
Definition owner_requests (m : ObjectMeta) : list ObjectKey :=
  match GetControllerOf (OwnerReferences m) with
  | Some o => if bool_decide (or_Kind o = LLMInstanceKind) && bool_decide (or_APIVersion o = GroupVersion)
              then [key_of (Namespace m) (or_Name o)] else []
  | None => []
  end.

Lemma maps_to_controller_ok : maps_to_controller owner_requests.
Proof. intros m o E Hk Hv. unfold owner_requests. rewrite E, !bool_decide_true by done. cbn. by left. Qed.

(** The cluster of [ByocExample], where the instances can be listed. *)
Definition world : oracle := fun e =>
  match e return answer e with
  | EList _ KInstance _ _ => Ok [ByocExample.inst]
  | e => ByocExample.world e
  end.

Lemma world_listed : listed ByocExample.inst world.
Proof. intros scope _. exists [ByocExample.inst]. split; [reflexivity |]. by apply list_elem_of_singleton. Qed.

(** Its status updates answer with what they store; these are of the same instance. *)
Definition answers : oracle := fun e =>
  match e return answer e with
  | EUpdateStatus _ K _ =>
      match K return res (obj K) with KInstance => Ok ByocExample.inst | _ => Err ByocExample.not_found end
  | e => world e
  end.

Lemma answers_kept (e : event) : spec_kept ByocExample.inst e (answers e).
Proof. destruct e as [| | | |c [] o| | | | | |]; done. Qed.

(** The user rotates the kubeconfig. *)
Definition rotated : Secret := ByocExample.kube_secret "kube" [].

Lemma not_credentials (slug : string) :
  ObjectKeyFromObject (sec_Meta rotated) <> credentials_key ByocExample.inst slug.
Proof.
  intros E. apply (f_equal key_Name) in E. change ("kube" = byocCredentialsName slug) in E.
  unfold byocCredentialsName, byocBaseName in E. set (digest := str_take _ _) in E. clearbody digest. discriminate E.
Qed.

End WatchExample.

Lemma watches_complete_witness :
  instance_key ByocExample.inst ∈
    run_oracle WatchExample.world (enqueued WatchExample.owner_requests (LLMInstance_watches ByocExample.rc) KSecret WatchExample.rotated).
Proof.
  destruct (watches_complete ByocExample.rc ByocExample.inst WatchExample.owner_requests WatchExample.answers WatchExample.world
    ByocExample.slug ByocExample.model WatchExample.maps_to_controller_ok WatchExample.world_listed ltac:(reflexivity)
    ltac:(discriminate) WatchExample.answers_kept) as (_ & _ & W & _).
  apply W.
  - apply (kubeconfig_read ByocExample.rc ByocExample.inst WatchExample.answers); vm_compute; reflexivity.
  - intros slug' E. destruct (WatchExample.not_credentials slug' E).
Defined.
